(* ===== verification/_CoqProject ===== *)
-Q . S2P
Prelude.v
Memory.v
State.v
Lib.v
Spinlock.v
Font.v
Console.v
ConsoleProps.v
Pmm.v
PmmInit.v
Heap.v
Vmm.v
Ring.v
Keyboard.v
Apic.v
Cpu.v
Gdt.v
Acpi.v
Queue.v
Sched.v
SchedSpec.v
SchedProps.v
SchedTypes.v
SchedSleep.v
SchedSpawn.v
SchedInit.v
Idt.v
Syscall.v
Asm.v
System.v
Smp.v
Trampoline.v
Alpc.v
Boot.v
ShellTests.v
Shell.v
Main.v
