(* ===== verification/Prelude.v ===== *)
(** Barium: a verification library for the kernel of this repository.

    * The program

    Barium is a small x86-64 kernel.  A UEFI application (src/src/boot/main.c)
    loads it, finds the graphics mode, the ACPI tables and the memory map, and
    jumps into it.  kmain (kernel.c) starts the components in a fixed order: the
    console on the linear framebuffer, the page allocator, the interrupt table,
    the page tables, the ACPI processor list, the heap, message ports, the local
    interrupt controller, the per-processor records, the segment descriptors, the
    system calls, the other processors, the scheduler, the keyboard; it then
    spawns the shell and halts.  From then on the timer interrupt drives the
    scheduler, the keyboard interrupt fills the character buffer, and the shell
    reads lines and runs self-tests.

    * How it is modelled

    The state is one record [kernel] (State.v) with a field per C file: the
    static variables of the file under their C names.  Objects that C code
    reaches by pointer and whose layout does not matter (thread_t, cpu_t,
    alpc_port_t) are records in stores indexed by address; everything whose
    bytes matter (the page bitmap, heap headers, page tables, descriptor tables,
    the framebuffer, firmware tables, messages, saved contexts) is bytes of the
    physical memory of Memory.v, a finite map from addresses to bytes.  Addresses
    are physical: the kernel maps memory onto itself.  NULL is address 0; a
    dereference of NULL or of an address without an object faults.

    Code runs in the monad [M kernel] of this file: it returns a value and a
    state, or hangs (a final halt loop, or a lock that is not released), or
    faults, or runs out of the fuel of one of its loops.  Integers are [Z] with the conversions to 8, 16, 32 and 64 bits
    written where C has them.  Devices are part of [hw_t]: what ports and
    controller registers answer is an arbitrary function of the number of reads
    so far, writes are listed in order.

    Loops over data take their bound from the data (the number of pages, the
    length of a list).  Loops over linked structures take fuel: at most as many
    headers as the heap has room for, at most one more than the number of threads
    or ports; the theorems show that it suffices.  Loops that wait for a device,
    another processor or another thread take fuel as an argument, and the
    theorems say how much is enough.  The walk over the firmware's processor
    table is bounded by the length of the table; that no fuel is enough for some
    tables is a theorem.

    One processor runs at a time: locks are taken and released in the state, and
    code that finds a lock taken hangs.  Spinlock.v has the interleavings of many
    processors on one lock.  What other threads and processors do while code waits
    is a parameter [env], an arbitrary function on states.

    * Files

    Prelude.v (this file): records, the monad, machine integers, automation.
    Memory.v: physical memory, loads and stores, regions that agree.
    State.v: the state of the kernel and of the hardware.
    Lib.v (lib.c): interrupt flag, locks, ports, registers, bytes and strings.
    Spinlock.v (lib.c): spinlocks under interleaving.
    Font.v, Console.v, ConsoleProps.v (lib.c, console.c): text on the screen.
    Pmm.v, PmmInit.v (pmm.c): the page allocator and its set-up.
    Heap.v (heap.c): kmalloc and kfree.
    Vmm.v (vmm.c): page tables, over the interface [PageAllocator].
    Ring.v, Keyboard.v (keyboard.c): circular buffers, the keyboard.
    Apic.v (apic.c), Cpu.v (cpu.c), Gdt.v (gdt.c, entry.asm), Acpi.v (acpi.c).
    Queue.v, Sched.v (sched.c): thread lists and the scheduler's code;
    SchedSpec.v: the scheduler on lists and the refinement to it; SchedProps.v,
    SchedTypes.v, SchedSleep.v, SchedSpawn.v, SchedInit.v: its theorems.
    Idt.v (idt.c), Syscall.v (syscall.c), Smp.v (smp.c).
    Asm.v (interrupt.asm, syscall_entry.asm): registers and instructions, the
    interrupt stubs and the system call entry; Trampoline.v (smp_boot.asm): the
    start-up code of a woken processor.
    System.v: threads, timer and devices together, as a step relation that
    refines a machine with one register set per thread.
    Alpc.v (alpc.c): message ports and shared sections.
    Boot.v (boot/main.c, efi.h): the boot loader over an arbitrary firmware.
    ShellTests.v, Shell.v (shell.c): the self-tests and their threads; the line
    editor, the commands and the shell's loop, over the interface [Resumes].
    Main.v (kernel.c, _start of entry.asm): kmain, and a complete boot evaluated
    on a machine.

    * What is shown

    Memory: pmm_init builds a bitmap that marks exactly what may not be handed
    out; pmm_alloc, pmm_free, kmalloc and kfree hand out disjoint, live, large
    enough regions and give them back (invariants, exhaustive search, round
    trips), with the exact condition under which several pages from the second
    pass of the search run over the end of memory; vmm_map changes one
    translation, with its permissions, and no other; vmm_init maps memory onto
    itself, given three free pages for tables per 2 MiB block it maps and one for
    the root.

    Threads: sched_reschedule refines an algorithm on lists, keeps its invariant,
    loses no thread, picks the highest priority and wakes who is due; spawning,
    sleeping and liveness queries do what they say to the queues; every field of
    a thread record keeps to its C type; sched_init and the start of another
    processor establish the invariant.

    Contexts: an interrupt saves and restores every register, the segments, flags
    and GS bases; a system call comes back with what a C caller relies on.  In any
    interleaving of thread code, sleeping, timer and device interrupts a thread
    that gets the processor back has the registers it had when it lost it
    (simulation, by induction on the steps), and every interrupt returns.  The
    calls of C functions keep the registers of the calling convention and leave
    anything in the others ([scratch], an arbitrary function).  The theorem is
    about a fixed set of threads on one processor, none of which exits; the
    threads' code is arbitrary but writes no other thread's stack.

    Interrupts and processors: the descriptor tables decode as intended, the
    dispatcher sends each vector where it belongs: exceptions are reported with
    their text and do not return to the code that raised them (vectors 3 and 4
    and the page fault of the memory test, which is repaired, apart).  The other
    processors are given their start-up code, stack, entry point and sequence of
    interrupts, come from real mode to their entry point with each part of the
    code decoded in its size, and end with all tables and their controller set
    up.  Locks give mutual exclusion in every interleaving, and under schedules in
    which every processor keeps running they never deadlock; a single processor
    can be overtaken for ever.

    Communication: the keyboard's and the ports' circular buffers are queues;
    ports are found by name; sections are mapped page by page.

    Input and output: printing stays inside the framebuffer; numbers print as
    their decimals; the shell's line buffer never overflows and a line runs the
    command of its name; the boot loader enters the kernel last, with the memory
    map under whose key the firmware was left.

    The whole: Main.v ends with a test run, not a theorem about all machines:
    kmain evaluated on a concrete machine reaches its final halt with everything
    in place, the timer switches to the shell, and the shell's self-tests pass.

    * Not modelled

    The stack frames of C code below the saved contexts, and the return addresses
    the stubs' calls push; the bytes of thread_t and cpu_t outside the descriptor
    tables; accesses of other processors between the reads of the start-up status
    word; the hidden parts of
    segment registers and faults of the start-up code's instructions other than
    segment loads; caches, the TLB (every mapping is
    followed by invlpg) and memory ordering beyond single accesses to a lock;
    function prototypes and include guards of the headers. *)

From stdpp Require Export base tactics gmap list numbers strings.
From Stdlib Require Export ZArith Lia.
From Stdlib Require Ascii.

Global Open Scope Z_scope.

Declare Scope barium_scope.
Delimit Scope barium_scope with barium.
Global Open Scope barium_scope.

(** ** Record update

    [r <| field := v |>] and [r <| field ::= f |>] rebuild a record with one
    field changed.  A record type opts in with a [Settable] instance that
    lists its constructor and projections; the setter of a field is then
    computed by abstracting the projection in that term. *)

Class Settable (R : Type) := rebuild : R -> R.
Class Setter {R E : Type} (field : R -> E) := over : (E -> E) -> R -> R.
#[export] Typeclasses Opaque Settable Setter.
#[export] Hint Mode Settable + : typeclass_instances.
#[export] Hint Mode Setter + + + : typeclass_instances.

Ltac derive_setter :=
  match goal with
  | |- @Setter ?R ?E ?proj =>
      let inst := constr:(_ : Settable R) in
      let rebuilt := eval hnf in inst in
      match eval pattern proj in rebuilt with
      | ?abstracted _ =>
          let setter := eval cbv beta in
            (fun (upd : E -> E) (rcd : R) => abstracted (fun arg => upd (proj arg)) rcd) in
          exact setter
      end
  end.

#[export] Hint Extern 1 (Setter _) => derive_setter : typeclass_instances.

Notation "r <| f ::= g |>" := (over (field:=f) g r)
  (at level 1, f at next level, left associativity,
   format "r  <| f  ::=  g |>") : barium_scope.
Notation "r <| f := v |>" := (over (field:=f) (fun _ => v) r)
  (at level 1, f at next level, left associativity,
   format "r  <| f  :=  v |>") : barium_scope.

(** ** Outcomes of kernel code

    A C function of the kernel runs on a state and either returns, stops
    making progress (a [while(1) hlt] or a spin on a lock nobody will
    release), or does something the machine refuses (an out-of-range array
    index, a NULL dereference, a division by zero).  [NoFuel] is an artefact
    of the model: a loop that was given too few iterations; every theorem
    about a loop shows it is not the result. *)

Inductive outcome (S A : Type) : Type :=
| Ret (a : A) (s : S)
| Hang (s : S)
| Fault
| NoFuel.
Arguments Ret {S A} a s.
Arguments Hang {S A} s.
Arguments Fault {S A}.
Arguments NoFuel {S A}.

Definition M (S A : Type) : Type := S -> outcome S A.

#[export] Instance M_ret S : MRet (M S) := fun A a s => Ret a s.
#[export] Instance M_bind S : MBind (M S) := fun A B f m s =>
  match m s with
  | Ret a s' => f a s'
  | Hang s' => Hang s'
  | Fault => Fault
  | NoFuel => NoFuel
  end.

Definition gets {S A} (f : S -> A) : M S A := fun s => Ret (f s) s.
Definition modify {S} (f : S -> S) : M S unit := fun s => Ret tt (f s).
Definition fault {S A} : M S A := fun _ => Fault.
Definition hang {S A} : M S A := fun s => Hang s.
Definition nofuel {S A} : M S A := fun _ => NoFuel.
Definition when {S} (b : bool) (c : M S unit) : M S unit :=
  if b then c else mret tt.
Definition from_option {S A} (o : option A) : M S A :=
  match o with Some a => mret a | None => fault end.

(** What an outcome carries, when it returned. *)
Definition result {S A} (o : outcome S A) : option A :=
  match o with Ret a _ => Some a | _ => None end.
Definition final {S A} (o : outcome S A) : option S :=
  match o with Ret _ s => Some s | Hang s => Some s | _ => None end.

Lemma bind_ret {S A B} (m : M S A) (f : A -> M S B) s a s' :
  m s = Ret a s' -> (m ≫= f) s = f a s'.
Proof. unfold mbind, M_bind. by intros ->. Qed.

Lemma bind_mret {S A B} (a : A) (f : A -> M S B) s : (mret a ≫= f) s = f a s.
Proof. done. Qed.

Lemma bind_gets {S A B} (g : S -> A) (f : A -> M S B) s :
  (gets g ≫= f) s = f (g s) s.
Proof. done. Qed.

Lemma bind_modify {S B} (g : S -> S) (f : unit -> M S B) s :
  (modify g ≫= f) s = f tt (g s).
Proof. done. Qed.

Lemma bind_inv {S A B} (m : M S A) (f : A -> M S B) s b s' :
  (m ≫= f) s = Ret b s' -> exists a s1, m s = Ret a s1 /\ f a s1 = Ret b s'.
Proof. unfold mbind, M_bind. destruct (m s); naive_solver. Qed.

(** [m] leaves the part [f] of the state alone, whether it returns or hangs. *)
Definition keeps {S A B} (f : S -> B) (m : M S A) : Prop :=
  forall s, match m s with Ret _ s' => f s' = f s | Hang s' => f s' = f s | _ => True end.

Section Keeps.
Context {S B : Type} (f : S -> B).

Lemma keeps_ret {A} (a : A) : keeps f (mret a).
Proof. done. Qed.
Lemma keeps_gets {A} (g : S -> A) : keeps f (gets g).
Proof. done. Qed.
Lemma keeps_modify g : (forall s, f (g s) = f s) -> keeps f (modify g).
Proof. intros H s. apply H. Qed.
Lemma keeps_fault {A} : keeps f (A := A) fault.
Proof. done. Qed.
Lemma keeps_nofuel {A} : keeps f (A := A) nofuel.
Proof. done. Qed.
Lemma keeps_hang {A} : keeps f (A := A) hang.
Proof. done. Qed.
Lemma keeps_bind {A C} (m : M S A) (g : A -> M S C) :
  keeps f m -> (forall a, keeps f (g a)) -> keeps f (m ≫= g).
Proof.
  intros Hm Hg s. specialize (Hm s). unfold mbind, M_bind. destruct (m s) as [a s' | s' | |]; try done.
  specialize (Hg a s'). destruct (g a s'); congruence.
Qed.
Lemma keeps_when b m : keeps f m -> keeps f (when b m).
Proof. by destruct b. Qed.
Lemma keeps_from_option {A} (o : option A) : keeps f (from_option o).
Proof. by destruct o. Qed.
Lemma keeps_result {A} (m : M S A) s a s' : keeps f m -> m s = Ret a s' -> f s' = f s.
Proof. intros H E. specialize (H s). by rewrite E in H. Qed.
End Keeps.

Create HintDb keeps discriminated.
#[export] Hint Resolve keeps_ret keeps_gets keeps_fault keeps_nofuel keeps_hang keeps_bind keeps_when
  keeps_from_option : keeps.
#[export] Hint Extern 2 (keeps _ (modify _)) => apply keeps_modify; intros; reflexivity : keeps.
#[export] Hint Extern 3 (forall _, keeps _ _) => intro : keeps.
#[export] Hint Extern 4 (keeps _ (match ?x with _ => _ end)) => destruct x : keeps.
#[export] Hint Extern 4 (keeps _ (let _ := _ in _)) => cbv zeta : keeps.

(** ** Machine integers

    A w-bit unsigned integer is a [Z] in [0, 2^w); the functions below are
    the conversions C inserts. *)

Definition u8 (x : Z) : Z := x mod 2 ^ 8.
Definition u16 (x : Z) : Z := x mod 2 ^ 16.
Definition u32 (x : Z) : Z := x mod 2 ^ 32.
Definition u64 (x : Z) : Z := x mod 2 ^ 64.

(** A value that fits 64 bits. *)
Definition is_u64 (x : Z) : Prop := 0 <= x < 2 ^ 64.
Definition is_u32 (x : Z) : Prop := 0 <= x < 2 ^ 32.

Lemma u64_small x : 0 <= x < 2 ^ 64 -> u64 x = x.
Proof. apply Z.mod_small. Qed.
Lemma u32_small x : 0 <= x < 2 ^ 32 -> u32 x = x.
Proof. apply Z.mod_small. Qed.
Lemma u16_small x : 0 <= x < 2 ^ 16 -> u16 x = x.
Proof. apply Z.mod_small. Qed.
Lemma u8_small x : 0 <= x < 2 ^ 8 -> u8 x = x.
Proof. apply Z.mod_small. Qed.
Lemma u64_range x : 0 <= u64 x < 2 ^ 64.
Proof. by apply Z.mod_pos_bound. Qed.
Lemma u32_range x : 0 <= u32 x < 2 ^ 32.
Proof. by apply Z.mod_pos_bound. Qed.
Lemma u8_range x : 0 <= u8 x < 256.
Proof. by apply Z.mod_pos_bound. Qed.

(** Round a size up to a multiple of 8, as [(size + 7) & ~7] does, and clear
    the page offset of an address, as [x & ~0xFFF] does. *)
Definition align8 (size : Z) : Z := Z.land (u64 (size + 7)) (u64 (Z.lnot 7)).
Definition page_mask (x : Z) : Z := Z.land x (u64 (Z.lnot 0xFFF)).

Lemma land_high_mask x k :
  0 <= k <= 64 -> 0 <= x < 2 ^ 64 ->
  Z.land x (2 ^ 64 - 2 ^ k) = x - x mod 2 ^ k.
Proof.
  intros Hk Hx.
  assert (Hm : Z.land x (2 ^ 64 - 2 ^ k) = Z.ldiff x (Z.ones k)).
  { apply Z.bits_inj'; intros n Hn.
    rewrite Z.land_spec, Z.ldiff_spec.
    replace (2 ^ 64 - 2 ^ k) with (Z.ldiff (Z.ones 64) (Z.ones k)).
    2:{ rewrite <- Z.sub_nocarry_ldiff.
        - rewrite !Z.ones_equiv; lia.
        - apply Z.bits_inj'; intros i Hi.
          rewrite Z.ldiff_spec, Z.bits_0, !Z.testbit_ones_nonneg by lia.
          destruct (Z.ltb_spec i k), (Z.ltb_spec i 64); simpl; lia. }
    rewrite Z.ldiff_spec, (Z.testbit_ones_nonneg 64) by lia.
    destruct (Z.ltb_spec n 64); simpl; [done |].
    rewrite (Z.bits_above_log2 x n); [done | lia |].
    destruct (decide (x = 0)) as [-> | ]; [simpl; lia |].
    apply Z.log2_lt_pow2; [lia |].
    pose proof (Z.pow_le_mono_r 2 64 n); lia. }
  rewrite Hm, Z.ldiff_ones_r by lia.
  rewrite Z.shiftl_mul_pow2, Z.shiftr_div_pow2 by lia.
  pose proof (Z.div_mod x (2 ^ k) ltac:(lia)). lia.
Qed.

Lemma page_mask_eq x : is_u64 x -> page_mask x = x - x mod 4096.
Proof.
  intros Hx. unfold page_mask.
  replace (u64 (Z.lnot 0xFFF)) with (2 ^ 64 - 2 ^ 12) by reflexivity.
  apply land_high_mask; [lia | exact Hx].
Qed.

Lemma align8_eq x : 0 <= x < 2 ^ 64 - 7 -> align8 x = 8 * ((x + 7) / 8).
Proof.
  intros Hx. unfold align8. rewrite u64_small by lia.
  replace (u64 (Z.lnot 7)) with (2 ^ 64 - 2 ^ 3) by reflexivity.
  rewrite land_high_mask by lia.
  change (2 ^ 3) with 8. pose proof (Z.div_mod (x + 7) 8). lia.
Qed.

Lemma align8_bounds x :
  0 <= x < 2 ^ 64 - 7 -> x <= align8 x < x + 8 /\ align8 x mod 8 = 0.
Proof.
  intros Hx. rewrite align8_eq by done. split.
  - pose proof (Z.div_mod (x + 7) 8 ltac:(lia)).
    pose proof (Z.mod_pos_bound (x + 7) 8 ltac:(lia)). lia.
  - rewrite Z.mul_comm. apply Z.mod_mul. lia.
Qed.

Lemma align8_mult x : 0 <= align8 x /\ align8 x mod 8 = 0.
Proof.
  pose proof (u64_range (x + 7)). unfold align8.
  replace (u64 (Z.lnot 7)) with (2 ^ 64 - 2 ^ 3) by reflexivity.
  rewrite land_high_mask by lia. change (2 ^ 3) with 8. split; Z.div_mod_to_equations; lia.
Qed.

(** Rounding a size near 2^64 wraps to 0. *)
Lemma align8_wraps x : 2 ^ 64 - 7 <= x < 2 ^ 64 -> align8 x = 0.
Proof.
  intros Hx. unfold align8, u64 at 1.
  rewrite <- (Z.mod_unique (x + 7) (2 ^ 64) 1 (x + 7 - 2 ^ 64)) by lia.
  replace (u64 (Z.lnot 7)) with (2 ^ 64 - 2 ^ 3) by reflexivity.
  rewrite land_high_mask, Z.mod_small by lia. lia.
Qed.

(** ** Lists *)

Lemma list_filter_ext_in {A} (P Q : A -> Prop) `{!forall x, Decision (P x)} `{!forall x, Decision (Q x)} (l : list A) :
  (forall x, x ∈ l -> P x <-> Q x) -> filter P l = filter Q l.
Proof.
  induction l as [| x l IH]; intros Hpq; [done |]. rewrite !filter_cons.
  pose proof (Hpq x ltac:(by left)). rewrite IH by (intros; apply Hpq; by right).
  repeat case_decide; naive_solver.
Qed.

(** ** Automation *)

Create HintDb barium discriminated.
Create Rewrite HintDb barium.
#[export] Hint Resolve u64_range u32_range u8_range : barium.

(** Turn the boolean comparisons of the code into propositions. *)
Ltac zbool :=
  repeat match goal with
  | H : (_ =? _) = true |- _ => apply Z.eqb_eq in H
  | H : (_ =? _) = false |- _ => apply Z.eqb_neq in H
  | H : (_ <? _) = true |- _ => apply Z.ltb_lt in H
  | H : (_ <? _) = false |- _ => apply Z.ltb_ge in H
  | H : (_ <=? _) = true |- _ => apply Z.leb_le in H
  | H : (_ <=? _) = false |- _ => apply Z.leb_gt in H
  | H : (_ && _) = true |- _ => apply andb_true_iff in H as [? ?]
  | H : (_ || _) = false |- _ => apply orb_false_iff in H as [? ?]
  | H : negb _ = true |- _ => apply negb_true_iff in H
  | H : negb _ = false |- _ => apply negb_false_iff in H
  end.

(** Split the first [if] of the goal, with its condition as a proposition. *)
Ltac zcase :=
  match goal with
  | |- context [if (?a =? ?b) then _ else _] => destruct (Z.eqb_spec a b)
  | |- context [if (?a <? ?b) then _ else _] => destruct (Z.ltb_spec a b)
  | |- context [if (?a <=? ?b) then _ else _] => destruct (Z.leb_spec a b)
  end.

(** Nonlinear facts about division by a constant, for [lia]. *)
Ltac zdiv := Z.div_mod_to_equations; lia.
