(* ===== verification/Memory.v ===== *)
(** Physical memory.

    The kernel runs on an identity-mapped address space: a pointer is the
    physical address of a byte.  Memory is a finite map from addresses to
    bytes; an address that was never written reads as 0.  Loads and stores of
    2, 4 and 8 bytes are little-endian, as on x86-64.  The file holds the
    accessors, the read-over-write lemmas the components use, and the notion
    of two memories agreeing on an address range, which is how a component
    states that it left the others' memory alone. *)

From S2P Require Import Prelude.

Abbreviation mem := (gmap Z Z).

Definition ld8 (m : mem) (a : Z) : Z := u8 (default 0 (m !! a)).
Definition st8 (m : mem) (a v : Z) : mem := <[a := u8 v]> m.

(** [n]-byte little-endian load and store. *)
Fixpoint ldn (n : nat) (m : mem) (a : Z) : Z :=
  match n with
  | O => 0
  | S n' => ld8 m a + 256 * ldn n' m (a + 1)
  end.

Fixpoint stn (n : nat) (m : mem) (a v : Z) : mem :=
  match n with
  | O => m
  | S n' => stn n' (st8 m a v) (a + 1) (v / 256)
  end.

Definition ld16 := ldn 2.
Definition ld32 := ldn 4.
Definition ld64 := ldn 8.
Definition st16 := stn 2.
Definition st32 := stn 4.
Definition st64 := stn 8.

(** ** Reads over writes *)

Lemma ld8_range m a : 0 <= ld8 m a < 256.
Proof. apply u8_range. Qed.

Lemma ld8_st8_eq m a v : ld8 (st8 m a v) a = u8 v.
Proof.
  unfold ld8, st8. rewrite lookup_insert_eq. simpl.
  apply Z.mod_small, u8_range.
Qed.

Lemma ld8_st8_ne m a b v : a <> b -> ld8 (st8 m a v) b = ld8 m b.
Proof. intros. unfold ld8, st8. by rewrite lookup_insert_ne. Qed.

Lemma ld8_st8 m a b v :
  ld8 (st8 m a v) b = if a =? b then u8 v else ld8 m b.
Proof.
  destruct (Z.eqb_spec a b) as [-> | ?];
    [apply ld8_st8_eq | by apply ld8_st8_ne].
Qed.

Lemma ld8_stn_out n m a v b :
  b < a \/ a + Z.of_nat n <= b -> ld8 (stn n m a v) b = ld8 m b.
Proof.
  revert m a v; induction n as [| n IH]; intros m a v Hb; simpl; [done |].
  rewrite IH by lia. apply ld8_st8_ne. lia.
Qed.

Lemma ldn_ext n m m' a :
  (forall b, a <= b < a + Z.of_nat n -> ld8 m' b = ld8 m b) ->
  ldn n m' a = ldn n m a.
Proof.
  revert a; induction n as [| n IH]; intros a Hb; simpl; [done |].
  rewrite (IH (a + 1)); [rewrite (Hb a) by lia; done |].
  intros b Hr. apply Hb. lia.
Qed.

Lemma ldn_stn_eq n m a v : ldn n (stn n m a v) a = v mod 256 ^ Z.of_nat n.
Proof.
  revert m a v; induction n as [| n IH]; intros m a v.
  { cbn [ldn stn]. change (Z.of_nat 0) with 0. rewrite Z.pow_0_r, Z.mod_1_r. done. }
  cbn [ldn stn]. rewrite IH, ld8_stn_out by lia.
  rewrite ld8_st8_eq. unfold u8. change (2 ^ 8) with 256.
  rewrite Nat2Z.inj_succ, Z.pow_succ_r by lia.
  rewrite (Z.rem_mul_r v 256) by lia. lia.
Qed.

Lemma ldn_stn_out n k m a v b :
  b + Z.of_nat k <= a \/ a + Z.of_nat n <= b ->
  ldn k (stn n m a v) b = ldn k m b.
Proof. intros H. apply ldn_ext. intros c Hc. apply ld8_stn_out. lia. Qed.

Lemma ldn_range n m a : 0 <= ldn n m a < 256 ^ Z.of_nat n.
Proof.
  revert a; induction n as [| n IH]; intros a; [simpl; lia |].
  cbn [ldn]. rewrite Nat2Z.inj_succ, Z.pow_succ_r by lia.
  pose proof (ld8_range m a). pose proof (IH (a + 1)). lia.
Qed.

Lemma ld16_range m a : 0 <= ld16 m a < 2 ^ 16.
Proof. apply (ldn_range 2). Qed.
Lemma ld64_range m a : 0 <= ld64 m a < 2 ^ 64.
Proof. apply (ldn_range 8). Qed.
Lemma ld32_range m a : 0 <= ld32 m a < 2 ^ 32.
Proof. apply (ldn_range 4). Qed.

Lemma ld64_st64_eq m a v : ld64 (st64 m a v) a = u64 v.
Proof. apply (ldn_stn_eq 8). Qed.
Lemma ld32_st32_eq m a v : ld32 (st32 m a v) a = u32 v.
Proof. apply (ldn_stn_eq 4). Qed.

Lemma ld16_st16_eq m a v : ld16 (st16 m a v) a = u16 v.
Proof. apply (ldn_stn_eq 2). Qed.
Lemma ld16_st8_ne m a b v : a < b \/ b + 2 <= a -> ld16 (st8 m a v) b = ld16 m b.
Proof. intros. by apply (ldn_stn_out 1 2); lia. Qed.
Lemma ld16_st16_ne m a b v : b + 2 <= a \/ a + 2 <= b -> ld16 (st16 m a v) b = ld16 m b.
Proof. intros. by apply ldn_stn_out. Qed.
Lemma ld8_st16_ne m a b v : b < a \/ a + 2 <= b -> ld8 (st16 m a v) b = ld8 m b.
Proof. intros. by apply (ld8_stn_out 2). Qed.
Lemma ld16_st64_ne m a b v : b + 2 <= a \/ a + 8 <= b -> ld16 (st64 m a v) b = ld16 m b.
Proof. intros. by apply ldn_stn_out. Qed.
Lemma ld32_st16_ne m a b v : b + 4 <= a \/ a + 2 <= b -> ld32 (st16 m a v) b = ld32 m b.
Proof. intros. by apply ldn_stn_out. Qed.

Lemma ld64_st64_ne m a b v :
  b + 8 <= a \/ a + 8 <= b -> ld64 (st64 m a v) b = ld64 m b.
Proof. intros. by apply ldn_stn_out. Qed.
Lemma ld64_st32_ne m a b v :
  b + 8 <= a \/ a + 4 <= b -> ld64 (st32 m a v) b = ld64 m b.
Proof. intros. by apply ldn_stn_out. Qed.
Lemma ld32_st64_ne m a b v :
  b + 4 <= a \/ a + 8 <= b -> ld32 (st64 m a v) b = ld32 m b.
Proof. intros. by apply ldn_stn_out. Qed.
Lemma ld32_st32_ne m a b v :
  b + 4 <= a \/ a + 4 <= b -> ld32 (st32 m a v) b = ld32 m b.
Proof. intros. by apply ldn_stn_out. Qed.

(** ** Agreement on a range *)

Definition agree (lo hi : Z) (m m' : mem) : Prop :=
  forall b, lo <= b < hi -> ld8 m' b = ld8 m b.

(** Memories equal outside [lo, hi). *)
Definition agree_out (lo hi : Z) (m m' : mem) : Prop :=
  forall b, b < lo \/ hi <= b -> ld8 m' b = ld8 m b.

#[export] Instance agree_equiv lo hi : Equivalence (agree lo hi).
Proof.
  unfold agree. split; intros ?.
  - done.
  - intros y H b Hb. by rewrite H.
  - intros y z H1 H2 b Hb. by rewrite H2, H1.
Qed.

#[export] Instance agree_out_equiv lo hi : Equivalence (agree_out lo hi).
Proof.
  unfold agree_out. split; intros ?.
  - done.
  - intros y H b Hb. by rewrite H.
  - intros y z H1 H2 b Hb. by rewrite H2, H1.
Qed.

Lemma agree_sub lo hi lo' hi' m m' :
  lo <= lo' -> hi' <= hi -> agree lo hi m m' -> agree lo' hi' m m'.
Proof. unfold agree. intros ?? H b Hb. apply H. lia. Qed.

Lemma agree_out_sub lo hi lo' hi' m m' :
  lo' <= lo -> hi <= hi' -> agree_out lo hi m m' -> agree_out lo' hi' m m'.
Proof. unfold agree_out. intros ?? H b Hb. apply H. lia. Qed.

Lemma agree_out_disj lo hi lo' hi' m m' :
  hi' <= lo \/ hi <= lo' -> agree_out lo hi m m' -> agree lo' hi' m m'.
Proof. unfold agree, agree_out. intros ? H b Hb. apply H. lia. Qed.

Lemma agree_out_stn n m a v : agree_out a (a + Z.of_nat n) m (stn n m a v).
Proof. intros b Hb. by apply ld8_stn_out. Qed.

Lemma agree_out_st8 m a v : agree_out a (a + 1) m (st8 m a v).
Proof. intros b Hb. apply ld8_st8_ne. lia. Qed.

Lemma ld8_st64_out m a v b : b < a \/ a + 8 <= b -> ld8 (st64 m a v) b = ld8 m b.
Proof. intros. by apply (ld8_stn_out 8). Qed.
Lemma ld8_st32_out m a v b : b < a \/ a + 4 <= b -> ld8 (st32 m a v) b = ld8 m b.
Proof. intros. by apply (ld8_stn_out 4). Qed.
Lemma agree_out_st64 m a v : agree_out a (a + 8) m (st64 m a v).
Proof. intros b Hb. by apply ld8_st64_out. Qed.
Lemma agree_out_st16 m a v : agree_out a (a + 2) m (st16 m a v).
Proof. apply (agree_out_stn 2). Qed.
Lemma agree_out_st32 m a v : agree_out a (a + 4) m (st32 m a v).
Proof. intros b Hb. by apply ld8_st32_out. Qed.

(** A read is the reads of its parts. *)
Lemma ldn_split n p m : forall a, ldn (n + p) m a = ldn n m a + 256 ^ Z.of_nat n * ldn p m (a + Z.of_nat n).
Proof.
  induction n as [| n IH]; intros a; [simpl; by rewrite Z.add_0_r, Z.mul_1_l |].
  cbn [ldn Nat.add]. rewrite IH, Nat2Z.inj_succ, Z.pow_succ_r by lia.
  replace (a + 1 + Z.of_nat n) with (a + Z.succ (Z.of_nat n)) by lia. ring.
Qed.

Lemma ld32_low m a : ld32 m a = ld64 m a mod 2 ^ 32.
Proof.
  unfold ld64, ld32. rewrite (ldn_split 4 4), Z.add_comm, Z.mul_comm. change (256 ^ Z.of_nat 4) with (2 ^ 32).
  rewrite Z.add_comm, Z_mod_plus_full. symmetry. apply Z.mod_small, (ldn_range 4 m a).
Qed.

Lemma ldn_agree n lo hi m m' a :
  agree lo hi m m' -> lo <= a -> a + Z.of_nat n <= hi -> ldn n m' a = ldn n m a.
Proof. intros H ??. apply ldn_ext. intros b Hb. apply H. lia. Qed.

Lemma ld64_agree lo hi m m' a :
  agree lo hi m m' -> lo <= a -> a + 8 <= hi -> ld64 m' a = ld64 m a.
Proof. apply (ldn_agree 8). Qed.
Lemma ld16_agree lo hi m m' a :
  agree lo hi m m' -> lo <= a -> a + 2 <= hi -> ld16 m' a = ld16 m a.
Proof. apply (ldn_agree 2). Qed.
Lemma ld32_agree lo hi m m' a :
  agree lo hi m m' -> lo <= a -> a + 4 <= hi -> ld32 m' a = ld32 m a.
Proof. apply (ldn_agree 4). Qed.
Lemma ld8_agree lo hi m m' a :
  agree lo hi m m' -> lo <= a < hi -> ld8 m' a = ld8 m a.
Proof. intros H ?. by apply H. Qed.

#[export] Hint Resolve ld8_range ld64_range ld32_range ld16_range : barium.
#[export] Hint Rewrite ld64_st64_eq ld32_st32_eq ld16_st16_eq ld8_st8_eq : barium.
#[export] Hint Rewrite ld64_st64_ne ld64_st32_ne ld32_st64_ne ld32_st32_ne
  using lia : barium.

Global Opaque ld64 ld32 ld16 st64 st32 st16.
