(* ===== verification/State.v ===== *)
(** The kernel's data: the structs of include/barium/*.h and the static
    variables of src/kernel/*.c, gathered in one record [kernel] that every
    operation of the development reads and updates.

    Byte-level data (the page bitmap, heap headers, page tables, stacks, the
    framebuffer, firmware tables) lives in the physical memory [hw_mem].
    Objects the kernel obtains from kmalloc and only accesses through typed
    pointers (thread_t, cpu_t, alpc_port_t) live in stores from their address
    to a record with the struct's fields, so pointers and aliasing are those of
    the code: two queues that hold the same address share the object. *)

From S2P Require Import Prelude Memory.

(** ** The machine *)

(** Registers, ports and memory that the C code reaches through inline
    assembly.  [hw_dev_in n port] is the byte the device behind [port]
    delivers when it is read as the [n]-th port read of the run: the devices
    are outside the kernel, so the function is arbitrary.  The local APIC is
    such a device too, with its registers at memory addresses: [hw_apic_in]
    delivers the reads, [hw_apic_out] lists the writes.  [hw_gdtr] and
    [hw_idtr] are the (limit, base) of the descriptor table registers. *)
Record hw_t := Hw {
  hw_mem : mem;
  hw_rflags : Z;
  hw_cr2 : Z;
  hw_cr3 : Z;
  hw_msr : gmap Z Z;
  hw_dev_in : nat -> Z -> Z;
  hw_in_pos : nat;
  hw_out : list (Z * Z);
  hw_apic_in : nat -> Z -> Z;
  hw_apic_pos : nat;
  hw_apic_out : list (Z * Z);
  hw_gdtr : Z * Z;
  hw_idtr : Z * Z;
  hw_cs : Z;
  hw_ds : Z;
  hw_es : Z;
  hw_ss : Z;
  hw_tr : Z
}.
#[export] Instance hw_settable : Settable hw_t := fun r =>
  Hw (hw_mem r) (hw_rflags r) (hw_cr2 r) (hw_cr3 r) (hw_msr r)
     (hw_dev_in r) (hw_in_pos r) (hw_out r)
     (hw_apic_in r) (hw_apic_pos r) (hw_apic_out r)
     (hw_gdtr r) (hw_idtr r) (hw_cs r) (hw_ds r) (hw_es r) (hw_ss r) (hw_tr r).

(** ** The kernel image

    Addresses the linker chooses: the static arrays the processor itself reads,
    the assembly entry points, the embedded start-up code of the other
    processors and the entry points of threads. *)
Record image := Image {
  sym_idt : Z;
  sym_idtr : Z;
  sym_isr_stub_table : Z;
  sym_syscall_entry : Z;
  sym_smp_ap_entry : Z;
  sym_smp_boot_start : Z;
  sym_smp_boot_end : Z;
  sym_entry : string -> Z
}.

(** ** boot.h *)

Record b_efi_mem_desc := MemDesc {
  d_type : Z;
  d_physical_start : Z;
  d_number_of_pages : Z
}.

Record barium_boot_info_t := BootInfo {
  framebuffer_base : Z;
  framebuffer_size : Z;
  bi_width : Z;
  bi_height : Z;
  pixels_per_scan_line : Z;
  memory_map : Z;
  memory_map_size : Z;
  descriptor_size : Z;
  bi_rsdp : Z
}.

(** ** console.c *)

Record console_t := Console {
  framebuffer : Z;
  width : Z;
  height : Z;
  stride : Z;
  cursor_x : Z;
  cursor_y : Z;
  console_lock : Z
}.
#[export] Instance console_settable : Settable console_t := fun r =>
  Console (framebuffer r) (width r) (height r) (stride r)
          (cursor_x r) (cursor_y r) (console_lock r).

(** ** pmm.c *)

Record pmm_t := Pmm {
  bitmap : Z;
  total_pages : Z;
  usable_pages : Z;
  free_pages : Z;
  last_search_index : Z;
  highest_phys_address : Z;
  pmm_lock : Z
}.
#[export] Instance pmm_settable : Settable pmm_t := fun r =>
  Pmm (bitmap r) (total_pages r) (usable_pages r) (free_pages r)
      (last_search_index r) (highest_phys_address r) (pmm_lock r).

(** ** heap.c *)

Record heap_t := Heap {
  heap_start : Z;
  heap_lock : Z
}.
#[export] Instance heap_settable : Settable heap_t := fun r =>
  Heap (heap_start r) (heap_lock r).

(** ** keyboard.c *)

Record kbd_t := Kbd {
  kbd_buffer : list Z;
  kbd_head : Z;
  kbd_tail : Z;
  kbd_lock : Z
}.
#[export] Instance kbd_settable : Settable kbd_t := fun r =>
  Kbd (kbd_buffer r) (kbd_head r) (kbd_tail r) (kbd_lock r).

(** ** apic.c *)

Record apic_t := Apic {
  apic_base : Z;
  ticks_per_ms : Z;
  global_ticks : Z
}.
#[export] Instance apic_settable : Settable apic_t := fun r =>
  Apic (apic_base r) (ticks_per_ms r) (global_ticks r).

(** ** sched.h, cpu.h, cpu.c, sched.c *)

Inductive thread_state_t :=
| THREAD_READY
| THREAD_RUNNING
| THREAD_SLEEPING
| THREAD_DEAD.

#[export] Instance thread_state_eq_dec : EqDecision thread_state_t.
Proof. solve_decision. Defined.

Record thread_t := Thread {
  t_tid : Z;
  t_rsp : Z;
  t_state : thread_state_t;
  t_priority : Z;
  t_name : list Z;
  t_core_affinity : Z;
  t_ticks_remaining : Z;
  t_total_ticks : Z;
  t_wakeup_tick : Z;
  t_stack_limit : Z;
  t_stack_top : Z;
  t_user_stack_limit : Z;
  t_user_stack_top : Z;
  t_next : Z
}.
#[export] Instance thread_settable : Settable thread_t := fun r =>
  Thread (t_tid r) (t_rsp r) (t_state r) (t_priority r) (t_name r)
         (t_core_affinity r) (t_ticks_remaining r) (t_total_ticks r)
         (t_wakeup_tick r) (t_stack_limit r) (t_stack_top r)
         (t_user_stack_limit r) (t_user_stack_top r) (t_next r).

(** The fields of cpu_t the scheduler and the system-call entry use; [rsp0]
    is [tss.rsp0], the stack the processor loads on a ring change. *)
Record cpu_t := Cpu {
  c_kernel_stack : Z;
  c_user_rsp : Z;
  c_sched_thread : Z;
  c_ready_queues : list Z;
  c_sched_lock : Z;
  c_cpu_id : Z;
  c_rsp0 : Z
}.
#[export] Instance cpu_settable : Settable cpu_t := fun r =>
  Cpu (c_kernel_stack r) (c_user_rsp r) (c_sched_thread r) (c_ready_queues r)
      (c_sched_lock r) (c_cpu_id r) (c_rsp0 r).

Record cpu_extra_t := CpuExtra {
  sleep_queue : Z;
  last_age_tick : Z
}.
#[export] Instance cpu_extra_settable : Settable cpu_extra_t := fun r =>
  CpuExtra (sleep_queue r) (last_age_tick r).

(** [s_threads] and [s_cpus] are the stores of thread_t and cpu_t objects by
    address; [s_cpu_table] is the filled part of the array cpus[64]. *)
Record sched_t := Sched {
  next_tid : Z;
  global_sched_lock : Z;
  next_cpu_index : Z;
  cpu_extras : list cpu_extra_t;
  s_threads : gmap Z thread_t;
  s_cpus : gmap Z cpu_t;
  s_cpu_table : list Z
}.
#[export] Instance sched_settable : Settable sched_t := fun r =>
  Sched (next_tid r) (global_sched_lock r) (next_cpu_index r) (cpu_extras r)
        (s_threads r) (s_cpus r) (s_cpu_table r).

(** ** alpc.h, alpc.c *)

(** A port; its queue [p_msg_queue] is the address of [p_queue_size] messages
    in physical memory. *)
Record alpc_port_t := Port {
  p_name : list Z;
  p_owner_tid : Z;
  p_server_tid : Z;
  p_msg_queue : Z;
  p_queue_head : Z;
  p_queue_tail : Z;
  p_queue_size : Z;
  p_lock : Z;
  p_next : Z
}.
#[export] Instance port_settable : Settable alpc_port_t := fun r =>
  Port (p_name r) (p_owner_tid r) (p_server_tid r) (p_msg_queue r)
       (p_queue_head r) (p_queue_tail r) (p_queue_size r) (p_lock r) (p_next r).

Record alpc_section_t := Sect {
  sec_id : Z;
  sec_phys_addr : Z;
  sec_size : Z;
  sec_owner_tid : Z
}.

(** [ports] is the store of alpc_port_t objects by address. *)
Record alpc_t := Alpc {
  port_list : Z;
  port_list_lock : Z;
  ports : gmap Z alpc_port_t;
  sections : list alpc_section_t;
  next_section_id : Z;
  next_section_virt : Z;
  section_lock : Z
}.
#[export] Instance alpc_settable : Settable alpc_t := fun r =>
  Alpc (port_list r) (port_list_lock r) (ports r) (sections r)
       (next_section_id r) (next_section_virt r) (section_lock r).

(** ** acpi.c *)

Record acpi_t := Acpi {
  cpu_apic_ids : list Z;
  acpi_cpu_count : Z
}.
#[export] Instance acpi_settable : Settable acpi_t := fun r =>
  Acpi (cpu_apic_ids r) (acpi_cpu_count r).

(** ** shell.c *)

(** The variables the shell's tests share with the threads they start.
    [sh_turns] counts how often the shell's thread has given up the processor;
    it is not a variable of the code. *)
Record shell_t := Shell {
  race_counts : list Z;
  finish_order : Z;
  rr_counts : list Z;
  rr_active : Z;
  yield_counts : list Z;
  yield_active : Z;
  age_counts : list Z;
  age_active : Z;
  block_counts : list Z;
  block_active : Z;
  active_workers : Z;
  worker_lock : Z;
  alpc_test_done : Z;
  alpc_messages_received : Z;
  alpc_test_lock : Z;
  sh_turns : nat
}.
#[export] Instance shell_settable : Settable shell_t := fun r =>
  Shell (race_counts r) (finish_order r) (rr_counts r) (rr_active r) (yield_counts r) (yield_active r)
        (age_counts r) (age_active r) (block_counts r) (block_active r) (active_workers r) (worker_lock r)
        (alpc_test_done r) (alpc_messages_received r) (alpc_test_lock r) (sh_turns r).

(** ** The whole kernel

    [vmm_test_active] is the flag the shell's memory test shares with the page
    fault handler. *)

Record kernel := Kernel {
  hw : hw_t;
  console : console_t;
  pmm : pmm_t;
  heap : heap_t;
  kernel_pml4 : Z;
  kbd : kbd_t;
  apic : apic_t;
  sched : sched_t;
  alpc : alpc_t;
  acpi : acpi_t;
  vmm_test_active : Z;
  shell : shell_t
}.
#[export] Instance kernel_settable : Settable kernel := fun r =>
  Kernel (hw r) (console r) (pmm r) (heap r) (kernel_pml4 r) (kbd r)
         (apic r) (sched r) (alpc r) (acpi r) (vmm_test_active r) (shell r).

(** Close an equation between two kernel states that only rearrange the fields
    of [k]; [keta k in H] uses a hypothesis that fixes a field. *)
Tactic Notation "keta" ident(k) :=
  destruct k as [[] [] [] [] ? [] [] [] [] [] ?]; reflexivity.
Tactic Notation "keta" ident(k) "in" hyp(H) :=
  destruct k as [[] [] [] [] ? [] [] [] [] [] ?]; simpl in H; subst; reflexivity.

Definition mem_of (k : kernel) : mem := hw_mem (hw k).
Definition set_mem (m : mem) (k : kernel) : kernel :=
  k <| hw ::= fun h => h <| hw_mem := m |> |>.

(** C string literals: the bytes of the text and the terminating NUL. *)
Fixpoint chars (s : string) : list Z :=
  match s with
  | EmptyString => []
  | String c s' => Z.of_nat (Ascii.nat_of_ascii c) :: chars s'
  end.
Definition cstr (s : string) : list Z := chars s ++ [0].
Arguments cstr s%_string.
Arguments chars s%_string.

(** The static variables as the image is loaded: .bss is zero, the rest has
    the initialisers of the C files. *)
Definition initial_kernel (h : hw_t) : kernel := {|
  hw := h;
  console := Console 0 0 0 0 10 10 0;
  pmm := Pmm 0 0 0 0 0 0 0;
  heap := Heap 0 0;
  kernel_pml4 := 0;
  kbd := Kbd (replicate 128 0) 0 0 0;
  apic := Apic 0 0 0;
  sched := Sched 1 0 0 (replicate 64 (CpuExtra 0 0)) ∅ ∅ [];
  alpc := Alpc 0 0 ∅ (replicate 64 (Sect 0 0 0 0)) 1 0x8000000000 0;
  acpi := Acpi (replicate 64 0) 0;
  vmm_test_active := 0;
  shell := Shell [0; 0; 0] 1 [0; 0; 0] 1 [0; 0] 1 [0; 0] 1 [0; 0] 1 0 0 0 0 0 0
|}.

(** A machine with memory [m], interrupts on and silent devices, for the
    concrete runs of the development. *)
Definition plain_hw (m : mem) : hw_t := Hw m 0x202 0 0 ∅ (fun _ _ => 0) 0 [] (fun _ _ => 0) 0 []
  (0, 0) (0, 0) 0 0 0 0 0.
