(* ===== verification/Lib.v ===== *)
(** lib.c: interrupt masking, spinlocks, ports, model-specific registers and
    the byte and string routines.

    Operations that only touch memory are functions on [mem]; the others are
    in the [M kernel] monad.  A char array is the list of its bytes, a C
    string a char array with a NUL in it. *)

From S2P Require Import Prelude Memory State.

(** ** Interrupt flag *)

Definition RFLAGS_IF : Z := 9.

Definition b_irq_save : M kernel Z := fun k =>
  let flags := hw_rflags (hw k) in
  Ret flags (k <| hw ::= fun h => h <| hw_rflags := Z.clearbit flags RFLAGS_IF |> |>).

Definition b_irq_restore (flags : Z) : M kernel unit :=
  modify (fun k => k <| hw ::= fun h => h <| hw_rflags := flags |> |>).

(** ** Spinlocks

    A lock is named by how its word is read and written.  On one processor,
    between two events of the others, a held lock stays held: [spin_lock] on
    it spins for ever. Spinlock.v has the many-processor step relation. *)

Record spinlock_ref := LockRef {
  lk_get : kernel -> option Z;
  lk_set : Z -> kernel -> kernel
}.

Definition spin_lock (l : spinlock_ref) : M kernel unit := fun k =>
  match lk_get l k with
  | None => Fault
  | Some v => if v =? 0 then Ret tt (lk_set l 1 k) else Hang (lk_set l 1 k)
  end.

Definition spin_unlock (l : spinlock_ref) : M kernel unit := fun k =>
  match lk_get l k with
  | None => Fault
  | Some _ => Ret tt (lk_set l 0 k)
  end.

(** ** Ports and model-specific registers *)

Definition b_outb (port val : Z) : M kernel unit :=
  modify (fun k => k <| hw ::= fun h => h <| hw_out ::= fun l => l ++ [(port, u8 val)] |> |>).

Definition b_inb (port : Z) : M kernel Z := fun k =>
  let h := hw k in
  Ret (u8 (hw_dev_in h (hw_in_pos h) port))
      (k <| hw ::= fun h => h <| hw_in_pos ::= S |> |>).

Definition b_io_wait : M kernel unit := b_outb 0x80 0.

Definition b_wrmsr (msr val : Z) : M kernel unit :=
  let low := Z.land val 0xFFFFFFFF in
  let high := Z.land (Z.shiftr val 32) 0xFFFFFFFF in
  modify (fun k => k <| hw ::= fun h =>
    h <| hw_msr ::= fun m => <[msr := Z.lor (Z.shiftl high 32) low]> m |> |>).

Definition b_rdmsr (msr : Z) : M kernel Z :=
  gets (fun k =>
    let v := default 0 (hw_msr (hw k) !! msr) in
    let low := u32 v in
    let high := u32 (Z.shiftr v 32) in
    Z.lor (Z.shiftl high 32) low).

Definition b_get_cr2 : M kernel Z := gets (fun k => hw_cr2 (hw k)).

(** ** Bytes *)

Fixpoint memset_from (n : nat) (m : mem) (p c : Z) : mem :=
  match n with
  | O => m
  | S n' => memset_from n' (st8 m p c) (p + 1) c
  end.
Definition b_memset (m : mem) (s c n : Z) : mem :=
  memset_from (Z.to_nat n) m s (u8 c).

Fixpoint memcpy_from (n : nat) (m : mem) (d s : Z) : mem :=
  match n with
  | O => m
  | S n' => memcpy_from n' (st8 m d (ld8 m s)) (d + 1) (s + 1)
  end.
Definition b_memcpy (m : mem) (dest src n : Z) : mem :=
  memcpy_from (Z.to_nat n) m dest src.

Fixpoint memcmp_from (n : nat) (m : mem) (p1 p2 : Z) : Z :=
  match n with
  | O => 0
  | S n' =>
      if negb (ld8 m p1 =? ld8 m p2) then ld8 m p1 - ld8 m p2
      else memcmp_from n' m (p1 + 1) (p2 + 1)
  end.
Definition b_memcmp (m : mem) (s1 s2 n : Z) : Z :=
  memcmp_from (Z.to_nat n) m s1 s2.

(** ** Strings

    [None] is a read or write past the end of an array. *)

Fixpoint b_strcmp (s1 s2 : list Z) : option Z :=
  match s1, s2 with
  | c1 :: s1', c2 :: s2' =>
      if negb (c1 =? 0) && (c1 =? c2) then b_strcmp s1' s2'
      else Some (u8 c1 - u8 c2)
  | _, _ => None
  end.

Fixpoint b_strcpy (dest src : list Z) : option (list Z) :=
  match src, dest with
  | c :: src', _ :: dest' =>
      if negb (c =? 0) then cons c <$> b_strcpy dest' src'
      else Some (0 :: dest')
  | _, _ => None
  end.

(** ** Lemmas *)

Lemma memset_from_ld8 n m p c b :
  ld8 (memset_from n m p c) b =
  if (p <=? b) && (b <? p + Z.of_nat n) then u8 c else ld8 m b.
Proof.
  revert m p; induction n as [| n IH]; intros m p.
  { cbn [memset_from]. destruct (Z.leb_spec p b), (Z.ltb_spec b (p + Z.of_nat 0));
      simpl; try done; lia. }
  cbn [memset_from]. rewrite IH, ld8_st8.
  destruct (Z.leb_spec (p + 1) b), (Z.ltb_spec b (p + 1 + Z.of_nat n)),
    (Z.leb_spec p b), (Z.ltb_spec b (p + Z.of_nat (S n))), (Z.eqb_spec p b);
    simpl; try done; lia.
Qed.

Lemma b_memset_byte m s c c' n : u8 c = u8 c' -> b_memset m s c n = b_memset m s c' n.
Proof. unfold b_memset. by intros ->. Qed.

Lemma b_memset_ld8 m s c n b :
  0 <= n ->
  ld8 (b_memset m s c n) b =
  if (s <=? b) && (b <? s + n) then u8 c else ld8 m b.
Proof.
  intros Hn. unfold b_memset. rewrite memset_from_ld8, Z2Nat.id by done.
  by rewrite (u8_small (u8 c)) by apply u8_range.
Qed.

Lemma b_memset_agree_out m s c n :
  0 <= n -> agree_out s (s + n) m (b_memset m s c n).
Proof.
  intros Hn b Hb. rewrite b_memset_ld8 by done.
  destruct (Z.leb_spec s b), (Z.ltb_spec b (s + n)); simpl; try done; lia.
Qed.

Lemma ldn_b_memset_0 n m s len a :
  s <= a -> a + Z.of_nat n <= s + len -> ldn n (b_memset m s 0 len) a = 0.
Proof.
  revert a; induction n as [| n IH]; intros a ??; [done |].
  cbn [ldn]. rewrite IH, b_memset_ld8 by lia.
  destruct (Z.leb_spec s a), (Z.ltb_spec a (s + len)); simpl; try done; lia.
Qed.

Lemma ld64_b_memset_0 m s len a :
  s <= a -> a + 8 <= s + len -> ld64 (b_memset m s 0 len) a = 0.
Proof. apply (ldn_b_memset_0 8). Qed.

Lemma memcpy_from_ld8 n m d s b :
  d <= s \/ s + Z.of_nat n <= d ->
  ld8 (memcpy_from n m d s) b =
  if (d <=? b) && (b <? d + Z.of_nat n) then ld8 m (s + (b - d)) else ld8 m b.
Proof.
  revert m d s; induction n as [| n IH]; intros m d s Hds.
  { cbn [memcpy_from]. destruct (Z.leb_spec d b), (Z.ltb_spec b (d + Z.of_nat 0));
      simpl; try done; lia. }
  cbn [memcpy_from]. rewrite IH by lia. rewrite !ld8_st8.
  assert (Hu : u8 (ld8 m s) = ld8 m s) by apply u8_small, ld8_range.
  destruct (Z.leb_spec (d + 1) b), (Z.ltb_spec b (d + 1 + Z.of_nat n)),
    (Z.leb_spec d b), (Z.ltb_spec b (d + Z.of_nat (S n))); simpl;
    repeat zcase; try lia; try done.
  - f_equal. lia.
  - rewrite Hu. f_equal. lia.
Qed.

Lemma b_memcpy_ld8 m d s n b :
  0 <= n -> d <= s \/ s + n <= d ->
  ld8 (b_memcpy m d s n) b = if (d <=? b) && (b <? d + n) then ld8 m (s + (b - d)) else ld8 m b.
Proof. intros Hn Hd. unfold b_memcpy. rewrite memcpy_from_ld8; rewrite Z2Nat.id; done. Qed.

Lemma b_memcpy_agree_out m d s n :
  0 <= n -> d <= s \/ s + n <= d -> agree_out d (d + n) m (b_memcpy m d s n).
Proof.
  intros Hn Hd b Hb. rewrite b_memcpy_ld8 by done.
  destruct (Z.leb_spec d b), (Z.ltb_spec b (d + n)); simpl; try done; lia.
Qed.

(** *** C strings *)

(** The bytes before the terminating NUL. *)
Fixpoint cstring (s : list Z) : option (list Z) :=
  match s with
  | [] => None
  | c :: s' => if c =? 0 then Some [] else cons c <$> cstring s'
  end.

Definition is_byte (c : Z) : Prop := 0 <= c < 256.

(** On two strings b_strcmp returns, with 0 exactly when they are equal. *)
Lemma b_strcmp_spec s1 : forall s2 a b,
  cstring s1 = Some a -> cstring s2 = Some b -> Forall is_byte s1 -> Forall is_byte s2 ->
  exists r, b_strcmp s1 s2 = Some r /\ (r = 0 <-> a = b).
Proof.
  induction s1 as [| c1 s1 IH]; intros [| c2 s2] a b H1 H2 B1 B2; try done. simpl in *.
  apply Forall_cons in B1 as [C1 B1], B2 as [C2 B2].
  rewrite (u8_small c1), (u8_small c2) by (unfold is_byte in *; lia).
  destruct (Z.eqb_spec c1 0) as [-> |]; simpl.
  - exists (0 - c2). split; [done |]. destruct (Z.eqb_spec c2 0) as [-> |]; simplify_eq; [done |].
    destruct (cstring s2); simplify_eq/=. split; [lia | done].
  - destruct (cstring s1) as [a' |] eqn:E1; simplify_eq/=. destruct (Z.eqb_spec c1 c2) as [-> | Hne].
    + destruct (Z.eqb_spec c2 0); [done |]. destruct (cstring s2) as [b' |] eqn:E2; simplify_eq/=.
      destruct (IH s2 a' b' eq_refl E2 B1 B2) as (r & Hr & Hiff). exists r. split; [done |].
      rewrite Hiff. naive_solver.
    + exists (c1 - c2). split; [done |]. split; [lia |].
      destruct (Z.eqb_spec c2 0); [by simplify_eq |]. destruct (cstring s2); naive_solver.
Qed.

(** b_strcpy of a string that fits, with its NUL. *)
Lemma b_strcpy_spec src : forall dest a,
  cstring src = Some a -> (length a < length dest)%nat -> Forall is_byte src -> Forall is_byte dest ->
  exists d, b_strcpy dest src = Some d /\ cstring d = Some a /\ length d = length dest /\ Forall is_byte d.
Proof.
  induction src as [| c src IH]; intros [| x dest] a Hs Hl B1 B2; try done; simpl in *; [lia |].
  apply Forall_cons in B1 as [C1 B1], B2 as [C2 B2].
  destruct (Z.eqb_spec c 0) as [-> | Hc]; simpl.
  - simplify_eq. exists (0 :: dest). repeat split; try done. by apply Forall_cons.
  - destruct (cstring src) as [a' |] eqn:E; simplify_eq/=.
    destruct (IH dest a' eq_refl ltac:(lia) B1 B2) as (d & -> & Hd & Hl' & Bd). exists (c :: d).
    apply Z.eqb_neq in Hc. simpl. rewrite Hc, Hd, Hl'. repeat split; try done. by apply Forall_cons.
Qed.

Lemma b_irq_save_restore_rflags k flags k1 :
  b_irq_save k = Ret flags k1 ->
  flags = hw_rflags (hw k) /\ b_irq_restore flags k1 = Ret tt k.
Proof.
  unfold b_irq_save. intros [= <- <-]. split; [done |].
  unfold b_irq_restore, modify. keta k.
Qed.

(** ** Stepping through kernel code

    The lemmas below give the state after each primitive; [kstep] applies the
    one that fits the head of the goal's program. *)

Definition masked (k : kernel) : kernel :=
  k <| hw ::= fun h => h <| hw_rflags := Z.clearbit (hw_rflags (hw k)) RFLAGS_IF |> |>.
Definition set_rflags (f : Z) (k : kernel) : kernel :=
  k <| hw ::= fun h => h <| hw_rflags := f |> |>.

Lemma bind_irq_save {B} (f : Z -> M kernel B) k :
  (b_irq_save ≫= f) k = f (hw_rflags (hw k)) (masked k).
Proof. done. Qed.

Lemma bind_irq_restore {B} (f : unit -> M kernel B) fl k :
  (b_irq_restore fl ≫= f) k = f tt (set_rflags fl k).
Proof. done. Qed.

Lemma bind_spin_lock {B} l (f : unit -> M kernel B) k :
  lk_get l k = Some 0 -> (spin_lock l ≫= f) k = f tt (lk_set l 1 k).
Proof. unfold mbind, M_bind, spin_lock. by intros ->. Qed.

Lemma bind_spin_unlock {B} l (f : unit -> M kernel B) k v :
  lk_get l k = Some v -> (spin_unlock l ≫= f) k = f tt (lk_set l 0 k).
Proof. unfold mbind, M_bind, spin_unlock. by intros ->. Qed.

Definition logged (port val : Z) (k : kernel) : kernel :=
  k <| hw ::= fun h => h <| hw_out ::= fun l => l ++ [(port, u8 val)] |> |>.
Definition port_read (k : kernel) : kernel := k <| hw ::= fun h => h <| hw_in_pos ::= S |> |>.

Lemma bind_outb {B} port val (f : unit -> M kernel B) k :
  (b_outb port val ≫= f) k = f tt (logged port val k).
Proof. done. Qed.

Lemma bind_io_wait {B} (f : unit -> M kernel B) k :
  (b_io_wait ≫= f) k = f tt (logged 0x80 0 k).
Proof. done. Qed.

Lemma bind_inb {B} port (f : Z -> M kernel B) k :
  (b_inb port ≫= f) k = f (u8 (hw_dev_in (hw k) (hw_in_pos (hw k)) port)) (port_read k).
Proof. done. Qed.

Ltac kstep :=
  first
    [ rewrite bind_irq_save
    | rewrite bind_outb
    | rewrite bind_io_wait
    | rewrite bind_inb
    | rewrite bind_irq_restore
    | rewrite bind_gets
    | rewrite bind_modify
    | rewrite bind_spin_lock; [| solve [reflexivity | simpl; congruence | simpl; auto] ]
    | erewrite bind_spin_unlock; [| solve [reflexivity | simpl; congruence | simpl; auto] ] ].

(** A lock nobody holds is taken and given back, and the interrupt flag is
    restored: the state a critical section leaves is the one its body built. *)
Definition unlocked (l : spinlock_ref) (k : kernel) : Prop := lk_get l k = Some 0.

(** Masking interrupts and taking a lock leave alone what does not contain the
    flag or the lock word. *)
Lemma keeps_irq_save {B} (f : kernel -> B) : (forall v k, f (set_rflags v k) = f k) -> keeps f b_irq_save.
Proof. intros H k. apply H. Qed.
Lemma keeps_irq_restore {B} (f : kernel -> B) fl : (forall v k, f (set_rflags v k) = f k) -> keeps f (b_irq_restore fl).
Proof. intros H k. apply H. Qed.
Lemma keeps_spin_lock {B} (f : kernel -> B) l : (forall v k, f (lk_set l v k) = f k) -> keeps f (spin_lock l).
Proof. intros H k. unfold spin_lock. destruct (lk_get l k); [| done]. by destruct (_ =? 0). Qed.
Lemma keeps_spin_unlock {B} (f : kernel -> B) l : (forall v k, f (lk_set l v k) = f k) -> keeps f (spin_unlock l).
Proof. intros H k. unfold spin_unlock. by destruct (lk_get l k). Qed.

#[export] Hint Extern 2 (keeps _ b_irq_save) => apply keeps_irq_save; intros; reflexivity : keeps.
#[export] Hint Extern 2 (keeps _ (b_irq_restore _)) => apply keeps_irq_restore; intros; reflexivity : keeps.
#[export] Hint Extern 2 (keeps _ (spin_lock _)) => apply keeps_spin_lock; intros; reflexivity : keeps.
#[export] Hint Extern 2 (keeps _ (spin_unlock _)) => apply keeps_spin_unlock; intros; reflexivity : keeps.

Global Opaque b_memset b_memcpy.
