(* ===== verification/Spinlock.v ===== *)
(** lib.c's spinlock between processors.

    [spin_lock] of Lib.v is the lock as one running processor sees it.  Here
    any number of processors take and release one lock word, interleaved at the
    granularity of the memory accesses: the atomic exchange of
    __sync_lock_test_and_set, the reads of the inner loop and the store of
    __sync_lock_release.  Safety is an invariant of the steps; liveness is about
    schedules, infinite sequences that say which processor makes the next
    access. *)

From S2P Require Import Prelude Memory State Lib.

(** Where a processor is in spin_lock: outside, before the exchange, in the
    inner loop, or past the call and before spin_unlock. *)
Inductive lock_pc :=
| Outside
| Exchange
| Polling
| Inside.

#[export] Instance lock_pc_eq_dec : EqDecision lock_pc.
Proof. solve_decision. Defined.

Record lock_sys := LockSys {
  ls_word : Z;
  ls_pcs : list lock_pc
}.
#[export] Instance lock_sys_settable : Settable lock_sys := fun r => LockSys (ls_word r) (ls_pcs r).

(** [while (__sync_lock_test_and_set(&lock->lock, 1)) while (lock->lock);] and
    [__sync_lock_release(&lock->lock)], one access of processor [i] at a time. *)
Inductive lock_step (i : nat) (s : lock_sys) : lock_sys -> Prop :=
| step_call :
    ls_pcs s !! i = Some Outside -> lock_step i s (s <| ls_pcs ::= <[i := Exchange]> |>)
| step_taken :
    ls_pcs s !! i = Some Exchange -> ls_word s = 0 ->
    lock_step i s (LockSys 1 (<[i := Inside]> (ls_pcs s)))
| step_busy :
    ls_pcs s !! i = Some Exchange -> ls_word s <> 0 ->
    lock_step i s (LockSys 1 (<[i := Polling]> (ls_pcs s)))
| step_poll_busy :
    ls_pcs s !! i = Some Polling -> ls_word s <> 0 -> lock_step i s s
| step_poll_free :
    ls_pcs s !! i = Some Polling -> ls_word s = 0 ->
    lock_step i s (s <| ls_pcs ::= <[i := Exchange]> |>)
| step_release :
    ls_pcs s !! i = Some Inside -> lock_step i s (LockSys 0 (<[i := Outside]> (ls_pcs s))).

(** The same, as a function. *)
Definition lock_access (i : nat) (s : lock_sys) : option lock_sys :=
  match ls_pcs s !! i with
  | None => None
  | Some Outside => Some (s <| ls_pcs ::= <[i := Exchange]> |>)
  | Some Exchange =>
      Some (LockSys 1 (<[i := if ls_word s =? 0 then Inside else Polling]> (ls_pcs s)))
  | Some Polling =>
      Some (if ls_word s =? 0 then s <| ls_pcs ::= <[i := Exchange]> |> else s)
  | Some Inside => Some (LockSys 0 (<[i := Outside]> (ls_pcs s)))
  end.

Lemma lock_access_step i s s' : lock_access i s = Some s' <-> lock_step i s s'.
Proof.
  unfold lock_access. split.
  - destruct (ls_pcs s !! i) as [[] |] eqn:E; intros [= <-]; try destruct (Z.eqb_spec (ls_word s) 0);
      by constructor.
  - destruct 1; simplify_option_eq; try done; by repeat (case_match; zbool).
Qed.

(** [n] processors, none near the lock. *)
Definition lock_init (n : nat) : lock_sys := LockSys 0 (replicate n Outside).

Inductive lock_reach (n : nat) : lock_sys -> Prop :=
| reach_init : lock_reach n (lock_init n)
| reach_step i s s' : lock_reach n s -> lock_step i s s' -> lock_reach n s'.

(** The lock word tells whether a processor is inside, and at most one is. *)
Record lock_inv (n : nat) (s : lock_sys) : Prop := {
  li_procs : length (ls_pcs s) = n;
  li_word : ls_word s = 0 \/ ls_word s = 1;
  li_free : ls_word s = 0 -> forall i, ls_pcs s !! i <> Some Inside;
  li_held : ls_word s = 1 -> exists i, ls_pcs s !! i = Some Inside;
  li_one : forall i j, ls_pcs s !! i = Some Inside -> ls_pcs s !! j = Some Inside -> i = j
}.

Lemma lock_init_inv n : lock_inv n (lock_init n).
Proof.
  constructor; simpl; try done; [by rewrite length_replicate | by left | |].
  - intros _ i Hi. by apply lookup_replicate in Hi as [].
  - intros i j Hi. by apply lookup_replicate in Hi as [].
Qed.

(** A processor moves between the points outside the critical section. *)
Lemma lock_inv_move n s i p q :
  lock_inv n s -> ls_pcs s !! i = Some p -> p <> Inside -> q <> Inside ->
  lock_inv n (s <| ls_pcs ::= <[i := q]> |>).
Proof.
  intros [H1 H2 H3 H4 H5] Hi Hp Hq.
  assert (Hin : forall j, <[i := q]> (ls_pcs s) !! j = Some Inside <-> ls_pcs s !! j = Some Inside).
  { intros j. destruct (decide (j = i)) as [-> | Hne].
    - rewrite list_lookup_insert_eq by (by eapply lookup_lt_Some). split; congruence.
    - by rewrite list_lookup_insert_ne. }
  constructor; simpl; try done; [by rewrite length_insert | | |].
  - intros Hw j. rewrite Hin. by apply H3.
  - intros Hw. destruct (H4 Hw) as (j & Hj). exists j. by apply Hin.
  - intros j j'. rewrite !Hin. apply H5.
Qed.

Lemma lock_step_inv n i s s' : lock_inv n s -> lock_step i s s' -> lock_inv n s'.
Proof.
  intros HI Hs. pose proof HI as [H1 H2 H3 H4 H5]. destruct Hs as [E | E Hw | E Hw | E Hw | E Hw | E].
  - by eapply lock_inv_move.
  - assert (Hin : forall j, <[i := Inside]> (ls_pcs s) !! j = Some Inside -> j = i).
    { intros j Hj. destruct (decide (j = i)); [done |]. rewrite list_lookup_insert_ne in Hj by done.
      by apply (H3 Hw) in Hj. }
    constructor; simpl; try done; [by rewrite length_insert | by right | |].
    + intros _. exists i. apply list_lookup_insert_eq. by eapply lookup_lt_Some.
    + intros j j' Hj Hj'. by rewrite (Hin j Hj), (Hin j' Hj').
  - destruct H2 as [| H2]; [done |]. replace (LockSys 1 (<[i := Polling]> (ls_pcs s)))
      with (s <| ls_pcs ::= <[i := Polling]> |>) by (destruct s; simpl in *; by subst).
    by eapply lock_inv_move.
  - done.
  - by eapply lock_inv_move.
  - assert (Hin : forall j, <[i := Outside]> (ls_pcs s) !! j <> Some Inside).
    { intros j Hj. destruct (decide (j = i)) as [-> | Hne].
      - rewrite list_lookup_insert_eq in Hj by (by eapply lookup_lt_Some). done.
      - rewrite list_lookup_insert_ne in Hj by done. by apply Hne, H5. }
    constructor; simpl; try done; [by rewrite length_insert | by left |]. intros j j' Hj. by apply Hin in Hj.
Qed.

Lemma lock_reach_inv n s : lock_reach n s -> lock_inv n s.
Proof. induction 1; [apply lock_init_inv | by eapply lock_step_inv]. Qed.

(** Accesses of one processor in a row. *)
Fixpoint lock_solo (i : nat) (fuel : nat) (s : lock_sys) : option lock_sys :=
  match fuel with
  | O => Some s
  | S fuel' => s' ← lock_access i s; lock_solo i fuel' s'
  end.

(** ** Schedules

    An infinite interleaving: [sch t] is the processor that makes the access at
    time [t]. *)

Section Schedule.
Context (sch : nat -> nat) (s0 : lock_sys).

Fixpoint lock_at (t : nat) : lock_sys :=
  match t with
  | O => s0
  | S t' => default (lock_at t') (lock_access (sch t') (lock_at t'))
  end.

(** Processor [i] is in one of the two loops of spin_lock. *)
Definition waiting (s : lock_sys) (i : nat) : Prop :=
  ls_pcs s !! i = Some Exchange \/ ls_pcs s !! i = Some Polling.

(** The access at time [t] takes the lock. *)
Definition enters (t : nat) : Prop :=
  ls_word (lock_at t) = 0 /\ ls_word (lock_at (S t)) = 1 /\
  ls_pcs (lock_at (S t)) !! sch t = Some Inside.

Lemma lock_at_inv n t : lock_inv n s0 -> lock_inv n (lock_at t).
Proof.
  intros H0. induction t as [| t IH]; [done |]. simpl.
  destruct (lock_access _ _) as [s' |] eqn:E; simpl; [| done].
  apply lock_access_step in E. by eapply lock_step_inv.
Qed.

(** An access at a free lock leaves it free or takes it. *)
Lemma free_step t :
  ls_word (lock_at t) = 0 -> enters t \/ ls_word (lock_at (S t)) = 0.
Proof.
  unfold enters. intros H0. simpl. destruct (lock_access _ _) as [s' |] eqn:E; simpl; [| by right].
  apply lock_access_step in E. destruct E as [E | E Hw | E Hw | E Hw | E Hw | E]; simpl; try (by right); try done; [].
  left. split; [done |]. split; [done |]. apply list_lookup_insert_eq. by eapply lookup_lt_Some.
Qed.

(** An access of another processor does not move this one. *)
Lemma other_step i t : sch t <> i -> ls_pcs (lock_at (S t)) !! i = ls_pcs (lock_at t) !! i.
Proof.
  intros Hne. simpl. destruct (lock_access _ _) as [s' |] eqn:E; simpl; [| done].
  apply lock_access_step in E. destruct E; simpl; rewrite ?list_lookup_insert_ne; done.
Qed.

(** A waiting processor waits on unless it takes the lock. *)
Lemma waiting_step i t :
  waiting (lock_at t) i -> waiting (lock_at (S t)) i \/ (sch t = i /\ enters t).
Proof.
  intros Hi. destruct (decide (sch t = i)) as [Ht | Ht].
  - unfold enters, waiting in *. simpl. rewrite Ht. destruct (lock_access _ _) as [s' |] eqn:E; simpl; [| by left].
    assert (Hlt : (i < length (ls_pcs (lock_at t)))%nat) by (destruct Hi; by eapply lookup_lt_Some).
    apply lock_access_step in E.
    destruct E as [E | E Hw | E Hw | E Hw | E Hw | E]; simpl; rewrite ?list_lookup_insert_eq by done; naive_solver.
  - left. unfold waiting. by rewrite other_step.
Qed.

(** At a free lock, a processor before its exchange: by the time it makes it,
    some processor has taken the lock. *)
Lemma exchange_enters i t d :
  ls_word (lock_at t) = 0 -> ls_pcs (lock_at t) !! i = Some Exchange -> sch (t + d) = i ->
  exists u, (t <= u <= t + d)%nat /\ enters u.
Proof.
  revert t. induction d as [| d IH]; intros t H0 Hi Hd.
  all: destruct (free_step t H0) as [He | H1]; [exists t; split; [lia | done] |].
  - rewrite Nat.add_0_r in Hd. simpl in H1. unfold lock_access in H1. rewrite Hd, Hi in H1. done.
  - destruct (decide (sch t = i)) as [Ht | Ht].
    + simpl in H1. unfold lock_access in H1. rewrite Ht, Hi in H1. done.
    + destruct (IH (S t)) as (u & Hu & He); [done | by rewrite other_step | by rewrite <- Hd; f_equal; lia |].
      exists u. split; [lia | done].
Qed.

(** A polling processor at a free lock: at its next read it is back at the
    exchange, unless some processor has taken the lock. *)
Lemma poll_enters i t d :
  ls_word (lock_at t) = 0 -> ls_pcs (lock_at t) !! i = Some Polling -> sch (t + d) = i ->
  (exists u, (t <= u <= t + d)%nat /\ enters u) \/
  (exists u, (t <= u <= t + d)%nat /\ ls_word (lock_at (S u)) = 0 /\ ls_pcs (lock_at (S u)) !! i = Some Exchange).
Proof.
  assert (Hnow : forall t, sch t = i -> ls_word (lock_at t) = 0 -> ls_pcs (lock_at t) !! i = Some Polling ->
    ls_pcs (lock_at (S t)) !! i = Some Exchange).
  { intros u Hu H0 Hi. simpl. unfold lock_access. rewrite Hu, Hi, H0. simpl.
    apply list_lookup_insert_eq. by eapply lookup_lt_Some. }
  revert t. induction d as [| d IH]; intros t H0 Hi Hd.
  all: destruct (free_step t H0) as [He | H1]; [left; exists t; split; [lia | done] |].
  - rewrite Nat.add_0_r in Hd. right. exists t. split; [lia | auto].
  - destruct (decide (sch t = i)) as [Ht | Ht]; [right; exists t; split; [lia | auto] |].
    destruct (IH (S t)) as [(u & Hu & He) | (u & Hu & He)];
      [done | by rewrite other_step | by rewrite <- Hd; f_equal; lia | |].
    + left. exists u. split; [lia | done].
    + right. exists u. split; [lia | done].
Qed.

(** Two accesses of a waiting processor at a free lock are enough. *)
Lemma two_accesses_enter i t t1 t2 :
  waiting (lock_at t) i -> ls_word (lock_at t) = 0 ->
  (t <= t1 < t2)%nat -> sch t1 = i -> sch t2 = i ->
  exists u, (t <= u <= t2)%nat /\ enters u.
Proof.
  intros [Hi | Hi] H0 Ht H1 H2.
  - destruct (exchange_enters i t (t1 - t) H0 Hi) as (u & Hu & He); [by rewrite <- H1; f_equal; lia |].
    exists u. split; [lia | done].
  - destruct (poll_enters i t (t1 - t) H0 Hi) as [(u & Hu & He) | (u & Hu & H0' & Hi')];
      [by rewrite <- H1; f_equal; lia | exists u; split; [lia | done] |].
    destruct (exchange_enters i (S u) (t2 - S u) H0' Hi') as (v & Hv & He); [by rewrite <- H2; f_equal; lia |].
    exists v. split; [lia | done].
Qed.

(** The holder keeps the lock until its own next access. *)
Lemma holder_keeps n j t d :
  lock_inv n s0 -> ls_pcs (lock_at t) !! j = Some Inside ->
  (forall u, (t <= u < t + d)%nat -> sch u <> j) ->
  ls_pcs (lock_at (t + d)) !! j = Some Inside /\ ls_word (lock_at (t + d)) = 1 /\
  (forall i, waiting (lock_at t) i -> waiting (lock_at (t + d)) i).
Proof.
  intros HI Hj. induction d as [| d IH]; intros Hne.
  - rewrite Nat.add_0_r. split; [done |]. split; [| done].
    destruct (lock_at_inv n t HI) as [_ [Hw | Hw] Hf _ _]; [by apply (Hf Hw) in Hj | done].
  - destruct IH as (H1 & H2 & H3); [intros; apply Hne; lia |].
    rewrite Nat.add_succ_r. assert (Hj' : ls_pcs (lock_at (S (t + d))) !! j = Some Inside)
      by (rewrite other_step by (apply Hne; lia); done).
    split; [done |]. split.
    + destruct (lock_at_inv n (S (t + d)) HI) as [_ [Hw | Hw] Hf _ _]; [by apply (Hf Hw) in Hj' | done].
    + intros i Hi. destruct (waiting_step i (t + d)) as [| [_ [Hw _]]]; [by apply H3 | done | lia].
Qed.

(** The time of the first access of [j] from [t] on. *)
Lemma first_access j t d :
  sch (t + d) = j ->
  exists e, (e <= d)%nat /\ sch (t + e) = j /\ forall u, (t <= u < t + e)%nat -> sch u <> j.
Proof.
  induction d as [d IH] using lt_wf_ind. intros Hd.
  destruct (decide (Exists (fun u => sch (t + u) = j) (seq 0 d))) as [He | He].
  - apply Exists_exists in He as (e & Hin%elem_of_seq & He).
    destruct (IH e) as (e' & ? & ? & ?); [lia | done |]. exists e'. split; [lia | done].
  - exists d. split; [lia |]. split; [done |]. intros u Hu Hc. apply He, Exists_exists. exists (u - t)%nat.
    split; [apply elem_of_seq; lia | by rewrite <- Hc; f_equal; lia].
Qed.

(** A held lock is free, with the waiters still waiting, right after the
    holder's next access. *)
Lemma held_released n i j t d :
  lock_inv n s0 -> ls_pcs (lock_at t) !! j = Some Inside -> waiting (lock_at t) i -> sch (t + d) = j ->
  exists u, (t <= u <= t + d)%nat /\ ls_word (lock_at (S u)) = 0 /\ waiting (lock_at (S u)) i.
Proof.
  intros HI Hj Hi Hd. destruct (first_access j t d Hd) as (e & He & Hs & Hne).
  destruct (holder_keeps n j t e HI Hj Hne) as (H1 & H2 & H3).
  exists (t + e)%nat. split; [lia |]. split.
  - simpl. unfold lock_access. by rewrite Hs, H1.
  - destruct (waiting_step i (t + e)) as [| [_ [Hw _]]]; [by apply H3 | done | lia].
Qed.

(** Every processor keeps making accesses. *)
Definition fair (n : nat) : Prop := forall j t, (j < n)%nat -> exists d, sch (t + d) = j.

Lemma fair_enters n i t :
  lock_inv n s0 -> fair n -> waiting (lock_at t) i -> exists u, (t <= u)%nat /\ enters u.
Proof.
  intros HI HF Hi.
  assert (Hfree : forall t, waiting (lock_at t) i -> ls_word (lock_at t) = 0 -> exists u, (t <= u)%nat /\ enters u).
  { intros u Hu H0. assert (Hlt : (i < n)%nat).
    { destruct (lock_at_inv n u HI) as [<- _ _ _ _]. destruct Hu; by eapply lookup_lt_Some. }
    destruct (HF i u Hlt) as (d1 & H1). destruct (HF i (S (u + d1)) Hlt) as (d2 & H2).
    destruct (two_accesses_enter i u (u + d1) (S (u + d1) + d2) Hu H0) as (v & Hv & He); [lia | done | done |].
    exists v. split; [lia | done]. }
  destruct (lock_at_inv n t HI) as [Hl [Hw | Hw] _ Hh _]; [by apply Hfree |].
  destruct (Hh Hw) as (j & Hj). destruct (HF j t) as (d & Hd); [rewrite <- Hl; by eapply lookup_lt_Some |].
  destruct (held_released n i j t d HI Hj Hi Hd) as (u & Hu & H0 & Hi').
  destruct (Hfree _ Hi' H0) as (v & Hv & He). exists v. split; [lia | done].
Qed.

End Schedule.

(** ** Theorems *)

(** C19: mutual exclusion.  In every interleaving of any number of processors, at
    most one is between spin_lock and spin_unlock, and the lock word is 1
    exactly while one is. *)
Theorem spinlock_mutual_exclusion n s :
  lock_reach n s ->
  (forall i j, ls_pcs s !! i = Some Inside -> ls_pcs s !! j = Some Inside -> i = j) /\
  (ls_word s = 1 <-> exists i, ls_pcs s !! i = Some Inside) /\ (ls_word s = 0 \/ ls_word s = 1).
Proof.
  intros H%lock_reach_inv. destruct H as [H1 H2 H3 H4 H5]. split; [done |]. split; [| done].
  split; [apply H4 |]. intros (i & Hi). destruct H2 as [H2 | H2]; [| done]. by apply (H3 H2) in Hi.
Qed.

Lemma spinlock_mutual_exclusion_witness :
  exists s, lock_solo 0 2 (lock_init 2) = Some s /\ ls_word s = 1.
Proof.
  eexists. split; [reflexivity |].
  apply (spinlock_mutual_exclusion 2).
  - eapply reach_step; [eapply reach_step; [constructor |] |].
    + by apply (step_call 0).
    + by apply (step_taken 0).
  - by exists 0%nat.
Defined.

(** C20: liveness between processors.  In an arbitrary infinite interleaving
    [sch] of the accesses of any number of processors: (1) once the lock is free,
    two accesses of a waiting processor, with any accesses of the others between
    them, suffice for some processor to take the lock (the waiting one, or one
    that overtook it); (2) while a processor is inside nobody else is let in: it
    stays inside and the waiting ones wait on until its own next access; (3) if
    every processor keeps making accesses, then from every moment at which a
    processor waits there is a later one at which some processor takes the lock:
    the lock never deadlocks.  (A given processor may be overtaken for ever: the
    lock is not fair, and the theorem does not say otherwise.) *)
Theorem spinlock_progress n s sch :
  lock_reach n s ->
  (forall i t t1 t2, waiting (lock_at sch s t) i -> ls_word (lock_at sch s t) = 0 ->
     (t <= t1 < t2)%nat -> sch t1 = i -> sch t2 = i ->
     exists u, (t <= u <= t2)%nat /\ enters sch s u) /\
  (forall j t d, ls_pcs (lock_at sch s t) !! j = Some Inside ->
     (forall u, (t <= u < t + d)%nat -> sch u <> j) ->
     ls_pcs (lock_at sch s (t + d)) !! j = Some Inside /\ ls_word (lock_at sch s (t + d)) = 1 /\
     (forall i, waiting (lock_at sch s t) i -> waiting (lock_at sch s (t + d)) i)) /\
  (fair sch n -> forall i t, waiting (lock_at sch s t) i -> exists u, (t <= u)%nat /\ enters sch s u).
Proof.
  intros HI%lock_reach_inv. split; [apply two_accesses_enter |].
  split; [by intros j t d; apply (holder_keeps sch s n) |]. intros HF i t. by apply (fair_enters sch s n).
Qed.

(** Two processors taking turns, both at the exchange at time 2. *)
Definition turns (t : nat) : nat := (t mod 2)%nat.

Lemma spinlock_progress_witness :
  waiting (lock_at turns (lock_init 2) 2) 1 /\ exists u, (2 <= u)%nat /\ enters turns (lock_init 2) u.
Proof.
  split; [by left |].
  apply (spinlock_progress 2 (lock_init 2) turns (reach_init 2)) with (i := 1%nat); [| by left].
  intros j t Hj. exists (t + j)%nat. unfold turns.
  replace (t + (t + j))%nat with (j + t * 2)%nat by lia.
  rewrite Nat.Div0.mod_add. by apply Nat.mod_small.
Defined.
