(* ===== verification/Console.v ===== *)
(** console.c: text on the linear framebuffer.

    A pixel is a 32-bit word of physical memory at
    framebuffer + 4 * (y * stride + x); the index is computed in 32 bits. *)

From S2P Require Import Prelude Memory State Lib Font.

Definition FONT_SCALE : Z := 1.
Definition CHAR_WIDTH : Z := 8 * FONT_SCALE.
Definition CHAR_HEIGHT : Z := 8 * FONT_SCALE.
Definition CHAR_SPACING : Z := 1.
Definition BACKGROUND : Z := 0x1B1B1B.
Definition FOREGROUND : Z := 0xFFFFFF.

Definition console_lock_ref : spinlock_ref := {|
  lk_get := fun k => Some (console_lock (console k));
  lk_set := fun v k => k <| console ::= fun c => c <| console_lock := v |> |>
|}.

Definition console_init (info : barium_boot_info_t) : M kernel unit :=
  modify (fun k => k <| console ::= fun c =>
    c <| framebuffer := framebuffer_base info |>
      <| width := bi_width info |>
      <| height := bi_height info |>
      <| stride := pixels_per_scan_line info |> |>).

(** ** Pixels *)

Definition pixel_index (c : console_t) (x y : Z) : Z := u32 (u32 (y * stride c) + x).

Definition console_put_pixel_unlocked (x y color : Z) (k : kernel) : kernel :=
  let c := console k in
  if (width c <=? x) || (height c <=? y) then k
  else set_mem (st32 (mem_of k) (framebuffer c + 4 * pixel_index c x y) color) k.

(** [for (j = 0; j < w; j++)] and [for (i = 0; i < h; i++)]. *)
Fixpoint rect_row (n : nat) (x y color : Z) (k : kernel) : kernel :=
  match n with
  | O => k
  | S n' => rect_row n' (u32 (x + 1)) y color (console_put_pixel_unlocked x y color k)
  end.

Fixpoint rect_rows (h w : nat) (x y color : Z) (k : kernel) : kernel :=
  match h with
  | O => k
  | S h' => rect_rows h' w x (u32 (y + 1)) color (rect_row w x y color k)
  end.

Definition console_rect_unlocked (x y w h color : Z) (k : kernel) : kernel :=
  rect_rows (Z.to_nat h) (Z.to_nat w) x y color k.

(** One scan line of a glyph: bit [j] of [bits] is the pixel [j] to the right. *)
Fixpoint glyph_row (n : nat) (bits j i color : Z) (k : kernel) : kernel :=
  match n with
  | O => k
  | S n' =>
      let c := console k in
      let k' :=
        if Z.land bits (Z.shiftl 1 j) =? 0 then k
        else if 1 <? FONT_SCALE then
          console_rect_unlocked (u32 (cursor_x c + j * FONT_SCALE))
            (u32 (cursor_y c + i * FONT_SCALE)) FONT_SCALE FONT_SCALE color k
        else console_put_pixel_unlocked (u32 (cursor_x c + j)) (u32 (cursor_y c + i)) color k in
      glyph_row n' bits (j + 1) i color k'
  end.

Fixpoint glyph_rows (row : Z -> Z -> kernel -> kernel) (rows : list Z) (i : Z) (k : kernel) : kernel :=
  match rows with
  | [] => k
  | bits :: rows' => glyph_rows row rows' (i + 1) (row bits i k)
  end.

(** ** Characters *)

Definition set_cursor (x y : Z) (k : kernel) : kernel :=
  k <| console ::= fun c => c <| cursor_x := x |> <| cursor_y := y |> |>.

(** The wrap checks at the end of console_putchar_unlocked. *)
Definition wrap_line (k : kernel) : kernel :=
  let c := console k in
  if width c <=? u32 (cursor_x c + CHAR_WIDTH)
  then set_cursor 10 (u32 (cursor_y c + (CHAR_HEIGHT + 4))) k else k.
Definition wrap_screen (k : kernel) : kernel :=
  let c := console k in
  if height c <=? u32 (cursor_y c + CHAR_HEIGHT) then set_cursor 10 10 k else k.

Definition console_putchar_unlocked (ch color : Z) : M kernel unit := fun k =>
  let c := console k in
  if ch =? 10 then
    Ret tt (wrap_screen (wrap_line (set_cursor 10 (u32 (cursor_y c + (CHAR_HEIGHT + 4))) k)))
  else if ch =? 13 then
    Ret tt (wrap_screen (wrap_line (set_cursor 10 (cursor_y c) k)))
  else if ch =? 8 then
    if CHAR_WIDTH + CHAR_SPACING <=? cursor_x c then
      let x := cursor_x c - (CHAR_WIDTH + CHAR_SPACING) in
      Ret tt (wrap_screen (wrap_line
        (console_rect_unlocked x (cursor_y c) CHAR_WIDTH CHAR_HEIGHT BACKGROUND
          (set_cursor x (cursor_y c) k))))
    else Ret tt (wrap_screen (wrap_line k))
  else
    match font8x8_basic !! Z.to_nat (u8 ch) with
    | None => Fault
    | Some rows =>
        let k1 := glyph_rows (fun bits i => glyph_row 8 bits 0 i color) rows 0 k in
        Ret tt (wrap_screen (wrap_line
          (set_cursor (u32 (cursor_x c + (CHAR_WIDTH + CHAR_SPACING))) (cursor_y c) k1)))
    end.

(** [while ( *s ) console_putchar_unlocked( *s++, ...)]: a string without NUL
    runs past its array. *)
Fixpoint console_print_unlocked (s : list Z) : M kernel unit :=
  match s with
  | [] => fault
  | ch :: s' =>
      if ch =? 0 then mret tt
      else console_putchar_unlocked ch FOREGROUND;; console_print_unlocked s'
  end.

(** The two loops of console_print_num_unlocked: digits are stored in
    [buf], least significant first, then printed from the last one. *)
Fixpoint num_digits (fuel : nat) (val : Z) (buf : list Z) : option (list Z) :=
  if 0 <? val then
    match fuel with
    | O => None
    | S fuel' => num_digits fuel' (val / 10) (buf ++ [val mod 10 + 48])
    end
  else Some buf.

Fixpoint put_all (l : list Z) : M kernel unit :=
  match l with
  | [] => mret tt
  | ch :: l' => console_putchar_unlocked ch FOREGROUND;; put_all l'
  end.

(** [buf] has 32 bytes: a 33rd digit would be written past its end. *)
Definition console_print_num_unlocked (val : Z) : M kernel unit :=
  if val =? 0 then console_putchar_unlocked 48 FOREGROUND
  else match num_digits 32 val [] with
       | None => fault
       | Some buf => put_all (rev buf)
       end.

(** ** Entry points *)

Definition with_console {A} (body : M kernel A) : M kernel A :=
  flags ← b_irq_save;
  spin_lock console_lock_ref;;
  r ← body;
  spin_unlock console_lock_ref;;
  b_irq_restore flags;;
  mret r.

Definition console_clear (color : Z) : M kernel unit :=
  with_console (modify (fun k =>
    set_cursor 10 10
      (console_rect_unlocked 0 0 (width (console k)) (height (console k)) color k))).

Definition console_putc (c : Z) : M kernel unit :=
  with_console (console_putchar_unlocked c FOREGROUND).
Definition console_newline : M kernel unit := console_putc 10.
Definition console_backspace : M kernel unit := console_putc 8.
Definition console_print (s : list Z) : M kernel unit :=
  with_console (console_print_unlocked s).
Definition console_print_num (val : Z) : M kernel unit :=
  with_console (console_print_num_unlocked val).

Definition console_lock_acquire : M kernel Z :=
  flags ← b_irq_save;
  spin_lock console_lock_ref;;
  mret flags.
Definition console_lock_release (flags : Z) : M kernel unit :=
  spin_unlock console_lock_ref;;
  b_irq_restore flags.
