(* ===== verification/ConsoleProps.v ===== *)
(** The console draws inside its framebuffer and keeps its cursor on the
    screen; numbers are printed as their decimal digits. *)

From S2P Require Import Prelude Memory State Lib Font Console.

(** ** Drawing *)

(** A screen with room for a character, whose pixel indices fit 32 bits, and a
    cursor such that the next character lies on the screen. *)
Record text_ok (c : console_t) : Prop := {
  tx_width : 18 < width c <= stride c;
  tx_height : 18 < height c;
  tx_pixels : stride c * height c < 2 ^ 32;
  tx_x : 0 <= cursor_x c /\ cursor_x c + CHAR_WIDTH < width c;
  tx_y : 0 <= cursor_y c /\ cursor_y c + CHAR_HEIGHT < height c
}.

(** The same without the cursor. *)
Record screen_ok (c : console_t) : Prop := {
  sc_width : 18 < width c <= stride c;
  sc_height : 18 < height c;
  sc_pixels : stride c * height c < 2 ^ 32
}.

Lemma text_screen c : text_ok c -> screen_ok c.
Proof. by intros []. Qed.

Lemma screen_bounds c : screen_ok c -> stride c < 2 ^ 28 /\ height c < 2 ^ 28.
Proof. intros [? ? ?]. nia. Qed.

Definition fb_end (c : console_t) : Z := framebuffer c + 4 * (stride c * height c).

(** From [k] to [k'] only the cursor and bytes of the framebuffer change. *)
Definition drawn (k k' : kernel) : Prop :=
  exists m x y, k' = set_cursor x y (set_mem m k) /\
    agree_out (framebuffer (console k)) (fb_end (console k)) (mem_of k) m.

Lemma drawn_refl k : drawn k k.
Proof. exists (mem_of k), (cursor_x (console k)), (cursor_y (console k)). split; [keta k | done]. Qed.

Lemma drawn_trans k1 k2 k3 : drawn k1 k2 -> drawn k2 k3 -> drawn k1 k3.
Proof.
  intros (m & x & y & -> & H) (m' & x' & y' & -> & H'). exists m', x', y'. split; [done |].
  by transitivity m.
Qed.

Lemma drawn_cursor k x y : drawn k (set_cursor x y k).
Proof. exists (mem_of k), x, y. split; [keta k | done]. Qed.

Lemma drawn_screen k k' : drawn k k' -> screen_ok (console k) -> screen_ok (console k').
Proof. by intros (m & x & y & -> & _) []. Qed.

(** A picture: only pixels are written, the cursor stays. *)
Definition painted (k k' : kernel) : Prop := drawn k k' /\ console k' = console k.

Lemma painted_refl k : painted k k.
Proof. split; [apply drawn_refl | done]. Qed.
Lemma painted_trans k1 k2 k3 : painted k1 k2 -> painted k2 k3 -> painted k1 k3.
Proof. intros [H1 E1] [H2 E2]. split; [by eapply drawn_trans | congruence]. Qed.

Lemma put_pixel_painted k x y color :
  screen_ok (console k) -> 0 <= x -> 0 <= y -> painted k (console_put_pixel_unlocked x y color k).
Proof.
  intros Hs Hx Hy. unfold console_put_pixel_unlocked.
  destruct (Z.leb_spec (width (console k)) x); [apply painted_refl |].
  destruct (Z.leb_spec (height (console k)) y); [apply painted_refl |]. simpl.
  split; [| done]. exists (st32 (mem_of k) (framebuffer (console k) + 4 * pixel_index (console k) x y) color),
    (cursor_x (console k)), (cursor_y (console k)). split; [keta k |].
  destruct Hs as [Hw Hh Hp]. unfold pixel_index, fb_end. rewrite (u32_small (y * _)) by nia. rewrite u32_small by nia.
  eapply agree_out_sub; [| | apply agree_out_st32]; nia.
Qed.

Lemma rect_row_painted n : forall k x y color,
  screen_ok (console k) -> 0 <= x -> 0 <= y -> painted k (rect_row n x y color k).
Proof.
  induction n as [| n IH]; intros k x y color Hs Hx Hy; cbn [rect_row]; [apply painted_refl |].
  pose proof (put_pixel_painted k x y color Hs Hx Hy) as [H1 E1].
  eapply painted_trans; [by split |]. apply IH; [by rewrite E1 | apply u32_range | done].
Qed.

Lemma rect_rows_painted h : forall w k x y color,
  screen_ok (console k) -> 0 <= x -> 0 <= y -> painted k (rect_rows h w x y color k).
Proof.
  induction h as [| h IH]; intros w k x y color Hs Hx Hy; cbn [rect_rows]; [apply painted_refl |].
  pose proof (rect_row_painted w k x y color Hs Hx Hy) as [H1 E1].
  eapply painted_trans; [by split |]. apply IH; [by rewrite E1 | done | apply u32_range].
Qed.

(** One pixel of a scan line; the font is not scaled. *)
Definition glyph_pixel (bits j i color : Z) (k : kernel) : kernel :=
  if Z.land bits (Z.shiftl 1 j) =? 0 then k
  else console_put_pixel_unlocked (u32 (cursor_x (console k) + j)) (u32 (cursor_y (console k) + i)) color k.

Lemma glyph_row_S n bits j i color k :
  glyph_row (S n) bits j i color k = glyph_row n bits (j + 1) i color (glyph_pixel bits j i color k).
Proof. reflexivity. Qed.

Lemma glyph_pixel_painted k bits j i color :
  screen_ok (console k) -> painted k (glyph_pixel bits j i color k).
Proof.
  intros Hs. unfold glyph_pixel. case_match; [apply painted_refl |].
  apply put_pixel_painted; [done | apply u32_range ..].
Qed.

Lemma glyph_row_painted n : forall k bits j i color,
  screen_ok (console k) -> painted k (glyph_row n bits j i color k).
Proof.
  induction n as [| n IH]; intros k bits j i color Hs; [apply painted_refl |]. rewrite glyph_row_S.
  pose proof (glyph_pixel_painted k bits j i color Hs) as H.
  eapply painted_trans; [exact H |]. apply IH. destruct H as [_ E]. by rewrite E.
Qed.

Lemma glyph_rows_painted row rows :
  (forall bits i k, screen_ok (console k) -> painted k (row bits i k)) ->
  forall k i, screen_ok (console k) -> painted k (glyph_rows row rows i k).
Proof.
  intros Hrow. induction rows as [| bits rows IH]; intros k i Hs; [apply painted_refl |].
  pose proof (Hrow bits i k Hs) as H. eapply painted_trans; [exact H |].
  apply IH. destruct H as [_ E]. by rewrite E.
Qed.

(** ** Characters *)

(** The two wrap checks bring the cursor back onto the screen. *)
Lemma wrap_line_ok k :
  screen_ok (console k) -> 0 <= cursor_x (console k) < 2 ^ 30 -> 0 <= cursor_y (console k) < 2 ^ 30 ->
  exists x y, wrap_line k = set_cursor x y k /\ 0 <= x /\ x + 8 < width (console k) /\ 0 <= y < 2 ^ 31.
Proof.
  intros Hs Hx Hy. pose proof (screen_bounds _ Hs) as [Hw Hh]. destruct Hs as [S1 S2 S3].
  unfold wrap_line, CHAR_WIDTH, CHAR_HEIGHT, FONT_SCALE. change (8 * 1) with 8. rewrite u32_small by lia.
  destruct (Z.leb_spec (width (console k)) (cursor_x (console k) + 8)).
  - rewrite u32_small by lia. do 2 eexists. split; [done | lia].
  - exists (cursor_x (console k)), (cursor_y (console k)). split; [keta k | lia].
Qed.

Lemma wrap_screen_ok k x y :
  screen_ok (console k) -> 0 <= x -> x + 8 < width (console k) -> 0 <= y < 2 ^ 31 ->
  let k' := wrap_screen (set_cursor x y k) in drawn k k' /\ text_ok (console k').
Proof.
  intros [S1 S2 S3] ? ? ? k'. unfold k', wrap_screen, CHAR_HEIGHT, FONT_SCALE. change (8 * 1) with 8.
  change (cursor_y (console (set_cursor x y k))) with y.
  change (height (console (set_cursor x y k))) with (height (console k)). rewrite u32_small by lia.
  destruct (Z.leb_spec (height (console k)) (y + 8)).
  - split; [eapply drawn_trans; apply drawn_cursor |].
    constructor; simpl; unfold CHAR_WIDTH, CHAR_HEIGHT, FONT_SCALE; lia || done.
  - split; [apply drawn_cursor |].
    constructor; simpl; unfold CHAR_WIDTH, CHAR_HEIGHT, FONT_SCALE; lia || done.
Qed.

Lemma wrap_ok k :
  screen_ok (console k) -> 0 <= cursor_x (console k) < 2 ^ 30 -> 0 <= cursor_y (console k) < 2 ^ 30 ->
  let k' := wrap_screen (wrap_line k) in drawn k k' /\ text_ok (console k').
Proof.
  intros Hs Hx Hy. destruct (wrap_line_ok k Hs Hx Hy) as (x & y & -> & ? & ? & ?). by apply wrap_screen_ok.
Qed.

Definition is_char (ch : Z) : Prop := 0 <= ch < 128.

Lemma font_row ch : is_char ch -> exists rows, font8x8_basic !! Z.to_nat (u8 ch) = Some rows.
Proof.
  intros Hc. rewrite u8_small by (unfold is_char in Hc; lia). apply lookup_lt_is_Some_2.
  change (length font8x8_basic) with 128%nat. unfold is_char in Hc. lia.
Qed.

Lemma putchar_spec k ch color :
  text_ok (console k) -> is_char ch ->
  exists k', console_putchar_unlocked ch color k = Ret tt k' /\ drawn k k' /\ text_ok (console k').
Proof.
  intros Ht Hc. pose proof (text_screen _ Ht) as Hs. pose proof (screen_bounds _ Hs) as [Hw Hh].
  destruct Ht as [T1 T2 T3 [T4 T5] [T6 T7]]. unfold CHAR_WIDTH, CHAR_HEIGHT, FONT_SCALE in *.
  assert (Hfin : forall k1, drawn k k1 -> 0 <= cursor_x (console k1) < 2 ^ 30 -> 0 <= cursor_y (console k1) < 2 ^ 30 ->
    exists k', Ret tt (wrap_screen (wrap_line k1)) = Ret tt k' /\ drawn k k' /\ text_ok (console k')).
  { intros k1 Hd Hx Hy. eexists. split; [reflexivity |].
    destruct (wrap_ok k1 (drawn_screen _ _ Hd Hs) Hx Hy) as [Hd1 Hok]. split; [by eapply drawn_trans | done]. }
  unfold console_putchar_unlocked, CHAR_WIDTH, CHAR_HEIGHT, CHAR_SPACING, FONT_SCALE.
  destruct (ch =? 10).
  { apply Hfin; [apply drawn_cursor | simpl; lia | simpl; rewrite u32_small; lia]. }
  destruct (ch =? 13); [apply Hfin; [apply drawn_cursor | simpl; lia ..] |].
  destruct (ch =? 8).
  { destruct (Z.leb_spec (8 * 1 + 1) (cursor_x (console k))); [| apply Hfin; [apply drawn_refl | lia ..]].
    set (k1 := set_cursor _ _ k). pose proof (drawn_cursor k (cursor_x (console k) - (8 * 1 + 1)) (cursor_y (console k))) as Hd1.
    fold k1 in Hd1. pose proof (drawn_screen _ _ Hd1 Hs) as Hs1.
    destruct (rect_rows_painted (Z.to_nat (8 * 1)) (Z.to_nat (8 * 1)) k1 (cursor_x (console k) - (8 * 1 + 1))
      (cursor_y (console k)) BACKGROUND Hs1 ltac:(lia) ltac:(lia)) as [Hd2 E2].
    apply Hfin; [eapply drawn_trans; [exact Hd1 | exact Hd2] | |]; unfold console_rect_unlocked; rewrite E2; simpl; lia. }
  destruct (font_row ch Hc) as (rows & ->). 
  destruct (glyph_rows_painted (fun bits i => glyph_row 8 bits 0 i color) rows
    (fun bits i k0 H => glyph_row_painted 8 k0 bits 0 i color H) k 0 Hs) as [Hd E].
  apply Hfin; [eapply drawn_trans; [exact Hd | apply drawn_cursor] | simpl; rewrite u32_small; lia | simpl; lia].
Qed.

Lemma put_all_spec l : forall k,
  text_ok (console k) -> Forall is_char l ->
  exists k', put_all l k = Ret tt k' /\ drawn k k' /\ text_ok (console k').
Proof.
  induction l as [| ch l IH]; intros k Ht Hl; cbn [put_all].
  { exists k. split; [done |]. split; [apply drawn_refl | done]. }
  apply Forall_cons in Hl as [Hc Hl]. destruct (putchar_spec k ch FOREGROUND Ht Hc) as (k1 & E & D1 & T1).
  rewrite (bind_ret _ _ _ _ _ E). destruct (IH k1 T1 Hl) as (k2 & E2 & D2 & T2).
  exists k2. split; [done |]. split; [by eapply drawn_trans | done].
Qed.

(** Printing a C string puts its characters. *)
Lemma print_put_all s : forall a k, cstring s = Some a -> console_print_unlocked s k = put_all a k.
Proof.
  induction s as [| c s IH]; intros a k H; [done |]. simpl in H. cbn [console_print_unlocked].
  destruct (c =? 0); [by simplify_eq |]. destruct (cstring s) as [a' |]; simplify_eq/=.
  unfold mbind, M_bind. destruct (console_putchar_unlocked c FOREGROUND k); try done. by apply IH.
Qed.

(** An entry point around a body that draws. *)
Lemma with_console_spec k body :
  console_lock (console k) = 0 -> text_ok (console k) ->
  (forall k, text_ok (console k) -> exists k', body k = Ret tt k' /\ drawn k k' /\ text_ok (console k')) ->
  exists k', with_console body k = Ret tt k' /\ drawn k k' /\ text_ok (console k').
Proof.
  intros Hl Ht Hb. unfold with_console. rewrite bind_irq_save, bind_spin_lock by (simpl; by rewrite Hl).
  set (k1 := lk_set console_lock_ref 1 (masked k)).
  destruct (Hb k1) as (k2 & E & (m & x & y & -> & Hag) & Ht2); [by destruct Ht |].
  rewrite (bind_ret _ _ _ _ _ E). kstep. kstep.
  eexists. split; [done |]. split.
  - exists m, x, y. split; [keta k in Hl | done].
  - by destruct Ht2.
Qed.

(** ** Numbers *)

(** The value of a list of digits, most significant first. *)
Definition decimal (l : list Z) : Z := fold_left (fun v d => 10 * v + (d - 48)) l 0.

Lemma decimal_snoc l d : decimal (l ++ [d]) = 10 * decimal l + (d - 48).
Proof. unfold decimal. by rewrite fold_left_app. Qed.

(** The loop stores the digits of [val], least significant first. *)
Lemma num_digits_spec n : forall val buf, 0 <= val < 10 ^ Z.of_nat n ->
  exists ds, num_digits n val buf = Some (buf ++ ds) /\ decimal (rev ds) = val /\
    Forall (fun d => 48 <= d <= 57) ds /\ (length ds <= n)%nat /\ (0 < val -> exists d, last ds = Some d /\ d <> 48).
Proof.
  induction n as [| n IH]; intros val buf Hv.
  { assert (val = 0) as -> by (simpl in Hv; lia). exists []. simpl. rewrite app_nil_r. split_and!; done || lia. }
  cbn [num_digits]. destruct (Z.ltb_spec 0 val).
  - destruct (IH (val / 10) (buf ++ [val mod 10 + 48])) as (ds & E & Hd & Hf & Hl & Hlast).
    { rewrite Nat2Z.inj_succ, Z.pow_succ_r in Hv by lia. zdiv. }
    exists (val mod 10 + 48 :: ds). rewrite E, <- app_assoc. split; [done |].
    cbn [rev]. rewrite decimal_snoc, Hd. pose proof (Z.mod_pos_bound val 10 ltac:(lia)).
    split; [zdiv |]. split; [apply Forall_cons; split; [lia | done] |]. split; [simpl; lia |]. intros _.
    destruct (decide (0 < val / 10)) as [Hp |].
    + destruct (Hlast Hp) as (d & Hd' & Hne). exists d. split; [| done].
      destruct ds; [done |]. by rewrite last_cons, Hd'.
    + assert (val / 10 = 0) as E0 by zdiv. rewrite E0 in E. destruct n; simpl in E; injection E as E;
        (assert (ds = []) as -> by (destruct ds; [done |]; apply (f_equal length) in E; rewrite !length_app in E; simpl in E; lia));
        exists (val mod 10 + 48); (split; [done | zdiv]).
  - assert (val = 0) as -> by lia. exists []. rewrite app_nil_r. split_and!; done || (simpl; lia).
Qed.

Lemma num_digits_more n n' val buf r :
  (n <= n')%nat -> num_digits n val buf = Some r -> num_digits n' val buf = Some r.
Proof.
  revert n' val buf; induction n as [| n IH]; intros [| n'] val buf Hn; simpl; case_match; try done; [lia |].
  apply IH. lia.
Qed.

Lemma cstring_digits ds : Forall (fun d => 48 <= d <= 57) ds -> cstring (ds ++ [0]) = Some ds.
Proof.
  induction 1 as [| d ds Hd _ IH]; [done |]. simpl. rewrite IH. by destruct (Z.eqb_spec d 0); [lia |].
Qed.

Lemma with_console_ext {A} (f g : M kernel A) k : (forall k, f k = g k) -> with_console f k = with_console g k.
Proof.
  intros H. unfold with_console, mbind, M_bind. destruct (b_irq_save k) as [fl k1 | | |]; try done.
  destruct (spin_lock _ k1); try done. by rewrite H.
Qed.

(** ** Code that prints *)

(** A console that can be printed on. *)
Definition con_ready (k : kernel) : Prop := text_ok (console k) /\ console_lock (console k) = 0.

(** [m] only prints. *)
Definition shows {A} (m : M kernel A) : Prop :=
  forall k, con_ready k -> exists a k', m k = Ret a k' /\ drawn k k' /\ con_ready k'.

Lemma shows_console (body : M kernel unit) :
  (forall k, text_ok (console k) -> exists k', body k = Ret tt k' /\ drawn k k' /\ text_ok (console k')) ->
  shows (with_console body).
Proof.
  intros Hb k [Ht Hl]. destruct (with_console_spec k body Hl Ht Hb) as (k' & E & D & T).
  exists tt, k'. split; [done |]. split; [done |]. split; [done |]. by destruct D as (m & x & y & -> & _).
Qed.

Lemma shows_print s a : cstring s = Some a -> Forall is_char a -> shows (console_print s).
Proof.
  intros Hs Ha. apply shows_console. intros k Ht. rewrite (print_put_all s a) by done. by apply put_all_spec.
Qed.

Lemma cstring_cstr s : forallb (fun c => (0 <? c) && (c <? 128)) (chars s) = true ->
  cstring (cstr s) = Some (chars s) /\ Forall is_char (chars s).
Proof.
  unfold cstr. induction (chars s) as [| c l IH]; [done |]. simpl. intros H. zbool. destruct (IH H0) as [-> Hl].
  destruct (Z.eqb_spec c 0); [lia |]. split; [done |]. apply Forall_cons. split; [unfold is_char; lia | done].
Qed.

Lemma shows_lit s : forallb (fun c => (0 <? c) && (c <? 128)) (chars s) = true -> shows (console_print (cstr s)).
Proof. intros H. destruct (cstring_cstr s H). by eapply shows_print. Qed.

Lemma shows_putc c : is_char c -> shows (console_putc c).
Proof. intros Hc. apply shows_console. intros k Ht. by apply putchar_spec. Qed.
Lemma shows_newline : shows console_newline.
Proof. apply shows_putc. unfold is_char. lia. Qed.
Lemma shows_backspace : shows console_backspace.
Proof. apply shows_putc. unfold is_char. lia. Qed.

(** A number is printed as the string of its digits. *)
Lemma print_num_digits val :
  0 <= val < 2 ^ 64 ->
  exists ds, (forall k, console_print_num val k = console_print (ds ++ [0]) k) /\ decimal ds = val /\
    Forall (fun d => 48 <= d <= 57) ds /\ (1 <= length ds <= 20)%nat /\ (head ds = Some 48 -> val = 0).
Proof.
  intros Hv. destruct (decide (val = 0)) as [-> | Hne].
  { exists [48]. split_and!; [done | done | repeat constructor; lia | simpl; lia | simpl; lia | done]. }
  destruct (num_digits_spec 20 val []) as (ds & E & Hd & Hf & Hl & Hlast); [lia |].
  exists (rev ds). destruct Hlast as (d & Hlast & Hd0); [lia |].
  assert (Hrf : Forall (fun d => 48 <= d <= 57) (rev ds)) by (by apply Forall_rev).
  split; [| split; [done |]; split; [done |]; rewrite length_rev; split].
  - intros k. unfold console_print_num, console_print. apply with_console_ext. intros k1.
    rewrite (print_put_all _ (rev ds)) by (by apply cstring_digits). unfold console_print_num_unlocked.
    rewrite (proj2 (Z.eqb_neq val 0)) by done. by rewrite (num_digits_more 20 32 val [] ds) by (done || lia).
  - clear E Hd. destruct ds; [done | simpl in *; lia].
  - intros Hh. rewrite <- (rev_involutive ds) in Hlast. destruct (rev ds) as [| d' r]; [done |].
    simpl in Hlast, Hh. rewrite last_snoc in Hlast. simplify_eq.
Qed.

Lemma shows_num val : 0 <= val < 2 ^ 64 -> shows (console_print_num val).
Proof.
  intros Hv k Hk. destruct (print_num_digits val Hv) as (ds & E & _ & Hf & _). rewrite E.
  eapply shows_print; [by apply cstring_digits | | done].
  eapply Forall_impl; [exact Hf |]. intros d Hd. unfold is_char. simpl in Hd. lia.
Qed.

Lemma shows_ret {A} (a : A) : shows (mret a).
Proof. intros k Hk. exists a, k. split; [done |]. split; [apply drawn_refl | done]. Qed.
Lemma shows_gets {A} (f : kernel -> A) : shows (gets f).
Proof. intros k Hk. exists (f k), k. split; [done |]. split; [apply drawn_refl | done]. Qed.

Lemma shows_bind {A B} (m : M kernel A) (f : A -> M kernel B) : shows m -> (forall a, shows (f a)) -> shows (m ≫= f).
Proof.
  intros Hm Hf k Hk. destruct (Hm k Hk) as (a & k1 & E & D1 & C1). rewrite (bind_ret _ _ _ _ _ E).
  destruct (Hf a k1 C1) as (b & k2 & E2 & D2 & C2). exists b, k2. split; [done |]. split; [by eapply drawn_trans | done].
Qed.

(** Step over printing code at the head of a program. *)
Lemma shows_step {A B} (m : M kernel A) (f : A -> M kernel B) k :
  shows m -> con_ready k -> exists a k', (m ≫= f) k = f a k' /\ drawn k k' /\ con_ready k'.
Proof.
  intros Hm Hk. destruct (Hm k Hk) as (a & k1 & E & D1 & C1). exists a, k1. by rewrite (bind_ret _ _ _ _ _ E).
Qed.

Create HintDb shows discriminated.
#[export] Hint Resolve shows_ret shows_gets shows_bind shows_newline shows_backspace : shows.
#[export] Hint Extern 1 (shows (console_print (cstr _))) => apply shows_lit; reflexivity : shows.
#[export] Hint Extern 1 (shows (console_print_num _)) =>
  apply shows_num; solve [apply ld64_range | apply u64_range | lia] : shows.
#[export] Hint Extern 3 (forall _, shows _) => intro : shows.

(** [sh_step HD HC]: step over a printing statement at the head of the goal's
    program, run from a state with [HC : con_ready k] that [HD : drawn k0 k]
    relates to the first one. *)
Ltac sh_step HD HC :=
  match goal with
  | |- context [(mbind ?f ?m) ?k] =>
      let a := fresh "a" in let k' := fresh "k" in let E := fresh in let D := fresh in let C := fresh in
      destruct (shows_step m f k) as (a & k' & E & D & C);
      [solve [auto with shows] | exact HC |];
      rewrite E; clear E;
      pose proof (drawn_trans _ _ _ HD D) as E; clear HD D; rename E into HD; clear HC; rename C into HC
  end.

(** ** What appears on the screen *)

(** 7-bit characters other than NUL. *)
Definition is_text (a : list Z) : Prop := Forall (fun c => 0 < c < 128) a.

Lemma is_text_char a : is_text a -> Forall is_char a /\ cstring (a ++ [0]) = Some a.
Proof.
  induction 1 as [| c a Hc _ [H1 H2]]; [done |]. split; [apply Forall_cons; split; [unfold is_char; lia | done] |].
  simpl. rewrite H2. by destruct (Z.eqb_spec c 0); [lia |].
Qed.

(** From [k] to [k'] exactly the characters [a] are printed. *)
Definition said (a : list Z) (k k' : kernel) : Prop := console_print (a ++ [0]) k = Ret tt k'.

(** The state in which console_print draws. *)
Definition held (k : kernel) : kernel := lk_set console_lock_ref 1 (masked k).

Lemma print_put k a :
  con_ready k -> is_text a ->
  exists m x y, put_all a (held k) = Ret tt (set_cursor x y (set_mem m (held k))) /\
    said a k (set_cursor x y (set_mem m k)) /\ text_ok (console (set_cursor x y (set_mem m k))).
Proof.
  intros [Ht Hl] Ha. destruct (is_text_char a Ha) as [Hc Hs].
  destruct (put_all_spec a (held k)) as (k2 & E & (m & x & y & -> & Hag) & T); [by destruct Ht | done |].
  exists m, x, y. split; [done |]. split; [| by destruct T].
  unfold said, console_print, with_console. rewrite bind_irq_save, bind_spin_lock by (simpl; by rewrite Hl).
  fold (held k). rewrite (bind_ret _ _ _ tt (set_cursor x y (set_mem m (held k)))) by (by rewrite (print_put_all _ a)).
  kstep. kstep. unfold mret, M_ret. f_equal. unfold held. keta k in Hl.
Qed.

Lemma put_all_app a b k : put_all (a ++ b) k = (put_all a;; put_all b) k.
Proof.
  revert k; induction a as [| c a IH]; intros k; [done |]. cbn [app put_all].
  unfold mbind, M_bind in *. destruct (console_putchar_unlocked c FOREGROUND k); [apply IH | done ..].
Qed.

(** Two texts one after the other are one text. *)
Lemma said_app a b k k1 k2 :
  con_ready k -> is_text a -> is_text b -> said a k k1 -> said b k1 k2 -> said (a ++ b) k k2.
Proof.
  intros HC Ha Hb H1 H2. destruct (print_put k a HC Ha) as (m & x & y & E1 & S1 & T1).
  assert (k1 = set_cursor x y (set_mem m k)) as -> by (unfold said in *; congruence).
  destruct (print_put _ b (conj T1 (proj2 HC)) Hb) as (m' & x' & y' & E2 & S2 & _).
  assert (k2 = set_cursor x' y' (set_mem m' (set_cursor x y (set_mem m k)))) as -> by (unfold said in *; congruence).
  assert (Hab : is_text (a ++ b)) by (by apply Forall_app).
  destruct (print_put k (a ++ b) HC Hab) as (m'' & x'' & y'' & E3 & S3 & _).
  rewrite put_all_app, (bind_ret _ _ _ _ _ E1) in E3.
  change (set_cursor x y (set_mem m (held k))) with (held (set_cursor x y (set_mem m k))) in E3.
  rewrite E2 in E3. unfold said in *. rewrite S3. injection E3 as Em Ex Ey. rewrite <- Em, <- Ex, <- Ey. keta k.
Qed.

(** [m] prints exactly the characters [a]. *)
Definition prints (a : list Z) (m : M kernel unit) : Prop :=
  is_text a /\ forall k, con_ready k -> m k = console_print (a ++ [0]) k.

Lemma said_drawn a k : con_ready k -> is_text a -> exists k', said a k k' /\ drawn k k' /\ con_ready k'.
Proof.
  intros HC Ha. destruct (is_text_char a Ha) as [Hc Hs].
  destruct (shows_print _ a Hs Hc k HC) as ([] & k' & E & D & C). by exists k'.
Qed.

Lemma prints_text a : is_text a -> prints a (console_print (a ++ [0])).
Proof. by split. Qed.
Lemma prints_lit s : forallb (fun c => (0 <? c) && (c <? 128)) (chars s) = true -> prints (chars s) (console_print (cstr s)).
Proof.
  intros H. apply prints_text. unfold is_text. induction (chars s) as [| c l IH]; [constructor |].
  simpl in H. zbool. apply Forall_cons. split; [lia | auto].
Qed.
Lemma prints_newline : prints [10] console_newline.
Proof.
  split; [apply Forall_cons; split; [lia | constructor] |]. intros k _. apply with_console_ext. intros k1.
  cbn [app console_print_unlocked Z.eqb]. unfold mbind, M_bind. by destruct (console_putchar_unlocked 10 FOREGROUND k1) as [[] | | |].
Qed.

(** The decimal digits of a number, without leading zeros. *)
Definition numeral (v : Z) (ds : list Z) : Prop :=
  decimal ds = v /\ Forall (fun d => 48 <= d <= 57) ds /\ (1 <= length ds <= 20)%nat /\ (head ds = Some 48 -> v = 0).

Lemma prints_num v : 0 <= v < 2 ^ 64 -> exists ds, numeral v ds /\ prints ds (console_print_num v).
Proof.
  intros Hv. destruct (print_num_digits v Hv) as (ds & E & H). exists ds. split; [done |]. split; [| done].
  destruct H as (_ & Hf & _). eapply Forall_impl; [exact Hf |]. simpl. lia.
Qed.

(** Run a printing statement at the head of a program, after [a] was printed. *)
Lemma prints_step {B} a b (m : M kernel unit) (f : unit -> M kernel B) k0 k :
  prints b m -> con_ready k0 -> is_text a -> said a k0 k -> drawn k0 k -> con_ready k ->
  exists k', (m ≫= f) k = f tt k' /\ is_text (a ++ b) /\ said (a ++ b) k0 k' /\ drawn k0 k' /\ con_ready k'.
Proof.
  intros [Hb Hm] HC0 Ha HS HD HC. destruct (said_drawn b k HC Hb) as (k' & S & D & C).
  exists k'. rewrite (bind_ret _ _ _ tt k') by (by rewrite Hm). split; [done |].
  split; [by apply Forall_app |]. split; [by eapply said_app |]. split; [by eapply drawn_trans | done].
Qed.

Lemma prints_bind a b m1 m2 : prints a m1 -> prints b m2 -> prints (a ++ b) (m1;; m2).
Proof.
  intros [Ha H1] [Hb H2]. split; [by apply Forall_app |]. intros k HC.
  destruct (said_drawn a k HC Ha) as (k1 & S1 & D1 & C1). destruct (said_drawn b k1 C1 Hb) as (k2 & S2 & _).
  rewrite (bind_ret _ _ _ tt k1) by (by rewrite H1). rewrite H2 by done. rewrite S2. symmetry. by eapply said_app.
Qed.

Lemma prints_run a m k :
  prints a m -> con_ready k -> exists k', m k = Ret tt k' /\ said a k k' /\ drawn k k' /\ con_ready k'.
Proof.
  intros [Ha Hm] HC. destruct (said_drawn a k HC Ha) as (k' & S & D & C). exists k'. by rewrite Hm.
Qed.

(** ** Theorems *)

(** C23: console_print on a C string of 7-bit characters returns for every
    string and every cursor: it writes only bytes of the framebuffer, changes
    nothing else of the kernel but the cursor, releases the lock and restores
    the interrupt flag, and leaves the cursor where the next character lies on
    the screen again. *)
Theorem console_print_correct k s a :
  text_ok (console k) -> console_lock (console k) = 0 -> cstring s = Some a -> Forall is_char a ->
  exists k', console_print s k = Ret tt k' /\ drawn k k' /\ text_ok (console k').
Proof.
  intros Ht Hl Hs Ha. destruct (shows_print s a Hs Ha k (conj Ht Hl)) as ([] & k' & E & D & [T _]). by exists k'.
Qed.

Definition small_screen : kernel :=
  (initial_kernel (plain_hw ∅)) <| console := Console 0x100000 64 48 80 10 10 0 |>.

Lemma small_screen_ok : text_ok (console small_screen).
Proof. constructor; simpl; unfold CHAR_WIDTH, CHAR_HEIGHT, FONT_SCALE; lia. Qed.

Lemma console_print_correct_witness :
  exists k', console_print (cstr "Barium") small_screen = Ret tt k' /\ drawn small_screen k' /\
    text_ok (console k').
Proof.
  apply (console_print_correct small_screen (cstr "Barium") (chars "Barium"));
    [apply small_screen_ok | reflexivity | reflexivity |]. repeat constructor; unfold is_char; lia.
Defined.

(** console_print_num prints a 64-bit number exactly as console_print
    prints the C string of its decimal digits, most significant first and
    without a leading zero; the digits never outgrow the 32 byte buffer. *)
Theorem console_print_num_correct k val :
  0 <= val < 2 ^ 64 ->
  exists ds, console_print_num val k = console_print (ds ++ [0]) k /\ decimal ds = val /\
    Forall (fun d => 48 <= d <= 57) ds /\ (1 <= length ds <= 20)%nat /\ (head ds = Some 48 -> val = 0).
Proof.
  intros Hv. destruct (print_num_digits val Hv) as (ds & E & H). exists ds. by rewrite E.
Qed.

Lemma console_print_num_correct_witness :
  exists ds, console_print_num 4096 small_screen = console_print (ds ++ [0]) small_screen /\ decimal ds = 4096 /\
    Forall (fun d => 48 <= d <= 57) ds /\ (1 <= length ds <= 20)%nat /\ (head ds = Some 48 -> 4096 = 0).
Proof. apply (console_print_num_correct small_screen 4096). lia. Defined.
