(* ===== verification/Pmm.v ===== *)
(** pmm.c: the physical page allocator.

    One bit per 4 KiB page, set when the page is in use, in a bitmap that
    itself lives in physical memory at [bitmap].  Bit operations are functions
    of the memory and the bitmap address; the entry points are kernel
    operations with the interrupt flag and the lock as the code has them. *)

From S2P Require Import Prelude Memory State Lib.

Definition pmm_lock_ref : spinlock_ref := {|
  lk_get := fun k => Some (pmm_lock (pmm k));
  lk_set := fun v k => k <| pmm ::= fun p => p <| pmm_lock := v |> |>
|}.

(** ** Bits *)

Definition bitmap_set (bm page : Z) (m : mem) : mem :=
  let a := bm + page / 8 in
  st8 m a (Z.lor (ld8 m a) (Z.shiftl 1 (page mod 8))).

Definition bitmap_clear (bm page : Z) (m : mem) : mem :=
  let a := bm + page / 8 in
  st8 m a (Z.land (ld8 m a) (Z.lnot (Z.shiftl 1 (page mod 8)))).

Definition bitmap_test (bm page : Z) (m : mem) : bool :=
  negb (Z.land (ld8 m (bm + page / 8)) (Z.shiftl 1 (page mod 8)) =? 0).

(** The loops [for (j = 0; j < n; j++) op(page + j)], for bitmap_set and
    bitmap_clear. *)
Fixpoint for_pages (op : Z -> Z -> mem -> mem) (n : nat) (bm page : Z) (m : mem) : mem :=
  match n with
  | O => m
  | S n' => for_pages op n' bm (u64 (page + 1)) (op bm page m)
  end.

Definition set_pages := for_pages bitmap_set.
Definition clear_pages := for_pages bitmap_clear.

(** ** pmm_alloc, pmm_free *)

(** The inner loop of pmm_alloc: the least [j] from the given one whose page
    [i + j] is in use, [None] when all [n] remaining pages are free. *)
Fixpoint probe (n : nat) (bm i j : Z) (m : mem) : option Z :=
  match n with
  | O => None
  | S n' => if bitmap_test bm (u64 (i + j)) m then Some j
            else probe n' bm i (j + 1) m
  end.

(** The outer loop: [for (; i < bound; i++)], skipping to the page that made
    the window fail.  The inner [option] is the result of the loop. *)
Fixpoint search (fuel : nat) (bm i bound count : Z) (m : mem)
  : option (option Z) :=
  match fuel with
  | O => None
  | S fuel' =>
      if i <? bound then
        match probe (Z.to_nat count) bm i 0 m with
        | None => Some (Some i)
        | Some j => search fuel' bm (u64 (u64 (i + j) + 1)) bound count m
        end
      else Some None
  end.

Definition search_fuel (i bound : Z) : nat := S (Z.to_nat (bound - i)).

(** The block run when a window was found, up to the return. *)
Definition pmm_take (i count : Z) : M kernel unit :=
  modify (fun k =>
    set_mem (set_pages (Z.to_nat count) (bitmap (pmm k)) i (mem_of k)) k
    <| pmm ::= fun p => p <| free_pages ::= fun f => u64 (f - count) |>
                          <| last_search_index := u64 (i + count) |> |>).

Definition pmm_alloc (count : Z) : M kernel Z :=
  flags ← b_irq_save;
  spin_lock pmm_lock_ref;;
  p ← gets pmm;
  m ← gets mem_of;
  let start_index := last_search_index p in
  let bound := u64 (total_pages p - count) in
  match search (search_fuel start_index bound) (bitmap p) start_index bound count m with
  | None => nofuel
  | Some (Some i) =>
      pmm_take i count;;
      spin_unlock pmm_lock_ref;;
      b_irq_restore flags;;
      mret (u64 (i * 4096))
  | Some None =>
      match search (search_fuel 0 start_index) (bitmap p) 0 start_index count m with
      | None => nofuel
      | Some (Some i) =>
          pmm_take i count;;
          spin_unlock pmm_lock_ref;;
          b_irq_restore flags;;
          mret (u64 (i * 4096))
      | Some None =>
          spin_unlock pmm_lock_ref;;
          b_irq_restore flags;;
          mret 0
      end
  end.

Definition pmm_free (ptr count : Z) : M kernel unit :=
  flags ← b_irq_save;
  spin_lock pmm_lock_ref;;
  modify (fun k =>
    set_mem (clear_pages (Z.to_nat count) (bitmap (pmm k)) (ptr / 4096) (mem_of k)) k
    <| pmm ::= fun p => p <| free_pages ::= fun f => u64 (f + count) |> |>);;
  spin_unlock pmm_lock_ref;;
  b_irq_restore flags.

Definition pmm_get_free_memory (k : kernel) : Z := u64 (free_pages (pmm k) * 4096).
Definition pmm_get_used_memory (k : kernel) : Z :=
  u64 (u64 (usable_pages (pmm k) - free_pages (pmm k)) * 4096).
Definition pmm_get_total_memory (k : kernel) : Z := u64 (usable_pages (pmm k) * 4096).
Definition pmm_get_highest_address (k : kernel) : Z := highest_phys_address (pmm k).

(** ** Lemmas: bits *)

Lemma land_pow2_testbit x n :
  0 <= n -> negb (Z.land x (Z.shiftl 1 n) =? 0) = Z.testbit x n.
Proof.
  intros Hn. rewrite Z.shiftl_1_l.
  destruct (Z.testbit x n) eqn:E.
  - apply negb_true_iff, Z.eqb_neq. intros H0.
    assert (Hb : Z.testbit (Z.land x (2 ^ n)) n = false) by (rewrite H0; apply Z.bits_0).
    rewrite Z.land_spec, E, Z.pow2_bits_true in Hb by lia. done.
  - apply negb_false_iff, Z.eqb_eq. apply Z.bits_inj'; intros i Hi.
    rewrite Z.land_spec, Z.bits_0, Z.pow2_bits_eqb by lia.
    destruct (Z.eqb_spec n i) as [<- | ?]; [by rewrite E | apply andb_false_r].
Qed.

Lemma bitmap_test_bit bm p m :
  bitmap_test bm p m = Z.testbit (ld8 m (bm + p / 8)) (p mod 8).
Proof. apply land_pow2_testbit, Z.mod_pos_bound. lia. Qed.

Lemma testbit_u8 x n : 0 <= n < 8 -> Z.testbit (u8 x) n = Z.testbit x n.
Proof. intros. apply Z.mod_pow2_bits_low. lia. Qed.

Lemma page_split p q : p / 8 = q / 8 -> p mod 8 = q mod 8 -> p = q.
Proof. intros. pose proof (Z.div_mod p 8). pose proof (Z.div_mod q 8). lia. Qed.

Lemma bitmap_test_set bm p q m :
  bitmap_test bm q (bitmap_set bm p m) = (p =? q) || bitmap_test bm q m.
Proof.
  rewrite !bitmap_test_bit. unfold bitmap_set. rewrite ld8_st8.
  pose proof (Z.mod_pos_bound q 8 ltac:(lia)).
  pose proof (Z.mod_pos_bound p 8 ltac:(lia)).
  destruct (Z.eqb_spec (bm + p / 8) (bm + q / 8)) as [E | E].
  - rewrite testbit_u8, Z.lor_spec, Z.shiftl_1_l, Z.pow2_bits_eqb, E by lia.
    destruct (Z.eqb_spec p q) as [-> | Hne].
    + rewrite Z.eqb_refl. apply orb_true_r.
    + destruct (Z.eqb_spec (p mod 8) (q mod 8)); [| by rewrite orb_false_r].
      exfalso. apply Hne, page_split; lia.
  - destruct (Z.eqb_spec p q) as [-> | ?]; [lia | done].
Qed.

Lemma bitmap_test_clear bm p q m :
  bitmap_test bm q (bitmap_clear bm p m) = negb (p =? q) && bitmap_test bm q m.
Proof.
  rewrite !bitmap_test_bit. unfold bitmap_clear. rewrite ld8_st8.
  pose proof (Z.mod_pos_bound q 8 ltac:(lia)).
  pose proof (Z.mod_pos_bound p 8 ltac:(lia)).
  destruct (Z.eqb_spec (bm + p / 8) (bm + q / 8)) as [E | E].
  - rewrite testbit_u8, Z.land_spec, Z.lnot_spec, Z.shiftl_1_l, Z.pow2_bits_eqb, E by lia.
    destruct (Z.eqb_spec p q) as [-> | Hne].
    + rewrite Z.eqb_refl. apply andb_false_r.
    + destruct (Z.eqb_spec (p mod 8) (q mod 8)); [| by rewrite andb_true_r].
      exfalso. apply Hne, page_split; lia.
  - destruct (Z.eqb_spec p q) as [-> | ?]; [lia | done].
Qed.

(** Membership in the window of [n] pages from [page]. *)
Definition in_window (page n q : Z) : bool := (page <=? q) && (q <? page + n).

Lemma in_window_cons page n q :
  0 <= n -> in_window page (n + 1) q = (page =? q) || in_window (page + 1) n q.
Proof.
  intros. unfold in_window.
  destruct (Z.leb_spec page q), (Z.ltb_spec q (page + (n + 1))),
    (Z.eqb_spec page q), (Z.leb_spec (page + 1) q), (Z.ltb_spec q (page + 1 + n));
    simpl; try done; lia.
Qed.

Lemma in_window_0 page q : in_window page 0 q = false.
Proof.
  unfold in_window. destruct (Z.leb_spec page q), (Z.ltb_spec q (page + 0));
    simpl; try done; lia.
Qed.

Lemma in_window_spec page n q : in_window page n q = true <-> page <= q < page + n.
Proof. unfold in_window. rewrite andb_true_iff, Z.leb_le, Z.ltb_lt. lia. Qed.

(** A page loop under an observation [obs] of page [q] that each step combines
    with [comb], which is idempotent enough to reorder. *)
Lemma for_pages_test (op : Z -> Z -> mem -> mem) (comb : bool -> bool -> bool) bm q :
  (forall p m, bitmap_test bm q (op bm p m) = comb (p =? q) (bitmap_test bm q m)) ->
  (forall b, comb false b = b) ->
  (forall x y b, comb x (comb y b) = comb (y || x) b) ->
  forall n page m, 0 <= page -> page + Z.of_nat n <= 2 ^ 64 ->
  bitmap_test bm q (for_pages op n bm page m) =
  comb (in_window page (Z.of_nat n) q) (bitmap_test bm q m).
Proof.
  intros Hop H0 Hc. induction n as [| n IH]; intros page m Hp Hn.
  { cbn [for_pages]. by rewrite in_window_0, H0. }
  cbn [for_pages]. rewrite Nat2Z.inj_succ. unfold Z.succ. rewrite in_window_cons by lia.
  destruct (decide (page + 1 = 2 ^ 64)) as [Hw | Hw].
  - assert (n = O) as -> by lia. cbn [for_pages].
    change (Z.of_nat 0) with 0. by rewrite in_window_0, orb_false_r.
  - by rewrite u64_small, IH, Hop, Hc by lia.
Qed.

Lemma set_pages_test n bm page m q :
  0 <= page -> page + Z.of_nat n <= 2 ^ 64 ->
  bitmap_test bm q (set_pages n bm page m) =
  in_window page (Z.of_nat n) q || bitmap_test bm q m.
Proof.
  apply (for_pages_test bitmap_set orb).
  - intros. apply bitmap_test_set.
  - done.
  - by intros [] [] [].
Qed.

Lemma clear_pages_test n bm page m q :
  0 <= page -> page + Z.of_nat n <= 2 ^ 64 ->
  bitmap_test bm q (clear_pages n bm page m) =
  negb (in_window page (Z.of_nat n) q) && bitmap_test bm q m.
Proof.
  apply (for_pages_test bitmap_clear (fun x b => negb x && b)).
  - intros. apply bitmap_test_clear.
  - done.
  - by intros [] [] [].
Qed.

(** The bytes a page loop may touch. *)
Lemma for_pages_frame op n bm page m :
  (forall p m, agree_out (bm + p / 8) (bm + p / 8 + 1) m (op bm p m)) ->
  0 <= page -> page + Z.of_nat n <= 2 ^ 64 ->
  agree_out (bm + page / 8) (bm + (page + Z.of_nat n + 7) / 8) m (for_pages op n bm page m).
Proof.
  intros Hop. revert page m; induction n as [| n IH]; intros page m Hp Hn; [done |].
  cbn [for_pages]. rewrite Nat2Z.inj_succ in *. unfold Z.succ in *.
  assert (H1 : agree_out (bm + page / 8) (bm + (page + (Z.of_nat n + 1) + 7) / 8)
                 m (op bm page m)).
  { eapply agree_out_sub; [| | apply Hop]; [lia |].
    assert (page / 8 + 1 <= (page + (Z.of_nat n + 1) + 7) / 8).
    { apply Z.div_le_lower_bound; [lia |].
      pose proof (Z.mul_div_le page 8). lia. }
    lia. }
  etransitivity; [exact H1 |].
  destruct (decide (page + 1 = 2 ^ 64)) as [Hw | Hw].
  - assert (n = O) as -> by lia. done.
  - rewrite u64_small by lia.
    eapply agree_out_sub; [| | apply IH; lia]; apply Z.add_le_mono_l, Z.div_le_mono; lia.
Qed.

Lemma set_pages_frame n bm page m :
  0 <= page -> page + Z.of_nat n <= 2 ^ 64 ->
  agree_out (bm + page / 8) (bm + (page + Z.of_nat n + 7) / 8) m (set_pages n bm page m).
Proof. apply for_pages_frame. intros. apply agree_out_st8. Qed.

Lemma clear_pages_frame n bm page m :
  0 <= page -> page + Z.of_nat n <= 2 ^ 64 ->
  agree_out (bm + page / 8) (bm + (page + Z.of_nat n + 7) / 8) m (clear_pages n bm page m).
Proof. apply for_pages_frame. intros. apply agree_out_st8. Qed.

(** ** Reference search

    [first_fit] tries every start page in turn, without the code's skip. *)

Fixpoint window_free (n : nat) (bm i : Z) (m : mem) : bool :=
  match n with
  | O => true
  | S n' => negb (bitmap_test bm i m) && window_free n' bm (i + 1) m
  end.

Fixpoint first_fit (n : nat) (bm i count : Z) (m : mem) : option Z :=
  match n with
  | O => None
  | S n' => if window_free (Z.to_nat count) bm i m then Some i
            else first_fit n' bm (i + 1) count m
  end.

Lemma window_free_true n bm i m :
  window_free n bm i m = true <->
  forall q, i <= q < i + Z.of_nat n -> bitmap_test bm q m = false.
Proof.
  revert i; induction n as [| n IH]; intros i; cbn [window_free].
  { split; [intros _ q Hq; lia | done]. }
  rewrite andb_true_iff, negb_true_iff, IH. split.
  - intros [H0 H] q Hq. destruct (decide (q = i)) as [-> | ?]; [done | apply H; lia].
  - intros H. split; [apply H; lia |]. intros q Hq. apply H. lia.
Qed.

Lemma window_free_used n bm i m p :
  i <= p < i + Z.of_nat n -> bitmap_test bm p m = true -> window_free n bm i m = false.
Proof.
  intros Hp Ht. apply not_true_is_false. rewrite window_free_true.
  intros H. rewrite H in Ht; done.
Qed.

Lemma window_free_false n bm i m :
  window_free n bm i m = false ->
  exists q, i <= q < i + Z.of_nat n /\ bitmap_test bm q m = true.
Proof.
  revert i; induction n as [| n IH]; intros i; cbn [window_free]; [done |].
  destruct (bitmap_test bm i m) eqn:E; simpl.
  - exists i. split; [lia | done].
  - intros H. destruct (IH _ H) as (q & ? & ?). exists q. split; [lia | done].
Qed.

Lemma probe_spec n bm i j m :
  0 <= i -> 0 <= j -> i + j + Z.of_nat n <= 2 ^ 64 ->
  match probe n bm i j m with
  | None => window_free n bm (i + j) m = true
  | Some j' => j <= j' < j + Z.of_nat n /\ bitmap_test bm (i + j') m = true
  end.
Proof.
  revert j; induction n as [| n IH]; intros j Hi Hj Hn; [done |].
  cbn [probe window_free]. rewrite u64_small by lia.
  destruct (bitmap_test bm (i + j) m) eqn:E; [split; [lia | done] |].
  specialize (IH (j + 1) ltac:(lia) ltac:(lia) ltac:(lia)).
  destruct (probe n bm i (j + 1) m) as [j' |].
  - destruct IH. split; [lia | done].
  - simpl. by rewrite <- Z.add_assoc.
Qed.

(** A used page rules out every window that covers it. *)
Lemma first_fit_skip s n bm i count m p :
  i + Z.of_nat s <= p + 1 -> p < i + count -> bitmap_test bm p m = true ->
  first_fit (s + n) bm i count m = first_fit n bm (i + Z.of_nat s) count m.
Proof.
  revert i; induction s as [| s IH]; intros i Hs Hc Ht.
  { by rewrite Z.add_0_r. }
  cbn [first_fit Nat.add].
  rewrite (window_free_used _ _ _ _ p) by (done || lia).
  rewrite IH by (done || lia). f_equal. lia.
Qed.

Lemma search_first_fit fuel bm i bound count m :
  0 <= i -> 0 <= count -> bound + count <= 2 ^ 64 ->
  (search_fuel i bound <= fuel)%nat ->
  search fuel bm i bound count m =
  Some (first_fit (Z.to_nat (bound - i)) bm i count m).
Proof.
  unfold search_fuel. revert i; induction fuel as [| fuel IH]; intros i Hi Hc Hb Hf; [lia |].
  cbn [search]. destruct (Z.ltb_spec i bound) as [Hlt | Hge].
  2:{ replace (Z.to_nat (bound - i)) with O by lia. done. }
  pose proof (probe_spec (Z.to_nat count) bm i 0 m Hi ltac:(lia) ltac:(lia)) as HP.
  destruct (probe (Z.to_nat count) bm i 0 m) as [j |].
  - destruct HP as [Hj Ht]. rewrite (u64_small (i + j)), u64_small by lia.
    rewrite IH by lia. f_equal.
    destruct (decide (i + j + 1 <= bound)) as [Hle | Hgt].
    + replace (Z.to_nat (bound - i))
        with (Z.to_nat (j + 1) + Z.to_nat (bound - (i + j + 1)))%nat by lia.
      rewrite (first_fit_skip _ _ _ _ _ _ (i + j)) by (done || lia). f_equal. lia.
    + replace (Z.to_nat (bound - (i + j + 1))) with O by lia.
      replace (Z.to_nat (bound - i)) with (Z.to_nat (bound - i) + 0)%nat by lia.
      by rewrite (first_fit_skip _ _ _ _ _ _ (i + j)) by (done || lia).
  - rewrite Z.add_0_r in HP.
    destruct (Z.to_nat (bound - i)) eqn:E; [lia |]. cbn [first_fit]. by rewrite HP.
Qed.

Lemma first_fit_Some n bm i count m r :
  first_fit n bm i count m = Some r ->
  i <= r < i + Z.of_nat n /\ window_free (Z.to_nat count) bm r m = true /\
  forall r', i <= r' < r -> window_free (Z.to_nat count) bm r' m = false.
Proof.
  revert i; induction n as [| n IH]; intros i H; [done |].
  cbn [first_fit] in H. destruct (window_free (Z.to_nat count) bm i m) eqn:E.
  - injection H as <-. split; [lia |]. split; [done |]. intros r' ?; lia.
  - destruct (IH _ H) as (Hr & Hw & Hmin). split; [lia |]. split; [done |].
    intros r' Hr'. destruct (decide (r' = i)) as [-> | ?]; [done | apply Hmin; lia].
Qed.

Lemma first_fit_None n bm i count m :
  first_fit n bm i count m = None ->
  forall r, i <= r < i + Z.of_nat n -> window_free (Z.to_nat count) bm r m = false.
Proof.
  revert i; induction n as [| n IH]; intros i H r Hr; [lia |].
  cbn [first_fit] in H. destruct (window_free (Z.to_nat count) bm i m) eqn:E; [done |].
  destruct (decide (r = i)) as [-> | ?]; [done | apply (IH _ H); lia].
Qed.

(** ** What pmm_alloc computes *)

(** The page pmm_alloc picks: the first window at or after the last one
    handed out, else the first one from page 0. *)
Definition alloc_choice (k : kernel) (count : Z) : option Z :=
  let p := pmm k in
  match first_fit (Z.to_nat (total_pages p - count - last_search_index p))
          (bitmap p) (last_search_index p) count (mem_of k) with
  | Some i => Some i
  | None => first_fit (Z.to_nat (last_search_index p)) (bitmap p) 0 count (mem_of k)
  end.

Definition took (i count : Z) (k : kernel) : kernel :=
  set_mem (set_pages (Z.to_nat count) (bitmap (pmm k)) i (mem_of k)) k
  <| pmm ::= fun p => p <| free_pages ::= fun f => u64 (f - count) |>
                        <| last_search_index := i + count |> |>.

(** The ranges of the allocator's variables. *)
Record pmm_ranges (p : pmm_t) : Prop := {
  rg_total : 0 <= total_pages p <= 2 ^ 51;
  rg_last : 0 <= last_search_index p <= total_pages p;
  rg_free : 0 <= free_pages p <= total_pages p
}.

Lemma alloc_choice_range k count i :
  pmm_ranges (pmm k) -> 0 <= count <= total_pages (pmm k) ->
  alloc_choice k count = Some i ->
  0 <= i /\ (i + count < total_pages (pmm k) \/ i < last_search_index (pmm k)) /\
  window_free (Z.to_nat count) (bitmap (pmm k)) i (mem_of k) = true.
Proof.
  intros [] Hc. unfold alloc_choice.
  destruct (first_fit _ _ (last_search_index _) _ _) as [i1 |] eqn:E1.
  - intros [= <-]. apply first_fit_Some in E1 as (? & ? & _). split; [lia |].
    split; [left; lia | done].
  - intros E2. apply first_fit_Some in E2 as (? & ? & _). split; [lia |].
    split; [right; lia | done].
Qed.

(** Taking the lock and giving it back, with nothing in between. *)
Lemma pmm_relock k :
  pmm_lock (pmm k) = 0 ->
  set_rflags (hw_rflags (hw k)) (lk_set pmm_lock_ref 0 (lk_set pmm_lock_ref 1 (masked k))) = k.
Proof. intros Hl. keta k in Hl. Qed.

(** The tail of both search loops. *)
Lemma pmm_finish k i count :
  pmm_lock (pmm k) = 0 -> 0 <= i < 2 ^ 52 -> 0 <= i + count < 2 ^ 64 ->
  (pmm_take i count;; spin_unlock pmm_lock_ref;;
   b_irq_restore (hw_rflags (hw k));; mret (u64 (i * 4096)))
    (lk_set pmm_lock_ref 1 (masked k)) =
  Ret (i * 4096) (took i count k).
Proof.
  intros Hl Hi Hc. unfold pmm_take. do 3 kstep.
  rewrite (u64_small (i * 4096)), (u64_small (i + count)) by lia.
  keta k in Hl.
Qed.

Lemma pmm_alloc_eq k count :
  pmm_ranges (pmm k) -> pmm_lock (pmm k) = 0 -> 0 <= count <= total_pages (pmm k) ->
  pmm_alloc count k =
  match alloc_choice k count with
  | None => Ret 0 k
  | Some i => Ret (i * 4096) (took i count k)
  end.
Proof.
  intros Hr Hl Hc. pose proof (fun i => alloc_choice_range k count i Hr Hc) as Hrange.
  destruct Hr as [Ht Hla Hfr].
  unfold pmm_alloc. do 4 kstep. cbv zeta.
  change (pmm (lk_set pmm_lock_ref 1 (masked k))) with ((pmm k) <| pmm_lock := 1 |>).
  change (mem_of (lk_set pmm_lock_ref 1 (masked k))) with (mem_of k).
  cbn [last_search_index total_pages bitmap over].
  rewrite (u64_small (total_pages (pmm k) - count)) by lia.
  rewrite !search_first_fit by (done || lia).
  unfold alloc_choice in *. rewrite Z.sub_0_r in *.
  repeat (case_match; simplify_eq);
    try (specialize (Hrange _ eq_refl); apply pmm_finish; [done | lia | lia]).
  do 2 kstep. unfold mret, M_ret. by rewrite pmm_relock.
Qed.

(** ** Accounting and the invariant *)

(** The number of clear bits among the first [n] pages. *)
Fixpoint count_free (n : nat) (used : Z -> bool) : Z :=
  match n with
  | O => 0
  | S n' => (if used (Z.of_nat n') then 0 else 1) + count_free n' used
  end.

Lemma count_free_ext n f g :
  (forall q, 0 <= q < Z.of_nat n -> f q = g q) -> count_free n f = count_free n g.
Proof.
  induction n as [| n IH]; intros H; [done |]. cbn [count_free].
  rewrite IH, (H (Z.of_nat n)) by (intros; try apply H; lia). done.
Qed.

Lemma count_free_set n f p :
  0 <= p < Z.of_nat n -> f p = false ->
  count_free n (fun q => (p =? q) || f q) = count_free n f - 1.
Proof.
  induction n as [| n IH]; intros Hp Hf; [lia |]. cbn [count_free].
  destruct (decide (p = Z.of_nat n)) as [-> | Hne].
  - rewrite Z.eqb_refl, Hf. simpl.
    rewrite (count_free_ext n _ f); [lia |].
    intros q Hq. destruct (Z.eqb_spec (Z.of_nat n) q); [lia | done].
  - rewrite IH by (done || lia).
    destruct (Z.eqb_spec p (Z.of_nat n)); [lia |]. simpl. lia.
Qed.

Lemma count_free_window c n f i :
  0 <= i -> i + Z.of_nat c <= Z.of_nat n ->
  (forall q, i <= q < i + Z.of_nat c -> f q = false) ->
  count_free n (fun q => in_window i (Z.of_nat c) q || f q) =
  count_free n f - Z.of_nat c.
Proof.
  revert i; induction c as [| c IH]; intros i Hi Hc Hf.
  { rewrite (count_free_ext n _ f); [lia |]. intros. by rewrite in_window_0. }
  rewrite (count_free_ext n _ (fun q => (i =? q) || (in_window (i + 1) (Z.of_nat c) q || f q))).
  2:{ intros q Hq. rewrite Nat2Z.inj_succ. unfold Z.succ.
      rewrite in_window_cons, orb_assoc by lia. done. }
  rewrite count_free_set, IH; try lia.
  - intros q Hq. apply Hf. lia.
  - rewrite Hf by lia. rewrite orb_false_r. unfold in_window.
    destruct (Z.leb_spec (i + 1) i); [lia | done].
Qed.

Lemma count_free_bounds n f : 0 <= count_free n f <= Z.of_nat n.
Proof. induction n as [| n IH]; cbn [count_free]; [lia |]. destruct (f _); lia. Qed.

(** Is page [q] in use? *)
Definition used (k : kernel) (q : Z) : bool := bitmap_test (bitmap (pmm k)) q (mem_of k).

(** The allocator's invariant: the counters agree with the bitmap, and the
    pages that hold the bitmap are themselves in use. *)
Record pmm_inv (k : kernel) : Prop := {
  inv_ranges : pmm_ranges (pmm k);
  inv_base : 0 < bitmap (pmm k);
  inv_count : free_pages (pmm k) = count_free (Z.to_nat (total_pages (pmm k))) (used k);
  inv_self : forall b, bitmap (pmm k) <= b < bitmap (pmm k) + (total_pages (pmm k) + 7) / 8 ->
    b / 4096 < total_pages (pmm k) /\ used k (b / 4096) = true;
  inv_null : used k 0 = true
}.

(** What keeps the second search pass, which is bounded by where the first one
    started and not by the end of memory, from returning a window that crosses
    it: the page after the last one reads as used, or the first pass started
    early enough.  A single page always satisfies it. *)
Definition no_overrun (k : kernel) (count : Z) : Prop :=
  used k (total_pages (pmm k)) = true \/
  last_search_index (pmm k) + count <= total_pages (pmm k) + 1.

Lemma used_took i count k q :
  0 <= i -> 0 <= count -> i + count <= 2 ^ 64 ->
  used (took i count k) q = in_window i count q || used k q.
Proof.
  intros. unfold used, took, mem_of. simpl.
  rewrite set_pages_test by lia. by rewrite Z2Nat.id by done.
Qed.

(** The window picked: free, never page 0, and inside memory unless the second
    pass, which only the start of the first one bounds, ran over the end, where
    the bit after the last page reads as free. *)
Lemma choice_window k count i :
  pmm_inv k -> 0 < count <= total_pages (pmm k) -> alloc_choice k count = Some i ->
  0 < i < total_pages (pmm k) /\ (forall q, i <= q < i + count -> used k q = false) /\
  (total_pages (pmm k) < i + count ->
     1 < count /\ i < last_search_index (pmm k) /\ used k (total_pages (pmm k)) = false).
Proof.
  intros [Hr _ _ _ Hnull] Hc Hi.
  apply alloc_choice_range in Hi as (Hi & Hb & Hw); [| done | lia].
  rewrite window_free_true, Z2Nat.id in Hw by lia. destruct Hr.
  assert (i <> 0) by (intros ->; unfold used in Hnull; rewrite Hw in Hnull by lia; done).
  split; [lia |]. split; [exact Hw |]. intros Hgt.
  split; [lia |]. split; [lia |]. apply Hw. lia.
Qed.

Lemma choice_in_range k count i :
  pmm_inv k -> 0 < count <= total_pages (pmm k) -> no_overrun k count ->
  alloc_choice k count = Some i ->
  0 < i /\ i + count <= total_pages (pmm k) /\
  forall q, i <= q < i + count -> used k q = false.
Proof.
  intros HI Hc Hs Hi. destruct (choice_window k count i HI Hc Hi) as (H0 & Hf & Ho).
  split; [lia |]. split; [| exact Hf].
  destruct (decide (i + count <= total_pages (pmm k))) as [| Hgt]; [done |].
  destruct Ho as (_ & Hl & Hu); [lia |]. destruct Hs as [Hs |]; [by rewrite Hu in Hs | lia].
Qed.

Lemma took_inv k count i :
  pmm_inv k -> 0 < count -> 0 <= i -> i + count <= total_pages (pmm k) ->
  (forall q, i <= q < i + count -> used k q = false) ->
  pmm_inv (took i count k).
Proof.
  intros [Hr Hbase Hcnt Hself Hnull] Hc Hi Hb Hfree.
  assert (Hu : forall q, used (took i count k) q = in_window i count q || used k q).
  { intros q. apply used_took; destruct Hr; lia. }
  assert (Hcnt' : count_free (Z.to_nat (total_pages (pmm k))) (used (took i count k))
                  = free_pages (pmm k) - count).
  { rewrite (count_free_ext _ _ _ (fun q _ => Hu q)), Hcnt.
    pose proof (count_free_window (Z.to_nat count) (Z.to_nat (total_pages (pmm k)))
                  (used k) i) as H. rewrite Z2Nat.id in H by lia.
    apply H; [lia | rewrite Z2Nat.id by lia; lia | done]. }
  pose proof (count_free_bounds (Z.to_nat (total_pages (pmm k))) (used (took i count k))) as Hpos.
  destruct Hr as [Ht Hl Hf].
  constructor.
  - constructor; simpl; [lia | lia |]. rewrite u64_small by lia. lia.
  - exact Hbase.
  - simpl. rewrite u64_small by lia. symmetry. exact Hcnt'.
  - intros b Hbb. destruct (Hself b Hbb) as [Hlt Hus]. split; [exact Hlt |].
    rewrite Hu, Hus. apply orb_true_r.
  - rewrite Hu, Hnull. apply orb_true_r.
Qed.

(** Only bytes of the bitmap change. *)
Lemma took_frame k count i :
  0 <= i -> 0 <= count -> i + count <= total_pages (pmm k) -> total_pages (pmm k) <= 2 ^ 51 ->
  agree_out (bitmap (pmm k)) (bitmap (pmm k) + (total_pages (pmm k) + 7) / 8)
    (mem_of k) (mem_of (took i count k)).
Proof.
  intros. unfold took, mem_of. simpl.
  eapply agree_out_sub; [| | apply set_pages_frame]; try lia.
  - pose proof (Z.div_pos i 8). lia.
  - rewrite Z2Nat.id by lia. apply Z.add_le_mono_l, Z.div_le_mono; lia.
Qed.

(** ** pmm_free *)

Definition freed (page count : Z) (k : kernel) : kernel :=
  set_mem (clear_pages (Z.to_nat count) (bitmap (pmm k)) page (mem_of k)) k
  <| pmm ::= fun p => p <| free_pages ::= fun f => u64 (f + count) |> |>.

Lemma pmm_free_eq k ptr count :
  pmm_lock (pmm k) = 0 -> pmm_free ptr count k = Ret tt (freed (ptr / 4096) count k).
Proof.
  intros Hl. unfold pmm_free. do 4 kstep. unfold b_irq_restore, modify.
  keta k in Hl.
Qed.

Lemma used_freed page count k q :
  0 <= page -> 0 <= count -> page + count <= 2 ^ 64 ->
  used (freed page count k) q = negb (in_window page count q) && used k q.
Proof.
  intros. unfold used, freed, mem_of. simpl.
  rewrite clear_pages_test by lia. by rewrite Z2Nat.id by done.
Qed.

Lemma count_free_clear c n f i :
  0 <= i -> 0 <= c -> i + c <= Z.of_nat n ->
  (forall q, i <= q < i + c -> f q = true) ->
  count_free n (fun q => negb (in_window i c q) && f q) = count_free n f + c.
Proof.
  intros Hi Hc Hn Hf.
  pose proof (count_free_window (Z.to_nat c) n (fun q => negb (in_window i c q) && f q) i) as H.
  rewrite Z2Nat.id in H by lia.
  rewrite (count_free_ext n f (fun q => in_window i c q || (negb (in_window i c q) && f q))).
  - rewrite H; [lia | lia | lia |]. intros q Hq. apply in_window_spec in Hq. by rewrite Hq.
  - intros q Hq. destruct (in_window i c q) eqn:E; simpl; [| done].
    apply Hf, in_window_spec, E.
Qed.

(** Freeing pages in use that hold neither the bitmap nor page 0 keeps the
    invariant. *)
Lemma freed_inv k page count :
  pmm_inv k -> 0 < page -> 0 <= count -> page + count <= total_pages (pmm k) ->
  (forall q, page <= q < page + count -> used k q = true) ->
  (forall b, bitmap (pmm k) <= b < bitmap (pmm k) + (total_pages (pmm k) + 7) / 8 ->
     ~ page <= b / 4096 < page + count) ->
  pmm_inv (freed page count k).
Proof.
  intros [Hr Hbase Hcnt Hself Hnull] Hp Hc Hb Hused Hbm.
  assert (Hu : forall q, used (freed page count k) q = negb (in_window page count q) && used k q).
  { intros q. apply used_freed; destruct Hr; lia. }
  assert (Hcnt' : count_free (Z.to_nat (total_pages (pmm k))) (used (freed page count k))
                  = free_pages (pmm k) + count).
  { rewrite (count_free_ext _ _ _ (fun q _ => Hu q)), Hcnt.
    apply count_free_clear; [lia | lia | rewrite Z2Nat.id; lia | done]. }
  pose proof (count_free_bounds (Z.to_nat (total_pages (pmm k))) (used (freed page count k))) as Hpos.
  destruct Hr as [Ht Hl Hf]. rewrite Z2Nat.id in Hpos by lia.
  constructor.
  - constructor; simpl; [lia | lia |]. rewrite u64_small by lia. lia.
  - exact Hbase.
  - simpl. rewrite u64_small by lia. symmetry. exact Hcnt'.
  - intros b Hbb. destruct (Hself b Hbb) as [Hlt Hus]. split; [exact Hlt |].
    rewrite Hu, Hus, andb_true_r. apply negb_true_iff, not_true_is_false.
    rewrite in_window_spec. by apply Hbm.
  - rewrite Hu, Hnull, andb_true_r. apply negb_true_iff, not_true_is_false.
    rewrite in_window_spec. lia.
Qed.

(** Taking pages and freeing them gives back the same bitmap and count. *)
Lemma freed_took k i count :
  pmm_ranges (pmm k) -> 0 < count -> 0 <= i -> i + count <= 2 ^ 64 ->
  (forall q, i <= q < i + count -> used k q = false) ->
  (forall q, used (freed i count (took i count k)) q = used k q) /\
  free_pages (pmm (freed i count (took i count k))) = free_pages (pmm k).
Proof.
  intros [Ht Hl Hfr] Hc Hi Hb Hfree. split.
  - intros q. rewrite used_freed, used_took by lia.
    destruct (in_window i count q) eqn:E; simpl; [| done].
    symmetry. apply Hfree, in_window_spec, E.
  - simpl. unfold u64. rewrite Z.add_mod_idemp_l by lia.
    rewrite Z.mod_small; lia.
Qed.

(** ** What the allocator promises its clients *)

Lemma pmm_alloc_cases k count :
  pmm_inv k -> pmm_lock (pmm k) = 0 -> 0 < count <= total_pages (pmm k) ->
  no_overrun k count ->
  pmm_alloc count k = Ret 0 k /\ alloc_choice k count = None \/
  exists i, pmm_alloc count k = Ret (i * 4096) (took i count k) /\
    pmm_inv (took i count k) /\ 0 < i /\ i + count <= total_pages (pmm k) /\
    forall q, i <= q < i + count -> used k q = false.
Proof.
  intros HI Hl Hc Hs. pose proof (inv_ranges _ HI) as HR.
  rewrite pmm_alloc_eq by (done || lia).
  destruct (alloc_choice k count) as [i |] eqn:E; [right | by left].
  destruct (choice_in_range k count i HI Hc Hs E) as (H0 & Hr & Hf).
  exists i. split_and!; try done. apply took_inv; done || lia.
Qed.

(** The invariant depends on memory only through the bitmap. *)
Lemma used_agree k m q :
  0 <= q < total_pages (pmm k) ->
  agree (bitmap (pmm k)) (bitmap (pmm k) + (total_pages (pmm k) + 7) / 8) (mem_of k) m ->
  used (set_mem m k) q = used k q.
Proof.
  intros Hq Ha. unfold used. rewrite !bitmap_test_bit. simpl.
  change (mem_of (set_mem m k)) with m. rewrite (ld8_agree _ _ _ _ _ Ha); [done |].
  split; [pose proof (Z.div_pos q 8); lia |]. zdiv.
Qed.

Lemma pmm_inv_frame k m :
  agree (bitmap (pmm k)) (bitmap (pmm k) + (total_pages (pmm k) + 7) / 8) (mem_of k) m ->
  0 < total_pages (pmm k) -> pmm_inv k -> pmm_inv (set_mem m k).
Proof.
  intros Ha Hpos [Hr Hb Hc Hself Hnull].
  constructor; try done.
  - change (pmm (set_mem m k)) with (pmm k). rewrite Hc. apply count_free_ext. intros q Hq.
    symmetry. apply used_agree; [lia | done].
  - intros b Hb'. destruct (Hself b Hb') as [H1 H2]. split; [done |].
    rewrite used_agree; [done | | done].
    change (pmm (set_mem m k)) with (pmm k) in *. split; [apply Z.div_pos; lia | done].
  - rewrite used_agree; [done | lia | done].
Qed.

(** A page that is free is found, the last page of memory apart. *)
Lemma count_free_exists n f : 0 < count_free n f -> exists q, 0 <= q < Z.of_nat n /\ f q = false.
Proof.
  induction n as [| n IH]; cbn [count_free]; [lia |].
  destruct (f (Z.of_nat n)) eqn:E; intros H.
  - destruct IH as (q & ? & ?); [lia |]. exists q. split; [lia | done].
  - exists (Z.of_nat n). split; [lia | done].
Qed.

Lemma one_page_found k :
  pmm_inv k -> 1 < free_pages (pmm k) -> alloc_choice k 1 <> None.
Proof.
  intros [Hr _ Hc _ _] Hf E. rewrite Hc in Hf. destruct Hr.
  destruct (Z.to_nat (total_pages (pmm k))) as [| n] eqn:En; [simpl in Hf; lia |].
  cbn [count_free] in Hf.
  destruct (count_free_exists n (used k)) as (q & Hq & Hu); [case_match; lia |].
  unfold alloc_choice in E. case_match eqn:E1; [done |].
  assert (window_free (Z.to_nat 1) (bitmap (pmm k)) q (mem_of k) = true) as Hw.
  { apply window_free_true. intros q' Hq'. assert (q' = q) as -> by lia. exact Hu. }
  destruct (decide (q < last_search_index (pmm k))).
  - rewrite (first_fit_None _ _ _ _ _ E q) in Hw by lia. done.
  - rewrite (first_fit_None _ _ _ _ _ E1 q) in Hw by lia. done.
Qed.

(** ** Theorems *)

(** C8: the search loop of pmm_alloc, which jumps past the page that broke a
    window, returns within its fuel exactly the first window an exhaustive
    page-by-page search would return, or nothing when that finds nothing. *)
Theorem search_is_exhaustive bm i bound count m :
  0 <= i -> 0 <= count -> bound + count <= 2 ^ 64 ->
  search (search_fuel i bound) bm i bound count m =
  Some (first_fit (Z.to_nat (bound - i)) bm i count m).
Proof. intros. by apply search_first_fit. Qed.

Lemma search_is_exhaustive_witness :
  search (search_fuel 0 6) 0x8000 0 6 2 (st8 ∅ 0x8000 0x0B) =
  Some (first_fit (Z.to_nat (6 - 0)) 0x8000 0 2 (st8 ∅ 0x8000 0x0B)).
Proof. apply (search_is_exhaustive 0x8000 0 6 2); vm_compute; congruence. Defined.

(** C1: on a well-formed allocator a request of between 1 and [total_pages]
    pages returns, with the lock released and the interrupt flag restored. Either
    it hands out [count] pages whose bits were all clear and sets exactly these
    bits; or it returns NULL, changes nothing, and no window it may start at is
    free.  When the window handed out lies in memory the invariant (counter
    included) is kept and no memory but the bitmap changes.  The code does not
    keep it there: the second pass of the search is bounded by where the first
    one started and not by the end of memory.  The last clause says when the
    window can run over the end: for more than one page, from below the index
    where the first pass started, and only while the bit after the last page
    reads as free. *)
Theorem pmm_alloc_correct k count :
  pmm_inv k -> pmm_lock (pmm k) = 0 -> 0 < count <= total_pages (pmm k) ->
  (exists i, let k' := took i count k in
     pmm_alloc count k = Ret (i * 4096) k' /\ 0 < i < total_pages (pmm k) /\
     (forall q, i <= q < i + count -> used k q = false) /\
     (forall q, used k' q = in_window i count q || used k q) /\
     pmm_lock (pmm k') = 0 /\ hw_rflags (hw k') = hw_rflags (hw k) /\
     (i + count <= total_pages (pmm k) ->
        pmm_inv k' /\
        agree_out (bitmap (pmm k)) (bitmap (pmm k) + (total_pages (pmm k) + 7) / 8)
          (mem_of k) (mem_of k')) /\
     (total_pages (pmm k) < i + count ->
        1 < count /\ i < last_search_index (pmm k) /\ used k (total_pages (pmm k)) = false)) \/
  (pmm_alloc count k = Ret 0 k /\
   forall i, 0 <= i < last_search_index (pmm k) \/
             last_search_index (pmm k) <= i < total_pages (pmm k) - count ->
     exists q, i <= q < i + count /\ used k q = true).
Proof.
  intros HI Hl Hc. pose proof (inv_ranges _ HI) as HR. rewrite pmm_alloc_eq by (done || lia).
  destruct (alloc_choice k count) as [i |] eqn:E.
  - left. destruct (choice_window k count i HI Hc E) as (H0 & Hf & Ho).
    exists i. cbv zeta. destruct HR. split; [done |]. split; [done |]. split; [done |].
    split; [intros; apply used_took; lia |]. split; [done |]. split; [done |]. split; [| done].
    intros Hin. split; [apply took_inv; done || lia | apply took_frame; lia].
  - right. split; [done |]. destruct HR. unfold alloc_choice in E. case_match eqn:E1; [done |].
    assert (Hw : forall i, window_free (Z.to_nat count) (bitmap (pmm k)) i (mem_of k) = false ->
                   exists q, i <= q < i + count /\ used k q = true).
    { intros i Hw. apply window_free_false in Hw as (q & Hq & Hu). exists q. split; [lia | done]. }
    intros i [Hi | Hi]; apply Hw; [apply (first_fit_None _ _ _ _ _ E); lia |].
    apply (first_fit_None _ _ _ _ _ E1). lia.
Qed.

(** A machine of 16 pages whose bitmap is in page 8, with pages 0 and 8 in
    use, and the page past the end marked used. *)
Definition small_pmm : kernel :=
  (initial_kernel (plain_hw (st8 (st8 (st8 ∅ 0x8000 0x01) 0x8001 0x01) 0x8002 0x01)))
  <| pmm := Pmm 0x8000 16 16 14 0 0x10000 0 |>.

Lemma small_pmm_inv : pmm_inv small_pmm.
Proof.
  constructor; [by constructor | done | by vm_compute | | by vm_compute].
  intros b Hb. change (0x8000 <= b < 0x8000 + 2) in Hb.
  assert (b = 0x8000 \/ b = 0x8001) as [-> | ->] by lia; by vm_compute.
Qed.

Lemma pmm_alloc_correct_witness :
  exists a k', pmm_alloc 2 small_pmm = Ret a k' /\ pmm_inv k'.
Proof.
  destruct (pmm_alloc_correct small_pmm 2 small_pmm_inv eq_refl ltac:(vm_compute; split; congruence))
    as [(i & H & _ & _ & _ & _ & _ & Hin & Hout) | (H & _)].
  - destruct (Z.le_gt_cases (i + 2) (total_pages (pmm small_pmm))) as [Hle | Hgt].
    + eexists _, _. split; [exact H | apply Hin, Hle].
    + destruct (Hout Hgt) as (_ & _ & Hu). vm_compute in Hu. discriminate Hu.
  - eexists _, _. split; [exact H | exact small_pmm_inv].
Defined.

(** C7: pages returned by pmm_alloc and given to pmm_free leave every bit of the
    bitmap, the free count, the lock and the interrupt flag as they were, for
    every request of between 1 and [total_pages] pages.  When the pages lie in
    memory the invariant holds again; they do for a single page, and whenever
    the bit after the last page reads as used. *)
Theorem pmm_alloc_free_roundtrip k count a k1 :
  pmm_inv k -> pmm_lock (pmm k) = 0 -> 0 < count <= total_pages (pmm k) ->
  pmm_alloc count k = Ret a k1 -> a <> 0 ->
  (exists k2, pmm_free a count k1 = Ret tt k2 /\
    (forall q, used k2 q = used k q) /\ free_pages (pmm k2) = free_pages (pmm k) /\
    pmm_lock (pmm k2) = 0 /\ hw_rflags (hw k2) = hw_rflags (hw k) /\
    (a / 4096 + count <= total_pages (pmm k) -> pmm_inv k2)) /\
  (count = 1 \/ used k (total_pages (pmm k)) = true -> a / 4096 + count <= total_pages (pmm k)).
Proof.
  intros HI Hl Hc HA Ha. pose proof (inv_ranges _ HI) as HR.
  rewrite pmm_alloc_eq in HA by (done || lia).
  destruct (alloc_choice k count) as [i |] eqn:E; [| by injection HA as <- _].
  injection HA as <- <-. destruct (choice_window k count i HI Hc E) as (H0 & Hf & Ho). destruct HR.
  rewrite Z.div_mul by done. split.
  2:{ intros Hu. destruct (Z.le_gt_cases (i + count) (total_pages (pmm k))) as [| Hgt]; [done |].
      destruct (Ho Hgt) as (? & _ & Hu'). destruct Hu; [lia | congruence]. }
  destruct (freed_took k i count) as [Hsame Hcnt]; [apply HI | lia | lia | lia | done |].
  exists (freed i count (took i count k)).
  rewrite pmm_free_eq, Z.div_mul by done. split; [done |]. split; [done |]. split; [done |].
  split; [done |]. split; [done |]. intros Hr.
  pose proof (took_inv k count i HI ltac:(lia) ltac:(lia) Hr Hf) as HI1.
  apply freed_inv; [done | lia | lia | exact Hr | |].
  - intros q Hq. rewrite used_took by lia. apply in_window_spec in Hq. by rewrite Hq.
  - intros b Hb Hin. destruct (inv_self _ HI b Hb) as [_ Hub]. rewrite Hf in Hub; done.
Qed.

Lemma pmm_alloc_free_roundtrip_witness :
  exists k1 k2, pmm_alloc 2 small_pmm = Ret 0x1000 k1 /\ pmm_free 0x1000 2 k1 = Ret tt k2 /\
    used k2 1 = false /\ pmm_inv k2.
Proof.
  destruct (pmm_alloc 2 small_pmm) as [a k1 | | |] eqn:E; try (vm_compute in E; discriminate E).
  assert (a = 0x1000) as -> by (vm_compute in E; congruence).
  destruct (pmm_alloc_free_roundtrip small_pmm 2 0x1000 k1 small_pmm_inv eq_refl
              ltac:(vm_compute; split; congruence) E ltac:(done))
    as [(k2 & H & Hu & _ & _ & _ & HI) Hin].
  exists k1, k2. split; [done |]. split; [done |]. split; [by rewrite Hu |]. apply HI, Hin. by right; vm_compute.
Defined.

(** Without a used bit after the last page, the second pass of pmm_alloc,
    which is bounded by the start of the first one only, returns a window that
    runs past the end of memory: on 16 pages it hands out pages 15 and 16. *)
Theorem pmm_alloc_runs_past_end :
  exists k k', pmm_inv k /\ pmm_lock (pmm k) = 0 /\
    pmm_alloc 2 k = Ret (15 * 4096) k' /\
    total_pages (pmm k) < 15 + 2 /\ ~ pmm_ranges (pmm k').
Proof.
  exists ((initial_kernel (plain_hw (st8 (st8 ∅ 0x8000 0xFF) 0x8001 0x7F)))
          <| pmm := Pmm 0x8000 16 16 1 16 0x10000 0 |>).
  eexists. split.
  { constructor; [by constructor | done | by vm_compute | | by vm_compute].
    intros b Hb. change (0x8000 <= b < 0x8000 + 2) in Hb.
    assert (b = 0x8000 \/ b = 0x8001) as [-> | ->] by lia; by vm_compute. }
  split; [done |]. split; [vm_compute; reflexivity |]. split; [done |].
  intros [_ H _]. vm_compute in H. by destruct H as [_ H].
Qed.

(** The loop bound [i < total_pages - count] leaves out the last window:
    with the last page the only free one, pmm_alloc(1) returns NULL. *)
Theorem pmm_alloc_misses_last_page :
  exists k, pmm_inv k /\ pmm_lock (pmm k) = 0 /\ free_pages (pmm k) = 1 /\
    used k (total_pages (pmm k) - 1) = false /\ pmm_alloc 1 k = Ret 0 k.
Proof.
  exists ((initial_kernel (plain_hw (st8 (st8 ∅ 0x8000 0xFF) 0x8001 0x7F)))
          <| pmm := Pmm 0x8000 16 16 1 0 0x10000 0 |>).
  split.
  { constructor; [by constructor | done | by vm_compute | | by vm_compute].
    intros b Hb. change (0x8000 <= b < 0x8000 + 2) in Hb.
    assert (b = 0x8000 \/ b = 0x8001) as [-> | ->] by lia; by vm_compute. }
  split; [done |]. split; [done |]. split; [by vm_compute |]. vm_compute. reflexivity.
Qed.
