(* ===== verification/PmmInit.v ===== *)
(** pmm_init of pmm.c: building the bitmap from the firmware's memory map.

    The map is an array of descriptors in physical memory, [descriptor_size]
    bytes apart; the loops read it again on every pass, while the later passes
    write the bitmap. *)

From S2P Require Import Prelude Memory State Lib Console Pmm.

(** ** pmm_init *)

(** The address [(uint64_t)mmap + i * info->descriptor_size] of descriptor [i]. *)
Definition desc_addr (info : barium_boot_info_t) (i : Z) : Z :=
  u64 (memory_map info + u64 (i * descriptor_size info)).

Definition read_desc (info : barium_boot_info_t) (i : Z) (m : mem) : b_efi_mem_desc :=
  let a := desc_addr info i in
  MemDesc (ld32 m a) (ld64 m (a + 8)) (ld64 m (a + 24)).

Definition EfiConventionalMemory : Z := 7.
Definition is_usable (d : b_efi_mem_desc) : bool := d_type d =? EfiConventionalMemory.
Definition desc_bytes (d : b_efi_mem_desc) : Z := u64 (d_number_of_pages d * 4096).

(** First loop: the end of the highest usable region. *)
Fixpoint find_memory_end (n : nat) (info : barium_boot_info_t) (i memory_end : Z) (m : mem) : Z :=
  match n with
  | O => memory_end
  | S n' =>
      let d := read_desc info i m in
      let memory_end' :=
        if negb (is_usable d) then memory_end
        else let e := u64 (d_physical_start d + desc_bytes d) in
             if memory_end <? e then e else memory_end in
      find_memory_end n' info (i + 1) memory_end' m
  end.

(** Second loop: the first usable region above 16 MiB that holds the bitmap. *)
Fixpoint find_bitmap (n : nat) (info : barium_boot_info_t) (i bitmap_size : Z) (m : mem) : Z :=
  match n with
  | O => 0
  | S n' =>
      let d := read_desc info i m in
      if is_usable d && (bitmap_size <=? desc_bytes d) && (0x1000000 <=? d_physical_start d)
      then d_physical_start d
      else find_bitmap n' info (i + 1) bitmap_size m
  end.

(** Third loop: clear the bits of the usable regions.  [free_pages++] once per
    page is [+ number_of_pages] modulo 2^64.  The descriptor is read once per
    region: the inner loop reads it again for every page, which gives the same
    values because the map is not in memory the map calls free ([fm_outside]),
    where the bitmap is ([map_holds_stable]). *)
Definition release_desc (d : b_efi_mem_desc) (k : kernel) : kernel :=
  if is_usable d then
    set_mem (clear_pages (Z.to_nat (d_number_of_pages d)) (bitmap (pmm k))
               (d_physical_start d / 4096) (mem_of k)) k
    <| pmm ::= fun p => p <| usable_pages ::= fun u => u64 (u + d_number_of_pages d) |>
                          <| free_pages ::= fun f => u64 (f + d_number_of_pages d) |> |>
  else k.

Fixpoint release_regions (n : nat) (info : barium_boot_info_t) (i : Z) (k : kernel) : kernel :=
  match n with
  | O => k
  | S n' => release_regions n' info (i + 1) (release_desc (read_desc info i (mem_of k)) k)
  end.

(** Fourth loop: the bitmap's own pages. *)
Definition reserve_bitmap (bitmap_size : Z) (k : kernel) : kernel :=
  let bitmap_start_page := bitmap (pmm k) / 4096 in
  let bitmap_pages := u64 (bitmap_size + 4095) / 4096 in
  set_mem (set_pages (Z.to_nat bitmap_pages) (bitmap (pmm k)) bitmap_start_page (mem_of k)) k
  <| pmm ::= fun p => p <| free_pages ::= fun f => u64 (f - bitmap_pages) |> |>.

(** Fifth loop: everything below 16 MiB. *)
Fixpoint reserve_low (n : nat) (i : Z) (k : kernel) : kernel :=
  match n with
  | O => k
  | S n' =>
      let k' :=
        if bitmap_test (bitmap (pmm k)) i (mem_of k) then k
        else set_mem (bitmap_set (bitmap (pmm k)) i (mem_of k)) k
             <| pmm ::= fun p => p <| free_pages ::= fun f => u64 (f - 1) |> |> in
      reserve_low n' (i + 1) k'
  end.

Definition LOW_PAGES : Z := 0x1000000 / 4096.

Definition pmm_init (info : barium_boot_info_t) : M kernel unit := fun k =>
  if descriptor_size info =? 0 then Fault else
  let desc_count := Z.to_nat (memory_map_size info / descriptor_size info) in
  let memory_end := find_memory_end desc_count info 0 0 (mem_of k) in
  let total := memory_end / 4096 in
  let bitmap_size := total / 8 in
  let bm := find_bitmap desc_count info 0 bitmap_size (mem_of k) in
  let k1 := k <| pmm ::= fun p => p <| highest_phys_address := memory_end |>
                                    <| total_pages := total |>
                                    <| bitmap := bm |> |> in
  if bm =? 0 then console_print (cstr "[pmm] no ram
") k1
  else
    let k2 := set_mem (b_memset (mem_of k1) bm 0xFF bitmap_size) k1
              <| pmm ::= fun p => p <| free_pages := 0 |> <| usable_pages := 0 |> |> in
    let k3 := release_regions desc_count info 0 k2 in
    let k4 := reserve_bitmap bitmap_size k3 in
    Ret tt (reserve_low (Z.to_nat LOW_PAGES) 0 k4).

(** ** Lemmas: the search loops *)

(** The page interval of a descriptor. *)
Definition desc_page (d : b_efi_mem_desc) : Z := d_physical_start d / 4096.
Definition desc_end (d : b_efi_mem_desc) : Z := d_physical_start d + d_number_of_pages d * 4096.

Definition in_region (d : b_efi_mem_desc) (q : Z) : bool :=
  is_usable d && in_window (desc_page d) (d_number_of_pages d) q.

(** A usable region the firmware may report: page aligned, within 2^63. *)
Definition region_ok (d : b_efi_mem_desc) : Prop :=
  is_usable d = true ->
  0 <= d_physical_start d /\ d_physical_start d mod 4096 = 0 /\
  0 <= d_number_of_pages d /\ desc_end d <= 2 ^ 63.

Definition regions_disjoint (d1 d2 : b_efi_mem_desc) : Prop :=
  is_usable d1 = true -> is_usable d2 = true ->
  desc_end d1 <= d_physical_start d2 \/ desc_end d2 <= d_physical_start d1.

(** [ds] is what the map holds from descriptor [i] on. *)
Definition map_holds (info : barium_boot_info_t) (i : Z) (m : mem) (ds : list b_efi_mem_desc) : Prop :=
  forall j d, ds !! j = Some d -> read_desc info (i + Z.of_nat j) m = d.

Lemma map_holds_cons info i m d ds :
  map_holds info i m (d :: ds) ->
  read_desc info i m = d /\ map_holds info (i + 1) m ds.
Proof.
  intros H. split.
  - specialize (H O d eq_refl). by rewrite Z.add_0_r in H.
  - intros j d' Hj. specialize (H (S j) d' Hj). rewrite <- H. f_equal. lia.
Qed.

Lemma region_bytes d :
  region_ok d -> is_usable d = true ->
  desc_bytes d = d_number_of_pages d * 4096 /\
  u64 (d_physical_start d + desc_bytes d) = desc_end d.
Proof.
  intros H Hu. destruct (H Hu) as (? & ? & ? & ?). unfold desc_bytes, desc_end in *.
  rewrite (u64_small (d_number_of_pages d * 4096)) by lia. split; [done |].
  apply u64_small. lia.
Qed.

Lemma find_memory_end_spec info m ds : forall i e0,
  map_holds info i m ds -> Forall region_ok ds ->
  let e := find_memory_end (length ds) info i e0 m in
  e0 <= e /\ (forall d, d ∈ ds -> is_usable d = true -> desc_end d <= e) /\
  (e = e0 \/ exists d, d ∈ ds /\ is_usable d = true /\ e = desc_end d).
Proof.
  induction ds as [| d ds IH]; intros i e0 Hm Hok.
  { simpl. split; [lia |]. split; [| by left]. intros d Hd. by apply elem_of_nil in Hd. }
  apply map_holds_cons in Hm as [Hd Hm]. apply Forall_cons in Hok as [Hd0 Hok].
  cbn [find_memory_end length]. rewrite Hd. cbv zeta.
  set (e1 := if negb (is_usable d) then e0 else _).
  assert (He1 : e0 <= e1 /\ (is_usable d = true -> desc_end d <= e1) /\
                (e1 = e0 \/ (is_usable d = true /\ e1 = desc_end d))).
  { subst e1. destruct (is_usable d) eqn:Hu; simpl; [| naive_solver lia].
    destruct (region_bytes d Hd0 Hu) as [_ ->]. zcase; naive_solver lia. }
  destruct (IH (i + 1) e1 Hm Hok) as (Hle & Hall & Hex). clearbody e1.
  split; [lia |]. split.
  - intros d' [-> | Hd']%elem_of_cons Hu; [destruct He1 as (_ & H & _); specialize (H Hu); lia |].
    by apply Hall.
  - destruct Hex as [-> | (d' & ? & ? & ->)]; [| right; exists d'; set_solver].
    destruct He1 as (_ & _ & [-> | [? ->]]); [by left | right; exists d; set_solver].
Qed.

Lemma find_bitmap_spec info m size ds : forall i,
  map_holds info i m ds -> Forall region_ok ds ->
  let b := find_bitmap (length ds) info i size m in
  b = 0 \/ exists d, d ∈ ds /\ is_usable d = true /\ b = d_physical_start d /\
             size <= d_number_of_pages d * 4096 /\ 0x1000000 <= b.
Proof.
  induction ds as [| d ds IH]; intros i Hm Hok; [by left |].
  apply map_holds_cons in Hm as [Hd Hm]. apply Forall_cons in Hok as [Hd0 Hok].
  cbn [find_bitmap length]. rewrite Hd. cbv zeta.
  destruct (is_usable d && _ && _) eqn:E.
  - zbool. right. exists d. rewrite <- (proj1 (region_bytes d Hd0 ltac:(done))). set_solver.
  - destruct (IH _ Hm Hok) as [-> | (d' & ? & ?)]; [by left | right; exists d'; set_solver].
Qed.

(** ** Lemmas: the marking loops *)

(** The free-page count agrees with the bitmap. *)
Definition counted (k : kernel) : Prop :=
  0 <= total_pages (pmm k) <= 2 ^ 51 /\
  free_pages (pmm k) = count_free (Z.to_nat (total_pages (pmm k))) (used k).

Lemma counted_range k : counted k -> 0 <= free_pages (pmm k) <= total_pages (pmm k).
Proof.
  intros [Ht ->]. pose proof (count_free_bounds (Z.to_nat (total_pages (pmm k))) (used k)). lia.
Qed.

(** Two states with the same allocator geometry, whose memories differ in the
    bitmap bytes only. *)
Record same_geometry (k k' : kernel) : Prop := {
  sg_bitmap : bitmap (pmm k') = bitmap (pmm k);
  sg_total : total_pages (pmm k') = total_pages (pmm k);
  sg_last : last_search_index (pmm k') = last_search_index (pmm k);
  sg_lock : pmm_lock (pmm k') = pmm_lock (pmm k);
  sg_mem : agree_out (bitmap (pmm k)) (bitmap (pmm k) + (total_pages (pmm k) + 7) / 8)
             (mem_of k) (mem_of k')
}.

#[export] Instance same_geometry_refl : Reflexive same_geometry.
Proof. intros k. by constructor. Qed.
#[export] Instance same_geometry_trans : Transitive same_geometry.
Proof.
  intros a b c [Hb Ht Hl Hk Hm] [Hb' Ht' Hl' Hk' Hm'].
  constructor; [congruence | congruence | congruence | congruence |].
  rewrite Hb, Ht in Hm'. by etransitivity.
Qed.

(** Clearing the bits of used pages and adding them to the count. *)
Lemma clear_counted k page n g :
  counted k -> 0 <= page -> 0 <= n -> page + n <= total_pages (pmm k) ->
  (forall q, page <= q < page + n -> used k q = true) ->
  let k' := set_mem (clear_pages (Z.to_nat n) (bitmap (pmm k)) page (mem_of k)) k
            <| pmm ::= fun p => p <| usable_pages ::= g |>
                                  <| free_pages ::= fun f => u64 (f + n) |> |> in
  counted k' /\ same_geometry k k' /\
  forall q, used k' q = negb (in_window page n q) && used k q.
Proof.
  intros HC Hp Hn Hb Hus k'. pose proof (counted_range k HC) as Hr. destruct HC as [Ht HC].
  assert (Hu : forall q, used k' q = negb (in_window page n q) && used k q).
  { intros q. unfold used, k', mem_of. simpl. rewrite clear_pages_test by lia.
    by rewrite Z2Nat.id by lia. }
  assert (Hc' : count_free (Z.to_nat (total_pages (pmm k))) (used k') = free_pages (pmm k) + n).
  { rewrite (count_free_ext _ _ _ (fun q _ => Hu q)), HC.
    apply count_free_clear; [lia | lia | rewrite Z2Nat.id; lia | done]. }
  pose proof (count_free_bounds (Z.to_nat (total_pages (pmm k))) (used k')) as Hpos.
  rewrite Z2Nat.id in Hpos by lia.
  split; [split; [exact Ht |]; unfold k' at 1; simpl; rewrite u64_small by lia;
          symmetry; exact Hc' |].
  split; [| exact Hu]. constructor; try done. unfold k', mem_of; simpl.
  eapply agree_out_sub; [| | apply clear_pages_frame]; try lia.
  - pose proof (Z.div_pos page 8). lia.
  - rewrite Z2Nat.id by lia. apply Z.add_le_mono_l, Z.div_le_mono; lia.
Qed.

(** Setting the bits of free pages and taking them from the count. *)
Lemma set_counted k page n :
  counted k -> 0 <= page -> 0 <= n -> page + n <= total_pages (pmm k) ->
  (forall q, page <= q < page + n -> used k q = false) ->
  let k' := set_mem (set_pages (Z.to_nat n) (bitmap (pmm k)) page (mem_of k)) k
            <| pmm ::= fun p => p <| free_pages ::= fun f => u64 (f - n) |> |> in
  counted k' /\ same_geometry k k' /\
  forall q, used k' q = in_window page n q || used k q.
Proof.
  intros HC Hp Hn Hb Hus k'. pose proof (counted_range k HC) as Hr. destruct HC as [Ht HC].
  assert (Hu : forall q, used k' q = in_window page n q || used k q).
  { intros q. unfold used, k', mem_of. simpl. rewrite set_pages_test by lia.
    by rewrite Z2Nat.id by lia. }
  assert (Hc' : count_free (Z.to_nat (total_pages (pmm k))) (used k') = free_pages (pmm k) - n).
  { rewrite (count_free_ext _ _ _ (fun q _ => Hu q)), HC.
    pose proof (count_free_window (Z.to_nat n) (Z.to_nat (total_pages (pmm k))) (used k) page) as H.
    rewrite Z2Nat.id in H by lia. apply H; [lia | rewrite Z2Nat.id; lia | done]. }
  pose proof (count_free_bounds (Z.to_nat (total_pages (pmm k))) (used k')) as Hpos.
  split; [split; [exact Ht |]; unfold k' at 1; simpl; rewrite u64_small by lia;
          symmetry; exact Hc' |].
  split; [| exact Hu]. constructor; try done. unfold k', mem_of; simpl.
  eapply agree_out_sub; [| | apply set_pages_frame]; try lia.
  - pose proof (Z.div_pos page 8). lia.
  - rewrite Z2Nat.id by lia. apply Z.add_le_mono_l, Z.div_le_mono; lia.
Qed.

Lemma region_window d q :
  region_ok d -> is_usable d = true -> in_window (desc_page d) (d_number_of_pages d) q = true ->
  d_physical_start d <= q * 4096 < desc_end d.
Proof.
  intros H Hu Hq. apply in_window_spec in Hq. destruct (H Hu) as (? & Ha & ? & ?).
  unfold desc_page, desc_end in *. pose proof (Z.div_mod (d_physical_start d) 4096). lia.
Qed.

Lemma disjoint_windows d1 d2 q :
  region_ok d1 -> region_ok d2 -> regions_disjoint d1 d2 ->
  is_usable d1 = true -> is_usable d2 = true ->
  in_window (desc_page d1) (d_number_of_pages d1) q = true ->
  in_window (desc_page d2) (d_number_of_pages d2) q = false.
Proof.
  intros H1 H2 Hd Hu1 Hu2 Hq. apply not_true_is_false. intros Hq2.
  apply region_window in Hq, Hq2; try done. destruct (Hd Hu1 Hu2); lia.
Qed.

Definition in_regions (ds : list b_efi_mem_desc) (q : Z) : bool := existsb (fun d => in_region d q) ds.

(** The third loop: with the map stable under bitmap writes, every usable
    region becomes free and is counted. *)
Lemma release_regions_spec info ds : forall i k,
  (forall m, agree_out (bitmap (pmm k)) (bitmap (pmm k) + (total_pages (pmm k) + 7) / 8) (mem_of k) m ->
     map_holds info i m ds) ->
  counted k -> Forall region_ok ds -> ForallOrdPairs regions_disjoint ds ->
  (forall d, d ∈ ds -> is_usable d = true -> desc_end d <= total_pages (pmm k) * 4096) ->
  (forall d q, d ∈ ds -> in_region d q = true -> used k q = true) ->
  let k' := release_regions (length ds) info i k in
  counted k' /\ same_geometry k k' /\
  forall q, used k' q = used k q && negb (in_regions ds q).
Proof.
  induction ds as [| d ds IH]; intros i k Hmap HC Hok Hdis Hend Hus.
  { simpl. split; [done |]. split; [done |]. intros q. by rewrite andb_true_r. }
  destruct (map_holds_cons _ _ _ _ _ (Hmap (mem_of k) ltac:(done))) as [Hd _].
  apply Forall_cons in Hok as [Hd0 Hok]. inversion_clear Hdis as [| ?? Hd1 Hdis'].
  cbn [release_regions length]. rewrite Hd.
  set (k1 := release_desc d k).
  assert (Hstep : counted k1 /\ same_geometry k k1 /\
                  forall q, used k1 q = negb (in_region d q) && used k q).
  { subst k1. unfold release_desc, in_region. destruct (is_usable d) eqn:Hu; [| done].
    destruct (Hd0 Hu) as (? & ? & ? & ?).
    specialize (Hend d ltac:(set_solver) Hu).
    apply (clear_counted k (desc_page d) (d_number_of_pages d)); try done.
    - apply Z.div_pos; lia.
    - unfold desc_page, desc_end in *. pose proof (Z.div_mod (d_physical_start d) 4096). lia.
    - intros q Hq. apply (Hus d); [set_solver |].
      unfold in_region. rewrite Hu. by apply in_window_spec. }
  clearbody k1. destruct Hstep as (HC1 & HG1 & Hu1). destruct HG1 as [Gb Gt Gl Gk Gm].
  destruct (IH (i + 1) k1) as (HC2 & HG2 & Hu2); try done.
  - intros m Hm. rewrite Gb, Gt in Hm.
    eapply map_holds_cons, Hmap. by etransitivity.
  - intros d' Hd' Hu'. rewrite Gt. apply Hend; set_solver.
  - intros d' q Hd' Hq. rewrite Hu1, (Hus d' q) by set_solver.
    unfold in_region in *. apply andb_true_iff in Hq as [Hu' Hq].
    destruct (is_usable d) eqn:Hu; [| done]. simpl. rewrite andb_true_r.
    rewrite Forall_forall in Hd1, Hok. apply negb_true_iff.
    eapply (disjoint_windows d' d); eauto.
    intros ??. destruct (Hd1 d' Hd' Hu Hu'); tauto.
  - split; [done |]. split; [etransitivity; [| exact HG2]; by constructor |].
    intros q. rewrite Hu2, Hu1. simpl. rewrite negb_orb.
    destruct (used k q), (in_region d q); simpl; try done.
Qed.

(** The fifth loop. *)
Lemma reserve_low_spec n : forall i k,
  counted k -> 0 <= i -> i + Z.of_nat n <= total_pages (pmm k) ->
  let k' := reserve_low n i k in
  counted k' /\ same_geometry k k' /\
  forall q, used k' q = in_window i (Z.of_nat n) q || used k q.
Proof.
  induction n as [| n IH]; intros i k HC Hi Hn.
  { simpl. split; [done |]. split; [done |]. intros q. by rewrite in_window_0. }
  cbn [reserve_low]. set (k1 := if bitmap_test _ i _ then k else _).
  assert (Hstep : counted k1 /\ same_geometry k k1 /\
                  forall q, used k1 q = (i =? q) || used k q).
  { subst k1. destruct (bitmap_test (bitmap (pmm k)) i (mem_of k)) eqn:E.
    - split; [done |]. split; [done |]. intros q.
      destruct (Z.eqb_spec i q) as [<- |]; [exact E | done].
    - destruct (set_counted k i 1 HC Hi ltac:(lia) ltac:(lia)) as (H1 & H2 & H3).
      { intros q Hq. replace q with i by lia. exact E. }
      split; [exact H1 |]. split; [exact H2 |]. intros q. rewrite H3.
      change 1 with (0 + 1). by rewrite in_window_cons, in_window_0, orb_false_r by lia. }
  clearbody k1. destruct Hstep as (HC1 & HG1 & Hu1). destruct HG1 as [Gb Gt Gl Gk Gm].
  destruct (IH (i + 1) k1 HC1 ltac:(lia) ltac:(lia)) as (HC2 & HG2 & Hu2).
  split; [done |]. split; [etransitivity; [| exact HG2]; by constructor |].
  intros q. rewrite Hu2, Hu1, Nat2Z.inj_succ. unfold Z.succ. rewrite in_window_cons by lia.
  by destruct (i =? q), (in_window (i + 1) (Z.of_nat n) q).
Qed.

(** ** What the firmware hands over

    [ds] are the descriptors of the map at [info]; the array itself is not in
    memory the map calls free. *)
Record firmware_map (info : barium_boot_info_t) (m : mem) (ds : list b_efi_mem_desc) : Prop := {
  fm_size : descriptor_size info <> 0;
  fm_count : length ds = Z.to_nat (memory_map_size info / descriptor_size info);
  fm_holds : map_holds info 0 m ds;
  fm_regions : Forall region_ok ds;
  fm_disjoint : ForallOrdPairs regions_disjoint ds;
  fm_outside : forall j d, (j < length ds)%nat -> d ∈ ds -> is_usable d = true ->
    desc_addr info (Z.of_nat j) + 32 <= d_physical_start d \/
    desc_end d <= desc_addr info (Z.of_nat j)
}.

Definition init_total (info : barium_boot_info_t) (m : mem) (ds : list b_efi_mem_desc) : Z :=
  find_memory_end (length ds) info 0 0 m / 4096.
Definition init_bitmap (info : barium_boot_info_t) (m : mem) (ds : list b_efi_mem_desc) : Z :=
  find_bitmap (length ds) info 0 (init_total info m ds / 8) m.

(** Writes inside a usable region do not change the map. *)
Lemma map_holds_stable info m m' ds d lo hi :
  firmware_map info m ds -> d ∈ ds -> is_usable d = true ->
  d_physical_start d <= lo -> hi <= desc_end d -> lo <= hi ->
  agree_out lo hi m m' -> map_holds info 0 m' ds.
Proof.
  intros [] Hd Hu Hlo Hhi Hlh Ha j d' Hj. rewrite <- (fm_holds0 j d' Hj).
  apply lookup_lt_Some in Hj. specialize (fm_outside0 j d Hj Hd Hu).
  rewrite Z.add_0_l. unfold read_desc. cbv zeta. set (a := desc_addr info (Z.of_nat j)) in *.
  assert (Hag : agree a (a + 32) m m') by (eapply agree_out_disj; [| exact Ha]; lia).
  by rewrite (ld32_agree _ _ _ _ a Hag), (ld64_agree _ _ _ _ (a + 8) Hag),
    (ld64_agree _ _ _ _ (a + 24) Hag) by lia.
Qed.

Lemma memset_used bm size q m :
  0 <= q < size * 8 -> bitmap_test bm q (b_memset m bm 0xFF size) = true.
Proof.
  intros Hq. rewrite bitmap_test_bit, b_memset_ld8 by lia.
  assert (0 <= q / 8 < size) by (split; [apply Z.div_pos; lia | apply Z.div_lt_upper_bound; lia]).
  destruct (Z.leb_spec bm (bm + q / 8)), (Z.ltb_spec (bm + q / 8) (bm + size)); simpl; try lia.
  change (u8 255) with (Z.ones 8). apply Z.ones_spec_low.
  apply Z.mod_pos_bound. lia.
Qed.

Lemma count_free_used n f : (forall q, 0 <= q < Z.of_nat n -> f q = true) -> count_free n f = 0.
Proof.
  induction n as [| n IH]; intros H; [done |]. cbn [count_free].
  rewrite (H (Z.of_nat n)), IH; [done | intros; apply H; lia | lia].
Qed.

(** Geometry of the result of the two search loops. *)
Lemma init_geometry info m ds :
  firmware_map info m ds -> init_bitmap info m ds <> 0 ->
  exists d, d ∈ ds /\ is_usable d = true /\ region_ok d /\
    d_physical_start d = init_bitmap info m ds /\ 0x1000000 <= d_physical_start d /\
    init_total info m ds / 8 <= d_number_of_pages d * 4096 /\
    0 <= init_total info m ds <= 2 ^ 51 /\
    (forall d', d' ∈ ds -> is_usable d' = true -> desc_end d' <= init_total info m ds * 4096).
Proof.
  intros Hfm Hb. pose proof Hfm as [Hsz Hcnt Hmap Hreg Hdis Hout].
  pose proof (find_bitmap_spec info m (init_total info m ds / 8) ds 0 Hmap Hreg) as HB.
  destruct HB as [HB | (d & Hd & Hu & Hbm & Hs & H16)]; [done |].
  pose proof (find_memory_end_spec info m ds 0 0 Hmap Hreg) as (He0 & Hall & Hex).
  fold (init_bitmap info m ds) in Hbm, H16.
  rewrite Forall_forall in Hreg. destruct (Hreg d Hd Hu) as (? & ? & ? & ?).
  unfold init_total in *. set (e := find_memory_end _ _ _ _ _) in *.
  assert (Hal : e mod 4096 = 0 /\ e <= 2 ^ 63).
  { destruct Hex as [-> | (d' & Hd' & Hu' & ->)]; [done |].
    destruct (Hreg d' Hd' Hu') as (? & Hm & ? & ?). split; [| done]. unfold desc_end.
    by rewrite Z.mod_add by lia. }
  assert (0 <= e / 4096 <= 2 ^ 51)
    by (split; [apply Z.div_pos; lia | apply Z.div_le_upper_bound; lia]).
  exists d. rewrite <- Hbm. split_and!; try done; try (apply Hreg; done); try lia.
  - intros d' Hd' Hu'. specialize (Hall d' Hd' Hu').
    pose proof (Z.div_mod e 4096). lia.
Qed.

(** The pages of the bitmap itself. *)
Definition bitmap_page_count (total : Z) : Z := (total / 8 + 4095) / 4096.

(** The bitmap after memset: every page in use, none counted free. *)
Lemma blank_counted k :
  0 <= total_pages (pmm k) <= 2 ^ 51 -> total_pages (pmm k) mod 8 = 0 ->
  free_pages (pmm k) = 0 ->
  (forall q, 0 <= q < total_pages (pmm k) / 8 * 8 -> used k q = true) ->
  counted k /\ forall q, 0 <= q < total_pages (pmm k) -> used k q = true.
Proof.
  intros Ht H8 Hf Hq. assert (total_pages (pmm k) / 8 * 8 = total_pages (pmm k)) as E
    by (pose proof (Z.div_mod (total_pages (pmm k)) 8); lia).
  rewrite E in Hq. split; [| exact Hq]. split; [done |].
  rewrite Hf, count_free_used; [done |]. intros q ?. apply Hq. lia.
Qed.

(** The three marking passes, from a blank bitmap placed in region [d]. *)
Lemma mark_all info k ds d :
  (forall m, agree_out (bitmap (pmm k)) (bitmap (pmm k) + (total_pages (pmm k) + 7) / 8) (mem_of k) m ->
     map_holds info 0 m ds) ->
  counted k -> Forall region_ok ds -> ForallOrdPairs regions_disjoint ds ->
  (forall d, d ∈ ds -> is_usable d = true -> desc_end d <= total_pages (pmm k) * 4096) ->
  (forall q, 0 <= q < total_pages (pmm k) -> used k q = true) ->
  d ∈ ds -> is_usable d = true -> d_physical_start d = bitmap (pmm k) ->
  0x1000000 <= bitmap (pmm k) -> total_pages (pmm k) / 8 <= d_number_of_pages d * 4096 ->
  0 < d_number_of_pages d ->
  let k' := reserve_low (Z.to_nat LOW_PAGES) 0
              (reserve_bitmap (total_pages (pmm k) / 8) (release_regions (length ds) info 0 k)) in
  counted k' /\ same_geometry k k' /\
  forall q, used k' q = in_window 0 LOW_PAGES q ||
    (in_window (bitmap (pmm k) / 4096) (bitmap_page_count (total_pages (pmm k))) q ||
     used k q && negb (in_regions ds q)).
Proof.
  intros Hmap HC Hok Hdis Hend Hus Hd Hu Hbm H16 Hfit Hpos k'.
  pose proof Hok as Hok'. rewrite Forall_forall in Hok'.
  destruct (Hok' d Hd Hu) as (Hs0 & Hs1 & Hs2 & Hs3). pose proof (Hend d Hd Hu) as Hde.
  rewrite Hbm in Hs1.
  assert (Hpage : bitmap (pmm k) / 4096 * 4096 = bitmap (pmm k))
    by (pose proof (Z.div_mod (bitmap (pmm k)) 4096); lia).
  assert (Hbp : 0 <= bitmap_page_count (total_pages (pmm k)) <= d_number_of_pages d).
  { unfold bitmap_page_count. destruct HC as [Ht _].
    pose proof (Z.div_pos (total_pages (pmm k)) 8).
    split; [apply Z.div_pos; lia |]. apply Z.lt_succ_r, Z.div_lt_upper_bound; lia. }
  unfold desc_end in *.
  destruct (release_regions_spec info ds 0 k Hmap HC Hok Hdis Hend) as (C1 & G1 & U1).
  { intros d' q Hd' Hq. apply Hus. unfold in_region in Hq. apply andb_true_iff in Hq as [Hu' Hq].
    pose proof (region_window d' q (Hok' d' Hd') Hu' Hq). pose proof (Hend d' Hd' Hu').
    destruct (Hok' d' Hd' Hu') as (? & ? & ? & ?). unfold desc_end in *. lia. }
  set (k1 := release_regions (length ds) info 0 k) in *.
  destruct (set_counted k1 (bitmap (pmm k1) / 4096) (bitmap_page_count (total_pages (pmm k1))) C1)
    as (C2 & G2 & U2); rewrite ?(sg_bitmap _ _ G1), ?(sg_total _ _ G1) in *.
  1-3: lia.
  { intros q Hq. rewrite U1. apply andb_false_iff. right. apply negb_false_iff.
    unfold in_regions. apply existsb_exists. exists d. split; [by apply list_elem_of_In |].
    unfold in_region. rewrite Hu. apply in_window_spec. unfold desc_page. rewrite Hbm. lia. }
  assert (Hrb : u64 (total_pages (pmm k) / 8 + 4095) / 4096 = bitmap_page_count (total_pages (pmm k))).
  { unfold bitmap_page_count. destruct HC as [Ht _].
    pose proof (Z.div_pos (total_pages (pmm k)) 8).
    pose proof (Z.div_le_upper_bound (total_pages (pmm k)) 8 (2 ^ 51)).
    rewrite u64_small by lia. done. }
  subst k'. unfold reserve_bitmap. rewrite Hrb, (sg_bitmap _ _ G1).
  set (k2 := set_mem _ _) in *.
  destruct (reserve_low_spec (Z.to_nat LOW_PAGES) 0 k2 C2 ltac:(lia)) as (C3 & G3 & U3).
  { rewrite (sg_total _ _ G2), (sg_total _ _ G1). change LOW_PAGES with 4096. lia. }
  split; [exact C3 |]. split; [etransitivity; [exact G1 |]; etransitivity; [exact G2 | exact G3] |].
  intros q. rewrite U3, U2, U1. rewrite Z2Nat.id by done. done.
Qed.

(** The marks make the invariant: the bitmap sits in its own pages, inside the
    region it was placed in. *)
Lemma marks_inv k d :
  counted k -> last_search_index (pmm k) = 0 -> total_pages (pmm k) mod 8 = 0 ->
  region_ok d -> is_usable d = true -> d_physical_start d = bitmap (pmm k) ->
  0x1000000 <= bitmap (pmm k) -> total_pages (pmm k) / 8 <= d_number_of_pages d * 4096 ->
  desc_end d <= total_pages (pmm k) * 4096 ->
  (forall q, 0 <= q < total_pages (pmm k) -> q < LOW_PAGES \/
     in_window (bitmap (pmm k) / 4096) (bitmap_page_count (total_pages (pmm k))) q = true ->
     used k q = true) ->
  pmm_inv k.
Proof.
  intros HC Hl H8 Hok Hu Hbm H16 Hfit Hend Hused.
  pose proof (counted_range k HC) as Hr. destruct HC as [Ht HC].
  destruct (Hok Hu) as (Hs0 & Hs1 & Hs2 & Hs3). rewrite Hbm in Hs1. unfold desc_end in *.
  constructor; [by constructor; lia | lia | done | |].
  - intros b Hb. replace ((total_pages (pmm k) + 7) / 8) with (total_pages (pmm k) / 8) in Hb
      by (pose proof (Z.div_mod (total_pages (pmm k)) 8); apply (Z.div_unique _ _ _ 7); lia).
    assert (b / 4096 < total_pages (pmm k)) by (apply Z.div_lt_upper_bound; lia).
    assert (0 <= b / 4096) by (apply Z.div_pos; lia).
    split; [done |]. apply Hused; [lia |]. right. apply in_window_spec. unfold bitmap_page_count.
    pose proof (Z.div_le_mono (bitmap (pmm k)) b 4096). split; [lia |].
    pose proof (Z.div_mod (bitmap (pmm k)) 4096).
    pose proof (Z.div_mod (total_pages (pmm k) / 8 + 4095) 4096).
    pose proof (Z.mod_pos_bound (total_pages (pmm k) / 8 + 4095) 4096).
    apply Z.div_lt_upper_bound; lia.
  - apply Hused; [| left; done].
    pose proof (Z.div_mod (total_pages (pmm k)) 8). lia.
Qed.

Lemma pmm_init_state info k ds :
  firmware_map info (mem_of k) ds -> last_search_index (pmm k) = 0 ->
  init_bitmap info (mem_of k) ds <> 0 -> init_total info (mem_of k) ds mod 8 = 0 ->
  exists k', pmm_init info k = Ret tt k' /\ pmm_inv k' /\
    total_pages (pmm k') = init_total info (mem_of k) ds /\
    bitmap (pmm k') = init_bitmap info (mem_of k) ds /\
    pmm_lock (pmm k') = pmm_lock (pmm k) /\
    agree_out (bitmap (pmm k')) (bitmap (pmm k') + total_pages (pmm k') / 8)
      (mem_of k) (mem_of k') /\
    forall q, 0 <= q < total_pages (pmm k') ->
      used k' q = (q <? LOW_PAGES) || negb (in_regions ds q) ||
        in_window (bitmap (pmm k') / 4096) (bitmap_page_count (total_pages (pmm k'))) q.
Proof.
  intros Hfm Hlast Hb H8.
  destruct (init_geometry _ _ _ Hfm Hb) as (d & Hd & Hu & Hok & Hbm & H16 & Hfit & Ht & Hends).
  pose proof Hfm as [Hsz Hcnt _ Hreg Hdis _].
  unfold pmm_init. apply Z.eqb_neq in Hsz. rewrite Hsz, <- Hcnt.
  fold (init_total info (mem_of k) ds) (init_bitmap info (mem_of k) ds).
  apply Z.eqb_neq in Hb. rewrite Hb. cbv zeta.
  set (total := init_total info (mem_of k) ds) in *.
  set (bm := init_bitmap info (mem_of k) ds) in *.
  set (k2 := set_mem (b_memset _ _ _ _) _).
  assert (Hpos : 0 < d_number_of_pages d).
  { destruct (Hok Hu) as (? & ? & ? & ?). pose proof (Hends d Hd Hu). unfold desc_end in *.
    pose proof (Z.div_mod total 8). lia. }
  assert (H07 : (total + 7) / 8 = total / 8).
  { pose proof (Z.div_mod total 8). symmetry. apply (Z.div_unique _ _ _ 7); lia. }
  assert (Ha2 : agree_out bm (bm + total / 8) (mem_of k) (mem_of k2)).
  { apply b_memset_agree_out. apply Z.div_pos; lia. }
  destruct (blank_counted k2) as [HC2 HU2]; try done.
  { intros q Hq. apply memset_used. exact Hq. }
  destruct (mark_all info k2 ds d) as (C & G & U); try done.
  { intros m Hm. change (bitmap (pmm k2)) with bm in Hm.
    change (total_pages (pmm k2)) with total in Hm. rewrite H07 in Hm.
    apply (map_holds_stable info (mem_of k) m ds d bm (bm + total / 8)); try done; try lia.
    - unfold desc_end. lia.
    - pose proof (Z.div_pos total 8). lia.
    - by transitivity (mem_of k2). }
  { simpl. lia. }
  eexists. split; [reflexivity |].
  change (total_pages (pmm k2)) with total in C, G, U.
  set (k' := reserve_low _ _ _) in *. destruct G as [Gb Gt Gl Gk Gm].
  change (bitmap (pmm k2)) with bm in Gb, Gm, U. change (total_pages (pmm k2)) with total in Gt, Gm, U.
  change (last_search_index (pmm k2)) with (last_search_index (pmm k)) in Gl.
  clearbody k'. rewrite H07 in Gm. rewrite Gb, Gt.
  assert (HU : forall q, 0 <= q < total -> used k' q =
     (q <? LOW_PAGES) || negb (in_regions ds q) || in_window (bm / 4096) (bitmap_page_count total) q).
  { intros q Hq. rewrite U, HU2 by exact Hq. simpl. unfold in_window at 1.
    destruct (Z.leb_spec 0 q); [| lia]. rewrite Z.add_0_l.
    by destruct (q <? LOW_PAGES), (in_regions ds q), (in_window (bm / 4096) _ q). }
  split; [| split; [done |]; split; [done |]; split; [exact Gk |];
            split; [by transitivity (mem_of k2) | exact HU]].
  apply (marks_inv k' d); rewrite ?Gb, ?Gt; try done; try lia; [by apply Hends |].
  intros q Hq Hor. rewrite HU by exact Hq.
  destruct Hor as [Hlt | ->]; [| apply orb_true_r].
  apply Z.ltb_lt in Hlt. by rewrite Hlt.
Qed.

(** ** Theorems *)

(** C4: on a firmware map of disjoint, page-aligned regions whose page count is
    a multiple of 8 and that has room for the bitmap above 16 MiB, pmm_init
    returns with the allocator's invariant established.  A page is then in use
    exactly when it lies below 16 MiB, outside every usable region, or under
    the bitmap itself, and memory outside the bitmap is untouched. *)
Theorem pmm_init_correct info k ds :
  firmware_map info (mem_of k) ds -> last_search_index (pmm k) = 0 ->
  init_bitmap info (mem_of k) ds <> 0 -> init_total info (mem_of k) ds mod 8 = 0 ->
  exists k', pmm_init info k = Ret tt k' /\ pmm_inv k' /\
    total_pages (pmm k') = init_total info (mem_of k) ds /\
    bitmap (pmm k') = init_bitmap info (mem_of k) ds /\
    agree_out (bitmap (pmm k')) (bitmap (pmm k') + total_pages (pmm k') / 8)
      (mem_of k) (mem_of k') /\
    forall q, 0 <= q < total_pages (pmm k') ->
      used k' q = (q <? LOW_PAGES) || negb (in_regions ds q) ||
        in_window (bitmap (pmm k') / 4096) (bitmap_page_count (total_pages (pmm k'))) q.
Proof.
  intros Hf Hl Hb H8.
  destruct (pmm_init_state info k ds Hf Hl Hb H8) as (k' & H & I & T & B & _ & A & U).
  exists k'. by split_and!.
Qed.

(** A map of two usable regions: 100 pages from 1 MiB and 16 MiB from 16 MiB. *)
Definition two_regions : list b_efi_mem_desc :=
  [MemDesc 7 0x100000 100; MemDesc 7 0x1000000 4096].
Definition two_regions_info : barium_boot_info_t := BootInfo 0 0 0 0 0 0x5000 96 48 0.
Definition two_regions_mem : mem :=
  st64 (st64 (st32 (st64 (st64 (st32 ∅ 0x5000 7) 0x5008 0x100000) 0x5018 100)
    0x5030 7) 0x5038 0x1000000) 0x5048 4096.

Lemma two_regions_map : firmware_map two_regions_info two_regions_mem two_regions.
Proof.
  constructor; try done.
  - intros [| [| j]] d Hd; simplify_eq/=; by vm_compute.
  - repeat (apply Forall_cons; split; [by intros _; vm_compute |]). done.
  - constructor; [| constructor; constructor].
    apply Forall_cons. split; [| done]. intros _ _. left. by vm_compute.
  - intros [| [| j]] d Hj Hd _; simpl in Hj; try lia;
      repeat (apply elem_of_cons in Hd as [-> | Hd]); try (by apply elem_of_nil in Hd);
      left; by vm_compute.
Qed.

Lemma pmm_init_correct_witness :
  exists k', pmm_init two_regions_info (initial_kernel (plain_hw two_regions_mem)) = Ret tt k' /\
    pmm_inv k' /\ total_pages (pmm k') = 8192.
Proof.
  destruct (pmm_init_correct two_regions_info (initial_kernel (plain_hw two_regions_mem)) two_regions
    two_regions_map eq_refl ltac:(vm_compute; discriminate) ltac:(by vm_compute))
    as (k' & H & I & T & _).
  exists k'. split; [exact H |]. split; [exact I |]. rewrite T. by vm_compute.
Defined.
