(* ===== verification/Heap.v ===== *)
(** heap.c: the kernel heap, a first-fit allocator over 4 MiB of pages.

    The pool is tiled by blocks, each a 24-byte header (size, next, free,
    magic) followed by its payload; headers live in physical memory.  The
    loops over the block list are functions of the memory. *)

From S2P Require Import Prelude Memory State Lib Pmm.

Definition HEAP_MAGIC : Z := 0xBA410101.
Definition POOL_PAGES : Z := 1024.
Definition POOL_BYTES : Z := 1024 * 4096.
(** sizeof(heap_block_t) *)
Definition HDR : Z := 24.

(** ** heap_block_t, as the layout of its fields in memory *)

Definition blk_size (m : mem) (b : Z) : Z := ld64 m b.
Definition blk_next (m : mem) (b : Z) : Z := ld64 m (b + 8).
Definition blk_free (m : mem) (b : Z) : Z := ld32 m (b + 16).
Definition blk_magic (m : mem) (b : Z) : Z := ld32 m (b + 20).
Definition set_blk_size (b v : Z) (m : mem) : mem := st64 m b v.
Definition set_blk_next (b v : Z) (m : mem) : mem := st64 m (b + 8) v.
Definition set_blk_free (b v : Z) (m : mem) : mem := st32 m (b + 16) v.
Definition set_blk_magic (b v : Z) (m : mem) : mem := st32 m (b + 20) v.

Definition heap_lock_ref : spinlock_ref := {|
  lk_get := fun k => Some (heap_lock (heap k));
  lk_set := fun v k => k <| heap ::= fun h => h <| heap_lock := v |> |>
|}.

(** Loop bound: the pool has room for at most this many headers. *)
Definition heap_fuel : nat := Z.to_nat (POOL_BYTES / HDR + 2).

Definition heap_init : M kernel unit :=
  pool ← pmm_alloc POOL_PAGES;
  modify (fun k => k <| heap ::= fun h => h <| heap_start := pool |> |>);;
  modify (fun k => set_mem
    (set_blk_magic pool HEAP_MAGIC (set_blk_free pool 1
      (set_blk_next pool 0 (set_blk_size pool (POOL_BYTES - HDR) (mem_of k))))) k).

(** ** kmalloc *)

(** The body run on the block that fits: split when the rest can hold a
    header and more than 16 bytes, then take it. *)
Definition take_block (size current : Z) (m : mem) : mem :=
  let m1 :=
    if u64 (size + HDR + 16) <? blk_size m current then
      let new_block := current + HDR + size in
      let m1 := set_blk_size new_block (u64 (blk_size m current - size - HDR)) m in
      let m2 := set_blk_next new_block (blk_next m1 current) m1 in
      let m3 := set_blk_free new_block 1 m2 in
      let m4 := set_blk_magic new_block HEAP_MAGIC m3 in
      let m5 := set_blk_size current size m4 in
      set_blk_next current new_block m5
    else m in
  set_blk_free current 0 m1.

(** [while (current)]: the address returned and the new memory. *)
Fixpoint kmalloc_walk (fuel : nat) (size current : Z) (m : mem) : option (Z * mem) :=
  match fuel with
  | O => None
  | S fuel' =>
      if current =? 0 then Some (0, m)
      else if negb (blk_free m current =? 0) && (size <=? blk_size m current)
      then Some (current + HDR, take_block size current m)
      else kmalloc_walk fuel' size (blk_next m current) m
  end.

Definition kmalloc (size : Z) : M kernel Z :=
  if size =? 0 then mret 0 else
  flags ← b_irq_save;
  spin_lock heap_lock_ref;;
  let size := align8 size in
  start ← gets (fun k => heap_start (heap k));
  m ← gets mem_of;
  match kmalloc_walk heap_fuel size start m with
  | None => nofuel
  | Some (ret, m') =>
      modify (set_mem m');;
      spin_unlock heap_lock_ref;;
      b_irq_restore flags;;
      mret ret
  end.

(** ** kfree *)

(** The merging loop: a free block absorbs the free block after it. *)
Fixpoint coalesce (fuel : nat) (current : Z) (m : mem) : option mem :=
  match fuel with
  | O => None
  | S fuel' =>
      if current =? 0 then Some m
      else
        let next := blk_next m current in
        if negb (blk_free m current =? 0) && negb (next =? 0) && negb (blk_free m next =? 0)
        then
          let m1 := set_blk_size current
                      (u64 (blk_size m current + u64 (blk_size m next + HDR))) m in
          let m2 := set_blk_next current (blk_next m1 (blk_next m1 current)) m1 in
          coalesce fuel' current m2
        else coalesce fuel' next m
  end.

Definition kfree (ptr : Z) : M kernel unit :=
  if ptr =? 0 then mret tt else
  flags ← b_irq_save;
  spin_lock heap_lock_ref;;
  let block := ptr - HDR in
  m ← gets mem_of;
  if negb (blk_magic m block =? HEAP_MAGIC) then
    spin_unlock heap_lock_ref;;
    b_irq_restore flags
  else
    start ← gets (fun k => heap_start (heap k));
    match coalesce heap_fuel start (set_blk_free block 1 m) with
    | None => nofuel
    | Some m' =>
        modify (set_mem m');;
        spin_unlock heap_lock_ref;;
        b_irq_restore flags
    end.

(** ** The heap as a list of blocks

    A block is its payload size and whether it is free; a heap is the list of
    its blocks, in address order, from the start of the pool. *)

Abbreviation blocks := (list (Z * bool)).

Fixpoint alloc_list (n : Z) (l : blocks) : option (Z * blocks) :=
  match l with
  | [] => None
  | (sz, fr) :: l' =>
      if fr && (n <=? sz) then
        if n + HDR + 16 <? sz then Some (0, (n, false) :: (sz - n - HDR, true) :: l')
        else Some (0, (sz, false) :: l')
      else match alloc_list n l' with
           | None => None
           | Some (off, l'') => Some (HDR + sz + off, (sz, fr) :: l'')
           end
  end.

Fixpoint coalesce_list (sz : Z) (fr : bool) (l : blocks) : blocks :=
  match l with
  | [] => [(sz, fr)]
  | (sz', fr') :: l' =>
      if fr && fr' then coalesce_list (sz + sz' + HDR) true l'
      else (sz, fr) :: coalesce_list sz' fr' l'
  end.

Definition coalesce_all (l : blocks) : blocks :=
  match l with
  | [] => []
  | (sz, fr) :: l' => coalesce_list sz fr l'
  end.

(** The block whose header is [off] bytes into the pool becomes free. *)
Fixpoint mark_free (off : Z) (l : blocks) : blocks :=
  match l with
  | [] => []
  | (sz, fr) :: l' =>
      if off =? 0 then (sz, true) :: l'
      else (sz, fr) :: mark_free (off - (HDR + sz)) l'
  end.

(** [off] is the offset of a block's header, and what the block is. *)
Fixpoint block_at (off : Z) (l : blocks) : option (Z * bool) :=
  match l with
  | [] => None
  | (sz, fr) :: l' =>
      if off =? 0 then Some (sz, fr)
      else if off <? HDR + sz then None
      else block_at (off - (HDR + sz)) l'
  end.

Definition pool_bytes (l : blocks) : Z :=
  foldr (fun b acc => HDR + fst b + acc) 0 l.

(** No two neighbours are both free. *)
Fixpoint coalesced (l : blocks) : bool :=
  match l with
  | (_, fr) :: ((_, fr') :: _) as l' => negb (fr && fr') && coalesced l'
  | _ => true
  end.

(** ** Representation in memory *)

Record header (m : mem) (a sz nx : Z) (fr : bool) : Prop := {
  h_size : blk_size m a = sz;
  h_next : blk_next m a = nx;
  h_free : blk_free m a = Z.b2z fr;
  h_magic : blk_magic m a = HEAP_MAGIC
}.

(** The blocks [l] tile [a, e); each points to the one after it. *)
Fixpoint chain (m : mem) (a : Z) (l : blocks) (e : Z) : Prop :=
  match l with
  | [] => a = e
  | (sz, fr) :: l' =>
      0 <= sz /\
      header m a sz (match l' with [] => 0 | _ => a + HDR + sz end) fr /\
      chain m (a + HDR + sz) l' e
  end.

(** The byte at [b] belongs to the payload of an allocated block. *)
Fixpoint live_byte (a : Z) (l : blocks) (b : Z) : Prop :=
  match l with
  | [] => False
  | (sz, fr) :: l' =>
      (fr = false /\ a + HDR <= b < a + HDR + sz) \/ live_byte (a + HDR + sz) l' b
  end.

(** ** Lemmas: headers and chains *)

Ltac unfold_blk :=
  unfold blk_size, blk_next, blk_free, blk_magic,
    set_blk_size, set_blk_next, set_blk_free, set_blk_magic in *.

(** Arithmetic with the header size made visible. *)
Ltac hlia := unfold HDR in *; lia.

(** Read a header field through the stores of the heap code. *)
Ltac blk_read :=
  unfold_blk;
  repeat first
    [ rewrite ld64_st64_eq | rewrite ld32_st32_eq
    | rewrite ld64_st64_ne by lia | rewrite ld64_st32_ne by lia
    | rewrite ld32_st64_ne by lia | rewrite ld32_st32_ne by lia ].

Lemma header_agree lo hi m m' a sz nx fr :
  agree lo hi m m' -> lo <= a -> a + HDR <= hi -> header m a sz nx fr -> header m' a sz nx fr.
Proof.
  unfold HDR. intros Ha ?? [H1 H2 H3 H4]. unfold_blk. constructor; unfold_blk.
  - by rewrite (ld64_agree _ _ _ _ _ Ha) by hlia.
  - by rewrite (ld64_agree _ _ _ _ _ Ha) by hlia.
  - by rewrite (ld32_agree _ _ _ _ _ Ha) by hlia.
  - by rewrite (ld32_agree _ _ _ _ _ Ha) by hlia.
Qed.

Lemma chain_bounds m a l e : chain m a l e -> a <= e.
Proof.
  revert a; induction l as [| [sz fr] l IH]; intros a H; simpl in H; [hlia |].
  destruct H as (? & _ & H). apply IH in H. hlia.
Qed.

Lemma chain_agree m m' a l e : agree a e m m' -> chain m a l e -> chain m' a l e.
Proof.
  revert a; induction l as [| [sz fr] l IH]; intros a Ha H; [done |].
  destruct H as (Hsz & Hh & Hc). pose proof (chain_bounds _ _ _ _ Hc). unfold HDR in *.
  split; [done |]. split.
  - eapply header_agree; [exact Ha | hlia | hlia | exact Hh].
  - apply IH; [| exact Hc]. eapply agree_sub; [| | exact Ha]; hlia.
Qed.

Lemma chain_pool_bytes m a l e : chain m a l e -> a + pool_bytes l = e.
Proof.
  revert a; induction l as [| [sz fr] l IH]; intros a H; simpl in *; [hlia |].
  destruct H as (_ & _ & H). apply IH in H. hlia.
Qed.

Lemma live_byte_range m a l e b : chain m a l e -> live_byte a l b -> a + HDR <= b < e.
Proof.
  revert a; induction l as [| [sz fr] l IH]; intros a H Hb; simpl in *; [done |].
  destruct H as (? & _ & H). pose proof (chain_bounds _ _ _ _ H).
  destruct Hb as [[_ ?] | Hb]; [hlia |]. specialize (IH _ H Hb). hlia.
Qed.

(** The memory after an operation on the blocks [l] of [a, e): the new blocks
    are laid out there, nothing outside changed, and no byte of an allocated
    payload did. *)
Record rebuilt (m m' : mem) (a : Z) (l l' : blocks) (e : Z) : Prop := {
  rb_chain : chain m' a l' e;
  rb_frame : agree_out a e m m';
  rb_live : forall b, live_byte a l b -> ld8 m' b = ld8 m b
}.

(** Prepending a block that the operation did not touch. *)
Lemma rebuilt_cons m m' a sz fr l l' e :
  chain m a ((sz, fr) :: l) e -> (l = [] <-> l' = []) ->
  rebuilt m m' (a + HDR + sz) l l' e -> rebuilt m m' a ((sz, fr) :: l) ((sz, fr) :: l') e.
Proof.
  intros (Hsz & Hh & Hc) Hnil [Rc Rf Rl]. unfold HDR in *. constructor.
  - split; [done |]. split; [| exact Rc].
    replace (match l' with [] => 0 | _ => a + HDR + sz end)
      with (match l with [] => 0 | _ => a + HDR + sz end)
      by (destruct l, l'; naive_solver).
    eapply (header_agree a (a + 24)); [| hlia | hlia | exact Hh].
    eapply agree_out_disj; [| exact Rf]. hlia.
  - eapply agree_out_sub; [| | exact Rf]; hlia.
  - intros b [[-> Hb] | Hb]; [| by apply Rl].
    apply Rf. hlia.
Qed.

(** ** kmalloc *)

Lemma take_block_rebuilt m a sz l e n :
  chain m a ((sz, true) :: l) e -> 0 < a -> e < 2 ^ 63 -> 0 <= n <= sz ->
  rebuilt m (take_block n a m) a ((sz, true) :: l)
    (if n + HDR + 16 <? sz then (n, false) :: (sz - n - HDR, true) :: l else (sz, false) :: l) e.
Proof.
  intros (Hsz & [H1 H2 H3 H4] & Hc) Ha He Hn. pose proof (chain_bounds _ _ _ _ Hc) as Hb.
  unfold take_block, HDR in *. rewrite H1, (u64_small (n + 24 + 16)) by hlia.
  destruct (Z.ltb_spec (n + 24 + 16) sz) as [Hlt | Hge].
  - set (m' := set_blk_free _ _ _).
    assert (Hag : agree_out a (a + 24 + n + 24) m m').
    { subst m'. intros b Hbb. unfold_blk.
      by rewrite ?ld8_st32_out, ?ld8_st64_out, ?ld8_st32_out, ?ld8_st64_out by hlia. }
    constructor.
    + assert (Hnx : blk_next m a = match l with [] => 0 | _ => a + 24 + sz end) by exact H2.
      split; [hlia |]. split; [| split; [hlia |]; split].
      * subst m'. constructor; blk_read; rewrite ?u64_small by hlia; done.
      * subst m'. replace (a + HDR + n) with (a + 24 + n) by done.
        unfold_blk. constructor; blk_read; try done.
        -- rewrite (u64_small (sz - n - 24)), u64_small by hlia. done.
        -- rewrite Hnx. destruct l; [done |]. rewrite u64_small by hlia. hlia.
      * match goal with |- chain _ ?x _ _ => replace x with (a + 24 + sz) by hlia end.
        eapply chain_agree; [| exact Hc]. eapply agree_out_disj; [| exact Hag]. hlia.
    + eapply agree_out_sub; [| | exact Hag]; hlia.
    + intros b [[? _] | Hl]; [done |].
      pose proof (live_byte_range _ _ _ _ _ Hc Hl). apply Hag. hlia.
  - assert (Hag : agree_out a (a + 24) m (set_blk_free a 0 m)).
    { intros b Hbb. apply ld8_st32_out. hlia. }
    constructor.
    + split; [done |]. split.
      * constructor; blk_read; try done.
      * eapply chain_agree; [| exact Hc]. eapply agree_out_disj; [| exact Hag]. hlia.
    + eapply agree_out_sub; [| | exact Hag]; hlia.
    + intros b [[? _] | Hl]; [done |].
      pose proof (live_byte_range _ _ _ _ _ Hc Hl). apply Hag. hlia.
Qed.

Lemma alloc_list_nil n l off l' : alloc_list n l = Some (off, l') -> l <> [] /\ l' <> [].
Proof.
  destruct l as [| [sz fr] l]; [done |]. simpl. repeat case_match; naive_solver.
Qed.

Lemma alloc_list_sizes n l off l' :
  0 <= n -> Forall (fun b => 0 <= fst b) l -> alloc_list n l = Some (off, l') ->
  0 <= off /\ Forall (fun b => 0 <= fst b) l'.
Proof.
  intros Hn. revert off l'; induction l as [| [sz fr] l IH]; intros off l' Hl H; [done |].
  apply Forall_cons in Hl as [Hsz Hl]. simpl in *.
  destruct (fr && (n <=? sz)) eqn:E.
  - destruct (Z.ltb_spec (n + HDR + 16) sz); simplify_eq; split; try lia;
      repeat (apply Forall_cons; split); simpl; auto; hlia.
  - destruct (alloc_list n l) as [[off1 l1] |]; simplify_eq.
    destruct (IH _ _ Hl eq_refl). split; [hlia |]. by apply Forall_cons.
Qed.

Lemma kmalloc_walk_spec n e : forall l fuel a m,
  0 <= n -> chain m a l e -> l <> [] -> 0 < a -> e < 2 ^ 63 -> (length l < fuel)%nat ->
  match alloc_list n l with
  | None => kmalloc_walk fuel n a m = Some (0, m)
  | Some (off, l') => exists m',
      kmalloc_walk fuel n a m = Some (a + off + HDR, m') /\ rebuilt m m' a l l' e
  end.
Proof.
  induction l as [| [sz fr] l IH]; intros fuel a m Hn Hc Hnil Ha He Hf; [done |].
  destruct fuel as [| fuel]; [simpl in Hf; lia |]. pose proof Hc as (Hsz & [H1 H2 H3 _] & Hc').
  pose proof (chain_bounds _ _ _ _ Hc').
  cbn [alloc_list kmalloc_walk]. rewrite H1, H2, H3.
  destruct (Z.eqb_spec a 0); [lia |].
  replace (negb (Z.b2z fr =? 0)) with fr by by destruct fr.
  destruct (fr && (n <=? sz)) eqn:E.
  - apply andb_true_iff in E as [-> E]. apply Z.leb_le in E.
    pose proof (take_block_rebuilt m a sz l e n Hc Ha He ltac:(lia)) as HR.
    destruct (n + HDR + 16 <? sz); eexists; (split; [f_equal; f_equal; lia | exact HR]).
  - destruct l as [| b l]; [destruct fuel; [simpl in Hf; lia | done] |].
    specialize (IH fuel (a + HDR + sz) m Hn Hc' ltac:(done) ltac:(hlia) He ltac:(simpl in *; lia)).
    destruct (alloc_list n (b :: l)) as [[off l'] |] eqn:EA; [| exact IH].
    destruct IH as (m' & -> & HR). exists m'. split; [f_equal; f_equal; lia |].
    apply rebuilt_cons; [exact Hc | | exact HR].
    apply alloc_list_nil in EA. naive_solver.
Qed.

(** ** kfree *)

Lemma coalesce_list_nil sz fr l : coalesce_list sz fr l <> [].
Proof.
  revert sz fr; induction l as [| [sz' fr'] l IH]; intros sz fr; simpl; [done |].
  destruct (fr && fr'); [apply IH | done].
Qed.

(** Absorbing the next block: one iteration of the merging loop. *)
Definition absorb (a : Z) (m : mem) : mem :=
  let m1 := set_blk_size a (u64 (blk_size m a + u64 (blk_size m (blk_next m a) + HDR))) m in
  set_blk_next a (blk_next m1 (blk_next m1 a)) m1.

Lemma absorb_rebuilt m a sz sz' l e :
  chain m a ((sz, true) :: (sz', true) :: l) e -> 0 < a -> e < 2 ^ 63 ->
  rebuilt m (absorb a m) a ((sz, true) :: (sz', true) :: l) ((sz + sz' + HDR, true) :: l) e.
Proof.
  intros (Hsz & [H1 H2 H3 H4] & Hsz' & [N1 N2 N3 N4] & Hc) Ha He.
  pose proof (chain_bounds _ _ _ _ Hc) as Hb. unfold absorb. rewrite H2, H1, N1.
  rewrite (u64_small (sz' + HDR)), (u64_small (sz + (sz' + HDR))) by hlia.
  set (m1 := set_blk_size a _ m).
  assert (Hn1 : blk_next m1 a = a + HDR + sz) by (subst m1; unfold_blk; by rewrite ld64_st64_ne by hlia).
  assert (Hn2 : blk_next m1 (a + HDR + sz) = blk_next m (a + HDR + sz))
    by (subst m1; unfold_blk; by rewrite ld64_st64_ne by hlia).
  rewrite Hn1, Hn2, N2. set (m2 := set_blk_next a _ m1).
  assert (Hag : agree_out a (a + 16) m m2).
  { intros b Hbb. subst m2 m1. unfold_blk. by rewrite !ld8_st64_out by hlia. }
  constructor.
  - split; [hlia |]. split.
    + subst m2 m1. unfold HDR in *. constructor; blk_read; rewrite ?u64_small by lia; try done; try lia.
      destruct l; rewrite u64_small by lia; lia.
    + match goal with |- chain _ ?x _ _ => replace x with (a + HDR + sz + HDR + sz') by hlia end.
      eapply chain_agree; [| exact Hc]. eapply agree_out_disj; [| exact Hag]. hlia.
  - eapply agree_out_sub; [| | exact Hag]; hlia.
  - intros b [[? _] | [[? _] | Hl]]; [done | done |].
    pose proof (live_byte_range _ _ _ _ _ Hc Hl). apply Hag. hlia.
Qed.

Lemma rebuilt_trans m m1 m2 a l l1 l2 e :
  (forall b, live_byte a l b -> live_byte a l1 b) ->
  rebuilt m m1 a l l1 e -> rebuilt m1 m2 a l1 l2 e -> rebuilt m m2 a l l2 e.
Proof.
  intros Hl [C1 F1 L1] [C2 F2 L2]. constructor; [done | by etransitivity |].
  intros b Hb. rewrite L2 by auto. by apply L1.
Qed.

Lemma coalesce_spec e : forall l fuel a m sz fr,
  chain m a ((sz, fr) :: l) e -> 0 < a -> e < 2 ^ 63 -> (S (length l) < fuel)%nat ->
  exists m', coalesce fuel a m = Some m' /\
    rebuilt m m' a ((sz, fr) :: l) (coalesce_list sz fr l) e.
Proof.
  induction l as [| [sz' fr'] l IH]; intros fuel a m sz fr Hc Ha He Hf;
    (destruct fuel as [| fuel]; [lia |]); pose proof Hc as (Hsz & [H1 H2 H3 H4] & Hc').
  - cbn [coalesce coalesce_list]. rewrite H2, H3. destruct (Z.eqb_spec a 0); [lia |].
    rewrite andb_false_r. simpl. destruct fuel; [simpl in Hf; lia |].
    exists m. split; [done |]. constructor; done.
  - pose proof Hc' as (Hsz' & [N1 N2 N3 N4] & Hc''). pose proof (chain_bounds _ _ _ _ Hc'').
    cbn [coalesce coalesce_list]. rewrite H2, H3, N3.
    destruct (Z.eqb_spec a 0); [lia |]. destruct (Z.eqb_spec (a + HDR + sz) 0); [hlia |].
    replace (negb (Z.b2z fr =? 0)) with fr by by destruct fr.
    replace (negb (Z.b2z fr' =? 0)) with fr' by by destruct fr'. rewrite andb_true_r.
    destruct (fr && fr') eqn:E.
    + apply andb_true_iff in E as [-> ->].
      pose proof (absorb_rebuilt m a sz sz' l e Hc Ha He) as HR.
      unfold absorb in HR. rewrite H2 in HR.
      destruct (IH fuel a _ _ _ (rb_chain _ _ _ _ _ _ HR) Ha He ltac:(simpl in *; lia)) as (m' & -> & HR').
      exists m'. split; [done |]. eapply rebuilt_trans; [| exact HR | exact HR'].
      intros b [[? _] | [[? _] | Hb]]; [done | done |]. right.
      by replace (a + HDR + (sz + sz' + HDR)) with (a + HDR + sz + HDR + sz') by lia.
    + destruct (IH fuel (a + HDR + sz) m sz' fr' Hc' ltac:(hlia) He ltac:(simpl in *; lia)) as (m' & -> & HR').
      exists m'. split; [done |]. apply rebuilt_cons; [exact Hc | | exact HR'].
      pose proof (coalesce_list_nil sz' fr' l). naive_solver.
Qed.

Lemma mark_free_rebuilt e off : forall l m a b,
  chain m a l e -> block_at off l = Some b -> 0 <= off -> e < 2 ^ 63 ->
  chain (set_blk_free (a + off) 1 m) a (mark_free off l) e /\
  agree_out (a + off + 16) (a + off + 20) m (set_blk_free (a + off) 1 m) /\
  blk_magic m (a + off) = HEAP_MAGIC /\ a + off + HDR <= e.
Proof.
  intros l m a b Hc Hb Hoff He.
  assert (Hag : agree_out (a + off + 16) (a + off + 20) m (set_blk_free (a + off) 1 m)).
  { intros x Hx. apply ld8_st32_out. lia. }
  cut (chain (set_blk_free (a + off) 1 m) a (mark_free off l) e /\
       blk_magic m (a + off) = HEAP_MAGIC /\ a + off + HDR <= e); [naive_solver |].
  clear Hag.
  revert a off Hc Hb Hoff; induction l as [| [sz fr] l IH]; intros a off Hc Hb Hoff; [done |].
  destruct Hc as (Hsz & Hh & Hc). pose proof (chain_bounds _ _ _ _ Hc).
  cbn [block_at mark_free] in *. destruct (Z.eqb_spec off 0) as [-> | Hne].
  - rewrite Z.add_0_r. destruct Hh as [H1 H2 H3 H4]. split; [| split; [done | hlia]].
    split; [done |]. split.
    + constructor; blk_read; done.
    + eapply chain_agree; [| exact Hc]. eapply agree_out_disj; [| apply agree_out_st32].
      hlia.
  - destruct (Z.ltb_spec off (HDR + sz)) as [| Hge]; [done |].
    destruct (IH (a + HDR + sz) (off - (HDR + sz)) Hc Hb ltac:(lia)) as (C & Mg & Le).
    replace (a + HDR + sz + (off - (HDR + sz))) with (a + off) in * by lia.
    split; [| done]. split; [done |]. split; [| exact C].
    replace (match mark_free (off - (HDR + sz)) l with [] => 0 | _ => a + HDR + sz end)
      with (match l with [] => 0 | _ => a + HDR + sz end)
      by (destruct l as [| [] ?]; simpl; [done | by destruct (_ =? 0)]).
    eapply (header_agree a (a + HDR)); [| lia | lia | exact Hh].
    eapply agree_out_disj; [| apply agree_out_st32]. hlia.
Qed.

(** ** Facts about block lists *)

Lemma block_at_cons_0 sz fr l : block_at 0 ((sz, fr) :: l) = Some (sz, fr).
Proof. done. Qed.

Lemma block_at_skip off sz fr l :
  0 <= sz -> 0 <= off -> block_at (HDR + sz + off) ((sz, fr) :: l) = block_at off l.
Proof.
  intros. cbn [block_at]. destruct (Z.eqb_spec (HDR + sz + off) 0); [hlia |].
  destruct (Z.ltb_spec (HDR + sz + off) (HDR + sz)); [lia |]. f_equal. lia.
Qed.

Abbreviation sizes_ok l := (Forall (fun b : Z * bool => 0 <= fst b) l).

(** Two blocks do not overlap. *)
Lemma block_at_disjoint l off1 off2 s1 f1 s2 f2 :
  sizes_ok l -> 0 <= off1 < off2 ->
  block_at off1 l = Some (s1, f1) -> block_at off2 l = Some (s2, f2) ->
  off1 + HDR + s1 <= off2.
Proof.
  revert off1 off2; induction l as [| [sz fr] l IH]; intros off1 off2 Hl Ho H1 H2; [done |].
  apply Forall_cons in Hl as [Hsz Hl]. cbn [block_at] in *.
  destruct (Z.eqb_spec off2 0); [lia |]. destruct (Z.ltb_spec off2 (HDR + sz)); [done |].
  destruct (Z.eqb_spec off1 0) as [-> |]; [simplify_eq; lia |].
  destruct (Z.ltb_spec off1 (HDR + sz)); [done |].
  specialize (IH (off1 - (HDR + sz)) (off2 - (HDR + sz)) Hl ltac:(lia) H1 H2). lia.
Qed.

(** A block lies inside the pool. *)
Lemma block_at_bound l off s f :
  sizes_ok l -> 0 <= off -> block_at off l = Some (s, f) ->
  0 <= s /\ off + HDR + s <= pool_bytes l.
Proof.
  revert off; induction l as [| [sz fr] l IH]; intros off Hl Ho H; [done |].
  apply Forall_cons in Hl as [Hsz Hl]. cbn [block_at pool_bytes foldr fst] in *.
  fold (pool_bytes l). assert (0 <= pool_bytes l).
  { clear IH H. induction l as [| [] l IHl]; [done |]. apply Forall_cons in Hl as [? ?].
    specialize (IHl ltac:(done)). simpl in *. hlia. }
  destruct (Z.eqb_spec off 0) as [-> |]; [simplify_eq; simpl in *; lia |].
  destruct (Z.ltb_spec off (HDR + sz)); [done |].
  specialize (IH (off - (HDR + sz)) Hl ltac:(lia) H). lia.
Qed.

(** First fit: what a successful allocation returns. *)
Lemma alloc_list_Some n l : forall off l',
  0 <= n -> sizes_ok l -> alloc_list n l = Some (off, l') ->
  0 <= off /\ (exists sz0, block_at off l = Some (sz0, true) /\ n <= sz0) /\
  (exists sz, block_at off l' = Some (sz, false) /\ n <= sz) /\
  (forall o s, 0 <= o -> o <> off -> block_at o l = Some (s, false) -> block_at o l' = Some (s, false)) /\
  pool_bytes l' = pool_bytes l /\ sizes_ok l'.
Proof.
  induction l as [| [sz fr] l IH]; intros off l' Hn Hl H; [done |].
  pose proof (alloc_list_sizes n _ _ _ Hn Hl H) as [Hoff Hl'].
  apply Forall_cons in Hl as [Hsz Hl]. simpl in Hsz. cbn [alloc_list] in H.
  destruct (fr && (n <=? sz)) eqn:E.
  - apply andb_true_iff in E as [-> E]. apply Z.leb_le in E.
    destruct (Z.ltb_spec (n + HDR + 16) sz) as [Hlt | Hge]; simplify_eq;
      (split; [done |]); (split; [by exists sz |]).
    + split; [by exists n |]. split; [| split; [simpl; lia | done]].
      intros o s Ho Hne Hb. cbn [block_at] in Hb.
      destruct (Z.eqb_spec o 0); [done |]. destruct (Z.ltb_spec o (HDR + sz)); [done |].
      cbn [block_at]. repeat (zcase; try hlia). rewrite <- Hb. f_equal. hlia.
    + split; [by exists sz |]. split; [| split; [done | done]].
      intros o s Ho Hne Hb. cbn [block_at] in *. by destruct (Z.eqb_spec o 0).
  - destruct (alloc_list n l) as [[off1 l1] |] eqn:EA; simplify_eq.
    destruct (IH _ _ Hn Hl eq_refl) as (Ho1 & (s0 & Hs0 & ?) & (s1 & Hs1 & ?) & Hoth & Hp & _).
    split; [done |]. rewrite !block_at_skip by done. split; [by exists s0 |].
    split; [by exists s1 |]. split; [| split; [simpl; rewrite Hp; done | done]].
    intros o s Ho Hne Hb. cbn [block_at] in *.
    destruct (Z.eqb_spec o 0); [done |]. destruct (Z.ltb_spec o (HDR + sz)); [done |].
    apply Hoth; [lia | lia | done].
Qed.

(** A failed one: no free block is large enough. *)
Lemma alloc_list_None n l :
  alloc_list n l = None <-> Forall (fun b => snd b = true -> fst b < n) l.
Proof.
  induction l as [| [sz fr] l IH]; [done |]. cbn [alloc_list]. rewrite Forall_cons. simpl.
  destruct fr; simpl.
  - destruct (Z.leb_spec n sz).
    + split; [by case_match | naive_solver lia].
    + destruct (alloc_list n l) as [[] |]; naive_solver.
  - destruct (alloc_list n l) as [[] |]; naive_solver.
Qed.

(** Merging keeps the allocated blocks where they are. *)
Lemma coalesce_list_live l : forall sz fr off s,
  0 <= sz -> sizes_ok l -> 0 <= off ->
  block_at off ((sz, fr) :: l) = Some (s, false) ->
  block_at off (coalesce_list sz fr l) = Some (s, false).
Proof.
  induction l as [| [sz' fr'] l IH]; intros sz fr off s Hsz Hl Ho H; [done |].
  apply Forall_cons in Hl as [Hsz' Hl]. simpl in Hsz'. cbn [coalesce_list].
  destruct (fr && fr') eqn:E.
  - apply andb_true_iff in E as [-> ->]. apply IH; [hlia | done | done |].
    cbn [block_at] in *. destruct (Z.eqb_spec off 0); [done |].
    destruct (Z.ltb_spec off (HDR + sz)); [done |].
    destruct (Z.eqb_spec (off - (HDR + sz)) 0); [done |].
    destruct (Z.ltb_spec (off - (HDR + sz)) (HDR + sz')); [done |].
    destruct (Z.ltb_spec off (HDR + (sz + sz' + HDR))); [lia |]. rewrite <- H. f_equal. lia.
  - cbn [block_at] in H |- *. destruct (Z.eqb_spec off 0); [done |].
    destruct (Z.ltb_spec off (HDR + sz)); [done |]. apply IH; [done | done | lia | done].
Qed.

Lemma coalesce_list_head sz fr l :
  exists sz' l', coalesce_list sz fr l = (sz', fr) :: l'.
Proof.
  revert sz; induction l as [| [s f] l IH]; intros sz; simpl; [eauto |].
  destruct fr, f; simpl; eauto.
Qed.

Lemma coalesce_list_coalesced l : forall sz fr, coalesced (coalesce_list sz fr l) = true.
Proof.
  induction l as [| [s f] l IH]; intros sz fr; cbn [coalesce_list]; [done |].
  destruct (fr && f) eqn:E; [apply IH |].
  specialize (IH s f). destruct (coalesce_list_head s f l) as (s' & l' & E'). rewrite E' in *.
  cbn [coalesced]. by rewrite E.
Qed.

Lemma coalesce_list_sizes l : forall sz fr,
  0 <= sz -> sizes_ok l -> sizes_ok (coalesce_list sz fr l).
Proof.
  induction l as [| [s f] l IH]; intros sz fr Hsz Hl; cbn [coalesce_list].
  { by apply Forall_cons. }
  apply Forall_cons in Hl as [Hs Hl]. simpl in Hs. destruct (fr && f).
  - apply IH; [hlia | done].
  - apply Forall_cons. split; [done | by apply IH].
Qed.

Lemma coalesce_list_id sz fr l :
  coalesced ((sz, fr) :: l) = true -> coalesce_list sz fr l = (sz, fr) :: l.
Proof.
  revert sz fr; induction l as [| [s f] l IH]; intros sz fr H; [done |].
  cbn [coalesced coalesce_list] in *. apply andb_true_iff in H as [H1 H2].
  apply negb_true_iff in H1. rewrite H1. f_equal. by apply IH.
Qed.

Lemma coalesced_tail b l : coalesced (b :: l) = true -> coalesced l = true.
Proof. destruct b, l as [| [] ?]; [done |]. intros [_ ?]%andb_true_iff. done. Qed.

(** Freeing the block just allocated gives the list back. *)
Lemma free_alloc_list n l : forall off l',
  0 <= n -> sizes_ok l -> coalesced l = true -> alloc_list n l = Some (off, l') ->
  coalesce_all (mark_free off l') = l.
Proof.
  induction l as [| [sz fr] l IH]; intros off l' Hn Hl Hc H; [done |].
  apply Forall_cons in Hl as [Hsz Hl]. simpl in Hsz. cbn [alloc_list] in H.
  destruct (fr && (n <=? sz)) eqn:E.
  - apply andb_true_iff in E as [-> E].
    destruct (n + HDR + 16 <? sz); simplify_eq; cbn -[HDR]; [| by apply coalesce_list_id].
    replace (n + (sz - n - HDR) + HDR) with sz by lia. by apply coalesce_list_id.
  - destruct (alloc_list n l) as [[off1 l1] |] eqn:EA; simplify_eq.
    pose proof (alloc_list_Some n l _ _ Hn Hl EA) as (Ho & (s0 & Hs0 & _) & _).
    cbn [mark_free]. destruct (Z.eqb_spec (HDR + sz + off1) 0); [hlia |].
    replace (HDR + sz + off1 - (HDR + sz)) with off1 by lia.
    specialize (IH _ _ Hn Hl (coalesced_tail _ _ Hc) eq_refl).
    destruct (mark_free off1 l1) as [| [s f] l2] eqn:EM; [simpl in IH; by subst l |].
    cbn [coalesce_all coalesce_list] in *. rewrite IH.
    destruct (coalesce_list_head s f l2) as (s' & l'' & E'). rewrite E' in IH. subst l.
    cbn [coalesced] in Hc. apply andb_true_iff in Hc as [Hc _]. apply negb_true_iff in Hc.
    by rewrite Hc.
Qed.

Lemma alloc_list_coalesced n l : forall off l',
  coalesced l = true -> alloc_list n l = Some (off, l') -> coalesced l' = true.
Proof.
  induction l as [| [sz fr] l IH]; intros off l' Hc H; [done |]. cbn [alloc_list] in H.
  destruct (fr && (n <=? sz)) eqn:E.
  - apply andb_true_iff in E as [-> _].
    destruct (n + HDR + 16 <? sz); simplify_eq; simpl; [by destruct l as [| [] ?] |].
    destruct l as [| [s f] l]; [done |]. simpl in Hc. by apply andb_true_iff in Hc as [_ ?].
  - destruct (alloc_list n l) as [[off1 l1] |] eqn:EA; simplify_eq.
    pose proof (coalesced_tail _ _ Hc) as Hc'. specialize (IH _ _ Hc' eq_refl).
    destruct l as [| [s f] l]; [done |]. cbn [coalesced] in Hc.
    apply andb_true_iff in Hc as [Hc _]. apply negb_true_iff in Hc.
    cbn [alloc_list] in EA. repeat case_match; simplify_eq; cbn [coalesced] in *;
      rewrite ?andb_false_r, ?IH, ?Hc; done.
Qed.

Lemma mark_free_other off l : forall o s,
  sizes_ok l -> 0 <= o -> o <> off -> block_at o l = Some (s, false) ->
  block_at o (mark_free off l) = Some (s, false).
Proof.
  revert off; induction l as [| [sz fr] l IH]; intros off o s Hl Ho Hne Hb; [done |].
  apply Forall_cons in Hl as [Hsz Hl]. cbn [mark_free block_at] in *.
  destruct (Z.eqb_spec off 0) as [-> |].
  - cbn [block_at]. by destruct (Z.eqb_spec o 0).
  - cbn [block_at]. destruct (Z.eqb_spec o 0); [done |]. destruct (o <? HDR + sz) eqn:?; [done |].
    zbool. apply IH; [done | lia | lia | done].
Qed.

Lemma mark_free_sizes off l : sizes_ok l -> sizes_ok (mark_free off l).
Proof.
  revert off; induction l as [| [sz fr] l IH]; intros off Hl; [done |].
  apply Forall_cons in Hl as [Hsz Hl]. cbn [mark_free].
  destruct (off =? 0); apply Forall_cons; auto.
Qed.

Lemma mark_free_nil off l : mark_free off l = [] <-> l = [].
Proof. destruct l as [| [] ?]; [done |]. cbn [mark_free]. by destruct (off =? 0). Qed.

(** The payload of the block being freed is no longer live; the others' is. *)
Lemma mark_free_live off a l b :
  live_byte a (mark_free off l) b -> live_byte a l b.
Proof.
  revert off a; induction l as [| [sz fr] l IH]; intros off a H; [done |].
  cbn [mark_free] in H. destruct (off =? 0); cbn [live_byte] in *; [naive_solver |].
  destruct H as [H | H]; [by left | right; by eapply IH].
Qed.

Lemma chain_sizes m a l e : chain m a l e -> sizes_ok l.
Proof.
  revert a; induction l as [| [sz fr] l IH]; intros a H; [done |].
  destruct H as (? & _ & H). apply Forall_cons. split; [done | by eapply IH].
Qed.

Lemma live_byte_in_block m e : forall l a off b s f,
  chain m a l e -> 0 <= off -> block_at off l = Some (s, f) ->
  live_byte a l b -> b < a + off + 16 \/ a + off + 20 <= b.
Proof.
  induction l as [| [sz fr] l IH]; intros a off b s f Hc Ho Hb Hl; [done |].
  destruct Hc as (Hsz & _ & Hc). cbn [block_at live_byte] in *.
  destruct (Z.eqb_spec off 0) as [-> |].
  - destruct Hl as [[_ ?] | Hl]; [hlia |].
    pose proof (live_byte_range _ _ _ _ _ Hc Hl). hlia.
  - destruct (Z.ltb_spec off (HDR + sz)); [done |].
    destruct Hl as [[_ ?] | Hl]; [hlia |].
    specialize (IH (a + HDR + sz) (off - (HDR + sz)) b s f Hc ltac:(lia) Hb Hl). lia.
Qed.

(** Sizes, and so header offsets, are multiples of 8. *)
Abbreviation aligned l := (Forall (fun b : Z * bool => fst b mod 8 = 0) l).

Lemma alloc_list_aligned n l : forall off l',
  n mod 8 = 0 -> aligned l -> alloc_list n l = Some (off, l') -> aligned l'.
Proof.
  intros off l' Hn. revert off l'. induction l as [| [sz fr] l IH]; intros off l' Hl H; [done |].
  apply Forall_cons in Hl as [Hsz Hl]. simpl in Hsz. cbn [alloc_list] in H.
  repeat case_match; simplify_eq; repeat (apply Forall_cons; split); simpl; eauto.
  unfold HDR. zdiv.
Qed.

Lemma mark_free_aligned off l : aligned l -> aligned (mark_free off l).
Proof.
  revert off; induction l as [| [sz fr] l IH]; intros off Hl; [done |].
  apply Forall_cons in Hl as [Hsz Hl]. cbn [mark_free].
  destruct (off =? 0); apply Forall_cons; auto.
Qed.

Lemma coalesce_list_aligned l : forall sz fr,
  sz mod 8 = 0 -> aligned l -> aligned (coalesce_list sz fr l).
Proof.
  induction l as [| [s f] l IH]; intros sz fr Hsz Hl; cbn [coalesce_list].
  { by apply Forall_cons. }
  apply Forall_cons in Hl as [Hs Hl]. simpl in Hs. destruct (fr && f).
  - apply IH; [unfold HDR; zdiv | done].
  - apply Forall_cons. split; [done | by apply IH].
Qed.

Lemma coalesce_all_aligned l : aligned l -> aligned (coalesce_all l).
Proof.
  destruct l as [| [sz fr] l]; [done |]. intros [? ?]%Forall_cons.
  by apply coalesce_list_aligned.
Qed.

Lemma block_at_aligned l off b : aligned l -> block_at off l = Some b -> off mod 8 = 0.
Proof.
  revert off; induction l as [| [sz fr] l IH]; intros off Hl H; [done |].
  apply Forall_cons in Hl as [Hsz Hl]. simpl in Hsz. cbn [block_at] in H.
  destruct (Z.eqb_spec off 0) as [-> |]; [done |]. destruct (off <? HDR + sz); [done |].
  specialize (IH _ Hl H). unfold HDR in *. zdiv.
Qed.

(** ** The heap of a kernel state *)

(** [l] is the block list of the heap of [k]. *)
Record heap_rep (k : kernel) (l : blocks) : Prop := {
  hr_chain : chain (mem_of k) (heap_start (heap k)) l (heap_start (heap k) + POOL_BYTES);
  hr_nonempty : l <> [];
  hr_coalesced : coalesced l = true;
  hr_aligned : aligned l;
  hr_start : 0 < heap_start (heap k) /\ heap_start (heap k) mod 8 = 0 /\
             heap_start (heap k) + POOL_BYTES < 2 ^ 63
}.

Lemma chain_length m a l e : chain m a l e -> HDR * Z.of_nat (length l) <= e - a.
Proof.
  revert a; induction l as [| [sz fr] l IH]; intros a H; simpl in *; [lia |].
  destruct H as (? & _ & H). specialize (IH _ H). hlia.
Qed.

Lemma heap_rep_fuel k l : heap_rep k l -> (S (length l) < heap_fuel)%nat.
Proof.
  intros [Hc _ _ _ _]. apply chain_length in Hc.
  unfold heap_fuel. change (POOL_BYTES / HDR + 2) with 174764.
  change POOL_BYTES with 4194304 in Hc. hlia.
Qed.

Lemma heap_set_mem k m : heap (set_mem m k) = heap k.
Proof. done. Qed.

Lemma kmalloc_spec k l size :
  heap_rep k l -> heap_lock (heap k) = 0 -> size <> 0 ->
  match alloc_list (align8 size) l with
  | None => kmalloc size k = Ret 0 k
  | Some (off, l') => exists m',
      kmalloc size k = Ret (heap_start (heap k) + off + HDR) (set_mem m' k) /\
      heap_rep (set_mem m' k) l' /\
      rebuilt (mem_of k) m' (heap_start (heap k)) l l' (heap_start (heap k) + POOL_BYTES)
  end.
Proof.
  intros Hr Hlk Hs. pose proof (heap_rep_fuel k l Hr) as Hf. destruct Hr as [Hc Hn Hco Hal8 (Ha & Ha8 & He)].
  pose proof (align8_mult size) as [Hal Hal0].
  pose proof (kmalloc_walk_spec (align8 size) _ l heap_fuel _ _ ltac:(lia) Hc Hn Ha He ltac:(lia)) as HW.
  unfold kmalloc. destruct (Z.eqb_spec size 0); [lia |].
  do 2 kstep. cbv zeta. do 2 kstep.
  change (mem_of (lk_set heap_lock_ref 1 (masked k))) with (mem_of k).
  change (heap_start (heap (lk_set heap_lock_ref 1 (masked k)))) with (heap_start (heap k)).
  destruct (alloc_list (align8 size) l) as [[off l'] |] eqn:EA.
  - destruct HW as (m' & -> & HR). exists m'. split; [| split; [| exact HR]].
    + do 3 kstep. unfold mret, M_ret. f_equal.
      keta k in Hlk.
    + constructor; [exact (rb_chain _ _ _ _ _ _ HR) | by eapply alloc_list_nil
        | by eapply alloc_list_coalesced | by eapply alloc_list_aligned | done].
  - rewrite HW. do 3 kstep. unfold mret, M_ret. f_equal.
    keta k in Hlk.
Qed.

Lemma kfree_spec k l off b :
  heap_rep k l -> heap_lock (heap k) = 0 -> 0 <= off -> block_at off l = Some b ->
  exists m', kfree (heap_start (heap k) + off + HDR) k = Ret tt (set_mem m' k) /\
    heap_rep (set_mem m' k) (coalesce_all (mark_free off l)) /\
    agree_out (heap_start (heap k)) (heap_start (heap k) + POOL_BYTES) (mem_of k) m' /\
    forall x, live_byte (heap_start (heap k)) (mark_free off l) x -> ld8 m' x = ld8 (mem_of k) x.
Proof.
  intros Hr Hlk Ho Hb. pose proof (heap_rep_fuel k l Hr) as Hf. destruct Hr as [Hc Hn Hco Hal8 (Ha & Ha8 & He)].
  set (a := heap_start (heap k)) in *. set (e := a + POOL_BYTES) in *.
  destruct (mark_free_rebuilt e off l (mem_of k) a b Hc Hb Ho He) as (Hc1 & Hag & Hmg & Hle).
  destruct (mark_free off l) as [| [sz fr] l1] eqn:EM; [by apply mark_free_nil in EM |].
  assert (Hlen : length ((sz, fr) :: l1) = length l).
  { rewrite <- EM. clear. revert off. induction l as [| [] l IH]; intros off; [done |].
    simpl. destruct (off =? 0); simpl; auto. }
  destruct (coalesce_spec e l1 heap_fuel a _ sz fr Hc1 Ha He ltac:(simpl in Hlen; lia)) as (m' & Hco' & HR).
  exists m'. split; [| split; [| split]].
  - unfold kfree. destruct (Z.eqb_spec (a + off + HDR) 0); [hlia |].
    do 2 kstep. cbv zeta. kstep.
    replace (a + off + HDR - HDR) with (a + off) by lia.
    change (mem_of (lk_set heap_lock_ref 1 (masked k))) with (mem_of k).
    rewrite Hmg, Z.eqb_refl. cbv [negb]. kstep.
    change (heap_start (heap (lk_set heap_lock_ref 1 (masked k)))) with a.
    rewrite Hco'. do 2 kstep. unfold b_irq_restore, modify. f_equal.
    keta k in Hlk.
  - constructor; [exact (rb_chain _ _ _ _ _ _ HR) | apply coalesce_list_nil
      | apply coalesce_list_coalesced | | done].
    rewrite <- EM. by apply coalesce_all_aligned, mark_free_aligned.
  - etransitivity; [| exact (rb_frame _ _ _ _ _ _ HR)].
    eapply agree_out_sub; [| | exact Hag]; subst e; hlia.
  - intros x Hx. rewrite (rb_live _ _ _ _ _ _ HR x Hx). apply Hag.
    destruct b as [s f]. eapply live_byte_in_block; [exact Hc | done | exact Hb |].
    apply (mark_free_live off). by rewrite EM.
Qed.

Lemma fresh_header_frame p v m :
  agree_out p (p + 24) m (set_blk_magic p HEAP_MAGIC (set_blk_free p 1
    (set_blk_next p 0 (set_blk_size p v m)))).
Proof.
  intros b Hb. unfold_blk. by rewrite ?ld8_st32_out, ?ld8_st64_out by lia.
Qed.

(** Freeing a block keeps the other allocated ones. *)
Lemma free_keeps off l o s :
  sizes_ok l -> 0 <= o -> o <> off -> block_at o l = Some (s, false) ->
  block_at o (coalesce_all (mark_free off l)) = Some (s, false).
Proof.
  intros Hsz Ho Hne Hb. pose proof (mark_free_other off l o s Hsz Ho Hne Hb) as Hm.
  pose proof (mark_free_sizes off l Hsz) as Hsz'. destruct (mark_free off l) as [| [sz fr] l1]; [done |].
  apply Forall_cons in Hsz' as [? ?]. by apply coalesce_list_live.
Qed.

(** A fresh pool at [p]: one free block. *)
Lemma fresh_heap_rep k p :
  0 < p -> p mod 8 = 0 -> p + POOL_BYTES < 2 ^ 63 ->
  heap_rep (set_mem (set_blk_magic p HEAP_MAGIC (set_blk_free p 1
      (set_blk_next p 0 (set_blk_size p (POOL_BYTES - HDR) (mem_of k)))))
    (k <| heap ::= fun h => h <| heap_start := p |> |>)) [(POOL_BYTES - HDR, true)].
Proof.
  intros Hp H8 Hlt. constructor; try done.
  - split; [done |]. split; [| simpl; hlia].
    change (mem_of (set_mem ?m ?k)) with m. simpl heap_start.
    constructor; blk_read; done.
  - by apply Forall_cons.
Qed.

Lemma kfree_bad_magic k ptr :
  heap_lock (heap k) = 0 -> ptr <> 0 -> blk_magic (mem_of k) (ptr - HDR) <> HEAP_MAGIC ->
  kfree ptr k = Ret tt k.
Proof.
  intros Hl Hp Hm. unfold kfree. apply Z.eqb_neq in Hp, Hm. rewrite Hp.
  do 2 kstep. cbv zeta. kstep.
  change (mem_of (lk_set heap_lock_ref 1 (masked k))) with (mem_of k). rewrite Hm.
  cbn [negb]. kstep. unfold b_irq_restore, modify. f_equal. keta k in Hl.
Qed.

(** ** What clients rely on *)

(** [p] is the payload of an allocated block at offset [off] of the heap [l]. *)
Definition held (k : kernel) (l : blocks) (p off : Z) : Prop :=
  p = heap_start (heap k) + off + HDR /\ 0 <= off /\ exists sz, block_at off l = Some (sz, false).

Lemma kfree_held k l p off :
  heap_rep k l -> heap_lock (heap k) = 0 -> held k l p off ->
  exists m' l', kfree p k = Ret tt (set_mem m' k) /\ heap_rep (set_mem m' k) l' /\
    forall q o, o <> off -> held k l q o -> held (set_mem m' k) l' q o.
Proof.
  intros Hr Hl (-> & Ho & sz & Hb). destruct (kfree_spec k l off _ Hr Hl Ho Hb) as (m' & E & Hr' & _).
  exists m', (coalesce_all (mark_free off l)). split_and!; try done.
  intros q o Hne (-> & Ho' & sz' & Hb'). split; [done |]. split; [done |]. exists sz'.
  apply free_keeps; try done. by apply (chain_sizes _ _ _ _ (hr_chain _ _ Hr)).
Qed.

(** The owner of a block may write its payload. *)
Lemma chain_write m m' e : forall l a off sz fr,
  chain m a l e -> 0 <= off -> block_at off l = Some (sz, fr) ->
  agree_out (a + off + HDR) (a + off + HDR + sz) m m' -> chain m' a l e.
Proof.
  induction l as [| [s f] l IH]; intros a off sz fr Hc Ho Hb Hag; [done |].
  destruct Hc as (Hs & Hh & Hc). cbn [block_at] in Hb.
  assert (Hhd : off = 0 \/ HDR + s <= off) by (destruct (Z.eqb_spec off 0), (Z.ltb_spec off (HDR + s)); try done; lia).
  split; [done |]. split.
  - eapply (header_agree a (a + HDR)); [| lia | lia | exact Hh]. intros b Hb'. apply Hag. destruct Hhd; hlia.
  - destruct (Z.eqb_spec off 0) as [-> | Hne].
    + injection Hb as -> ->. eapply chain_agree; [| exact Hc]. intros b Hb'. apply Hag. hlia.
    + destruct (Z.ltb_spec off (HDR + s)); [done |].
      apply (IH (a + HDR + s) (off - (HDR + s)) sz fr Hc ltac:(lia) Hb).
      eapply agree_out_sub; [| | exact Hag]; lia.
Qed.

Lemma heap_rep_write k l off sz fr m :
  heap_rep k l -> 0 <= off -> block_at off l = Some (sz, fr) ->
  agree_out (heap_start (heap k) + off + HDR) (heap_start (heap k) + off + HDR + sz) (mem_of k) m ->
  heap_rep (set_mem m k) l.
Proof. intros [] Ho Hb Hag. constructor; try done. by eapply chain_write. Qed.

Lemma heap_rep_frame k k' l : heap k' = heap k -> mem_of k' = mem_of k -> heap_rep k l -> heap_rep k' l.
Proof. intros Hh Hm []. constructor; rewrite ?Hh, ?Hm; done. Qed.
Lemma held_frame k k' l p off : heap k' = heap k -> held k l p off -> held k' l p off.
Proof. unfold held. by intros ->. Qed.

(** The live bytes are those of the allocated blocks. *)
Lemma live_byte_block l : forall a b, sizes_ok l ->
  live_byte a l b <-> exists o s, 0 <= o /\ block_at o l = Some (s, false) /\ a + o + HDR <= b < a + o + HDR + s.
Proof.
  induction l as [| [sz fr] l IH]; intros a b Hl; cbn [live_byte].
  { split; [done |]. by intros (o & s & _ & H & _). }
  apply Forall_cons in Hl as [Hsz Hl]. simpl in Hsz. rewrite (IH _ b Hl). split.
  - intros [[-> Hb] | (o & s & Ho & Hat & Hb)].
    + exists 0, sz. split; [lia |]. split; [done | lia].
    + exists (HDR + sz + o), s. split; [hlia |]. rewrite block_at_skip by done. split; [done | lia].
  - intros (o & s & Ho & Hat & Hb). cbn [block_at] in Hat. destruct (Z.eqb_spec o 0) as [-> |].
    + simplify_eq. left. split; [done | lia].
    + destruct (Z.ltb_spec o (HDR + sz)); [done |]. right. exists (o - (HDR + sz)), s. split; [lia |]. split; [done | lia].
Qed.

(** What an operation that only allocates and writes its own blocks does to
    memory, where the heap had the blocks [l]: the bytes of the blocks that were
    allocated, and everything outside the heap, are kept. *)
Definition heap_only (k k' : kernel) (l : blocks) : Prop :=
  (forall b, live_byte (heap_start (heap k)) l b -> ld8 (mem_of k') b = ld8 (mem_of k) b) /\
  agree_out (heap_start (heap k)) (heap_start (heap k) + POOL_BYTES) (mem_of k) (mem_of k').

(** Every block allocated in [l] is in [l']. *)
Definition blocks_kept (l l' : blocks) : Prop :=
  forall o s, 0 <= o -> block_at o l = Some (s, false) -> block_at o l' = Some (s, false).

Lemma heap_only_trans k1 k2 k3 l l' :
  sizes_ok l -> sizes_ok l' -> blocks_kept l l' -> heap_start (heap k2) = heap_start (heap k1) ->
  heap_only k1 k2 l -> heap_only k2 k3 l' -> heap_only k1 k3 l.
Proof.
  intros Hl Hl' Hk Hs [L1 A1] [L2 A2]. rewrite Hs in *. split; [| by transitivity (mem_of k2)].
  intros b Hb. rewrite L2; [by apply L1 |]. apply live_byte_block in Hb as (o & s & Ho & Hat & Hr); [| done].
  apply live_byte_block; [done |]. exists o, s. auto.
Qed.

(** Writing a block that was not allocated in [l]. *)
Lemma heap_only_write k m l l' off sz :
  sizes_ok l -> sizes_ok l' -> blocks_kept l l' -> 0 <= off -> block_at off l' = Some (sz, false) ->
  off + HDR + sz <= POOL_BYTES -> (forall s, block_at off l <> Some (s, false)) ->
  agree_out (heap_start (heap k) + off + HDR) (heap_start (heap k) + off + HDR + sz) (mem_of k) m ->
  heap_only k (set_mem m k) l.
Proof.
  intros Hl Hl' Hk Ho Hat Hb Hnew Ha. split.
  - intros b Hlb. apply live_byte_block in Hlb as (o & s & Ho' & Hat' & Hr); [| done]. apply Ha.
    assert (o <> off) by (intros ->; by apply (Hnew s)). apply (Hk o s Ho') in Hat'.
    destruct (Z.lt_total o off) as [Hlt | [? | Hlt]]; [| done |].
    + pose proof (block_at_disjoint l' o off s false sz false Hl' ltac:(lia) Hat' Hat). hlia.
    + pose proof (block_at_disjoint l' off o sz false s false Hl' ltac:(lia) Hat Hat'). hlia.
  - eapply agree_out_sub; [| | exact Ha]; hlia.
Qed.

(** An allocation that finds a block returns one that no client holds, and the
    clients keep theirs. *)
Lemma kmalloc_held k l size off l' :
  heap_rep k l -> heap_lock (heap k) = 0 -> 0 < size < 2 ^ 64 - 7 ->
  alloc_list (align8 size) l = Some (off, l') ->
  exists m' sz, kmalloc size k = Ret (heap_start (heap k) + off + HDR) (set_mem m' k) /\
    heap_rep (set_mem m' k) l' /\ 0 <= off /\ block_at off l' = Some (sz, false) /\ size <= sz /\
    off + HDR + sz <= POOL_BYTES /\
    (forall q o, held k l q o -> o <> off /\ held (set_mem m' k) l' q o) /\
    (forall b, live_byte (heap_start (heap k)) l b -> ld8 m' b = ld8 (mem_of k) b) /\
    agree_out (heap_start (heap k)) (heap_start (heap k) + POOL_BYTES) (mem_of k) m' /\
    (forall o s, 0 <= o -> block_at o l = Some (s, false) -> block_at o l' = Some (s, false)).
Proof.
  intros Hr Hl Hs EA. pose proof (kmalloc_spec k l size Hr Hl ltac:(lia)) as HK. rewrite EA in HK.
  pose proof (align8_bounds size ltac:(lia)) as [Hal _].
  pose proof (chain_sizes _ _ _ _ (hr_chain _ _ Hr)) as Hsz.
  destruct HK as (m' & Hk & Hr' & [Rc Rf Rl]).
  destruct (alloc_list_Some (align8 size) l off l' ltac:(lia) Hsz EA)
    as (Ho & (sz0 & Hb0 & _) & (sz & Hb & Hle) & Hoth & _ & Hsz').
  destruct (block_at_bound _ _ _ _ Hsz' Ho Hb) as [_ Hbnd].
  pose proof (chain_pool_bytes _ _ _ _ Rc) as Hpb.
  assert (Hkeep : forall o s, 0 <= o -> block_at o l = Some (s, false) -> o <> off /\ block_at o l' = Some (s, false)).
  { intros o s Ho' Hbo. assert (o <> off) by congruence. auto. }
  exists m', sz. split_and!; try done; try lia; [| intros; by apply Hkeep].
  intros q o (-> & Ho' & s & Hbo). destruct (Hkeep o s Ho' Hbo). split; [done |].
  split; [done |]. split; [done |]. by exists s.
Qed.

(** ** Theorems *)

(** The payload address of the block at offset [off] of the pool of [k]. *)
Abbreviation payload k off := (heap_start (heap k) + off + HDR).

(** C2: kmalloc of a size that does not wrap returns, on every heap.  Either
    some free block fits: the result is the 8-byte aligned payload of a block
    that was free, inside the pool and large enough; every other allocated
    block keeps its place and size, no byte of an allocated payload and no byte
    outside the pool changes, and the heap stays well formed.  Or no free block
    holds the rounded size, and the result is NULL with the state as it was. *)
Theorem kmalloc_correct k l size :
  heap_rep k l -> heap_lock (heap k) = 0 -> 0 < size < 2 ^ 64 - 7 ->
  (exists off sz l' m', kmalloc size k = Ret (payload k off) (set_mem m' k) /\
     heap_rep (set_mem m' k) l' /\
     0 <= off /\ block_at off l' = Some (sz, false) /\ size <= sz /\
     off + HDR + sz <= POOL_BYTES /\ payload k off mod 8 = 0 /\
     (exists sz0, block_at off l = Some (sz0, true)) /\
     (forall o s, 0 <= o -> block_at o l = Some (s, false) ->
        o <> off /\ block_at o l' = Some (s, false)) /\
     (forall b, live_byte (heap_start (heap k)) l b -> ld8 m' b = ld8 (mem_of k) b) /\
     agree_out (heap_start (heap k)) (heap_start (heap k) + POOL_BYTES) (mem_of k) m') \/
  (kmalloc size k = Ret 0 k /\ Forall (fun b => snd b = true -> fst b < align8 size) l).
Proof.
  intros Hr Hl Hs. pose proof (kmalloc_spec k l size Hr Hl ltac:(lia)) as HK.
  pose proof (align8_bounds size ltac:(lia)) as [Hal _].
  pose proof Hr as [Hc _ _ _ (Ha & Ha8 & _)]. pose proof (chain_sizes _ _ _ _ Hc) as Hsz.
  destruct (alloc_list (align8 size) l) as [[off l'] |] eqn:EA;
    [left | right; split; [done | by apply alloc_list_None]].
  destruct HK as (m' & Hk & Hr' & [Rc Rf Rl]).
  destruct (alloc_list_Some (align8 size) l off l' ltac:(lia) Hsz EA)
    as (Ho & (sz0 & Hb0 & _) & (sz & Hb & Hle) & Hoth & _ & Hsz').
  destruct (block_at_bound _ _ _ _ Hsz' Ho Hb) as [_ Hbnd].
  pose proof (chain_pool_bytes _ _ _ _ Rc) as Hpb.
  pose proof (block_at_aligned _ _ _ (hr_aligned _ _ Hr') Hb) as H8.
  exists off, sz, l', m'. split_and!; try done; eauto; try lia.
  - unfold HDR. zdiv.
  - intros o s Ho' Hbo. assert (o <> off) by congruence. auto.
Qed.

(** C3: kfree of the payload of a block returns with the heap well formed and
    no two neighbouring free blocks; every other allocated block keeps its
    place and size, and no byte of their payloads nor outside the pool
    changes. *)
Theorem kfree_correct k l off b :
  heap_rep k l -> heap_lock (heap k) = 0 -> 0 <= off -> block_at off l = Some b ->
  exists l' m', kfree (payload k off) k = Ret tt (set_mem m' k) /\
    heap_rep (set_mem m' k) l' /\ coalesced l' = true /\
    (forall o s, 0 <= o -> o <> off -> block_at o l = Some (s, false) ->
       block_at o l' = Some (s, false)) /\
    (forall x, live_byte (heap_start (heap k)) (mark_free off l) x ->
       ld8 m' x = ld8 (mem_of k) x) /\
    agree_out (heap_start (heap k)) (heap_start (heap k) + POOL_BYTES) (mem_of k) m'.
Proof.
  intros Hr Hl Ho Hb. destruct (kfree_spec k l off b Hr Hl Ho Hb) as (m' & Hk & Hr' & Ha & Hlv).
  pose proof (chain_sizes _ _ _ _ (hr_chain _ _ Hr)) as Hsz.
  exists (coalesce_all (mark_free off l)), m'. split_and!; try done.
  - exact (hr_coalesced _ _ Hr').
  - intros o s Ho' Hne Hbo. by apply free_keeps.
Qed.

(** C6: freeing the block just allocated gives back the same block list, so a
    failed or finished operation leaves no fragmentation behind. *)
Theorem kmalloc_kfree_roundtrip k l size p k1 :
  heap_rep k l -> heap_lock (heap k) = 0 -> 0 < size < 2 ^ 64 - 7 ->
  kmalloc size k = Ret p k1 -> p <> 0 ->
  exists k2, kfree p k1 = Ret tt k2 /\ heap_rep k2 l.
Proof.
  intros Hr Hl Hs Hk Hp. pose proof (kmalloc_spec k l size Hr Hl ltac:(lia)) as HK.
  pose proof (align8_bounds size ltac:(lia)) as [Hal _].
  pose proof (chain_sizes _ _ _ _ (hr_chain _ _ Hr)) as Hsz.
  destruct (alloc_list (align8 size) l) as [[off l'] |] eqn:EA; [| congruence].
  destruct HK as (m' & Hk' & Hr' & _). rewrite Hk' in Hk. injection Hk as <- <-.
  destruct (alloc_list_Some (align8 size) l off l' ltac:(lia) Hsz EA) as (Ho & _ & (sz & Hb & _) & _).
  destruct (kfree_spec _ l' off _ Hr' Hl Ho Hb) as (m2 & Hf & Hr2 & _).
  eexists. split; [exact Hf |].
  by rewrite (free_alloc_list (align8 size) l off l' ltac:(lia) Hsz (hr_coalesced _ _ Hr) EA) in Hr2.
Qed.


(** On a well-formed page allocator heap_init returns.  When 1024
    consecutive pages are found, the pool is theirs, the heap is one free block
    that fills it, and the page allocator stays well formed with these pages in
    use.  When they are not, the code does not notice: the heap starts at
    address 0 and the header has been written there. *)
Theorem heap_init_correct k :
  pmm_inv k -> pmm_lock (pmm k) = 0 -> no_overrun k POOL_PAGES ->
  POOL_PAGES <= total_pages (pmm k) < 2 ^ 51 ->
  exists k', heap_init k = Ret tt k' /\
    if decide (alloc_choice k POOL_PAGES = None)
    then heap_start (heap k') = 0 /\ blk_magic (mem_of k') 0 = HEAP_MAGIC
    else heap_rep k' [(POOL_BYTES - HDR, true)] /\ pmm_inv k' /\
      heap_start (heap k') mod 4096 = 0 /\
      forall q, heap_start (heap k') / 4096 <= q < heap_start (heap k') / 4096 + POOL_PAGES ->
        used k q = false /\ used k' q = true.
Proof.
  intros HI Hl Hs Ht. unfold POOL_PAGES in *. unfold heap_init.
  destruct (pmm_alloc_cases k 1024 HI Hl ltac:(lia) Hs)
    as [[Ha Hn] | (i & Ha & HI' & H0 & Hb & Hf)];
    rewrite (bind_ret _ _ _ _ _ Ha), bind_modify; eexists; (split; [reflexivity |]).
  - rewrite decide_True by done. split; [done |].
    change (mem_of (set_mem ?m _)) with m. by blk_read.
  - assert (Hc : alloc_choice k 1024 <> None).
    { intros Hn. rewrite pmm_alloc_eq, Hn in Ha; [injection Ha; lia | apply HI | done | lia]. }
    rewrite decide_False by done. pose proof (inv_ranges _ HI) as HR. destruct HR.
    assert (Hu : forall q, used (took i 1024 k) q = in_window i 1024 q || used k q)
      by (intros; apply used_took; lia).
    assert (Hbm : bitmap (pmm (took i 1024 k)) = bitmap (pmm k)) by done.
    assert (Htp : total_pages (pmm (took i 1024 k)) = total_pages (pmm k)) by done.
    generalize dependent (took i 1024 k). intros k1 Ha HI1 Hu Hbm Htp.
    set (m' := set_blk_magic _ _ _).
    assert (Hag : agree (bitmap (pmm k1)) (bitmap (pmm k1) + (total_pages (pmm k1) + 7) / 8)
                    (mem_of k1) m').
    { rewrite Hbm, Htp. intros b Hb'. destruct (inv_self _ HI b Hb') as [_ Hus].
      apply fresh_header_frame.
      destruct (decide (i * 4096 <= b < i * 4096 + 24)) as [Hin |]; [| lia].
      rewrite Hf in Hus; [done | zdiv]. }
    split; [| split; [| split]].
    + apply (fresh_heap_rep k1 (i * 4096)); unfold POOL_BYTES; try lia.
      replace (i * 4096) with (i * 512 * 8) by lia. apply Z.mod_mul. lia.
    + apply (pmm_inv_frame (k1 <| heap ::= fun h => h <| heap_start := i * 4096 |> |>));
        [exact Hag | simpl; lia |].
      destruct HI1. constructor; done.
    + simpl. by rewrite Z.mod_mul.
    + simpl. rewrite Z.div_mul by done. intros q Hq. split; [by apply Hf |].
      etransitivity; [apply (used_agree k1); [lia | exact Hag] |].
      rewrite Hu. by rewrite (proj2 (in_window_spec i 1024 q)) by lia.
Qed.

(** Kfree of NULL, or of a pointer whose header does not carry the magic
    number, leaves the state as it was. *)
Theorem kfree_rejects k ptr :
  heap_lock (heap k) = 0 ->
  ptr = 0 \/ blk_magic (mem_of k) (ptr - HDR) <> HEAP_MAGIC -> kfree ptr k = Ret tt k.
Proof.
  intros Hl Hp. destruct (decide (ptr = 0)) as [-> | Hne]; [done |].
  destruct Hp; [done | by apply kfree_bad_magic].
Qed.

(** A request within 7 bytes of 2^64 wraps to 0 when it is rounded up, and
    kmalloc answers it with a block as soon as any block is free, instead of
    failing. *)
Theorem kmalloc_huge_succeeds k l size :
  heap_rep k l -> heap_lock (heap k) = 0 -> 2 ^ 64 - 7 <= size < 2 ^ 64 ->
  Exists (fun b => snd b = true) l ->
  exists p k', kmalloc size k = Ret p k' /\ heap_start (heap k) < p.
Proof.
  intros Hr Hl Hs Hex. pose proof (kmalloc_spec k l size Hr Hl ltac:(lia)) as HK.
  pose proof (chain_sizes _ _ _ _ (hr_chain _ _ Hr)) as Hsz.
  rewrite align8_wraps in HK by done.
  destruct (alloc_list 0 l) as [[off l'] |] eqn:EA.
  - destruct HK as (m' & -> & _). destruct (alloc_list_Some 0 l off l' ltac:(lia) Hsz EA) as (? & _).
    eexists _, _. split; [reflexivity | hlia].
  - apply alloc_list_None in EA. apply Exists_exists in Hex as (b & Hb & Hfr).
    rewrite Forall_forall in EA, Hsz. specialize (EA b Hb Hfr). specialize (Hsz b Hb). simpl in Hsz. lia.
Qed.

(** *** Concrete heaps *)

(** A heap at 2 MiB, as heap_init leaves it. *)
Definition small_heap : kernel :=
  let p := 0x200000 in
  set_mem (set_blk_magic p HEAP_MAGIC (set_blk_free p 1
      (set_blk_next p 0 (set_blk_size p (POOL_BYTES - HDR) ∅))))
    ((initial_kernel (plain_hw ∅)) <| heap ::= fun h => h <| heap_start := p |> |>).

Lemma small_heap_rep : heap_rep small_heap [(POOL_BYTES - HDR, true)].
Proof. by apply (fresh_heap_rep (initial_kernel (plain_hw ∅)) 0x200000). Qed.

Lemma kmalloc_correct_witness :
  exists p k' l', kmalloc 100 small_heap = Ret p k' /\ heap_rep k' l'.
Proof.
  destruct (kmalloc_correct small_heap _ 100 small_heap_rep eq_refl ltac:(lia))
    as [(off & sz & l' & m' & H & Hr & _) | [H _]].
  - eexists _, _, _. split; [exact H | exact Hr].
  - eexists _, _, _. split; [exact H | exact small_heap_rep].
Defined.

Lemma kfree_correct_witness :
  exists k1 k2, kmalloc 100 small_heap = Ret 0x200018 k1 /\ kfree 0x200018 k1 = Ret tt k2.
Proof.
  destruct (kmalloc_spec small_heap _ 100 small_heap_rep eq_refl ltac:(lia)) as (m' & H & Hr & _).
  destruct (kfree_correct _ _ 0 (104, false) Hr eq_refl ltac:(lia) eq_refl) as (l' & m2 & Hf & _).
  eexists _, _. split; [exact H | exact Hf].
Defined.

Lemma kmalloc_kfree_roundtrip_witness :
  exists k1 k2, kmalloc 100 small_heap = Ret 0x200018 k1 /\ kfree 0x200018 k1 = Ret tt k2 /\
    heap_rep k2 [(POOL_BYTES - HDR, true)].
Proof.
  destruct (kmalloc_spec small_heap _ 100 small_heap_rep eq_refl ltac:(lia)) as (m' & H & _).
  destruct (kmalloc_kfree_roundtrip small_heap _ 100 _ _ small_heap_rep eq_refl ltac:(lia) H ltac:(done))
    as (k2 & Hf & Hr).
  eexists _, k2. split; [exact H |]. split; [exact Hf | exact Hr].
Defined.

(** 2048 free pages but page 0 and the bitmap's page 2040. *)
Definition pmm_2048 : kernel :=
  let m := st8 (st8 ∅ (2040 * 4096) 1) (2040 * 4096 + 255) 1 in
  (initial_kernel (plain_hw m)) <| pmm := Pmm (2040 * 4096) 2048 2048 2046 0 (2048 * 4096) 0 |>.

Lemma pmm_2048_inv : pmm_inv pmm_2048.
Proof.
  constructor; [by constructor | done | by vm_compute | | by vm_compute].
  intros b Hb. change (2040 * 4096 <= b < 2040 * 4096 + 256) in Hb.
  assert (b / 4096 = 2040) as -> by zdiv. by vm_compute.
Qed.

Lemma heap_init_correct_witness :
  exists k', heap_init pmm_2048 = Ret tt k' /\ heap_rep k' [(POOL_BYTES - HDR, true)].
Proof.
  destruct (heap_init_correct pmm_2048 pmm_2048_inv eq_refl ltac:(right; by vm_compute)
              ltac:(by vm_compute)) as (k' & H & Hc).
  destruct (decide _) as [E |]; [exfalso; vm_compute in E; discriminate E |].
  exists k'. split; [exact H | apply Hc].
Defined.

Lemma kfree_rejects_witness : kfree 0x200100 small_heap = Ret tt small_heap.
Proof. apply (kfree_rejects small_heap 0x200100 eq_refl). right. by vm_compute. Defined.

Lemma kmalloc_huge_succeeds_witness :
  exists p k', kmalloc (2 ^ 64 - 1) small_heap = Ret p k' /\ 0x200000 < p.
Proof.
  apply (kmalloc_huge_succeeds small_heap _ (2 ^ 64 - 1) small_heap_rep eq_refl ltac:(lia)).
  by constructor.
Defined.
