(* ===== verification/Vmm.v ===== *)
(** vmm.c: four-level page tables in physical memory.

    A table is a page of 512 entries of 8 bytes; an entry is the address of the
    next table, or of the mapped page, with flag bits in the low 12 bits.  The
    translation cache is not modelled: invlpg and the reload of cr3 have no
    effect on memory.  The proofs use the page allocator through the interface
    [PageAllocator] only; an instance at the end of the interface section says
    that pmm.c implements it. *)

From S2P Require Import Prelude Memory State Lib Console Pmm PmmInit.

Definition PAGE_PRESENT : Z := 1.
Definition PAGE_WRITABLE : Z := 2.
Definition PAGE_USER : Z := 4.
Definition PAGE_PWT : Z := 8.
Definition PAGE_PCD : Z := 16.

(** ** Operations *)

(** The index of [virt] in the table of depth [d]: (virt >> 39) & 0x1FF for the
    root, then 30, 21 and 12. *)
Definition table_index (d : nat) (virt : Z) : Z :=
  Z.land (Z.shiftr virt (39 - 9 * Z.of_nat d)) 0x1FF.

Definition present (e : Z) : bool := negb (Z.land e PAGE_PRESENT =? 0).

(** The block vmm_map repeats for each of the three upper levels: allocate the
    next table if the entry is not present, then follow the entry. *)
Definition ensure_table (table idx : Z) : M kernel Z :=
  e ← gets (fun k => ld64 (mem_of k) (table + 8 * idx));
  when (negb (present e)) (
    next ← pmm_alloc 1;
    modify (fun k => set_mem (b_memset (mem_of k) next 0 4096) k);;
    modify (fun k => set_mem (st64 (mem_of k) (table + 8 * idx)
      (Z.lor (Z.lor (Z.lor next PAGE_PRESENT) PAGE_WRITABLE) PAGE_USER)) k));;
  gets (fun k => page_mask (ld64 (mem_of k) (table + 8 * idx))).

Definition vmm_map (pml4 virt phys flags : Z) : M kernel unit :=
  pdpt ← ensure_table pml4 (table_index 0 virt);
  pd ← ensure_table pdpt (table_index 1 virt);
  pt ← ensure_table pd (table_index 2 virt);
  modify (fun k => set_mem
    (st64 (mem_of k) (pt + 8 * table_index 3 virt) (Z.lor (page_mask phys) flags)) k).

Definition vmm_get_phys (pml4 virt : Z) (m : mem) : Z :=
  let e4 := ld64 m (pml4 + 8 * table_index 0 virt) in
  if negb (present e4) then 0 else
  let e3 := ld64 m (page_mask e4 + 8 * table_index 1 virt) in
  if negb (present e3) then 0 else
  let e2 := ld64 m (page_mask e3 + 8 * table_index 2 virt) in
  if negb (present e2) then 0 else
  let e1 := ld64 m (page_mask e2 + 8 * table_index 3 virt) in
  if negb (present e1) then 0 else page_mask e1.

Definition vmm_get_kernel_pml4 (k : kernel) : Z := kernel_pml4 k.

Definition vmm_switch (pml4 : Z) : M kernel unit :=
  modify (fun k => k <| hw ::= fun h => h <| hw_cr3 := pml4 |> |>).

(** [n] iterations of a loop that maps page after page from [a] onto itself;
    [skip0] is the test for address 0 of the loop over regions. *)
Fixpoint map_pages (n : nat) (skip0 : bool) (pml4 a flags : Z) : M kernel unit :=
  match n with
  | O => mret tt
  | S n' =>
      when (negb (skip0 && (a =? 0))) (vmm_map pml4 a a flags);;
      map_pages n' skip0 pml4 (u64 (a + 4096)) flags
  end.

Definition desc_flags (d : b_efi_mem_desc) : Z :=
  let t := d_type d in
  if (t =? 7) || (t =? 1) || (t =? 2) || (t =? 3) || (t =? 4)
  then Z.lor PAGE_PRESENT (Z.lor PAGE_WRITABLE PAGE_USER)
  else Z.lor PAGE_PRESENT (Z.lor (Z.lor (Z.lor PAGE_WRITABLE PAGE_PCD) PAGE_PWT) PAGE_USER).

(** The loop over the firmware map. *)
Fixpoint map_regions (n : nat) (info : barium_boot_info_t) (i pml4 : Z) : M kernel unit :=
  match n with
  | O => mret tt
  | S n' =>
      d ← gets (fun k => read_desc info i (mem_of k));
      map_pages (Z.to_nat (desc_bytes d / 4096)) true pml4 (d_physical_start d) (desc_flags d);;
      map_regions n' info (i + 1) pml4
  end.

Definition vmm_init (info : barium_boot_info_t) : M kernel unit :=
  pml4 ← pmm_alloc 1;
  modify (fun k => k <| kernel_pml4 := pml4 |>);;
  modify (fun k => set_mem (b_memset (mem_of k) pml4 0 4096) k);;
  if descriptor_size info =? 0 then fault else
  map_regions (Z.to_nat (memory_map_size info / descriptor_size info)) info 0 pml4;;
  map_pages (Z.to_nat ((framebuffer_size info + 4095) / 4096)) false pml4 (framebuffer_base info)
    (Z.lor (Z.lor (Z.lor (Z.lor PAGE_PRESENT PAGE_WRITABLE) PAGE_PCD) PAGE_PWT) PAGE_USER);;
  vmm_switch pml4.

(** ** The page allocator, as the page tables see it *)

(** [owned k p]: the page at [p] has been handed out; [avail k] counts the pages
    that have not.  Allocation returns a page nobody owns and leaves the
    contents of owned pages alone; writing an owned page does not disturb the
    allocator. *)
Class PageAllocator (inv : kernel -> Prop) (owned : kernel -> Z -> Prop)
    (avail : kernel -> Z) : Prop := {
  pa_alloc k : inv k -> 1 < avail k -> exists a k',
    pmm_alloc 1 k = Ret a k' /\ inv k' /\ ~ owned k a /\ owned k' a /\
    avail k' = avail k - 1 /\ kernel_pml4 k' = kernel_pml4 k /\
    (forall p, owned k p -> owned k' p) /\
    (forall p, owned k' p -> agree p (p + 4096) (mem_of k) (mem_of k'));
  pa_page k p : owned k p -> p mod 4096 = 0 /\ 0 < p /\ p + 4096 <= 2 ^ 63;
  pa_write k p m : inv k -> owned k p -> agree_out p (p + 4096) (mem_of k) m ->
    inv (set_mem m k) /\ avail (set_mem m k) = avail k /\
    forall q, owned k q <-> owned (set_mem m k) q;
  pa_rest k k' : pmm k' = pmm k -> mem_of k' = mem_of k -> inv k ->
    inv k' /\ avail k' = avail k /\ forall q, owned k q <-> owned k' q
}.

(** pmm.c implements it: a page is owned when its bit is set and it does not
    hold the bitmap. *)
Definition pmm_ok (k : kernel) : Prop := pmm_inv k /\ pmm_lock (pmm k) = 0.
Record pmm_owned (k : kernel) (p : Z) : Prop := {
  po_page : p mod 4096 = 0;
  po_pos : 0 < p;
  po_total : p / 4096 < total_pages (pmm k) <= 2 ^ 51;
  po_used : used k (p / 4096) = true;
  po_bitmap : forall b, bitmap (pmm k) <= b < bitmap (pmm k) + (total_pages (pmm k) + 7) / 8 ->
    b / 4096 <> p / 4096
}.

(** A page outside the bitmap and the bitmap do not overlap. *)
Lemma owned_bitmap k p b :
  pmm_owned k p -> p <= b < p + 4096 ->
  b < bitmap (pmm k) \/ bitmap (pmm k) + (total_pages (pmm k) + 7) / 8 <= b.
Proof.
  intros [Hm Hp _ _ Hb] Hr.
  destruct (decide (bitmap (pmm k) <= b < bitmap (pmm k) + (total_pages (pmm k) + 7) / 8)) as [Hin |];
    [| lia].
  destruct (Hb b Hin). zdiv.
Qed.

Definition pmm_avail (k : kernel) : Z := free_pages (pmm k).

#[export] Instance pmm_page_allocator : PageAllocator pmm_ok pmm_owned pmm_avail.
Proof.
  unfold pmm_avail. split.
  - intros k [HI Hl] Hav. pose proof (inv_ranges _ HI) as HR. destruct HR.
    destruct (pmm_alloc_cases k 1 HI Hl ltac:(lia) ltac:(right; lia))
      as [[_ Hn] | (i & Ha & HI' & H0 & Hb & Hf)]; [by destruct (one_page_found k HI Hav) |].
    assert (Hu : forall q, used (took i 1 k) q = in_window i 1 q || used k q)
      by (intros; apply used_took; lia).
    assert (Hbi : forall b, bitmap (pmm k) <= b < bitmap (pmm k) + (total_pages (pmm k) + 7) / 8 ->
                    b / 4096 <> i).
    { intros b Hb' <-. destruct (inv_self _ HI b Hb') as [_ Hub]. rewrite Hf in Hub; [done | lia]. }
    exists (i * 4096), (took i 1 k). split_and!; try done.
    + intros [_ _ _ Hus _]. rewrite Z.div_mul, Hf in Hus; [done | lia | done].
    + constructor; try lia; rewrite ?Z.div_mul by done; simpl; try lia.
      * by rewrite Z.mod_mul.
      * rewrite Hu. by rewrite (proj2 (in_window_spec i 1 i)) by lia.
      * exact Hbi.
    + simpl. apply u64_small. lia.
    + intros p [? ? ? Hus ?]. constructor; try done. rewrite Hu, Hus. apply orb_true_r.
    + intros p Hp b Hb'. apply (took_frame k 1 i); [lia | lia | lia | lia |].
      by apply (owned_bitmap (took i 1 k) p b Hp).
  - intros k p [Hm Hp Ht _ _]. split; [done |]. split; [done |]. zdiv.
  - intros k p m [HI Hl] Hp Ha.
    assert (Hag : agree (bitmap (pmm k)) (bitmap (pmm k) + (total_pages (pmm k) + 7) / 8) (mem_of k) m).
    { intros b Hb. apply Ha. destruct (decide (p <= b < p + 4096)) as [Hin |]; [| lia].
      destruct (owned_bitmap k p b Hp Hin); lia. }
    assert (0 < total_pages (pmm k)) by (destruct Hp; pose proof (Z.div_pos p 4096); lia).
    split; [split; [by apply pmm_inv_frame | done] |]. split; [done |].
    intros q. pose proof (Z.div_pos q 4096) as Hq.
    split; intros [? ? Hq2 Hus ?]; constructor; try done.
    + rewrite used_agree; [done | lia | done].
    + rewrite used_agree in Hus; [done | simpl in Hq2; lia | done].
  - intros k k' Hp Hm [[Hr Hbase Hcnt Hself Hnull] Hl].
    assert (Hu : forall q, used k' q = used k q) by (intros; unfold used; by rewrite Hp, Hm).
    split; [split; [constructor; rewrite ?Hp; try done |] |].
    + rewrite Hcnt. symmetry. by apply count_free_ext.
    + intros b Hb. rewrite Hu. auto.
    + by rewrite Hu.
    + by rewrite Hp.
    + split; [by rewrite Hp |].
      split; intros []; constructor; rewrite ?Hp, ?Hu in *; done.
Qed.

(** ** Entries *)

Lemma land_low_high a f : a mod 4096 = 0 -> 0 <= f < 4096 -> Z.land a f = 0.
Proof.
  intros Ha Hf. apply Z.bits_inj'; intros n Hn. rewrite Z.land_spec, Z.bits_0.
  destruct (decide (n < 12)).
  - rewrite (Z.div_mod a 4096) by lia. rewrite Ha, Z.add_0_r.
    change 4096 with (2 ^ 12). by rewrite Z.mul_comm, Z.mul_pow2_bits_low by lia.
  - rewrite (Z.bits_above_log2 f n); [apply andb_false_r | lia |].
    destruct (decide (f = 0)) as [-> |]; [simpl; lia |].
    assert (Z.log2 f < 12) by (apply Z.log2_lt_pow2; lia). lia.
Qed.

Lemma lor_page a f : a mod 4096 = 0 -> 0 <= f < 4096 -> Z.lor a f = a + f.
Proof.
  intros Ha Hf. pose proof (land_low_high a f Ha Hf) as H0.
  by rewrite <- Z.lxor_lor, Z.add_nocarry_lxor.
Qed.

Lemma page_mask_lor a f :
  is_u64 a -> a mod 4096 = 0 -> 0 <= f < 4096 -> page_mask (Z.lor a f) = a.
Proof.
  intros Hu Ha Hf. rewrite lor_page, page_mask_eq by (done || unfold is_u64 in *; zdiv). zdiv.
Qed.

Lemma present_odd e : present e = Z.odd e.
Proof.
  unfold present, PAGE_PRESENT. change 1 with (Z.ones 1).
  rewrite Z.land_ones by lia. change (2 ^ 1) with 2. rewrite Zmod_odd.
  by destruct (Z.odd e).
Qed.

Lemma present_lor a f : a mod 4096 = 0 -> 0 <= f < 4096 -> present (Z.lor a f) = Z.odd f.
Proof.
  intros Ha Hf. rewrite present_odd, lor_page, Z.odd_add by done.
  assert (Z.odd a = false) as ->; [| by destruct (Z.odd f)].
  rewrite (Z.div_mod a 4096), Ha by lia.
  rewrite Z.add_0_r, Z.odd_mul. done.
Qed.

Lemma table_flags a :
  Z.lor (Z.lor (Z.lor a PAGE_PRESENT) PAGE_WRITABLE) PAGE_USER = Z.lor a 7.
Proof. by rewrite <- !Z.lor_assoc. Qed.

(** ** The tree of tables *)

(** What the entry [e] leads to. *)
Definition follow (e : Z) : option Z := if present e then Some (page_mask e) else None.

(** The table of depth [d] on the way to [v] (the root has depth 0); depth 4 is
    the mapped page. *)
Fixpoint tbl (d : nat) (m : mem) (root v : Z) : option Z :=
  match d with
  | O => Some root
  | S d' => t ← tbl d' m root v; follow (ld64 m (t + 8 * table_index d' v))
  end.

(** [v] and [v'] take the same way down to depth [d]. *)
Fixpoint same_path (d : nat) (v v' : Z) : bool :=
  match d with
  | O => true
  | S d' => same_path d' v v' && (table_index d' v =? table_index d' v')
  end.

Lemma vmm_get_phys_tbl pml4 v m : vmm_get_phys pml4 v m = default 0 (tbl 4 m pml4 v).
Proof.
  unfold vmm_get_phys. simpl. unfold follow.
  repeat (case_match; simpl in *; try done; simplify_eq; zbool; try congruence).
Qed.

Lemma table_index_range d v : 0 <= table_index d v < 512.
Proof.
  unfold table_index. change 0x1FF with (Z.ones 9). rewrite Z.land_ones by lia.
  by apply Z.mod_pos_bound.
Qed.

Lemma same_path_refl d v : same_path d v v = true.
Proof. induction d as [| d IH]; simpl; [done |]. by rewrite IH, Z.eqb_refl. Qed.

Lemma same_path_le d n v v' : (n <= d)%nat -> same_path d v v' = true -> same_path n v v' = true.
Proof. induction 1; simpl; [done |]. intros [? _]%andb_true_iff. auto. Qed.

Lemma same_path_trans_l d v v1 v2 :
  same_path d v v1 = true -> same_path d v v2 = same_path d v1 v2.
Proof.
  induction d as [| d IH]; simpl; [done |]. intros [H1 H2%Z.eqb_eq]%andb_true_iff.
  by rewrite IH, H2.
Qed.

Lemma tbl_same_path d m root v v' :
  same_path d v v' = true -> tbl d m root v' = tbl d m root v.
Proof.
  induction d as [| d IH]; simpl; [done |]. intros [H1 H2%Z.eqb_eq]%andb_true_iff.
  by rewrite IH, H2.
Qed.

Lemma tbl_None d n m root v : (d <= n)%nat -> tbl d m root v = None -> tbl n m root v = None.
Proof. induction 1 as [| n H IH]; [done |]. intros E. simpl. by rewrite IH. Qed.

(** The present entry that translates [v], with its permissions. *)
Definition pte (m : mem) (root v : Z) : option Z :=
  t ← tbl 3 m root v;
  let e := ld64 m (t + 8 * table_index 3 v) in if present e then Some e else None.

Lemma tbl_pte m root v : tbl 4 m root v = page_mask <$> pte m root v.
Proof.
  change (tbl 4 m root v) with (t ← tbl 3 m root v; follow (ld64 m (t + 8 * table_index 3 v))).
  unfold pte, follow. destruct (tbl 3 m root v); [| done]. simpl. by destruct (present _).
Qed.

Lemma pte_None m root v : tbl 4 m root v = None -> pte m root v = None.
Proof. rewrite tbl_pte. by destruct (pte m root v). Qed.

(** The page number of an address, within the 48 bits the tables translate. *)
Definition vpage (v : Z) : Z := (v / 4096) mod 2 ^ 36.

Lemma table_index_digit d v :
  (d <= 3)%nat -> table_index d v = (v / 4096 / 512 ^ (3 - Z.of_nat d)) mod 512.
Proof.
  intros Hd. unfold table_index. change 0x1FF with (Z.ones 9). rewrite Z.land_ones by lia.
  rewrite Z.shiftr_div_pow2 by lia. change (2 ^ 9) with 512. f_equal.
  rewrite Z.div_div by lia. f_equal.
  destruct d as [| [| [| [| d]]]]; try lia; reflexivity.
Qed.

(** Addresses of one 2 MiB block share the three upper tables. *)
Lemma same_block a b : a / 4096 / 512 = b / 4096 / 512 -> same_path 3 a b = true.
Proof.
  intros E. assert (Hd : forall d, (d <= 2)%nat -> table_index d a =? table_index d b = true).
  { intros d Hd. apply Z.eqb_eq. rewrite !table_index_digit by lia.
    replace (512 ^ (3 - Z.of_nat d)) with (512 * 512 ^ (2 - Z.of_nat d))
      by (rewrite <- Z.pow_succ_r by lia; f_equal; lia).
    pose proof (Z.pow_pos_nonneg 512 (2 - Z.of_nat d)).
    by rewrite <- !Z.div_div, E by lia. }
  cbn [same_path]. by rewrite !Hd by lia.
Qed.

Lemma vpage_digits v :
  vpage v = table_index 3 v + 512 * (table_index 2 v + 512 * (table_index 1 v + 512 * table_index 0 v)).
Proof.
  rewrite !table_index_digit by lia. unfold vpage. set (q := v / 4096).
  change (3 - Z.of_nat 3) with 0. change (3 - Z.of_nat 2) with 1.
  change (3 - Z.of_nat 1) with 2. change (3 - Z.of_nat 0) with 3.
  rewrite Z.pow_0_r, Z.div_1_r. change (2 ^ 36) with (512 * (512 * (512 * 512))).
  rewrite !Z.rem_mul_r by lia. rewrite !Z.div_div by lia. reflexivity.
Qed.

(** Two addresses take the same way through all four tables exactly when they
    are in the same page. *)
Lemma same_path_vpage v v' : same_path 4 v v' = (vpage v =? vpage v').
Proof.
  rewrite !vpage_digits. cbn [same_path andb].
  pose proof (table_index_range 0 v). pose proof (table_index_range 0 v').
  pose proof (table_index_range 1 v). pose proof (table_index_range 1 v').
  pose proof (table_index_range 2 v). pose proof (table_index_range 2 v').
  pose proof (table_index_range 3 v). pose proof (table_index_range 3 v').
  repeat match goal with |- context [?a =? ?b] => destruct (Z.eqb_spec a b) end; simpl; try done; lia.
Qed.

(** The tables reached from [root] are pages [P] knows, and form a tree: a table
    is reached on one way only. *)
Record tree (m : mem) (root : Z) (P : Z -> Prop) : Prop := {
  tr_pages : forall d v t, (d <= 3)%nat -> tbl d m root v = Some t -> P t;
  tr_inj : forall d1 d2 v1 v2 t, (d1 <= 3)%nat -> (d2 <= 3)%nat ->
    tbl d1 m root v1 = Some t -> tbl d2 m root v2 = Some t ->
    d1 = d2 /\ same_path d1 v1 v2 = true
}.

Lemma tree_mono m root (P Q : Z -> Prop) :
  tree m root P -> (forall p, P p -> Q p) -> tree m root Q.
Proof. intros [H1 H2] HQ. constructor; [eauto | done]. Qed.

Definition pages (P : Z -> Prop) : Prop := forall p, P p -> p mod 4096 = 0 /\ 0 < p /\ p + 4096 <= 2 ^ 63.

Lemma page_apart p q : p mod 4096 = 0 -> q mod 4096 = 0 -> p <> q -> p + 4096 <= q \/ q + 4096 <= p.
Proof. intros. zdiv. Qed.

(** A memory that holds the same in every table has the same tree. *)
Lemma tbl_agree m m' root P n v :
  tree m root P -> (forall p, P p -> agree p (p + 4096) m m') -> (n <= 4)%nat ->
  tbl n m' root v = tbl n m root v.
Proof.
  intros Ht Ha. induction n as [| n IH]; intros Hn; [done |]. simpl. rewrite IH by lia.
  destruct (tbl n m root v) as [t |] eqn:E; [| done]. simpl.
  apply (tr_pages _ _ _ Ht) in E; [| lia]. pose proof (table_index_range n v).
  by rewrite (ld64_agree _ _ _ _ _ (Ha t E)) by lia.
Qed.

Lemma pte_agree m m' root P v :
  tree m root P -> (forall p, P p -> agree p (p + 4096) m m') -> pte m' root v = pte m root v.
Proof.
  intros Ht Ha. unfold pte. rewrite (tbl_agree m m' root P) by (done || lia).
  destruct (tbl 3 m root v) as [t |] eqn:E; [| done]. simpl.
  apply (tr_pages _ _ _ Ht) in E; [| lia]. pose proof (table_index_range 3 v).
  by rewrite (ld64_agree _ _ _ _ _ (Ha t E)) by lia.
Qed.

Section write.
Context (m : mem) (root : Z) (P : Z -> Prop) (Ht : tree m root P) (HP : pages P).
Context (d : nat) (v t e : Z) (Hd : (d <= 3)%nat) (Htd : tbl d m root v = Some t).
Let m' := st64 m (t + 8 * table_index d v) e.

Lemma write_entry_other n v' t' :
  (n <= 3)%nat -> tbl n m root v' = Some t' ->
  n <> d \/ same_path (S d) v v' = false ->
  ld64 m' (t' + 8 * table_index n v') = ld64 m (t' + 8 * table_index n v').
Proof.
  intros Hn E Hor. apply ld64_st64_ne.
  pose proof (table_index_range n v'). pose proof (table_index_range d v).
  destruct (HP t (tr_pages _ _ _ Ht _ _ _ Hd Htd)) as (? & ? & ?).
  destruct (HP t' (tr_pages _ _ _ Ht _ _ _ Hn E)) as (? & ? & ?).
  destruct (decide (t = t')) as [<- | Hne]; [| pose proof (page_apart t t'); lia].
  destruct (tr_inj _ _ _ Ht _ _ _ _ _ Hd Hn Htd E) as [<- Hs].
  destruct Hor as [| Hor]; [done |]. simpl in Hor. rewrite Hs in Hor. simpl in Hor.
  apply Z.eqb_neq in Hor. lia.
Qed.

Lemma tbl_write_low n v' : (n <= d)%nat -> tbl n m' root v' = tbl n m root v'.
Proof.
  induction n as [| n IH]; intros Hn; [done |]. simpl. rewrite IH by lia.
  destruct (tbl n m root v') as [t' |] eqn:E; [| done]. simpl.
  rewrite write_entry_other; [done | lia | done | lia].
Qed.

Lemma tbl_write_other n v' :
  (n <= 4)%nat -> same_path (S d) v v' = false -> tbl n m' root v' = tbl n m root v'.
Proof.
  induction n as [| n IH]; intros Hn Hs; [done |].
  cbn [tbl]. rewrite IH by (done || lia).
  destruct (tbl n m root v') as [t' |] eqn:E; [| done]. simpl.
  rewrite write_entry_other; [done | lia | done | by right].
Qed.

Lemma tbl_write_same v' :
  same_path (S d) v v' = true -> tbl (S d) m' root v' = follow (u64 e).
Proof.
  intros Hs. rewrite (tbl_same_path _ _ _ v v' Hs). cbn [tbl].
  rewrite tbl_write_low, Htd by lia. simpl. unfold m'. by rewrite ld64_st64_eq.
Qed.

Lemma pte_write_other v' : same_path (S d) v v' = false -> pte m' root v' = pte m root v'.
Proof.
  intros Hs. unfold pte. rewrite tbl_write_other by (done || lia).
  destruct (tbl 3 m root v') as [t' |] eqn:E; [| done]. simpl.
  rewrite write_entry_other; [done | lia | done | by right].
Qed.
End write.

(** Linking an empty table [a] at an entry that was not present: the ways
    through that entry now reach [a] and end there. *)
Lemma tbl_link m root P d v t a n v' :
  tree m root P -> pages P -> (d <= 2)%nat -> tbl d m root v = Some t ->
  tbl (S d) m root v = None -> a mod 4096 = 0 -> 0 < a -> a + 4096 <= 2 ^ 63 -> ~ P a ->
  (forall i, 0 <= i < 512 -> ld64 m (a + 8 * i) = 0) -> (n <= 4)%nat ->
  tbl n (st64 m (t + 8 * table_index d v) (Z.lor a 7)) root v' =
  if same_path (S d) v v' && (d <? n)%nat
  then if (n =? S d)%nat then Some a else None
  else tbl n m root v'.
Proof.
  intros Ht HP Hd Htd Hnone Ha Ha0 Ha63 Hfresh Hz Hn.
  set (m' := st64 _ _ _).
  destruct (same_path (S d) v v') eqn:Hs; cbn [andb].
  2:{ apply (tbl_write_other m root P Ht HP d v t); done || lia. }
  destruct (Nat.ltb_spec d n) as [Hlt | Hge].
  2:{ apply (tbl_write_low m root P Ht HP d v t); done || lia. }
  assert (Hat : tbl (S d) m' root v' = Some a).
  { etransitivity; [apply (tbl_write_same m root P Ht HP d v t); done || lia |].
    unfold follow. rewrite u64_small by (rewrite lor_page by lia; lia).
    rewrite present_lor by lia. cbn [Z.odd]. rewrite page_mask_lor; [done | unfold is_u64; lia | done | lia]. }
  destruct (Nat.eqb_spec n (S d)) as [-> | Hne]; [exact Hat |].
  apply (tbl_None (S (S d))); [lia |]. cbn [tbl] in Hat |- *. rewrite Hat. simpl.
  pose proof (tr_pages _ _ _ Ht d v t ltac:(lia) Htd) as Pt.
  destruct (HP t Pt) as (? & ? & ?). assert (a <> t) by (by intros ->).
  pose proof (page_apart a t). pose proof (table_index_range (S d) v'). pose proof (table_index_range d v).
  unfold m'. rewrite ld64_st64_ne, Hz by lia. done.
Qed.

Lemma tree_link m root P Q d v t a :
  tree m root P -> pages P -> (d <= 2)%nat -> tbl d m root v = Some t ->
  tbl (S d) m root v = None -> a mod 4096 = 0 -> 0 < a -> a + 4096 <= 2 ^ 63 -> ~ P a ->
  (forall i, 0 <= i < 512 -> ld64 m (a + 8 * i) = 0) ->
  (forall p, P p -> Q p) -> Q a ->
  tree (st64 m (t + 8 * table_index d v) (Z.lor a 7)) root Q.
Proof.
  intros Ht HP Hd Htd Hnone Ha Ha0 Ha63 Hfresh Hz HQ HQa.
  pose proof (fun n v' => tbl_link m root P d v t a n v' Ht HP Hd Htd Hnone Ha Ha0 Ha63 Hfresh Hz) as HL.
  assert (Hcase : forall n v' x, (n <= 3)%nat ->
    tbl n (st64 m (t + 8 * table_index d v) (Z.lor a 7)) root v' = Some x ->
    x = a /\ n = S d /\ same_path (S d) v v' = true \/ tbl n m root v' = Some x /\ P x).
  { intros n v' x Hn. rewrite HL by lia. destruct (same_path (S d) v v') eqn:Hs; cbn [andb].
    - destruct (Nat.ltb_spec d n); [| intros E; right; split; [done | by apply (tr_pages _ _ _ Ht n v')]].
      destruct (Nat.eqb_spec n (S d)); [intros [= <-]; by left | done].
    - intros E; right; split; [done | by apply (tr_pages _ _ _ Ht n v')]. }
  constructor.
  - intros n v' x Hn E. destruct (Hcase n v' x Hn E) as [(-> & _) | [_ ?]]; auto.
  - intros n1 n2 v1 v2 x Hn1 Hn2 E1 E2.
    destruct (Hcase _ _ _ Hn1 E1) as [(-> & -> & Hs1) | [E1' P1]],
      (Hcase _ _ _ Hn2 E2) as [(? & -> & Hs2) | [E2' P2]]; try (by subst).
    + split; [done |]. by rewrite <- (same_path_trans_l _ v).
    + by apply (tr_inj _ _ _ Ht n1 n2 v1 v2 x).
Qed.

(** Writing a leaf entry leaves the tree as it is. *)
Lemma tree_leaf m root P v t e :
  tree m root P -> pages P -> tbl 3 m root v = Some t ->
  tree (st64 m (t + 8 * table_index 3 v) e) root P.
Proof.
  intros Ht HP Htd.
  assert (HL : forall n v', (n <= 3)%nat ->
    tbl n (st64 m (t + 8 * table_index 3 v) e) root v' = tbl n m root v')
    by (intros; apply (tbl_write_low m root P Ht HP 3 v t); done || lia).
  constructor.
  - intros n v' x Hn. rewrite HL by done. by apply (tr_pages _ _ _ Ht).
  - intros n1 n2 v1 v2 x Hn1 Hn2. rewrite !HL by done. by apply (tr_inj _ _ _ Ht).
Qed.

Section map.
Context {inv : kernel -> Prop} {owned : kernel -> Z -> Prop} {avail : kernel -> Z}.
Context `{!PageAllocator inv owned avail}.

Local Lemma owned_pages k : pages (owned k).
Proof. intros p Hp. by eapply pa_page. Qed.

(** What a step that only adds tables preserves. *)
Record extended (root : Z) (k k' : kernel) : Prop := {
  ex_inv : inv k';
  ex_tree : tree (mem_of k') root (owned k');
  ex_owned : forall p, owned k p -> owned k' p;
  ex_avail : avail k - 1 <= avail k';
  ex_pml4 : kernel_pml4 k' = kernel_pml4 k;
  ex_phys : forall v, tbl 4 (mem_of k') root v = tbl 4 (mem_of k) root v;
  ex_data : forall p, owned k p -> (forall d v, (d <= 3)%nat -> tbl d (mem_of k) root v <> Some p) ->
    agree p (p + 4096) (mem_of k) (mem_of k') /\
    (forall d v, (d <= 3)%nat -> tbl d (mem_of k') root v <> Some p);
  ex_pte : forall v, pte (mem_of k') root v = pte (mem_of k) root v
}.

(** A memory that holds the same in every owned page has the same tree. *)
Lemma tree_agree k root m :
  tree (mem_of k) root (owned k) -> (forall p, owned k p -> agree p (p + 4096) (mem_of k) m) ->
  tree m root (owned k) /\ forall n v, (n <= 4)%nat -> tbl n m root v = tbl n (mem_of k) root v.
Proof.
  intros Ht Hag.
  assert (HL : forall n v, (n <= 4)%nat -> tbl n m root v = tbl n (mem_of k) root v)
    by (intros; by apply (tbl_agree _ _ _ _ _ _ Ht Hag)).
  split; [| done]. constructor.
  - intros n v x Hn. rewrite HL by lia. by apply (tr_pages _ _ _ Ht).
  - intros n1 n2 v1 v2 x ? ?. rewrite !HL by lia. by apply (tr_inj _ _ _ Ht).
Qed.

(** The state [k2] after allocating and zeroing the page [a]. *)
Record fresh_page (k k2 : kernel) (a : Z) : Prop := {
  fp_inv : inv k2;
  fp_page : a mod 4096 = 0 /\ 0 < a /\ a + 4096 <= 2 ^ 63;
  fp_fresh : ~ owned k a;
  fp_owned : owned k2 a;
  fp_sub : forall p, owned k p -> owned k2 p;
  fp_avail : avail k2 = avail k - 1;
  fp_pml4 : kernel_pml4 k2 = kernel_pml4 k;
  fp_agree : forall p, owned k p -> agree p (p + 4096) (mem_of k) (mem_of k2);
  fp_zero : forall i, 0 <= i < 512 -> ld64 (mem_of k2) (a + 8 * i) = 0
}.

Lemma alloc_zeroed k :
  inv k -> 1 < avail k ->
  exists a k1, pmm_alloc 1 k = Ret a k1 /\
    fresh_page k (set_mem (b_memset (mem_of k1) a 0 4096) k1) a.
Proof.
  intros HI Hav.
  destruct (pa_alloc k HI Hav) as (a & k1 & Hal & HI1 & Hfresh & Hown & Hav1 & Hpml & Hsub & Hag).
  exists a, k1. split; [exact Hal |].
  destruct (pa_page k1 a Hown) as (Ha & Ha0 & Ha63).
  assert (Hz : forall i, 0 <= i < 512 -> ld64 (b_memset (mem_of k1) a 0 4096) (a + 8 * i) = 0)
    by (intros; apply ld64_b_memset_0; lia).
  assert (Hms : agree_out a (a + 4096) (mem_of k1) (b_memset (mem_of k1) a 0 4096))
    by (apply b_memset_agree_out; lia).
  generalize dependent (b_memset (mem_of k1) a 0 4096). intros m2 Hz Hms.
  destruct (pa_write k1 a m2 HI1 Hown Hms) as (HI2 & Hav2 & Hown2). constructor; try done; try lia.
  - by apply Hown2.
  - intros p Hp. by apply Hown2, Hsub.
  - intros p Hp. transitivity (mem_of k1); [by apply Hag, Hsub |].
    destruct (pa_page k p Hp) as (? & ? & ?). assert (p <> a) by (by intros ->).
    eapply agree_out_disj; [| exact Hms]. pose proof (page_apart p a). lia.
Qed.

Lemma link_fresh k k2 root v d t a :
  tree (mem_of k) root (owned k) -> (d <= 2)%nat ->
  tbl d (mem_of k) root v = Some t -> tbl (S d) (mem_of k) root v = None -> fresh_page k k2 a ->
  let k3 := set_mem (st64 (mem_of k2) (t + 8 * table_index d v) (Z.lor a 7)) k2 in
  extended root k k3 /\ tbl (S d) (mem_of k3) root v = Some a.
Proof.
  intros Ht Hd Htd Hnone [HI2 (Ha & Ha0 & Ha63) Hfresh Hown Hsub Hav Hpml Hag Hz] k3.
  destruct (tree_agree k root (mem_of k2) Ht Hag) as [Ht2 H2].
  assert (Hot : owned k t) by (apply (tr_pages _ _ _ Ht d v); done || lia).
  assert (Hw : agree_out t (t + 4096) (mem_of k2) (mem_of k3)).
  { pose proof (table_index_range d v). eapply agree_out_sub; [| | apply agree_out_st64]; lia. }
  destruct (pa_write k2 t (mem_of k3) HI2 ltac:(by apply Hsub) Hw) as (HI3 & Hav3 & Hown3).
  change (set_mem (mem_of k3) k2) with k3 in *.
  assert (HL : forall n v', (n <= 4)%nat -> tbl n (mem_of k3) root v' =
    if same_path (S d) v v' && (d <? n)%nat then if (n =? S d)%nat then Some a else None
    else tbl n (mem_of k) root v').
  { intros n v' Hn. rewrite <- (H2 n v') by done.
    apply (tbl_link _ _ (owned k)); rewrite ?H2 by lia; try done; apply owned_pages. }
  split; [constructor; try done; try lia |].
  - apply (tree_link (mem_of k2) root (owned k)); rewrite ?H2 by lia; try done;
      [apply owned_pages | intros; by apply Hown3, Hsub | by apply Hown3].
  - intros p Hp. by apply Hown3, Hsub.
  - intros v'. rewrite HL by lia. destruct (same_path (S d) v v') eqn:Hs; [| done]. cbn [andb].
    destruct (Nat.ltb_spec d 4); [| lia]. destruct (Nat.eqb_spec 4 (S d)); [lia |].
    symmetry. apply (tbl_None (S d)); [lia |]. by rewrite (tbl_same_path _ _ _ v v').
  - intros p Hp Hnt. assert (p <> t) by (intros ->; by apply (Hnt d v); [lia |]). split.
    + transitivity (mem_of k2); [by apply Hag |]. eapply agree_out_disj; [| exact Hw].
      destruct (pa_page k p Hp) as (? & ? & ?). destruct (pa_page k t Hot) as (? & ? & ?).
      pose proof (page_apart p t). lia.
    + intros n v' Hn E. rewrite (HL n v') in E by lia.
      destruct (same_path (S d) v v' && (d <? n)%nat); [| by apply (Hnt n v')].
      destruct (n =? S d)%nat; [| done]. by injection E as ->.
  - intros v'. destruct (same_path (S d) v v') eqn:Hs.
    + rewrite !pte_None; [done | |].
      * apply (tbl_None (S d)); [lia |]. by rewrite (tbl_same_path _ _ _ v v').
      * rewrite HL, Hs by lia. destruct (Nat.ltb_spec d 4); [| lia]. by destruct (Nat.eqb_spec 4 (S d)); [lia |].
    + rewrite <- (pte_agree _ _ _ _ v' Ht Hag).
      apply (pte_write_other _ root (owned k) Ht2 (owned_pages k) d v t); rewrite ?H2 by lia; done || lia.
  - rewrite HL by lia. rewrite same_path_refl. cbn [andb].
    destruct (Nat.ltb_spec d (S d)); [| lia]. by rewrite Nat.eqb_refl.
Qed.

Lemma extended_refl k root :
  inv k -> tree (mem_of k) root (owned k) -> extended root k k.
Proof. intros. constructor; try done; lia. Qed.

Lemma ensure_table_spec k root v d t :
  inv k -> tree (mem_of k) root (owned k) -> (d <= 2)%nat -> 1 < avail k ->
  tbl d (mem_of k) root v = Some t ->
  exists nt k', ensure_table t (table_index d v) k = Ret nt k' /\ extended root k k' /\
    tbl (S d) (mem_of k') root v = Some nt.
Proof.
  intros HI Ht Hd Hav Htd. unfold ensure_table. rewrite bind_gets.
  assert (Hs : forall k', tbl d (mem_of k') root v = Some t -> tbl (S d) (mem_of k') root v =
            follow (ld64 (mem_of k') (t + 8 * table_index d v)))
    by (intros k' E; cbn [tbl]; by rewrite E).
  pose proof (Hs k Htd) as Hk. unfold follow in Hk.
  destruct (present (ld64 (mem_of k) (t + 8 * table_index d v))) eqn:Hp.
  - eexists _, k. split; [reflexivity |]. split; [by apply extended_refl | exact Hk].
  - destruct (alloc_zeroed k HI Hav) as (a & k1 & Hal & Hfp).
    set (k2 := set_mem (b_memset _ _ _ _) _) in *.
    destruct (link_fresh k k2 root v d t a Ht Hd Htd Hk Hfp) as [Hex Hlk].
    set (k3 := set_mem (st64 _ _ _) _) in *.
    exists a, k3. split; [| done]. unfold when. cbn [negb].
    rewrite (bind_ret _ _ _ tt k3).
    2:{ rewrite (bind_ret _ _ _ _ _ Hal), bind_modify. unfold modify.
        rewrite table_flags. reflexivity. }
    unfold gets. f_equal.
    pose proof Hfp as [_ (? & ? & ?) _ _ _ _ _ _ _].
    change (mem_of k3) with (st64 (mem_of k2) (t + 8 * table_index d v) (Z.lor a 7)).
    rewrite ld64_st64_eq, u64_small by (rewrite lor_page by lia; lia).
    apply page_mask_lor; [unfold is_u64 | | ]; lia.
Qed.

(** What vmm_map leaves. *)
Record mapped (root virt phys flags : Z) (k k' : kernel) : Prop := {
  mp_inv : inv k';
  mp_tree : tree (mem_of k') root (owned k');
  mp_owned : forall p, owned k p -> owned k' p;
  mp_avail : avail k - 3 <= avail k';
  mp_pml4 : kernel_pml4 k' = kernel_pml4 k;
  mp_phys : forall v, tbl 4 (mem_of k') root v =
    if same_path 4 virt v then Some (page_mask phys) else tbl 4 (mem_of k) root v;
  mp_data : forall p, owned k p -> (forall d v, (d <= 3)%nat -> tbl d (mem_of k) root v <> Some p) ->
    agree p (p + 4096) (mem_of k) (mem_of k') /\
    (forall d v, (d <= 3)%nat -> tbl d (mem_of k') root v <> Some p);
  mp_pte : forall v, pte (mem_of k') root v =
    if same_path 4 virt v then Some (Z.lor (page_mask phys) flags) else pte (mem_of k) root v
}.

(** The final store of vmm_map. *)
Lemma leaf_mapped k root virt phys flags pt :
  inv k -> tree (mem_of k) root (owned k) -> tbl 3 (mem_of k) root virt = Some pt ->
  is_u64 phys -> 0 <= flags < 4096 -> Z.odd flags = true ->
  let k' := set_mem (st64 (mem_of k) (pt + 8 * table_index 3 virt) (Z.lor (page_mask phys) flags)) k in
  mapped root virt phys flags k k' /\ avail k' = avail k.
Proof.
  intros HI Ht Hpt Hph Hfl Hodd k'.
  assert (Hal : page_mask phys mod 4096 = 0) by (rewrite page_mask_eq by done; zdiv).
  assert (Hu : is_u64 (page_mask phys)) by (rewrite page_mask_eq by done; unfold is_u64 in *; zdiv).
  assert (Hop : owned k pt) by (by apply (tr_pages _ _ _ Ht 3%nat virt)).
  assert (Hw : agree_out pt (pt + 4096) (mem_of k) (mem_of k')).
  { pose proof (table_index_range 3 virt). eapply agree_out_sub; [| | apply agree_out_st64]; lia. }
  destruct (pa_write k pt (mem_of k') HI Hop Hw) as (HI' & Hav & Hown).
  change (set_mem (mem_of k') k) with k' in *.
  split; [| done]. constructor; try done; try lia.
  - apply (tree_mono _ _ (owned k)); [| apply Hown]. by apply tree_leaf, Hpt; [| apply owned_pages].
  - intros p. apply Hown.
  - intros v. destruct (same_path 4 virt v) eqn:Hs.
    + etransitivity; [apply (tbl_write_same _ root (owned k) Ht (owned_pages k) 3 virt pt); done || lia |].
      rewrite u64_small by (rewrite lor_page by done; unfold is_u64 in *; zdiv).
      unfold follow. by rewrite present_lor, Hodd, page_mask_lor.
    + apply (tbl_write_other _ root (owned k) Ht (owned_pages k) 3 virt pt); done || lia.
  - intros p Hp Hnt. assert (p <> pt) by (intros ->; by apply (Hnt 3%nat virt); [lia |]). split.
    + eapply agree_out_disj; [| exact Hw]. destruct (pa_page k p Hp) as (? & ? & ?).
      destruct (pa_page k pt Hop) as (? & ? & ?). pose proof (page_apart p pt). lia.
    + intros d v Hd E. apply (Hnt d v Hd). rewrite <- E. symmetry.
      apply (tbl_write_low _ root (owned k) Ht (owned_pages k) 3 virt pt); done || lia.
  - intros v. destruct (same_path 4 virt v) eqn:Hs.
    + assert (Hs3 : same_path 3 virt v = true) by (by apply (same_path_le 4); [lia |]).
      assert (Hix : table_index 3 v = table_index 3 virt).
      { cbn [same_path] in Hs. apply andb_true_iff in Hs as [_ Hs%Z.eqb_eq]. done. }
      unfold pte. rewrite (tbl_same_path 3 _ _ virt v Hs3), Hix.
      assert (E3 : tbl 3 (mem_of k') root virt = Some pt).
      { rewrite <- Hpt. apply (tbl_write_low _ root (owned k) Ht (owned_pages k) 3 virt pt); done || lia. }
      rewrite E3. simpl.
      change (mem_of k') with (st64 (mem_of k) (pt + 8 * table_index 3 virt) (Z.lor (page_mask phys) flags)).
      rewrite ld64_st64_eq, u64_small by (rewrite lor_page by done; unfold is_u64 in *; zdiv).
      by rewrite present_lor, Hodd by done.
    + apply (pte_write_other _ root (owned k) Ht (owned_pages k) 3 virt pt); done || lia.
Qed.

Lemma vmm_map_spec k root virt phys flags :
  inv k -> tree (mem_of k) root (owned k) -> 3 < avail k ->
  is_u64 phys -> 0 <= flags < 4096 -> Z.odd flags = true ->
  exists k', vmm_map root virt phys flags k = Ret tt k' /\ mapped root virt phys flags k k'.
Proof.
  intros HI Ht Hav Hph Hfl Hodd. unfold vmm_map.
  destruct (ensure_table_spec k root virt 0 root HI Ht ltac:(lia) ltac:(lia) eq_refl)
    as (pdpt & k1 & E1 & X1 & T1). pose proof X1 as [I1 R1 O1 V1 M1 F1 D1 G1].
  destruct (ensure_table_spec k1 root virt 1 pdpt I1 R1 ltac:(lia) ltac:(lia) T1)
    as (pd & k2 & E2 & X2 & T2). pose proof X2 as [I2 R2 O2 V2 M2 F2 D2 G2].
  destruct (ensure_table_spec k2 root virt 2 pd I2 R2 ltac:(lia) ltac:(lia) T2)
    as (pt & k3 & E3 & X3 & T3). pose proof X3 as [I3 R3 O3 V3 M3 F3 D3 G3].
  rewrite (bind_ret _ _ _ _ _ E1), (bind_ret _ _ _ _ _ E2), (bind_ret _ _ _ _ _ E3).
  eexists. split; [reflexivity |].
  destruct (leaf_mapped k3 root virt phys flags pt I3 R3 T3 Hph Hfl Hodd) as [[I R O _ N F D G] V].
  set (k4 := set_mem _ k3) in *.
  constructor; try done; try congruence; auto.
  - lia.
  - intros v. by rewrite F, F3, F2, F1.
  - intros p Hp Hnt. destruct (D1 p Hp Hnt) as [A1 N1]. destruct (D2 p (O1 p Hp) N1) as [A2 N2].
    destruct (D3 p (O2 p (O1 p Hp)) N2) as [A3 N3].
    destruct (D p (O3 p (O2 p (O1 p Hp))) N3) as [A4 N4]. split; [| done].
    transitivity (mem_of k1); [done |]. transitivity (mem_of k2); [done |]. by transitivity (mem_of k3).
  - intros v. by rewrite G, G3, G2, G1.
Qed.

(** Where the tables are there already, no page is taken. *)
Lemma ensure_table_present k root v d t nt :
  tbl d (mem_of k) root v = Some t -> tbl (S d) (mem_of k) root v = Some nt ->
  ensure_table t (table_index d v) k = Ret nt k.
Proof.
  intros Ht Hn. cbn [tbl] in Hn. rewrite Ht in Hn. simpl in Hn. unfold follow in Hn.
  unfold ensure_table. rewrite bind_gets. destruct (present _); [| done]. injection Hn as <-. reflexivity.
Qed.

Lemma vmm_map_present k root virt phys flags :
  inv k -> tree (mem_of k) root (owned k) -> tbl 3 (mem_of k) root virt <> None ->
  is_u64 phys -> 0 <= flags < 4096 -> Z.odd flags = true ->
  exists k', vmm_map root virt phys flags k = Ret tt k' /\ mapped root virt phys flags k k' /\ avail k' = avail k.
Proof.
  intros HI Ht H3 Hph Hfl Hodd. destruct (tbl 3 (mem_of k) root virt) as [pt |] eqn:T3; [| done].
  destruct (tbl 2 (mem_of k) root virt) as [pd |] eqn:T2; [| by rewrite (tbl_None 2 3) in T3 by (done || lia)].
  destruct (tbl 1 (mem_of k) root virt) as [pdpt |] eqn:T1; [| by rewrite (tbl_None 1 2) in T2 by (done || lia)].
  unfold vmm_map.
  rewrite (bind_ret _ _ _ _ _ (ensure_table_present k root virt 0 root pdpt eq_refl T1)),
    (bind_ret _ _ _ _ _ (ensure_table_present k root virt 1 pdpt pd T1 T2)),
    (bind_ret _ _ _ _ _ (ensure_table_present k root virt 2 pd pt T2 T3)).
  eexists. split; [reflexivity |]. by apply leaf_mapped.
Qed.

(** *** Identity mapping *)

Definition idmap (m : mem) (root v : Z) : Prop := tbl 4 m root v = Some v.
Definition low_page (v : Z) : Prop := v mod 4096 = 0 /\ 0 <= v < 2 ^ 48.

(** The effect of mapping pages onto themselves, taking at most [n] pages for
    tables. *)
Record kept (root n : Z) (k k' : kernel) : Prop := {
  kp_inv : inv k';
  kp_tree : tree (mem_of k') root (owned k');
  kp_owned : forall p, owned k p -> owned k' p;
  kp_avail : avail k - n <= avail k';
  kp_pml4 : kernel_pml4 k' = kernel_pml4 k;
  kp_id : forall v, low_page v -> idmap (mem_of k) root v -> idmap (mem_of k') root v;
  kp_data : forall p, owned k p -> (forall d v, (d <= 3)%nat -> tbl d (mem_of k) root v <> Some p) ->
    agree p (p + 4096) (mem_of k) (mem_of k') /\
    (forall d v, (d <= 3)%nat -> tbl d (mem_of k') root v <> Some p)
}.

Lemma kept_refl root k : inv k -> tree (mem_of k) root (owned k) -> kept root 0 k k.
Proof. intros. constructor; try done; lia. Qed.

Lemma kept_trans root n1 n2 k1 k2 k3 :
  kept root n1 k1 k2 -> kept root n2 k2 k3 -> kept root (n1 + n2) k1 k3.
Proof.
  intros [I1 R1 O1 V1 M1 F1 D1] [I2 R2 O2 V2 M2 F2 D2].
  constructor; try done; try lia; try congruence; auto.
  intros p Hp Hnt. destruct (D1 p Hp Hnt) as [A1 N1]. destruct (D2 p (O1 p Hp) N1) as [A2 N2].
  split; [by transitivity (mem_of k2) | done].
Qed.

Lemma same_page v v' : low_page v -> low_page v' -> same_path 4 v v' = true -> v = v'.
Proof.
  intros [Hm Hv] [Hm' Hv'] Hs. pose proof (same_path_vpage v v') as E. rewrite Hs in E.
  symmetry in E. apply Z.eqb_eq in E. unfold vpage in E.
  rewrite !Z.mod_small in E by zdiv. zdiv.
Qed.

(** The pages for tables that mapping the page at [a] may take: none when its
    last table is there, three otherwise. *)
Definition table_cost (k : kernel) (root a : Z) : Z :=
  match tbl 3 (mem_of k) root a with Some _ => 0 | None => 3 end.

Lemma table_cost_range k root a : 0 <= table_cost k root a <= 3.
Proof. unfold table_cost. case_match; lia. Qed.

Lemma map_one k root a flags :
  inv k -> tree (mem_of k) root (owned k) -> table_cost k root a < avail k -> low_page a ->
  0 <= flags < 4096 -> Z.odd flags = true ->
  exists k', vmm_map root a a flags k = Ret tt k' /\ kept root (table_cost k root a) k k' /\
    idmap (mem_of k') root a.
Proof.
  intros HI Ht Hav [Ha Hr] Hfl Hodd.
  assert (Hu : is_u64 a) by (unfold is_u64; lia).
  assert (Hmap : exists k', vmm_map root a a flags k = Ret tt k' /\ mapped root a a flags k k' /\
    avail k - table_cost k root a <= avail k').
  { unfold table_cost in *. destruct (tbl 3 (mem_of k) root a) eqn:T3.
    - destruct (vmm_map_present k root a a flags) as (k' & E & M & V); try done; [congruence |].
      exists k'. split; [done |]. split; [done | lia].
    - destruct (vmm_map_spec k root a a flags HI Ht Hav Hu Hfl Hodd) as (k' & E & M).
      exists k'. split; [done |]. split; [done | apply M]. }
  destruct Hmap as (k' & E & [I R O _ M F D] & V).
  assert (Hpm : page_mask a = a) by (rewrite page_mask_eq by done; lia).
  exists k'. split; [exact E |]. split.
  - constructor; try done. intros v Hv Hid. unfold idmap in *. rewrite F, Hpm.
    destruct (same_path 4 a v) eqn:Hs; [| done].
    by rewrite (same_page a v ltac:(by split) Hv Hs).
  - unfold idmap. by rewrite F, same_path_refl, Hpm.
Qed.

(** After mapping [a], the next page costs nothing unless it starts a block. *)
Lemma next_cost k root a b :
  idmap (mem_of k) root a -> a / 4096 / 512 = b / 4096 / 512 -> table_cost k root b = 0.
Proof.
  intros Hid Hb. unfold table_cost. rewrite (tbl_same_path 3 _ _ a b) by (by apply same_block).
  destruct (tbl 3 (mem_of k) root a) eqn:T3; [done |].
  unfold idmap in Hid. by rewrite (tbl_None 3 4) in Hid by (done || lia).
Qed.

(** How many 2 MiB blocks, each with one last table, [n] pages from [a] touch. *)
Definition blocks (a n : Z) : Z := (a / 4096 + n - 1) / 512 - a / 4096 / 512 + 1.

Lemma blocks_nonneg a n : 0 <= n -> 0 <= blocks a n.
Proof.
  intros. unfold blocks. assert ((a / 4096 - 1) / 512 <= (a / 4096 + n - 1) / 512) by (apply Z.div_le_mono; lia).
  zdiv.
Qed.

Lemma kept_weaken root n n' k k' : n <= n' -> kept root n k k' -> kept root n' k k'.
Proof. intros Hn []. constructor; try done; lia. Qed.

(** The step of the loop: page [a] mapped unless it is skipped. *)
Lemma map_step k root a flags (skip : bool) :
  inv k -> tree (mem_of k) root (owned k) -> table_cost k root a < avail k -> low_page a ->
  0 <= flags < 4096 -> Z.odd flags = true ->
  exists k', when (negb skip) (vmm_map root a a flags) k = Ret tt k' /\
    (if skip then k' = k else kept root (table_cost k root a) k k' /\ idmap (mem_of k') root a).
Proof.
  intros HI Ht Hav Ha Hfl Hodd. destruct skip; cbn [negb when]; [by exists k |]. by apply map_one.
Qed.

(** What the rest of the loop may take, from [a] with [n] more pages after it. *)
Lemma map_pages_run root flags skip0 : 0 <= flags < 4096 -> Z.odd flags = true ->
  forall n k a, inv k -> tree (mem_of k) root (owned k) ->
  a mod 4096 = 0 -> 0 <= a -> a + 4096 * Z.of_nat (S n) <= 2 ^ 48 ->
  let c := table_cost k root a + 3 * ((a / 4096 + Z.of_nat n) / 512 - a / 4096 / 512) in
  c < avail k ->
  exists k', map_pages (S n) skip0 root a flags k = Ret tt k' /\ kept root c k k' /\
    forall i, 0 <= i < Z.of_nat (S n) -> skip0 && (a + 4096 * i =? 0) = false ->
      idmap (mem_of k') root (a + 4096 * i).
Proof.
  intros Hfl Hodd. induction n as [| n IH]; intros k a HI Ht Ha H0 Hb c Hav.
  all: destruct (map_step k root a flags (skip0 && (a =? 0)) HI Ht) as (k1 & E1 & H1);
    [subst c; zdiv | split; [done | lia] | done | done |].
  - exists k1. split; [cbn [map_pages]; by rewrite (bind_ret _ _ _ _ _ E1) |]. split.
    + subst c. rewrite Z.add_0_r, Z.sub_diag, Z.mul_0_r, Z.add_0_r.
      destruct (skip0 && (a =? 0)); [subst k1 | apply H1].
      apply (kept_weaken root 0); [apply table_cost_range | by apply kept_refl].
    + intros i Hi. replace (a + 4096 * i) with a by lia. intros Hs. rewrite Hs in H1. apply H1.
  - change (map_pages (S (S n)) skip0 root a flags) with
      (when (negb (skip0 && (a =? 0))) (vmm_map root a a flags);;
       map_pages (S n) skip0 root (u64 (a + 4096)) flags).
    rewrite (bind_ret _ _ _ _ _ E1), u64_small by lia.
    set (c2 := table_cost k1 root (a + 4096) +
      3 * (((a + 4096) / 4096 + Z.of_nat n) / 512 - (a + 4096) / 4096 / 512)).
    assert (Hq : (a + 4096) / 4096 = a / 4096 + 1) by zdiv.
    assert (K1 : exists c1, kept root c1 k k1 /\ 0 <= c1 /\ c1 + c2 <= c).
    { subst c c2. rewrite Hq. replace (a / 4096 + 1 + Z.of_nat n) with (a / 4096 + Z.of_nat (S n)) by lia.
      pose proof (table_cost_range k1 root (a + 4096)). pose proof (table_cost_range k root a).
      assert (Hcross : (a / 4096 + 1) / 512 = a / 4096 / 512 \/ (a / 4096 + 1) / 512 = a / 4096 / 512 + 1) by zdiv.
      destruct (skip0 && (a =? 0)) eqn:Es.
      - subst k1. exists 0. split; [by apply kept_refl |]. split; [done |].
        apply andb_true_iff in Es as [_ Es%Z.eqb_eq]. subst a.
        unfold table_cost. rewrite (tbl_same_path 3 _ _ 0 (0 + 4096)) by (by apply same_block). done.
      - destruct H1 as [K1 Hid]. exists (table_cost k root a). split; [done |]. split; [lia |].
        destruct Hcross as [Hc | Hc]; [| lia].
        rewrite (next_cost k1 root a (a + 4096)) by (done || (rewrite Hq; done)). lia. }
    destruct K1 as (c1 & K1 & Hc1 & Hsum).
    destruct (IH k1 (a + 4096)) as (k2 & E2 & K2 & Hrest); try lia;
      [apply K1 | apply K1 | zdiv | fold c2; pose proof (kp_avail _ _ _ _ K1); lia |].
    exists k2. split; [exact E2 |]. split.
    { apply (kept_weaken root (c1 + c2)); [done |]. by eapply kept_trans. }
    intros i Hi Hs. destruct (decide (i = 0)) as [-> | Hne].
    + rewrite Z.mul_0_r, Z.add_0_r in *. rewrite Hs in H1.
      apply (kp_id _ _ _ _ K2); [split; [done | lia] | apply H1].
    + replace (a + 4096 * i) with (a + 4096 + 4096 * (i - 1)) in * by lia. apply Hrest; [lia | done].
Qed.

Lemma map_pages_spec root flags skip0 : 0 <= flags < 4096 -> Z.odd flags = true ->
  forall n k a, inv k -> tree (mem_of k) root (owned k) -> 3 * blocks a (Z.of_nat n) < avail k ->
  a mod 4096 = 0 -> 0 <= a -> a + 4096 * Z.of_nat n <= 2 ^ 48 ->
  exists k', map_pages n skip0 root a flags k = Ret tt k' /\ kept root (3 * blocks a (Z.of_nat n)) k k' /\
    forall i, 0 <= i < Z.of_nat n -> skip0 && (a + 4096 * i =? 0) = false ->
      idmap (mem_of k') root (a + 4096 * i).
Proof.
  intros Hfl Hodd [| n] k a HI Ht Hav Ha H0 Hb.
  { exists k. split; [done |]. split; [| lia]. pose proof (blocks_nonneg a (Z.of_nat 0)).
    apply (kept_weaken root 0); [lia | by apply kept_refl]. }
  pose proof (table_cost_range k root a).
  assert (Hbl : blocks a (Z.of_nat (S n)) = (a / 4096 + Z.of_nat n) / 512 - a / 4096 / 512 + 1)
    by (unfold blocks; do 3 f_equal; lia).
  destruct (map_pages_run root flags skip0 Hfl Hodd n k a) as (k' & E & K & Hid); try done; [lia |].
  exists k'. split; [exact E |]. split; [| exact Hid]. eapply kept_weaken, K. lia.
Qed.

(** *** The firmware map *)

(** Descriptor [i] lies in pages that are in use and are not tables. *)
Definition desc_safe (info : barium_boot_info_t) (root : Z) (k : kernel) (i : Z) : Prop :=
  forall b, desc_addr info i <= b < desc_addr info i + 32 ->
    owned k (b - b mod 4096) /\
    forall d v, (d <= 3)%nat -> tbl d (mem_of k) root v <> Some (b - b mod 4096).

Lemma read_desc_agree info i m m' :
  agree (desc_addr info i) (desc_addr info i + 32) m m' ->
  read_desc info i m' = read_desc info i m.
Proof.
  unfold read_desc. cbv zeta. set (a := desc_addr info i). intros Ha.
  by rewrite (ld32_agree _ _ _ _ a Ha), (ld64_agree _ _ _ _ (a + 8) Ha),
    (ld64_agree _ _ _ _ (a + 24) Ha) by lia.
Qed.

Lemma kept_desc info root n k k' i :
  kept root n k k' -> desc_safe info root k i ->
  desc_safe info root k' i /\ read_desc info i (mem_of k') = read_desc info i (mem_of k).
Proof.
  intros [_ _ O _ _ _ D] Hs. split.
  - intros b Hb. destruct (Hs b Hb) as [Ho Hn]. destruct (D _ Ho Hn). auto.
  - apply read_desc_agree. intros b Hb. destruct (Hs b Hb) as [Ho Hn]. destruct (D _ Ho Hn) as [Ha _].
    apply Ha. zdiv.
Qed.

Definition low_region (d : b_efi_mem_desc) : Prop :=
  0 <= d_physical_start d /\ d_physical_start d mod 4096 = 0 /\
  0 <= d_number_of_pages d /\ desc_end d <= 2 ^ 48.

(** The 2 MiB blocks the regions touch, one by one. *)
Definition region_blocks (ds : list b_efi_mem_desc) : Z :=
  foldr (fun d acc => blocks (d_physical_start d) (d_number_of_pages d) + acc) 0 ds.

Lemma desc_flags_ok d : 0 <= desc_flags d < 4096 /\ Z.odd (desc_flags d) = true.
Proof. unfold desc_flags. by case_match. Qed.

Lemma region_blocks_nonneg ds : Forall low_region ds -> 0 <= region_blocks ds.
Proof.
  induction 1 as [| d ds (? & ? & ? & ?) ? IH]; simpl; [lia |].
  pose proof (blocks_nonneg (d_physical_start d) (d_number_of_pages d)). lia.
Qed.

(** Page [q] of a region, page 0 apart, which the loop skips. *)
Definition in_map (ds : list b_efi_mem_desc) (q : Z) : Prop :=
  q <> 0 /\ exists d, d ∈ ds /\ desc_page d <= q < desc_page d + d_number_of_pages d.

Lemma in_map_low ds q : Forall low_region ds -> in_map ds q -> low_page (q * 4096).
Proof.
  intros Hl (? & d & Hd & Hq). rewrite Forall_forall in Hl.
  destruct (Hl d Hd) as (? & ? & ? & ?). unfold desc_page, desc_end in *.
  split; [apply Z.mod_mul; lia | zdiv].
Qed.

Lemma map_regions_spec info root : forall ds k i,
  inv k -> tree (mem_of k) root (owned k) -> map_holds info i (mem_of k) ds ->
  Forall low_region ds -> (forall j, (j < length ds)%nat -> desc_safe info root k (i + Z.of_nat j)) ->
  3 * region_blocks ds < avail k ->
  exists k', map_regions (length ds) info i root k = Ret tt k' /\
    kept root (3 * region_blocks ds) k k' /\
    forall q, in_map ds q -> idmap (mem_of k') root (q * 4096).
Proof.
  induction ds as [| d ds IH]; intros k i HI Ht Hm Hl Hs Hav.
  { exists k. split; [done |]. split; [by apply kept_refl |]. intros q (_ & d & Hd & _).
    by apply elem_of_nil in Hd. }
  destruct (map_holds_cons _ _ _ _ _ Hm) as [Hd Hm'].
  apply Forall_cons in Hl as [(H0 & Hal & Hn & He) Hl]. pose proof (region_blocks_nonneg ds Hl).
  destruct (desc_flags_ok d) as [Hf1 Hf2]. unfold desc_end in He. simpl in Hav.
  cbn [length map_regions]. rewrite bind_gets, Hd.
  assert (Hbytes : desc_bytes d / 4096 = d_number_of_pages d).
  { unfold desc_bytes. rewrite u64_small by lia. apply Z.div_mul. lia. }
  rewrite Hbytes.
  destruct (map_pages_spec root (desc_flags d) true Hf1 Hf2 (Z.to_nat (d_number_of_pages d)) k
              (d_physical_start d)) as (k1 & E1 & K1 & Hid1); rewrite ?Z2Nat.id by done; try done; try lia.
  rewrite (bind_ret _ _ _ _ _ E1). rewrite Z2Nat.id in K1, Hid1 by done.
  destruct (IH k1 (i + 1)) as (k2 & E2 & K2 & Hid2); try done;
    [apply K1 | apply K1 | | | pose proof (kp_avail _ _ _ _ K1); lia |].
  - intros j d' Hj. rewrite <- (Hm' j d' Hj). apply (kept_desc info root _ k k1 _ K1).
    replace (i + 1 + Z.of_nat j) with (i + Z.of_nat (S j)) by lia. apply Hs.
    apply lookup_lt_Some in Hj. simpl. lia.
  - intros j Hj. apply (kept_desc info root _ k k1 _ K1).
    replace (i + 1 + Z.of_nat j) with (i + Z.of_nat (S j)) by lia. apply Hs. simpl. lia.
  - exists k2. split; [exact E2 |]. split.
    { simpl. replace (3 * (blocks (d_physical_start d) (d_number_of_pages d) + region_blocks ds))
        with (3 * blocks (d_physical_start d) (d_number_of_pages d) + 3 * region_blocks ds) by lia. by eapply kept_trans. }
    intros q (Hq0 & d' & Hd' & Hq). apply elem_of_cons in Hd' as [-> | Hd'].
    + unfold desc_page in Hq.
      assert (Heq : q * 4096 = d_physical_start d + 4096 * (q - d_physical_start d / 4096))
        by (pose proof (Z.div_mod (d_physical_start d) 4096); lia).
      apply (kp_id _ _ _ _ K2); [split; [apply Z.mod_mul; lia | zdiv] |].
      rewrite Heq. apply Hid1; [lia |]. simpl. apply Z.eqb_neq. lia.
    + apply Hid2. split; [done |]. by exists d'.
Qed.

(** A zeroed root has no tables below it. *)
Lemma tree_empty m root (P : Z -> Prop) :
  P root -> (forall i, 0 <= i < 512 -> ld64 m (root + 8 * i) = 0) ->
  tree m root P /\ forall d v t, tbl d m root v = Some t -> t = root.
Proof.
  intros HP Hz.
  assert (H1 : forall v, tbl 1 m root v = None).
  { intros v. simpl. rewrite Hz by apply table_index_range. done. }
  assert (Hall : forall d v t, tbl d m root v = Some t -> d = 0%nat /\ t = root).
  { intros [| d] v t E; [by injection E |].
    rewrite (tbl_None 1 (S d)) in E; [done | lia | apply H1]. }
  split; [constructor |].
  - intros d v t _ E. apply Hall in E as [_ ->]. done.
  - intros d1 d2 v1 v2 t _ _ [-> _]%Hall [-> _]%Hall. done.
  - intros d v t E. by destruct (Hall d v t E).
Qed.

(** The root as vmm_init makes it: allocated, recorded, zeroed. *)
Lemma fresh_root k :
  inv k -> 1 < avail k ->
  exists a k1, pmm_alloc 1 k = Ret a k1 /\
    let k2 := set_mem (b_memset (mem_of k1) a 0 4096) (k1 <| kernel_pml4 := a |>) in
    inv k2 /\ avail k2 = avail k - 1 /\ (forall p, owned k p -> owned k2 p) /\
    (forall p, owned k p -> agree p (p + 4096) (mem_of k) (mem_of k2)) /\
    tree (mem_of k2) a (owned k2) /\
    (forall p, owned k p -> forall d v, tbl d (mem_of k2) a v <> Some p).
Proof.
  intros HI Hav. destruct (alloc_zeroed k HI Hav) as (a & k1 & Hal & [I Pg Fr O Sub Av Pm Ag Ze]).
  exists a, k1. split; [exact Hal |]. intros k2.
  set (k2' := set_mem (b_memset (mem_of k1) a 0 4096) k1) in *.
  destruct (pa_rest k2' k2 eq_refl eq_refl I) as (I2 & Av2 & O2).
  change (mem_of k2) with (mem_of k2').
  destruct (tree_empty (mem_of k2') a (owned k2)) as [Ht Hr]; [by apply O2 | exact Ze |].
  split_and!; try done; [lia | intros; by apply O2, Sub |].
  intros p Hp d v E. apply Hr in E as ->. done.
Qed.
End map.

Lemma pmm_ok_vmm_switch k a k' :
  vmm_switch a k = Ret tt k' -> pmm k' = pmm k /\ mem_of k' = mem_of k /\
  hw_cr3 (hw k') = a /\ kernel_pml4 k' = kernel_pml4 k.
Proof. by intros [= <-]. Qed.

(** ** Theorems *)

(** C9: vmm_map on a page-table tree, with more than three pages free, returns
    with the tree and the page allocator well formed; vmm_get_phys then answers
    the mapped page for every address of the page of [virt], and what it
    answered before for every other address of the 48-bit space; the entry that
    translates the page holds [flags], and the entries of all other pages keep
    address and permissions.  Pages in use that are not tables keep their
    contents. *)
Theorem vmm_map_correct k root virt phys flags :
  pmm_inv k -> pmm_lock (pmm k) = 0 -> tree (mem_of k) root (pmm_owned k) ->
  3 < free_pages (pmm k) -> is_u64 phys -> 0 <= flags < 4096 -> Z.odd flags = true ->
  exists k', vmm_map root virt phys flags k = Ret tt k' /\
    pmm_inv k' /\ pmm_lock (pmm k') = 0 /\ tree (mem_of k') root (pmm_owned k') /\
    (forall v, vmm_get_phys root v (mem_of k') =
       if vpage v =? vpage virt then phys - phys mod 4096 else vmm_get_phys root v (mem_of k)) /\
    (forall v, pte (mem_of k') root v =
       if vpage v =? vpage virt then Some (Z.lor (phys - phys mod 4096) flags) else pte (mem_of k) root v) /\
    (forall p, pmm_owned k p -> (forall d v, (d <= 3)%nat -> tbl d (mem_of k) root v <> Some p) ->
       agree p (p + 4096) (mem_of k) (mem_of k')).
Proof.
  intros HI Hl Ht Hav Hph Hfl Hodd.
  destruct (vmm_map_spec k root virt phys flags (conj HI Hl) Ht Hav Hph Hfl Hodd)
    as (k' & E & [[I L] R O V M F D G]).
  exists k'. split_and!; try done.
  - intros v. rewrite !vmm_get_phys_tbl, F, same_path_vpage, Z.eqb_sym.
    destruct (vpage v =? vpage virt); [simpl; by apply page_mask_eq | done].
  - intros v. rewrite G, same_path_vpage, Z.eqb_sym.
    destruct (vpage v =? vpage virt); [by rewrite page_mask_eq | done].
  - intros p Hp Hn. by destruct (D p Hp Hn).
Qed.

(** C14: vmm_init on a firmware map whose regions lie below 2^48 and whose
    descriptors lie in pages in use, with a page-aligned framebuffer below 2^48,
    returns with the new root in cr3, a well-formed tree and page allocator, and
    every page of the map (page 0 apart) and of the framebuffer mapped onto
    itself.  The free pages needed for tables are three for each 2 MiB block that
    a region or the framebuffer touches, and one for the root. *)
Theorem vmm_init_identity info k ds :
  pmm_inv k -> pmm_lock (pmm k) = 0 -> descriptor_size info <> 0 ->
  length ds = Z.to_nat (memory_map_size info / descriptor_size info) ->
  map_holds info 0 (mem_of k) ds -> Forall low_region ds ->
  (forall j b, (j < length ds)%nat ->
     desc_addr info (Z.of_nat j) <= b < desc_addr info (Z.of_nat j) + 32 ->
     pmm_owned k (b - b mod 4096)) ->
  let fb_pages := (framebuffer_size info + 4095) / 4096 in
  framebuffer_base info mod 4096 = 0 -> 0 <= framebuffer_base info -> 0 <= framebuffer_size info ->
  framebuffer_base info + 4096 * fb_pages <= 2 ^ 48 ->
  3 * region_blocks ds + 3 * blocks (framebuffer_base info) fb_pages + 1 < free_pages (pmm k) ->
  exists k', vmm_init info k = Ret tt k' /\
    pmm_inv k' /\ pmm_lock (pmm k') = 0 /\ hw_cr3 (hw k') = kernel_pml4 k' /\
    tree (mem_of k') (kernel_pml4 k') (pmm_owned k') /\
    (forall q, in_map ds q -> vmm_get_phys (kernel_pml4 k') (q * 4096) (mem_of k') = q * 4096) /\
    (forall i, 0 <= i < fb_pages ->
       vmm_get_phys (kernel_pml4 k') (framebuffer_base info + 4096 * i) (mem_of k') =
       framebuffer_base info + 4096 * i).
Proof.
  intros HI Hl Hds Hcnt Hm Hlow Hsafe fb_pages Hfb0 Hfb1 Hfs Hfb2 Hav.
  pose proof (region_blocks_nonneg ds Hlow). assert (0 <= fb_pages) by (unfold fb_pages; zdiv).
  pose proof (blocks_nonneg (framebuffer_base info) fb_pages ltac:(done)).
  destruct (fresh_root (avail := pmm_avail) k (conj HI Hl) ltac:(unfold pmm_avail; lia)) as (root & k1 & Hal & Hfr).
  unfold vmm_init. rewrite (bind_ret _ _ _ _ _ Hal), !bind_modify.
  change (mem_of (k1 <| kernel_pml4 := root |>)) with (mem_of k1).
  cbv zeta in Hfr. set (k2 := set_mem _ _) in *. destruct Hfr as (I2 & Av2 & O2 & Ag2 & T2 & N2).
  apply Z.eqb_neq in Hds. rewrite Hds, <- Hcnt.
  destruct (map_regions_spec info root ds k2 0 I2 T2) as (k3 & E3 & K3 & Hid3);
    [| exact Hlow | | unfold pmm_avail in *; lia |].
  { intros j d Hj. rewrite <- (Hm j d Hj). apply read_desc_agree. intros b Hb.
    apply lookup_lt_Some in Hj. specialize (Hsafe j b Hj Hb). apply (Ag2 _ Hsafe). zdiv. }
  { intros j Hj b Hb. specialize (Hsafe j b Hj Hb). auto. }
  rewrite (bind_ret _ _ _ _ _ E3).
  destruct (map_pages_spec root 31 false ltac:(lia) eq_refl (Z.to_nat fb_pages) k3 (framebuffer_base info))
    as (k4 & E4 & K4 & Hid4); rewrite ?Z2Nat.id by done; try lia; [apply K3 | apply K3 | pose proof (kp_avail _ _ _ _ K3); unfold pmm_avail in *; lia |].
  rewrite Z2Nat.id in Hid4 by done.
  change (Z.lor _ PAGE_USER) with 31. rewrite (bind_ret _ _ _ _ _ E4).
  eexists. split; [reflexivity |].
  assert (Hroot : kernel_pml4 k4 = root) by (rewrite (kp_pml4 _ _ _ _ K4), (kp_pml4 _ _ _ _ K3); done).
  change (kernel_pml4 (over _ k4)) with (kernel_pml4 k4). change (mem_of (over _ k4)) with (mem_of k4).
  rewrite Hroot.
  set (k5 := over _ k4).
  destruct (pa_rest k4 k5 eq_refl eq_refl (kp_inv _ _ _ _ K4)) as ([I5 L5] & _ & O5).
  split_and!; try done.
  - apply (tree_mono _ _ _ _ (kp_tree _ _ _ _ K4)). intros p. apply O5.
  - intros q Hq. rewrite vmm_get_phys_tbl.
    by rewrite (kp_id _ _ _ _ K4 _ (in_map_low ds q Hlow Hq) (Hid3 q Hq)).
  - intros i Hi. rewrite vmm_get_phys_tbl. by rewrite Hid4.
Qed.

(** *** A concrete machine *)

(** 2048 pages; pages 0, 1 and 5 and the bitmap's page 2040 are in use. *)
Definition vmm_machine : kernel :=
  let m := st8 (st8 ∅ (2040 * 4096) 0x23) (2040 * 4096 + 255) 1 in
  (initial_kernel (plain_hw m)) <| pmm := Pmm (2040 * 4096) 2048 2048 2044 0 (2048 * 4096) 0 |>.

Lemma vmm_machine_inv : pmm_inv vmm_machine.
Proof.
  constructor; [by constructor | done | by vm_compute | | by vm_compute].
  intros b Hb. change (2040 * 4096 <= b < 2040 * 4096 + 256) in Hb.
  assert (b / 4096 = 2040) as -> by zdiv. by vm_compute.
Qed.

Lemma vmm_machine_owned p : p = 0x1000 \/ p = 0x5000 -> pmm_owned vmm_machine p.
Proof.
  assert (Hbm : forall b, bitmap (pmm vmm_machine) <= b < bitmap (pmm vmm_machine) + (total_pages (pmm vmm_machine) + 7) / 8 ->
    b / 4096 = 2040).
  { intros b Hb. change (2040 * 4096 <= b < 2040 * 4096 + 256) in Hb. zdiv. }
  intros [-> | ->]; (constructor; [done | done | done | reflexivity |]); intros b Hb; by rewrite (Hbm b Hb).
Qed.

Lemma two_regions_array j b :
  (j < 2)%nat ->
  desc_addr two_regions_info (Z.of_nat j) <= b < desc_addr two_regions_info (Z.of_nat j) + 32 ->
  0x5000 <= b < 0x5050.
Proof.
  intros Hj. destruct j as [| [| j]]; [| | lia].
  - change (0x5000 <= b < 0x5000 + 32 -> 0x5000 <= b < 0x5050). lia.
  - change (0x5030 <= b < 0x5030 + 32 -> 0x5000 <= b < 0x5050). lia.
Qed.

(** The allocator that pmm_init builds from the map of two regions (100 pages
    from 1 MiB, 16 MiB from 16 MiB) has the pages vmm_init needs for that map. *)
Lemma two_regions_allocator :
  exists k, pmm_init two_regions_info (initial_kernel (plain_hw two_regions_mem)) = Ret tt k /\
    pmm_inv k /\ pmm_lock (pmm k) = 0 /\ map_holds two_regions_info 0 (mem_of k) two_regions /\
    pmm_owned k 0x5000 /\ 64 <= free_pages (pmm k).
Proof.
  destruct (pmm_init_state two_regions_info (initial_kernel (plain_hw two_regions_mem)) two_regions
    two_regions_map eq_refl ltac:(vm_compute; discriminate) ltac:(by vm_compute))
    as (k & H & I & T & B & L & A & U).
  exists k. split; [exact H |]. split; [exact I |]. split; [by rewrite L |].
  assert (T' : total_pages (pmm k) = 8192) by (rewrite T; by vm_compute).
  assert (B' : bitmap (pmm k) = 0x1000000) by (rewrite B; by vm_compute).
  rewrite T', B' in A, U. split; [| split].
  - intros j d Hd. rewrite <- (fm_holds _ _ _ two_regions_map j d Hd). apply read_desc_agree.
    intros b Hb%two_regions_array; [apply A; lia | by apply lookup_lt_Some in Hd].
  - assert (U5 : used k 5 = true) by (rewrite U by lia; reflexivity).
    constructor; [reflexivity | lia | rewrite T'; split; [reflexivity | lia] | exact U5 |].
    intros b Hb. rewrite B', T' in Hb. clear - Hb. zdiv.
  - pose proof (count_free_window 64 (Z.to_nat 8192) (used k) 5000 ltac:(lia) ltac:(lia)) as C.
    rewrite (inv_count _ I), T'. pose proof (count_free_bounds (Z.to_nat 8192) (fun q => in_window 5000 (Z.of_nat 64) q || used k q)).
    rewrite C in H0; [lia |]. intros q Hq. rewrite U by lia.
    assert (Hr : in_regions two_regions q = true).
    { apply existsb_exists. exists (MemDesc 7 0x1000000 4096). split; [by right; left |].
      change (true && in_window 4096 4096 q = true). apply in_window_spec. lia. }
    assert (Hw : in_window 4096 1 q = false) by (apply not_true_is_false; rewrite in_window_spec; lia).
    rewrite Hr. change (in_window _ _ q) with (in_window 4096 1 q). rewrite Hw.
    change LOW_PAGES with 4096. by destruct (Z.ltb_spec q 4096); [lia |].
Qed.

Lemma vmm_init_identity_witness :
  exists k k', pmm_init two_regions_info (initial_kernel (plain_hw two_regions_mem)) = Ret tt k /\
    vmm_init two_regions_info k = Ret tt k' /\
    vmm_get_phys (kernel_pml4 k') (0x1101 * 4096) (mem_of k') = 0x1101 * 4096.
Proof.
  destruct two_regions_allocator as (k & Hk & HI & Hl & Hm & Ho & Hf).
  assert (Hs : forall j b, (j < 2)%nat ->
    desc_addr two_regions_info (Z.of_nat j) <= b < desc_addr two_regions_info (Z.of_nat j) + 32 ->
    pmm_owned k (b - b mod 4096)).
  { intros j b Hj Hb%two_regions_array; [| done].
    replace (b - b mod 4096) with 0x5000 by zdiv. exact Ho. }
  assert (Hlow : Forall low_region two_regions).
  { unfold two_regions. apply Forall_cons. split; [unfold low_region, desc_end; simpl; split_and!; lia || reflexivity |].
    apply Forall_cons. split; [unfold low_region, desc_end; simpl; split_and!; lia || reflexivity | constructor]. }
  assert (Hav : 3 * region_blocks two_regions + 3 * blocks 0 0 + 1 < free_pages (pmm k)).
  { eapply Z.lt_le_trans; [| exact Hf]. by vm_compute. }
  destruct (vmm_init_identity two_regions_info k two_regions HI Hl ltac:(discriminate) eq_refl Hm
      Hlow Hs eq_refl ltac:(by simpl) ltac:(by simpl) ltac:(by vm_compute) Hav)
    as (k' & E & _ & _ & _ & _ & Hid & _).
  exists k, k'. split; [exact Hk |]. split; [exact E |]. apply Hid. split; [lia |].
  exists (MemDesc 7 0x1000000 4096). split; [right; constructor |]. change (0x1000 <= 0x1101 < 0x2000). lia.
Defined.

(** The same machine with an empty root table at page 1. *)
Definition vmm_empty_root : kernel :=
  set_mem (b_memset (mem_of vmm_machine) 0x1000 0 4096) vmm_machine.

Lemma vmm_empty_root_ok :
  pmm_inv vmm_empty_root /\ tree (mem_of vmm_empty_root) 0x1000 (pmm_owned vmm_empty_root).
Proof.
  destruct (pa_write vmm_machine 0x1000 (mem_of vmm_empty_root)
    (conj vmm_machine_inv eq_refl) (vmm_machine_owned 0x1000 ltac:(by left))) as ([HI _] & _ & Ho);
    [apply b_memset_agree_out; lia |].
  split; [exact HI |].
  apply (tree_empty (mem_of vmm_empty_root) 0x1000 (pmm_owned vmm_empty_root));
    [apply Ho, vmm_machine_owned; by left | intros; apply ld64_b_memset_0; lia].
Qed.

Lemma vmm_map_correct_witness :
  exists k', vmm_map 0x1000 0xDEADBEEF000 0x300000 3 vmm_empty_root = Ret tt k' /\
    vmm_get_phys 0x1000 0xDEADBEEF123 (mem_of k') = 0x300000.
Proof.
  destruct vmm_empty_root_ok as [HI Ht].
  destruct (vmm_map_correct vmm_empty_root 0x1000 0xDEADBEEF000 0x300000 3 HI eq_refl Ht
      ltac:(by vm_compute) ltac:(unfold is_u64; lia) ltac:(lia) eq_refl)
    as (k' & E & _ & _ & _ & Hph & _).
  exists k'. split; [exact E |]. by rewrite Hph.
Defined.
