(* ===== verification/Ring.v ===== *)
(** Circular buffers.

    keyboard.c and alpc.c keep a queue in an array of [n] slots with a read and
    a write index that advance modulo [n]; one slot stays empty so that equal
    indices mean an empty queue.  The contents of such a buffer, as a list, and
    what putting and taking an element does to it. *)

From S2P Require Import Prelude.

Definition ring_next (n i : Z) : Z := u32 (i + 1) mod n.
Definition ring_len (n r w : Z) : Z := (w - r) mod n.

(** The elements from the read index [r] up to the write index [w]. *)
Definition ring {A} (get : Z -> A) (n r w : Z) : list A :=
  (fun i : nat => get ((r + Z.of_nat i) mod n)) <$> seq 0 (Z.to_nat (ring_len n r w)).

Record ring_ok (n r w : Z) : Prop := {
  ro_size : 0 < n < 2 ^ 32;
  ro_read : 0 <= r < n;
  ro_write : 0 <= w < n
}.

Lemma ring_len_eq n r w :
  ring_ok n r w -> ring_len n r w = if r <=? w then w - r else w - r + n.
Proof.
  intros [? ? ?]. unfold ring_len. destruct (Z.leb_spec r w).
  - apply Z.mod_small. lia.
  - symmetry. apply (Z.mod_unique _ _ (-1)); lia.
Qed.

Lemma wrap_eq n r i : 0 <= r < n -> 0 <= i <= n -> (r + i) mod n = if r + i <? n then r + i else r + i - n.
Proof.
  intros. destruct (Z.ltb_spec (r + i) n).
  - apply Z.mod_small. lia.
  - symmetry. apply (Z.mod_unique _ _ 1); lia.
Qed.

Lemma ring_next_eq n i : 0 < n < 2 ^ 32 -> 0 <= i < n -> ring_next n i = if i + 1 <? n then i + 1 else 0.
Proof.
  intros. unfold ring_next. rewrite u32_small by lia. rewrite wrap_eq by lia.
  destruct (Z.ltb_spec (i + 1) n); lia.
Qed.

Lemma ring_next_ok n r w : ring_ok n r w -> ring_ok n r (ring_next n w) /\ ring_ok n (ring_next n r) w.
Proof.
  intros []. rewrite !ring_next_eq by lia.
  split; constructor; try lia; case_match; zbool; lia.
Qed.

Lemma ring_length {A} (get : Z -> A) n r w :
  ring_ok n r w -> Z.of_nat (length (ring get n r w)) = ring_len n r w.
Proof.
  intros H. unfold ring. rewrite length_fmap, length_seq. rewrite ring_len_eq by done.
  destruct H. case_match; zbool; lia.
Qed.

(** Equal indices: empty.  Write index just behind the read index: full. *)
Lemma ring_empty {A} (get : Z -> A) n r w : ring_ok n r w -> ring get n r w = [] <-> r = w.
Proof.
  intros H.
  pose proof (ring_length get n r w H) as Hl. rewrite ring_len_eq in Hl by done. destruct H. split.
  - intros E. rewrite E in Hl. simpl in Hl. case_match; zbool; lia.
  - intros ->. rewrite Z.leb_refl in Hl. destruct (ring get n w w); [done |]. simpl in Hl. lia.
Qed.

Lemma ring_full n r w : ring_ok n r w -> ring_next n w = r <-> ring_len n r w = n - 1.
Proof.
  intros H. rewrite ring_len_eq by done. destruct H. rewrite ring_next_eq by lia.
  split; intros; repeat case_match; zbool; lia.
Qed.

Lemma ring_ext {A} (get get' : Z -> A) n r w :
  ring_ok n r w -> (forall i, 0 <= i < n -> i <> w -> get' i = get i) ->
  ring get' n r w = ring get n r w.
Proof.
  intros H Hg. unfold ring. apply list_fmap_ext. intros j i Hi.
  apply lookup_seq in Hi as [-> Hi]. rewrite ring_len_eq in Hi by done. destruct H.
  rewrite wrap_eq by (repeat case_match; zbool; lia).
  apply Hg; repeat case_match; zbool; lia.
Qed.

(** Putting [x] at the write index of a buffer that is not full. *)
Lemma ring_put {A} (get get' : Z -> A) n r w :
  ring_ok n r w -> ring_next n w <> r ->
  (forall i, 0 <= i < n -> i <> w -> get' i = get i) ->
  ring get' n r (ring_next n w) = ring get n r w ++ [get' w].
Proof.
  intros H Hf Hg. pose proof (ring_next_ok _ _ _ H) as [H' _].
  rewrite <- (ring_ext get get' n r w) by done. unfold ring.
  pose proof (ring_full _ _ _ H). pose proof (ring_len_eq _ _ _ H) as E. pose proof (ring_len_eq _ _ _ H') as E'.
  destruct H. rewrite ring_next_eq in * by lia.
  assert (Hlen : ring_len n r (if w + 1 <? n then w + 1 else 0) = ring_len n r w + 1).
  { rewrite E, E'. repeat case_match; zbool; lia. }
  rewrite Hlen. replace (Z.to_nat (ring_len n r w + 1)) with (S (Z.to_nat (ring_len n r w)))
    by (rewrite ?E; repeat case_match; zbool; lia).
  rewrite seq_S, fmap_app. f_equal. simpl. f_equal. f_equal.
  rewrite wrap_eq by (rewrite ?E; repeat case_match; zbool; lia).
  rewrite E. repeat case_match; zbool; lia.
Qed.

(** Taking the element at the read index of a buffer that is not empty. *)
Lemma ring_take {A} (get : Z -> A) n r w :
  ring_ok n r w -> r <> w -> ring get n r w = get r :: ring get n (ring_next n r) w.
Proof.
  intros H Hne. pose proof (ring_next_ok _ _ _ H) as [_ H'].
  pose proof (ring_len_eq _ _ _ H) as E. pose proof (ring_len_eq _ _ _ H') as E'.
  destruct H. rewrite ring_next_eq in * by lia. unfold ring.
  assert (Hlen : ring_len n r w = ring_len n (if r + 1 <? n then r + 1 else 0) w + 1).
  { rewrite E, E'. repeat case_match; zbool; lia. }
  replace (Z.to_nat (ring_len n r w)) with (S (Z.to_nat (ring_len n (if r + 1 <? n then r + 1 else 0) w)))
    by (rewrite Hlen, E'; repeat case_match; zbool; lia).
  cbn [seq fmap list_fmap]. f_equal.
  - f_equal. rewrite Z.add_0_r. apply Z.mod_small. lia.
  - change (S 0) with 1%nat. rewrite <- (fmap_S_seq 0), <- list_fmap_compose. apply list_fmap_ext. intros j i Hi.
    apply lookup_seq in Hi as [-> Hi]. simpl. f_equal.
    rewrite E' in Hi. rewrite !wrap_eq by (repeat case_match; zbool; lia).
    repeat case_match; zbool; lia.
Qed.
