(* ===== verification/Keyboard.v ===== *)
(** keyboard.c: the PS/2 keyboard and its character buffer.

    The interrupt handler writes at [kbd_head], the reader takes from
    [kbd_tail].  The theorems relate the buffer to the list of characters it
    holds. *)

From S2P Require Import Prelude Memory State Lib Ring.

Definition KBD_SIZE : Z := 128.

(** The characters of the scan codes; 27 is escape, 8 backspace, 9 tab, 10
    newline, 39 the quote and 92 the backslash; 0 means no character. *)
Definition scancode_table : list Z :=
  [0; 27] ++ chars "1234567890-=" ++ [8; 9] ++ chars "qwertyuiop[]" ++ [10; 0] ++
  chars "asdfghjkl;'`" ++ [0; 92] ++ chars "zxcvbnm,./" ++ [0; 42; 0; 32].

Definition kbd_lock_ref : spinlock_ref := {|
  lk_get := fun k => Some (kbd_lock (kbd k));
  lk_set := fun v k => k <| kbd ::= fun b => b <| kbd_lock := v |> |>
|}.

(** The loop that drains the controller: at most 1000 bytes. *)
Fixpoint drain (n : nat) : M kernel unit :=
  match n with
  | O => mret tt
  | S n' =>
      st ← b_inb 0x64;
      if Z.land st 1 =? 0 then mret tt
      else _ ← b_inb 0x60; b_io_wait;; drain n'
  end.

Definition keyboard_init : M kernel unit :=
  modify (fun k => k <| kbd ::= fun b => b <| kbd_head := 0 |> <| kbd_tail := 0 |> <| kbd_lock := 0 |> |>);;
  drain 1000;;
  b_outb 0x64 0x20;;
  b_io_wait;;
  status ← b_inb 0x60;
  b_outb 0x64 0x60;;
  b_io_wait;;
  b_outb 0x60 (Z.lor status 0x01).

(** [kbd_buffer[kbd_head] = c] when there is room. *)
Definition kbd_put (c : Z) : M kernel unit := fun k =>
  let b := kbd k in
  let next := u32 (kbd_head b + 1) mod KBD_SIZE in
  if negb (next =? kbd_tail b) then
    if (0 <=? kbd_head b) && (kbd_head b <? KBD_SIZE) then
      Ret tt (k <| kbd ::= fun b => b <| kbd_buffer ::= <[Z.to_nat (kbd_head b) := c]> |>
                                       <| kbd_head := next |> |>)
    else Fault
  else Ret tt k.

Definition keyboard_handler : M kernel unit :=
  scancode ← b_inb 0x60;
  match scancode_table !! Z.to_nat scancode with
  | None => mret tt
  | Some c =>
      when (negb (c =? 0)) (
        flags ← b_irq_save;
        spin_lock kbd_lock_ref;;
        kbd_put c;;
        spin_unlock kbd_lock_ref;;
        b_irq_restore flags)
  end.

Definition keyboard_get_char : M kernel Z :=
  flags ← b_irq_save;
  spin_lock kbd_lock_ref;;
  b ← gets kbd;
  if kbd_head b =? kbd_tail b then
    spin_unlock kbd_lock_ref;;
    b_irq_restore flags;;
    mret 0
  else
    c ← from_option (kbd_buffer b !! Z.to_nat (kbd_tail b));
    modify (fun k => k <| kbd ::= fun b => b <| kbd_tail := u32 (kbd_tail b + 1) mod KBD_SIZE |> |>);;
    spin_unlock kbd_lock_ref;;
    b_irq_restore flags;;
    mret c.

(** ** The buffer as a queue *)

Record kbd_ok (b : kbd_t) : Prop := {
  kb_len : length (kbd_buffer b) = 128%nat;
  kb_ring : ring_ok KBD_SIZE (kbd_tail b) (kbd_head b);
  kb_lock : kbd_lock b = 0
}.

(** The characters waiting to be read, oldest first. *)
Definition kbd_chars (b : kbd_t) : list Z :=
  ring (fun i => kbd_buffer b !!! Z.to_nat i) KBD_SIZE (kbd_tail b) (kbd_head b).

(** What the handler does with character [c] on a queue [q]: the queue holds at
    most 127 characters, the rest are dropped. *)
Definition enqueue (c : Z) (q : list Z) : list Z :=
  if Z.of_nat (length q) <? KBD_SIZE - 1 then q ++ [c] else q.

Definition scan_char (s : Z) : Z := default 0 (scancode_table !! Z.to_nat s).

Lemma kbd_put_spec k c :
  kbd_ok (kbd k) ->
  exists b, kbd_put c k = Ret tt (k <| kbd := b |>) /\ kbd_ok b /\
    kbd_chars b = enqueue c (kbd_chars (kbd k)).
Proof.
  destruct k as [? ? ? ? ? [buf h t l] ? ? ? ? ?]. intros [Hl Hr Hlk]. simpl in *.
  pose proof (ring_full _ _ _ Hr) as Hfull.
  pose proof (ring_length (fun i => buf !!! Z.to_nat i) _ _ _ Hr) as Hlen.
  pose proof (ring_next_ok _ _ _ Hr) as [Hr' _]. destruct (ro_write _ _ _ Hr).
  unfold kbd_put, enqueue, kbd_chars. simpl. fold (ring_next KBD_SIZE h). rewrite Hlen.
  destruct (Z.eqb_spec (ring_next KBD_SIZE h) t) as [E | E]; simpl.
  - exists (Kbd buf h t l). split; [done |]. split; [done |]. apply Hfull in E. rewrite E, Z.ltb_irrefl. done.
  - destruct (Z.leb_spec 0 h); [| lia]. destruct (Z.ltb_spec h KBD_SIZE); [| lia]. simpl.
    eexists (Kbd _ _ _ _). split; [reflexivity |]. split; [constructor; simpl; [by rewrite length_insert | done | done] |].
    simpl. rewrite (ring_put (fun i => buf !!! Z.to_nat i)); [| done | done |].
    + rewrite list_lookup_total_insert_eq by (unfold KBD_SIZE in *; lia).
      destruct (Z.ltb_spec (ring_len KBD_SIZE t h) (KBD_SIZE - 1)); [done |].
      destruct E. apply Hfull. rewrite ring_len_eq in * by done. destruct (ro_read _ _ _ Hr).
      case_match; zbool; lia.
    + intros i Hi Hne. rewrite list_lookup_total_insert_ne; [done | lia].
Qed.

(** The interrupt handler reads one scan code; when it has a character, the
    character is appended to the waiting ones, unless 127 are waiting already;
    other codes change nothing.  The buffer stays well formed, with the lock
    released and the interrupt flag restored. *)
Lemma keyboard_handler_spec k :
  kbd_ok (kbd k) ->
  let s := u8 (hw_dev_in (hw k) (hw_in_pos (hw k)) 0x60) in
  exists b, keyboard_handler k = Ret tt ((port_read k) <| kbd := b |>) /\ kbd_ok b /\
    kbd_chars b = (if scan_char s =? 0 then kbd_chars (kbd k) else enqueue (scan_char s) (kbd_chars (kbd k))).
Proof.
  intros Hok s. unfold keyboard_handler. rewrite (bind_ret _ _ _ s (port_read k)) by done.
  assert (E0 : (port_read k) <| kbd := kbd k |> = port_read k) by (keta k).
  unfold scan_char. destruct (scancode_table !! Z.to_nat s) as [c |]; simpl; [| exists (kbd k); by rewrite E0].
  destruct (Z.eqb_spec c 0); simpl; [exists (kbd k); by rewrite E0 |].
  pose proof (kb_lock _ Hok) as Hl.
  rewrite bind_irq_save. rewrite bind_spin_lock by (simpl; congruence).
  set (k1 := lk_set kbd_lock_ref 1 _).
  destruct (kbd_put_spec (k1 <| kbd := kbd k |>) c Hok) as (b & E & Hb & Hc).
  assert (E1 : kbd_put c k1 = Ret tt (k1 <| kbd := b <| kbd_lock := 1 |> |>)).
  { destruct k as [[] ? ? ? ? [buf h t l] ? ? ? ? ?]. unfold kbd_put in *. simpl in *.
    repeat case_match; simplify_eq; done. }
  rewrite (bind_ret _ _ _ _ _ E1). erewrite bind_spin_unlock by reflexivity.
  exists b. split; [| done].
  assert (Eb : b <| kbd_lock := 1 |> <| kbd_lock := 0 |> = b) by (destruct b; destruct Hb; simpl in *; by subst).
  rewrite <- Eb. keta k.
Qed.

(** keyboard_get_char takes the oldest waiting character, or returns 0 and
    changes nothing when none is waiting. *)
Lemma keyboard_get_char_spec k :
  kbd_ok (kbd k) ->
  match kbd_chars (kbd k) with
  | [] => keyboard_get_char k = Ret 0 k
  | c :: q => exists k', keyboard_get_char k = Ret c k' /\ kbd_ok (kbd k') /\ kbd_chars (kbd k') = q /\
      hw k' = hw k /\ k' = k <| kbd := kbd k' |>
  end.
Proof.
  destruct k as [[] ? ? ? ? [buf h t l] ? ? ? ? ?]. intros [Hlen Hr Hlk]. simpl in *. subst l.
  pose proof (ring_next_ok _ _ _ Hr) as [_ Hr']. destruct (ro_read _ _ _ Hr).
  unfold keyboard_get_char. rewrite bind_irq_save. rewrite bind_spin_lock by done. rewrite bind_gets. simpl.
  unfold kbd_chars. simpl. destruct (Z.eqb_spec h t) as [-> | Hne].
  - rewrite (proj2 (ring_empty _ _ _ _ Hr)) by done. reflexivity.
  - rewrite ring_take by done.
    assert (Hlk : buf !! Z.to_nat t = Some (buf !!! Z.to_nat t)).
    { apply list_lookup_lookup_total_lt. unfold KBD_SIZE in *. lia. }
    rewrite Hlk. eexists. split; [reflexivity |]. simpl. split_and!; try done.
Qed.

(** Draining the controller only advances the device input and writes to the
    delay port. *)
Lemma drain_spec n : forall k, exists k', drain n k = Ret tt k' /\ kbd k' = kbd k /\
  exists l, hw_out (hw k') = hw_out (hw k) ++ l /\ Forall (fun w => w = (0x80, 0)) l.
Proof.
  induction n as [| n IH]; intros k; cbn [drain].
  - exists k. split; [done |]. split; [done |]. exists []. by rewrite app_nil_r.
  - kstep. case_match.
    + eexists. split; [reflexivity |]. split; [done |]. exists []. by rewrite app_nil_r.
    + do 2 kstep.
      match goal with |- context [drain n ?k1] => destruct (IH k1) as (k' & E & Hk & l & Ho & Hl) end.
      exists k'. split; [exact E |]. split; [by rewrite Hk |]. exists ((0x80, 0) :: l).
      rewrite Ho. simpl. rewrite <- app_assoc. split; [done |]. by apply Forall_cons.
Qed.

(** ** The keyboard as a bounded queue *)

Inductive kbd_event := Interrupt | GetChar.

(** Any sequence of interrupts and reads, with the characters the reads return. *)
Fixpoint run_kbd (evs : list kbd_event) : M kernel (list Z) :=
  match evs with
  | [] => mret []
  | Interrupt :: evs' => keyboard_handler;; run_kbd evs'
  | GetChar :: evs' => c ← keyboard_get_char; l ← run_kbd evs'; mret (c :: l)
  end.

(** The same on the list of waiting characters; [dev pos] delivers the scan
    codes. *)
Fixpoint queue_kbd (dev : nat -> Z -> Z) (pos : nat) (evs : list kbd_event) (q : list Z) : list Z :=
  match evs with
  | [] => []
  | Interrupt :: evs' =>
      let c := scan_char (u8 (dev pos 0x60)) in
      queue_kbd dev (S pos) evs' (if c =? 0 then q else enqueue c q)
  | GetChar :: evs' =>
      match q with
      | [] => 0 :: queue_kbd dev pos evs' []
      | c :: q' => c :: queue_kbd dev pos evs' q'
      end
  end.

(** ** Theorems *)

(** C15: however interrupts and reads interleave, the reads return what a queue
    of at most 127 characters returns: every typed character once, in the order
    typed, 0 when none is waiting, and characters are dropped only when 127 are
    waiting. *)
Theorem keyboard_refines_queue evs : forall k,
  kbd_ok (kbd k) ->
  exists k', run_kbd evs k =
      Ret (queue_kbd (hw_dev_in (hw k)) (hw_in_pos (hw k)) evs (kbd_chars (kbd k))) k' /\
    kbd_ok (kbd k').
Proof.
  induction evs as [| [] evs IH]; intros k Hok; cbn [run_kbd queue_kbd]; [by exists k | |].
  - destruct (keyboard_handler_spec k Hok) as (b & E & Hok1 & Hc).
    rewrite (bind_ret _ _ _ _ _ E), <- Hc. pose proof (IH ((port_read k) <| kbd := b |>)) as H. simpl in H. exact (H Hok1).
  - pose proof (keyboard_get_char_spec k Hok) as H. destruct (kbd_chars (kbd k)) as [| c q] eqn:Eq.
    + destruct (IH k Hok) as (k' & E' & Hok'). exists k'. split; [| done].
      rewrite (bind_ret _ _ _ _ _ H), (bind_ret _ _ _ _ _ E'), Eq. done.
    + destruct H as (k1 & E & Hok1 & Hc & Hh & _). destruct (IH k1 Hok1) as (k' & E' & Hok').
      exists k'. split; [| done]. rewrite (bind_ret _ _ _ _ _ E), (bind_ret _ _ _ _ _ E'), Hh, Hc. done.
Qed.

(** Typing "ls", newline on a fresh keyboard. *)
Definition typed_ls : kernel :=
  initial_kernel ((plain_hw ∅) <| hw_dev_in := fun n _ => default 0 ([0x26; 0x1F; 0x1C] !! n) |>).

Lemma initial_kbd_ok h : kbd_ok (kbd (initial_kernel h)).
Proof. by repeat constructor. Qed.

Lemma keyboard_refines_queue_witness :
  exists k', run_kbd [Interrupt; Interrupt; GetChar; Interrupt; GetChar; GetChar; GetChar] typed_ls =
    Ret (chars "ls" ++ [10; 0]) k'.
Proof.
  destruct (keyboard_refines_queue [Interrupt; Interrupt; GetChar; Interrupt; GetChar; GetChar; GetChar]
    typed_ls (initial_kbd_ok _)) as (k' & E & _).
  exists k'. exact E.
Defined.

(** keyboard_init returns whatever the controller answers, with an empty,
    unlocked buffer, and its last write sets bit 0 of the controller's
    configuration byte, which enables the keyboard interrupt. *)
Theorem keyboard_init_correct k :
  length (kbd_buffer (kbd k)) = 128%nat ->
  exists k' l status, keyboard_init k = Ret tt k' /\ kbd_ok (kbd k') /\ kbd_chars (kbd k') = [] /\
    hw_out (hw k') = l ++ [(0x60, status)] /\ Z.odd status = true.
Proof.
  intros Hlen. unfold keyboard_init. rewrite bind_modify.
  edestruct (drain_spec 1000) as (k1 & E & Hk & l & Ho & _).
  rewrite (bind_ret _ _ _ _ _ E). do 5 kstep.
  eexists _, _, _. split; [reflexivity |].
  assert (Hok : kbd_ok (kbd k1)) by (rewrite Hk; by repeat constructor).
  split; [exact Hok |]. split.
  - simpl. unfold kbd_chars. rewrite Hk. by apply ring_empty; [repeat constructor |].
  - simpl. split; [reflexivity |]. rewrite <- Z.bit0_odd.
    unfold u8. rewrite Z.mod_pow2_bits_low, Z.lor_spec by lia. apply orb_true_r.
Qed.

Lemma keyboard_init_correct_witness :
  exists k', keyboard_init (initial_kernel (plain_hw ∅)) = Ret tt k' /\ kbd_chars (kbd k') = [].
Proof.
  destruct (keyboard_init_correct (initial_kernel (plain_hw ∅)) eq_refl) as (k' & l & st & E & _ & Hc & _).
  exists k'. split; [exact E | exact Hc].
Defined.
