(* ===== verification/Apic.v ===== *)
(** apic.c: the local interrupt controller, its timer and the tick counter; and
    b_sleep of lib.c, which waits on that counter.

    Registers are a device: reads come from [hw_apic_in], writes are listed in
    [hw_apic_out].  Loops that wait for the device take fuel; the theorems say
    how much is enough in terms of what the device delivers. *)

From S2P Require Import Prelude Memory State Lib Console Pmm PmmInit Vmm.

Definition APIC_BASE : Z := 0xFEE00000.
Definition APIC_REG_ID : Z := 0x20.
Definition APIC_REG_EOI : Z := 0x0B0.
Definition APIC_REG_SPURIOUS : Z := 0x0F0.
Definition APIC_REG_LVT_TIMER : Z := 0x320.
Definition APIC_REG_TIMER_INIT : Z := 0x380.
Definition APIC_REG_TIMER_CURRENT : Z := 0x390.
Definition APIC_REG_TIMER_DIVIDE : Z := 0x3E0.
Definition APIC_REG_ICR_LOW : Z := 0x300.
Definition APIC_REG_ICR_HIGH : Z := 0x310.

Definition apic_addr (k : kernel) (reg : Z) : Z := apic_base (apic k) + 4 * (reg / 4).

Definition apic_write (reg val : Z) : M kernel unit :=
  modify (fun k => k <| hw ::= fun h =>
    h <| hw_apic_out ::= fun l => l ++ [(apic_addr k reg, u32 val)] |> |>).

Definition apic_read (reg : Z) : M kernel Z := fun k =>
  Ret (u32 (hw_apic_in (hw k) (hw_apic_pos (hw k)) (apic_addr k reg)))
      (k <| hw ::= fun h => h <| hw_apic_pos ::= S |> |>).

(** The calibration loop: read the interval timer's counter until it has
    wrapped. *)
Fixpoint pit_wait (fuel : nat) (last_pit : Z) : M kernel unit :=
  match fuel with
  | O => nofuel
  | S fuel' =>
      b_outb 0x43 0x00;;
      l ← b_inb 0x40;
      h ← b_inb 0x40;
      let pit := u16 (Z.lor (Z.shiftl h 8) l) in
      if last_pit <? pit then mret tt else pit_wait fuel' pit
  end.

Definition apic_init (fuel : nat) : M kernel unit :=
  pml4 ← gets vmm_get_kernel_pml4;
  vmm_map pml4 APIC_BASE APIC_BASE (Z.lor (Z.lor PAGE_PRESENT PAGE_WRITABLE) PAGE_PCD);;
  modify (fun k => k <| apic ::= fun a => a <| apic_base := APIC_BASE |> |>);;
  sp ← apic_read APIC_REG_SPURIOUS;
  apic_write APIC_REG_SPURIOUS (Z.lor sp 0x1FF);;
  apic_write APIC_REG_TIMER_DIVIDE 0x03;;
  apic_write APIC_REG_TIMER_INIT 0xFFFFFFFF;;
  b_outb 0x43 0x30;;
  b_outb 0x40 0x00;;
  b_outb 0x40 0x4E;;
  pit_wait fuel 0xFFFF;;
  current ← apic_read APIC_REG_TIMER_CURRENT;
  modify (fun k => k <| apic ::= fun a => a <| ticks_per_ms := (0xFFFFFFFF - current) / 10 |> |>);;
  apic_write APIC_REG_TIMER_INIT 0.

Definition apic_init_ap : M kernel unit :=
  sp ← apic_read APIC_REG_SPURIOUS;
  apic_write APIC_REG_SPURIOUS (Z.lor sp 0x1FF);;
  apic_write APIC_REG_LVT_TIMER (Z.lor 0x20 0x20000);;
  apic_write APIC_REG_TIMER_DIVIDE 0x03;;
  t ← gets (fun k => ticks_per_ms (apic k));
  apic_write APIC_REG_TIMER_INIT (u32 (t * 10)).

Definition apic_eoi : M kernel unit := apic_write APIC_REG_EOI 0.

Definition apic_send_ipi (lapic_id val : Z) : M kernel unit :=
  apic_write APIC_REG_ICR_HIGH (u32 (Z.shiftl lapic_id 24));;
  apic_write APIC_REG_ICR_LOW val.

Definition apic_get_id : M kernel Z :=
  v ← apic_read APIC_REG_ID;
  mret (Z.shiftr v 24).

(** [while (apic_read(APIC_REG_TIMER_CURRENT) > 0);] *)
Fixpoint timer_wait (fuel : nat) : M kernel unit :=
  match fuel with
  | O => nofuel
  | S fuel' =>
      c ← apic_read APIC_REG_TIMER_CURRENT;
      if 0 <? c then timer_wait fuel' else mret tt
  end.

Definition apic_delay_ms (fuel : nat) (ms : Z) : M kernel unit :=
  t ← gets (fun k => ticks_per_ms (apic k));
  apic_write APIC_REG_TIMER_INIT (u32 (t * ms));;
  timer_wait fuel.

Definition apic_timer_handler : M kernel unit :=
  modify (fun k => k <| apic ::= fun a => a <| global_ticks := u64 (global_ticks a + 1) |> |>);;
  apic_write APIC_REG_EOI 0.

Definition apic_get_ticks (k : kernel) : Z := global_ticks (apic k).

(** b_sleep: [ticks n] is the tick counter at the [n]-th time it is read, which
    interrupts advance while the loop runs; the result is the number of
    reads in the loop. *)
Fixpoint sleep_loop (fuel : nat) (ticks : nat -> Z) (n : nat) (target : Z) : option nat :=
  match fuel with
  | O => None
  | S fuel' => if ticks n <? target then sleep_loop fuel' ticks (S n) target else Some n
  end.

Definition b_sleep (fuel : nat) (ticks : nat -> Z) (ms : Z) : option nat :=
  let target := u64 (ticks O + ms / 10) in
  sleep_loop fuel ticks 1 target.

(** ** Lemmas *)

Definition apic_logged (reg val : Z) (k : kernel) : kernel :=
  k <| hw ::= fun h => h <| hw_apic_out ::= fun l => l ++ [(apic_addr k reg, u32 val)] |> |>.
Definition apic_polled (k : kernel) : kernel := k <| hw ::= fun h => h <| hw_apic_pos ::= S |> |>.

Lemma bind_apic_write {B} reg val (f : unit -> M kernel B) k :
  (apic_write reg val ≫= f) k = f tt (apic_logged reg val k).
Proof. done. Qed.

Lemma bind_apic_read {B} reg (f : Z -> M kernel B) k :
  (apic_read reg ≫= f) k =
  f (u32 (hw_apic_in (hw k) (hw_apic_pos (hw k)) (apic_addr k reg))) (apic_polled k).
Proof. done. Qed.

(** The counter value the [n]-th poll of the interval timer sees. *)
Definition pit_at (k : kernel) (n : nat) : Z :=
  let d := fun i => u8 (hw_dev_in (hw k) (hw_in_pos (hw k) + i) 0x40) in
  u16 (Z.lor (Z.shiftl (d (2 * n + 1)%nat) 8) (d (2 * n)%nat)).

Definition pit_before (last : Z) (k : kernel) (n : nat) : Z :=
  match n with O => last | S j => pit_at k j end.

(** The calibration loop ends at the first poll that sees the counter rise. *)
Lemma pit_wait_spec n : forall k fuel last,
  pit_before last k n < pit_at k n -> (n < fuel)%nat ->
  exists k', pit_wait fuel last k = Ret tt k' /\ apic k' = apic k /\ mem_of k' = mem_of k /\
    pmm k' = pmm k /\ kernel_pml4 k' = kernel_pml4 k /\ hw_apic_out (hw k') = hw_apic_out (hw k) /\
    hw_apic_in (hw k') = hw_apic_in (hw k) /\ hw_apic_pos (hw k') = hw_apic_pos (hw k).
Proof.
  induction n as [| n IH]; intros k [| fuel] last Hrise Hf; try lia; cbn [pit_wait];
    do 3 kstep; cbv zeta; match goal with |- context [last <? ?p] =>
      replace p with (pit_at k 0) by
        (unfold pit_at; simpl; rewrite ?Nat.add_0_r, ?Nat.add_1_r; reflexivity) end.
  - simpl in Hrise. apply Z.ltb_lt in Hrise. rewrite Hrise. eexists. split; [reflexivity |]. done.
  - destruct (Z.ltb_spec last (pit_at k 0)); [eexists; split; [reflexivity | done] |].
    set (k1 := port_read _).
    assert (Hs : forall j, pit_at k1 j = pit_at k (S j)).
    { intros j. unfold pit_at. simpl.
      replace (hw_in_pos (hw k) + S (j + S (j + 0) + 1))%nat
        with (S (S (hw_in_pos (hw k) + (j + (j + 0) + 1)))) by lia.
      replace (hw_in_pos (hw k) + S (j + S (j + 0)))%nat
        with (S (S (hw_in_pos (hw k) + (j + (j + 0))))) by lia. done. }
    destruct (IH k1 fuel (pit_at k 0)) as (k' & E & Hr); [| lia | exists k'; split; [exact E | exact Hr]].
    rewrite Hs. destruct n; simpl in *; [done | by rewrite Hs].
Qed.

(** The timer register as the [n]-th poll sees it. *)
Definition timer_at (k : kernel) (n : nat) : Z :=
  u32 (hw_apic_in (hw k) (hw_apic_pos (hw k) + n) (apic_addr k APIC_REG_TIMER_CURRENT)).

(** The wait ends when the count has run out. *)
Lemma timer_wait_spec n : forall k fuel,
  timer_at k n = 0 -> (n < fuel)%nat ->
  exists j, timer_wait fuel k = Ret tt (k <| hw ::= fun h => h <| hw_apic_pos := j |> |>).
Proof.
  induction n as [| n IH]; intros k [| fuel] Hz Hf; try lia; cbn [timer_wait]; rewrite bind_apic_read;
    replace (u32 _) with (timer_at k 0) by (unfold timer_at; by rewrite Nat.add_0_r).
  - rewrite Hz. by eexists.
  - destruct (Z.ltb_spec 0 (timer_at k 0)) as [Hp | Hp]; [| by eexists].
    destruct (IH (apic_polled k) fuel) as (j & E); [| lia | exists j; by rewrite E].
    rewrite <- Hz. unfold timer_at. simpl. do 2 f_equal. lia.
Qed.

Lemma sleep_loop_spec ticks target n : forall d fuel,
  (forall j, (n <= j < n + d)%nat -> ticks j < target) -> target <= ticks (n + d)%nat -> (d < fuel)%nat ->
  sleep_loop fuel ticks n target = Some (n + d)%nat.
Proof.
  intros d. revert n. induction d as [| d IH]; intros n [| fuel] Hlt Hge Hf; try lia; cbn [sleep_loop].
  - rewrite Nat.add_0_r in *. destruct (Z.ltb_spec (ticks n) target); [lia | done].
  - destruct (Z.ltb_spec (ticks n) target) as [_ | ?]; [| specialize (Hlt n); lia].
    rewrite IH; [f_equal; lia | intros; apply Hlt; lia | by replace (S n + d)%nat with (n + S d)%nat by lia | lia].
Qed.

(** ** Theorems *)

(** b_sleep returns at the first read that sees the target, and not before:
    every earlier read was below it.  The target is the tick of the call plus
    one tick for every full 10 ms. *)
Theorem b_sleep_correct ticks ms d fuel :
  let target := u64 (ticks O + ms / 10) in
  (forall j, (1 <= j < 1 + d)%nat -> ticks j < target) -> target <= ticks (1 + d)%nat -> (d < fuel)%nat ->
  b_sleep fuel ticks ms = Some (1 + d)%nat.
Proof. intros target Hlt Hge Hf. by apply sleep_loop_spec. Qed.

Lemma b_sleep_correct_witness : b_sleep 200 (fun n => 100 + Z.of_nat n / 3) 500 = Some 150%nat.
Proof.
  apply (b_sleep_correct (fun n => 100 + Z.of_nat n / 3) 500 149 200).
  - intros j Hj. change (u64 _) with 150. assert (Z.of_nat j / 3 < 50) by (apply Z.div_lt_upper_bound; lia). lia.
  - by vm_compute.
  - lia.
Defined.

(** apic_delay_ms starts the timer with [ms] times the calibrated count (in
    32 bits) and returns once a poll reads 0; it writes nothing else. *)
Theorem apic_delay_ms_correct k ms n fuel :
  timer_at k n = 0 -> (n < fuel)%nat ->
  exists k', apic_delay_ms fuel ms k = Ret tt k' /\
    hw_apic_out (hw k') = hw_apic_out (hw k) ++
      [(apic_addr k APIC_REG_TIMER_INIT, u32 (ticks_per_ms (apic k) * ms))] /\
    mem_of k' = mem_of k /\ apic k' = apic k /\ sched k' = sched k.
Proof.
  intros Hz Hf. unfold apic_delay_ms. rewrite bind_gets, bind_apic_write.
  destruct (timer_wait_spec n (apic_logged APIC_REG_TIMER_INIT (u32 (ticks_per_ms (apic k) * ms)) k) fuel)
    as (j & E); [exact Hz | done |].
  eexists. split; [exact E |]. simpl. rewrite (u32_small (u32 _)) by apply u32_range. done.
Qed.

Lemma apic_delay_ms_correct_witness :
  exists k', apic_delay_ms 10 5 (initial_kernel (plain_hw ∅)) = Ret tt k'.
Proof.
  destruct (apic_delay_ms_correct (initial_kernel (plain_hw ∅)) 5 0 10 eq_refl ltac:(lia)) as (k' & E & _).
  by exists k'.
Defined.
