(* ===== verification/Cpu.v ===== *)
(** cpu.c: the per-processor records.

    A cpu_t lives in the store [s_cpus] at the address kmalloc returned; the
    processor finds its own through the GS base register, every other through
    the table of processors. *)

From S2P Require Import Prelude Memory State Lib Pmm Heap Apic.

Definition MSR_GS_BASE : Z := 0xC0000101.
Definition MSR_KERNEL_GS_BASE : Z := 0xC0000102.
(** sizeof(cpu_t), and the size of the array cpus *)
Definition SIZEOF_CPU : Z := 544.
Definition MAX_CPUS : nat := 64.

Definition zero_cpu : cpu_t := Cpu 0 0 0 (replicate 32 0) 0 0 0.

(** The object at a non-NULL address of a store. *)
Definition deref {A} (store : gmap Z A) (p : Z) : option A :=
  if p =? 0 then None else store !! p.

Definition cpu_load (p : Z) : M kernel cpu_t := fun k =>
  match deref (s_cpus (sched k)) p with
  | Some c => Ret c k
  | None => Fault
  end.

Definition set_cpu (p : Z) (c : cpu_t) (k : kernel) : kernel :=
  k <| sched ::= fun s => s <| s_cpus ::= <[p := c]> |> |>.

Definition cpu_update (p : Z) (f : cpu_t -> cpu_t) : M kernel unit :=
  c ← cpu_load p; modify (set_cpu p (f c)).

(** [memset(p, 0, sizeof( *p))] of a fresh object; a NULL pointer faults. *)
Definition cpu_zero (p : Z) : M kernel unit :=
  if p =? 0 then fault else modify (set_cpu p zero_cpu).

Definition cpu_init : M kernel unit :=
  cpu ← kmalloc SIZEOF_CPU;
  cpu_zero cpu;;
  id ← apic_get_id;
  cpu_update cpu (fun c => c <| c_cpu_id := id |>);;
  table ← gets (fun k => s_cpu_table (sched k));
  if (length table <? MAX_CPUS)%nat then
    modify (fun k => k <| sched ::= fun s => s <| s_cpu_table ::= fun l => l ++ [cpu] |> |>);;
    b_wrmsr MSR_GS_BASE cpu;;
    b_wrmsr MSR_KERNEL_GS_BASE cpu
  else fault.

Definition cpu_get : M kernel Z := b_rdmsr MSR_GS_BASE.

(** The loop of cpu_get_by_id. *)
Fixpoint find_cpu (l : list Z) (id : Z) : M kernel Z :=
  match l with
  | [] => mret 0
  | p :: l' => c ← cpu_load p; if c_cpu_id c =? u32 id then mret p else find_cpu l' id
  end.
Definition cpu_get_by_id (id : Z) : M kernel Z :=
  table ← gets (fun k => s_cpu_table (sched k));
  find_cpu table id.

Definition cpu_get_count (k : kernel) : Z := Z.of_nat (length (s_cpu_table (sched k))).

(** A negative index would be read before the array. *)
Definition cpu_get_by_index (index : Z) : M kernel Z :=
  n ← gets cpu_get_count;
  if n <=? index then mret 0
  else if index <? 0 then fault
  else gets (fun k => default 0 (s_cpu_table (sched k) !! Z.to_nat index)).

Definition tss_set_stack (stack : Z) : M kernel unit :=
  cpu ← cpu_get;
  cpu_update cpu (fun c => c <| c_rsp0 := stack |>).

(** ** Lemmas *)

(** The GS base as a register value: b_rdmsr reassembles its two halves. *)
Lemma msr_halves v : 0 <= v < 2 ^ 64 ->
  Z.lor (Z.shiftl (u32 (Z.shiftr v 32)) 32) (u32 v) = v.
Proof.
  intros Hv. unfold u32. rewrite Z.shiftr_div_pow2, Z.shiftl_mul_pow2 by lia.
  rewrite (Z.mod_small (v / 2 ^ 32)) by (split; [apply Z.div_pos; lia | apply Z.div_lt_upper_bound; lia]).
  apply Z.bits_inj'; intros n Hn. rewrite Z.lor_spec.
  destruct (Z.ltb_spec n 32).
  - rewrite Z.mul_pow2_bits_low, Z.mod_pow2_bits_low by lia. done.
  - rewrite Z.mod_pow2_bits_high, orb_false_r by lia.
    rewrite Z.mul_pow2_bits by lia. rewrite Z.div_pow2_bits by lia. f_equal. lia.
Qed.

(** [cpu] is the record of the running processor. *)
Definition current_cpu (k : kernel) (cpu : Z) : Prop :=
  0 < cpu < 2 ^ 64 /\ hw_msr (hw k) !! MSR_GS_BASE = Some cpu.

Lemma cpu_get_spec k cpu : current_cpu k cpu -> cpu_get k = Ret cpu k.
Proof.
  intros [Hr Hm]. unfold cpu_get, b_rdmsr, gets. rewrite Hm. simpl. by rewrite msr_halves by lia.
Qed.

Lemma cpu_load_spec k p c :
  s_cpus (sched k) !! p = Some c -> p <> 0 -> cpu_load p k = Ret c k.
Proof. intros Hp Hne. unfold cpu_load, deref. apply Z.eqb_neq in Hne. by rewrite Hne, Hp. Qed.

Lemma cpu_update_spec k p c f :
  s_cpus (sched k) !! p = Some c -> p <> 0 -> cpu_update p f k = Ret tt (set_cpu p (f c) k).
Proof. intros Hp Hne. unfold cpu_update. by rewrite (bind_ret _ _ _ _ _ (cpu_load_spec k p c Hp Hne)). Qed.
