(* ===== verification/Gdt.v ===== *)
(** gdt.c and the assembly it calls: the segment descriptors and the task
    state segment of a processor.

    The array gdt, the register image gdtr and the segment tss of a cpu_t are
    read by the processor itself, so they are bytes of physical memory, at
    their offsets in the struct; of the task state segment the stack pointer
    rsp0 is the field [c_rsp0] of the record and the rest is in memory.
    gdt_load and tss_load are those of entry.asm: loading a segment register
    looks the selector up in the table, refuses a descriptor that is missing or
    of the wrong type, and sets the accessed or busy bit. *)

From S2P Require Import Prelude Memory State Lib Pmm Heap Apic Cpu.

(** Offsets in cpu_t, and the sizes of gdt[16] and of tss_t. *)
Definition CPU_GDT : Z := 288.
Definition CPU_GDTR : Z := 416.
Definition CPU_TSS : Z := 432.
Definition SIZEOF_GDT : Z := 128.
Definition SIZEOF_TSS : Z := 104.

(** ** Descriptors in memory *)

(** A gdt_entry_t at [e]: limit_low +0, base_low +2, base_middle +4, access +5,
    granularity +6, base_high +7. *)
Definition gdt_set_entry_at (gdt index base limit access gran : Z) (m : mem) : mem :=
  let e := gdt + 8 * index in
  let m := st16 m (e + 2) (Z.land base 0xFFFF) in
  let m := st8 m (e + 4) (Z.land (Z.shiftr base 16) 0xFF) in
  let m := st8 m (e + 7) (Z.land (Z.shiftr base 24) 0xFF) in
  let m := st16 m e (Z.land limit 0xFFFF) in
  let m := st8 m (e + 6) (Z.land (Z.shiftr limit 16) 0x0F) in
  let m := st8 m (e + 6) (Z.lor (ld8 m (e + 6)) (Z.land gran 0xF0)) in
  st8 m (e + 5) access.

(** A gdt_tss_entry_t continues with base_highest +8 and reserved +12. *)
Definition gdt_set_tss_at (gdt index base limit : Z) (m : mem) : mem :=
  let tss_entry := gdt + 8 * index in
  let m := gdt_set_entry_at gdt index (Z.land base 0xFFFFFFFF) limit 0x89 0x40 m in
  let m := st32 m (tss_entry + 8) (Z.land (Z.shiftr base 32) 0xFFFFFFFF) in
  st32 m (tss_entry + 12) 0.

(** ** Segment registers *)

(** The access byte of a descriptor: present, a code or data segment, code. *)
Definition acc_present (a : Z) : bool := Z.testbit a 7.
Definition acc_segment (a : Z) : bool := Z.testbit a 4.
Definition acc_code (a : Z) : bool := Z.testbit a 3.

(** The descriptor [sel] names, when it lies within the table. *)
Definition descriptor_of (sel : Z) (k : kernel) : option Z :=
  let (limit, base) := hw_gdtr (hw k) in
  if sel mod 2 ^ 16 / 8 * 8 + 7 <=? limit then Some (base + sel mod 2 ^ 16 / 8 * 8) else None.

(** Load a segment register: [ok] is what the register asks of the access byte,
    [bit] the bit of it the processor sets. *)
Definition load_selector (ok : Z -> bool) (bit sel : Z) : M kernel unit := fun k =>
  match descriptor_of sel k with
  | None => Fault
  | Some e =>
      let a := ld8 (mem_of k) (e + 5) in
      if ok a then Ret tt (set_mem (st8 (mem_of k) (e + 5) (Z.setbit a bit)) k) else Fault
  end.

Definition data_ok (a : Z) : bool := acc_present a && acc_segment a && negb (acc_code a).
Definition code_ok (a : Z) : bool := acc_present a && acc_segment a && acc_code a.
(** An available 64-bit task state segment. *)
Definition tss_ok (a : Z) : bool := acc_present a && (a mod 32 =? 9).

Definition lgdt (p : Z) : M kernel unit :=
  modify (fun k => k <| hw ::= fun h =>
    h <| hw_gdtr := (ld16 (hw_mem h) p, ld64 (hw_mem h) (p + 2)) |> |>).

Definition gdt_load (ptr : Z) : M kernel unit :=
  lgdt ptr;;
  load_selector data_ok 0 0x10;;
  modify (fun k => k <| hw ::= fun h => h <| hw_ds := 0x10 |> |>);;
  load_selector data_ok 0 0x10;;
  modify (fun k => k <| hw ::= fun h => h <| hw_es := 0x10 |> |>);;
  load_selector data_ok 0 0x10;;
  modify (fun k => k <| hw ::= fun h => h <| hw_ss := 0x10 |> |>);;
  load_selector code_ok 0 0x08;;
  modify (fun k => k <| hw ::= fun h => h <| hw_cs := 0x08 |> |>).

Definition tss_load : M kernel unit :=
  load_selector tss_ok 1 0x28;;
  modify (fun k => k <| hw ::= fun h => h <| hw_tr := 0x28 |> |>).

(** ** gdt_init *)

Definition on_mem (f : mem -> mem) : M kernel unit := modify (fun k => set_mem (f (mem_of k)) k).

Definition gdt_init : M kernel unit :=
  cpu ← cpu_get;
  let gdt := cpu + CPU_GDT in
  on_mem (fun m => b_memset m gdt 0 SIZEOF_GDT);;
  on_mem (fun m => b_memset m (cpu + CPU_TSS) 0 SIZEOF_TSS);;
  cpu_update cpu (fun c => c <| c_rsp0 := 0 |>);;
  on_mem (gdt_set_entry_at gdt 0 0 0 0 0);;
  on_mem (gdt_set_entry_at gdt 1 0 0xFFFFFFFF 0x9A 0xA0);;
  on_mem (gdt_set_entry_at gdt 2 0 0xFFFFFFFF 0x92 0xA0);;
  on_mem (gdt_set_entry_at gdt 3 0 0xFFFFFFFF 0xF2 0xA0);;
  on_mem (gdt_set_entry_at gdt 4 0 0xFFFFFFFF 0xFA 0xA0);;
  on_mem (gdt_set_tss_at gdt 5 (cpu + CPU_TSS) (SIZEOF_TSS - 1));;
  on_mem (fun m => st16 m (cpu + CPU_GDTR) (7 * 8 - 1));;
  on_mem (fun m => st64 m (cpu + CPU_GDTR + 2) gdt);;
  gdt_load (cpu + CPU_GDTR);;
  tss_load.

Definition gdt_init_ap : M kernel unit := gdt_init.

Definition gdt_get_base : M kernel Z :=
  cpu ← cpu_get; mret (cpu + CPU_GDT).

Definition tss_get_ptr : M kernel Z :=
  cpu ← cpu_get; mret (cpu + CPU_TSS).

(** ** What the processor reads *)

Definition seg_base (m : mem) (e : Z) : Z :=
  ld16 m (e + 2) + 2 ^ 16 * ld8 m (e + 4) + 2 ^ 24 * ld8 m (e + 7).
Definition seg_limit (m : mem) (e : Z) : Z :=
  ld16 m e + 2 ^ 16 * (ld8 m (e + 6) mod 16).
Definition seg_access (m : mem) (e : Z) : Z := ld8 m (e + 5).
Definition seg_flags (m : mem) (e : Z) : Z := ld8 m (e + 6) / 16.

Record desc_t := Desc { dt_base : Z; dt_limit : Z; dt_access : Z; dt_flags : Z }.

Definition read_desc_at (m : mem) (e : Z) : desc_t :=
  Desc (seg_base m e) (seg_limit m e) (seg_access m e) (seg_flags m e).

(** The first descriptors of a table. *)
Definition table_is (m : mem) (gdt : Z) (ds : list desc_t) : Prop :=
  forall i d, ds !! i = Some d -> read_desc_at m (gdt + 8 * Z.of_nat i) = d.

(** The base of a system descriptor has 64 bits. *)
Definition tss_base (m : mem) (e : Z) : Z := seg_base m e + 2 ^ 32 * ld32 m (e + 8).

(** lar and lsl: the access rights and the limit of a segment; the bits of the
    limit in the access rights are undefined, here 0.  An instruction that
    refuses the selector leaves its destination as it was, which the code
    never does. *)
Definition get_lar (sel : Z) : M kernel Z :=
  e ← gets (descriptor_of sel); e ← from_option e;
  gets (fun k => 2 ^ 8 * seg_access (mem_of k) e + 2 ^ 20 * seg_flags (mem_of k) e).
Definition get_lsl (sel : Z) : M kernel Z :=
  e ← gets (descriptor_of sel); e ← from_option e;
  gets (fun k => let l := seg_limit (mem_of k) e in
                 if Z.testbit (seg_flags (mem_of k) e) 3 then 2 ^ 12 * l + 0xFFF else l).

(** ** Lemmas *)

Lemma seg_desc_agree m m' e : agree e (e + 8) m m' -> read_desc_at m' e = read_desc_at m e.
Proof.
  intros H. unfold read_desc_at, seg_base, seg_limit, seg_access, seg_flags.
  rewrite ?(ld16_agree e (e + 8) m m') by (done || lia). by rewrite ?(ld8_agree e (e + 8) m m') by (done || lia).
Qed.

Lemma table_agree m m' gdt ds :
  agree gdt (gdt + 8 * Z.of_nat (length ds)) m m' -> table_is m gdt ds -> table_is m' gdt ds.
Proof.
  intros H Ht i d Hi. pose proof (lookup_lt_Some _ _ _ Hi). rewrite <- (Ht i d Hi). apply seg_desc_agree.
  eapply agree_sub; [| | exact H]; lia.
Qed.

(** The bytes of a 32-bit number, as they are masked and put together again. *)
Lemma split_base b : 0 <= b < 2 ^ 32 ->
  Z.land b 0xFFFF + 2 ^ 16 * Z.land (Z.shiftr b 16) 0xFF + 2 ^ 24 * Z.land (Z.shiftr b 24) 0xFF = b.
Proof.
  intros Hb. change 0xFFFF with (Z.ones 16). change 0xFF with (Z.ones 8).
  rewrite !Z.land_ones, !Z.shiftr_div_pow2 by lia. zdiv.
Qed.

Lemma split_limit l : 0 <= l < 2 ^ 32 ->
  Z.land l 0xFFFF + 2 ^ 16 * Z.land (Z.shiftr l 16) 0x0F = l mod 2 ^ 20.
Proof.
  intros Hb. change 0xFFFF with (Z.ones 16). change 0x0F with (Z.ones 4).
  rewrite !Z.land_ones, !Z.shiftr_div_pow2 by lia. zdiv.
Qed.

Lemma land_byte x n : 0 <= x -> 0 <= n -> 0 <= Z.land x (Z.ones n) < 2 ^ n.
Proof. intros. rewrite Z.land_ones by done. apply Z.mod_pos_bound. lia. Qed.

(** The two halves of the granularity byte. *)
Lemma gran_halves lo gran : 0 <= lo < 16 ->
  Z.lor lo (Z.land gran 0xF0) mod 16 = lo /\ Z.lor lo (Z.land gran 0xF0) / 16 = gran / 16 mod 16 /\
  0 <= Z.lor lo (Z.land gran 0xF0) < 256.
Proof.
  intros Hlo.
  assert (Hg : Z.land gran 0xF0 = 16 * (gran / 16 mod 16)).
  { apply Z.bits_inj'; intros n Hn. change 0xF0 with (Z.shiftl (Z.ones 4) 4).
    rewrite Z.land_spec, Z.shiftl_spec, Z.mul_comm by lia. change 16 with (2 ^ 4).
    rewrite Z.mul_pow2_bits by lia. destruct (Z.ltb_spec n 4).
    - rewrite (Z.testbit_neg_r (Z.ones 4)), (Z.testbit_neg_r (_ mod _)) by lia. apply andb_false_r.
    - rewrite Z.testbit_ones_nonneg by lia. destruct (Z.ltb_spec (n - 4) 4).
      + rewrite Z.mod_pow2_bits_low, Z.div_pow2_bits by lia. rewrite andb_true_r. f_equal. lia.
      + rewrite Z.mod_pow2_bits_high by lia. apply andb_false_r. }
  assert (Hs : Z.lor lo (Z.land gran 0xF0) = lo + 16 * (gran / 16 mod 16)).
  { rewrite Hg. assert (Hz : Z.land lo (16 * (gran / 16 mod 16)) = 0) by (
      apply Z.bits_inj'; intros n Hn; rewrite Z.land_spec, Z.bits_0, Z.mul_comm; change 16 with (2 ^ 4);
      rewrite Z.mul_pow2_bits by lia; (destruct (Z.ltb_spec n 4);
      [rewrite (Z.testbit_neg_r (_ mod _)) by lia; apply andb_false_r
      | rewrite <- (Z.mod_small lo (2 ^ 4)), Z.mod_pow2_bits_high by lia; done])).
    by rewrite <- Z.lxor_lor, <- Z.add_nocarry_lxor by done. }
  rewrite Hs. pose proof (Z.mod_pos_bound (gran / 16) 16 ltac:(lia)). repeat split; zdiv.
Qed.

Lemma gdt_set_entry_at_agree gdt i base limit access gran m :
  agree_out (gdt + 8 * i) (gdt + 8 * i + 8) m (gdt_set_entry_at gdt i base limit access gran m).
Proof.
  intros a Ha. unfold gdt_set_entry_at. cbv zeta.
  repeat (rewrite ?ld8_st8_ne by lia; rewrite ?ld8_st16_ne by lia). done.
Qed.

(** What gdt_set_entry_at writes is read back as it was given; the limit has 20
    bits. *)
Lemma gdt_set_entry_at_spec gdt i base limit access gran m :
  0 <= base < 2 ^ 32 -> 0 <= limit < 2 ^ 32 -> 0 <= access < 256 -> 0 <= gran < 256 ->
  read_desc_at (gdt_set_entry_at gdt i base limit access gran m) (gdt + 8 * i) =
  Desc base (limit mod 2 ^ 20) access (gran / 16).
Proof.
  intros Hb Hl Ha Hg. set (e := gdt + 8 * i).
  pose proof (land_byte (Z.shiftr base 16) 8 ltac:(apply Z.shiftr_nonneg; lia) ltac:(lia)).
  pose proof (land_byte (Z.shiftr base 24) 8 ltac:(apply Z.shiftr_nonneg; lia) ltac:(lia)).
  pose proof (land_byte base 16 ltac:(lia) ltac:(lia)). pose proof (land_byte limit 16 ltac:(lia) ltac:(lia)).
  pose proof (land_byte (Z.shiftr limit 16) 4 ltac:(apply Z.shiftr_nonneg; lia) ltac:(lia)).
  change (Z.ones 16) with 0xFFFF in *. change (Z.ones 8) with 0xFF in *. change (Z.ones 4) with 0x0F in *.
  destruct (gran_halves (Z.land (Z.shiftr limit 16) 0x0F) gran) as (G1 & G2 & G3); [done |].
  unfold gdt_set_entry_at. fold e. cbv zeta. rewrite ld8_st8_eq.
  unfold read_desc_at; f_equal; unfold seg_base, seg_limit, seg_access, seg_flags;
    repeat (rewrite ?ld16_st8_ne by lia; rewrite ?ld8_st16_ne by lia; rewrite ?ld8_st8_ne by lia;
            rewrite ?ld16_st16_ne by lia; rewrite ?ld8_st8_eq, ?ld16_st16_eq).
  - rewrite !u8_small, u16_small by done. by apply split_base.
  - rewrite (u8_small (Z.land (Z.shiftr limit 16) 15)) by (simpl in *; lia).
    rewrite (u8_small (Z.lor _ _)), u16_small, G1 by lia. by apply split_limit.
  - by apply u8_small.
  - rewrite (u8_small (Z.land (Z.shiftr limit 16) 15)) by (simpl in *; lia).
    rewrite (u8_small (Z.lor _ _)), G2 by lia. zdiv.
Qed.

(** The next descriptor of a table. *)
Lemma table_snoc m gdt ds base limit access gran :
  table_is m gdt ds ->
  0 <= base < 2 ^ 32 -> 0 <= limit < 2 ^ 32 -> 0 <= access < 256 -> 0 <= gran < 256 ->
  table_is (gdt_set_entry_at gdt (Z.of_nat (length ds)) base limit access gran m) gdt
    (ds ++ [Desc base (limit mod 2 ^ 20) access (gran / 16)]).
Proof.
  intros Ht Hb Hl Ha Hg i d Hi. apply lookup_app_Some in Hi as [Hi | [Hge Hi]].
  - pose proof (lookup_lt_Some _ _ _ Hi). rewrite <- (Ht i d Hi). apply seg_desc_agree.
    eapply agree_out_disj; [| apply gdt_set_entry_at_agree]. lia.
  - apply list_lookup_singleton_Some in Hi as [Hi <-].
    replace i with (length ds) by lia. by apply gdt_set_entry_at_spec.
Qed.

(** Setting a bit of the access byte. *)
Lemma table_access m gdt ds i d v :
  table_is m gdt ds -> ds !! i = Some d -> 0 <= v < 256 ->
  table_is (st8 m (gdt + 8 * Z.of_nat i + 5) v) gdt (<[i := Desc (dt_base d) (dt_limit d) v (dt_flags d)]> ds).
Proof.
  intros Ht Hi Hv j d' Hj. destruct (decide (i = j)) as [<- | Hne].
  - rewrite list_lookup_insert_eq in Hj by (by eapply lookup_lt_Some). simplify_eq. pose proof (Ht i d Hi) as <-.
    unfold read_desc_at, seg_base, seg_limit, seg_access, seg_flags. simpl.
    rewrite !ld16_st8_ne, ld8_st8_eq by lia. rewrite !ld8_st8_ne by lia. by rewrite u8_small.
  - rewrite list_lookup_insert_ne in Hj by done. rewrite <- (Ht j d' Hj). apply seg_desc_agree.
    eapply agree_out_disj; [| apply agree_out_st8]. lia.
Qed.

(** Loading a selector of a table that is in the register. *)
Lemma load_selector_spec k gdt ds i d ok bit :
  hw_gdtr (hw k) = (55, gdt) -> table_is (mem_of k) gdt ds -> ds !! i = Some d -> (i < 7)%nat ->
  ok (dt_access d) = true ->
  load_selector ok bit (8 * Z.of_nat i) k =
  Ret tt (set_mem (st8 (mem_of k) (gdt + 8 * Z.of_nat i + 5) (Z.setbit (dt_access d) bit)) k).
Proof.
  intros Hg Ht Hi Hlt Hok. unfold load_selector, descriptor_of. rewrite Hg.
  rewrite (Z.mod_small (8 * Z.of_nat i)) by lia. rewrite (Z.mul_comm 8), Z.div_mul by done.
  destruct (Z.leb_spec (Z.of_nat i * 8 + 7) 55); [| lia]. rewrite (Z.mul_comm (Z.of_nat i)).
  replace (ld8 (mem_of k) (gdt + 8 * Z.of_nat i + 5)) with (dt_access d) by (by rewrite <- (Ht i d Hi)).
  by rewrite Hok.
Qed.

(** ** gdt_init on memory *)

Definition gdt_image (cpu : Z) (m : mem) : mem :=
  let gdt := cpu + CPU_GDT in
  let m := b_memset m gdt 0 SIZEOF_GDT in
  let m := b_memset m (cpu + CPU_TSS) 0 SIZEOF_TSS in
  let m := gdt_set_entry_at gdt 0 0 0 0 0 m in
  let m := gdt_set_entry_at gdt 1 0 0xFFFFFFFF 0x9A 0xA0 m in
  let m := gdt_set_entry_at gdt 2 0 0xFFFFFFFF 0x92 0xA0 m in
  let m := gdt_set_entry_at gdt 3 0 0xFFFFFFFF 0xF2 0xA0 m in
  let m := gdt_set_entry_at gdt 4 0 0xFFFFFFFF 0xFA 0xA0 m in
  let m := gdt_set_tss_at gdt 5 (cpu + CPU_TSS) (SIZEOF_TSS - 1) m in
  let m := st16 m (cpu + CPU_GDTR) (7 * 8 - 1) in
  st64 m (cpu + CPU_GDTR + 2) gdt.

Lemma gdt_init_run k cpu c :
  current_cpu k cpu -> s_cpus (sched k) !! cpu = Some c ->
  gdt_init k = (gdt_load (cpu + CPU_GDTR);; tss_load)
    (set_mem (gdt_image cpu (mem_of k)) (set_cpu cpu (c <| c_rsp0 := 0 |>) k)).
Proof.
  intros Hc Hs. unfold gdt_init. rewrite (bind_ret _ _ _ _ _ (cpu_get_spec k cpu Hc)). cbv zeta. unfold on_mem.
  rewrite !bind_modify. erewrite bind_ret; [| apply (cpu_update_spec _ cpu c); [done | destruct Hc; lia]].
  by rewrite !bind_modify.
Qed.

(** The descriptors with access bytes [a1] and [a2] of the kernel's segments and
    [a5] of the task state segment. *)
Definition descriptors (a1 a2 a5 tss : Z) : list desc_t :=
  [Desc 0 0 0 0; Desc 0 0xFFFFF a1 0xA; Desc 0 0xFFFFF a2 0xA; Desc 0 0xFFFFF 0xF2 0xA;
   Desc 0 0xFFFFF 0xFA 0xA; Desc (u32 tss) 103 a5 4].

Lemma gdt_image_table cpu m :
  table_is (gdt_image cpu m) (cpu + CPU_GDT) (descriptors 0x9A 0x92 0x89 (cpu + CPU_TSS)).
Proof.
  unfold gdt_image, gdt_set_tss_at. cbv zeta. set (gdt := cpu + CPU_GDT). set (m0 := b_memset (b_memset _ _ _ _) _ _ _).
  assert (T0 : table_is m0 gdt []) by done.
  pose proof (table_snoc _ _ _ 0 0 0 0 T0 ltac:(lia) ltac:(lia) ltac:(lia) ltac:(lia)) as T1.
  pose proof (table_snoc _ _ _ 0 0xFFFFFFFF 0x9A 0xA0 T1 ltac:(lia) ltac:(lia) ltac:(lia) ltac:(lia)) as T2.
  pose proof (table_snoc _ _ _ 0 0xFFFFFFFF 0x92 0xA0 T2 ltac:(lia) ltac:(lia) ltac:(lia) ltac:(lia)) as T3.
  pose proof (table_snoc _ _ _ 0 0xFFFFFFFF 0xF2 0xA0 T3 ltac:(lia) ltac:(lia) ltac:(lia) ltac:(lia)) as T4.
  pose proof (table_snoc _ _ _ 0 0xFFFFFFFF 0xFA 0xA0 T4 ltac:(lia) ltac:(lia) ltac:(lia) ltac:(lia)) as T5.
  pose proof (table_snoc _ _ _ (u32 (cpu + CPU_TSS)) 103 0x89 0x40 T5 (u32_range _) ltac:(lia) ltac:(lia) ltac:(lia)) as T6.
  replace (Z.land (cpu + CPU_TSS) 0xFFFFFFFF) with (u32 (cpu + CPU_TSS)) by (symmetry; by apply (Z.land_ones _ 32)).
  eapply table_agree; [| exact T6]. simpl length. unfold gdt, CPU_GDT, CPU_GDTR.
  intros b Hb. by rewrite ld8_st64_out, ld8_st16_ne, !ld8_st32_out by lia.
Qed.

Lemma gdt_image_agree cpu m : agree_out (cpu + CPU_GDT) (cpu + CPU_TSS + SIZEOF_TSS) m (gdt_image cpu m).
Proof.
  unfold CPU_GDT, CPU_TSS, SIZEOF_TSS. intros b Hb.
  unfold gdt_image, gdt_set_tss_at, CPU_GDT, CPU_GDTR, CPU_TSS, SIZEOF_TSS, SIZEOF_GDT. cbv zeta.
  rewrite ld8_st64_out, ld8_st16_ne, !ld8_st32_out by lia. rewrite !gdt_set_entry_at_agree by lia.
  by rewrite !b_memset_agree_out by lia.
Qed.

(** The task state segment is clear, and the registers' images are in place. *)
Lemma gdt_image_rest cpu m :
  0 <= cpu -> cpu + SIZEOF_CPU <= 2 ^ 64 ->
  let m' := gdt_image cpu m in
  (forall b, cpu + CPU_TSS <= b < cpu + CPU_TSS + SIZEOF_TSS -> ld8 m' b = 0) /\
  ld16 m' (cpu + CPU_GDTR) = 55 /\ ld64 m' (cpu + CPU_GDTR + 2) = cpu + CPU_GDT /\
  ld32 m' (cpu + CPU_GDT + 48) = (cpu + CPU_TSS) / 2 ^ 32.
Proof.
  intros Hc He m'. unfold SIZEOF_CPU in He. unfold m', gdt_image, gdt_set_tss_at, CPU_GDT, CPU_GDTR, CPU_TSS, SIZEOF_TSS, SIZEOF_GDT.
  cbv zeta. split_and!.
  - intros b Hb. rewrite ld8_st64_out, ld8_st16_ne, !ld8_st32_out by lia. rewrite !gdt_set_entry_at_agree by lia.
    rewrite b_memset_ld8 by lia. destruct (Z.leb_spec (cpu + 432) b), (Z.ltb_spec b (cpu + 432 + 104)); done || lia.
  - rewrite ld16_st64_ne by lia. apply ld16_st16_eq.
  - rewrite ld64_st64_eq. apply u64_small. lia.
  - rewrite ld32_st64_ne, ld32_st16_ne, ld32_st32_ne by lia.
    replace (cpu + 288 + 8 * 5 + 8) with (cpu + 288 + 48) by lia. rewrite ld32_st32_eq.
    change 0xFFFFFFFF with (Z.ones 32). rewrite Z.land_ones, Z.shiftr_div_pow2 by lia.
    rewrite Z.mod_small, u32_small by (split; [apply Z.div_pos | apply Z.div_lt_upper_bound]; lia). done.
Qed.

(** The two loads of gdt_init: only access bytes of the table change. *)
Definition with_segments (gdt : Z) (m : mem) (k : kernel) : kernel :=
  k <| hw ::= fun h => h <| hw_mem := m |> <| hw_gdtr := (55, gdt) |> <| hw_cs := 0x08 |>
    <| hw_ds := 0x10 |> <| hw_es := 0x10 |> <| hw_ss := 0x10 |> |>.

Lemma lgdt_spec {B} k ptr gdt (f : unit -> M kernel B) :
  ld16 (mem_of k) ptr = 55 -> ld64 (mem_of k) (ptr + 2) = gdt ->
  (lgdt ptr ≫= f) k = f tt (k <| hw ::= fun h => h <| hw_gdtr := (55, gdt) |> |>).
Proof. intros H1 H2. unfold lgdt. rewrite bind_modify. unfold mem_of in *. rewrite <- H1, <- H2. done. Qed.

Lemma gdt_load_spec k ptr gdt tss :
  ld16 (mem_of k) ptr = 55 -> ld64 (mem_of k) (ptr + 2) = gdt ->
  table_is (mem_of k) gdt (descriptors 0x9A 0x92 0x89 tss) ->
  exists m, gdt_load ptr k = Ret tt (with_segments gdt m k) /\
    table_is m gdt (descriptors 0x9B 0x93 0x89 tss) /\ agree_out (gdt + 8) (gdt + 24) (mem_of k) m.
Proof.
  intros H1 H2 T. unfold gdt_load. rewrite (lgdt_spec _ _ _ _ H1 H2).
  set (k1 := over _ k). assert (Hg : hw_gdtr (hw k1) = (55, gdt)) by done.
  set (m1 := st8 (mem_of k) (gdt + 8 * Z.of_nat 2 + 5) 0x93).
  pose proof (table_access _ _ _ 2 _ 0x93 T eq_refl ltac:(lia)) as T1. fold m1 in T1. simpl in T1.
  erewrite bind_ret; [| apply (load_selector_spec k1 gdt _ 2 _ data_ok 0 Hg T eq_refl); [lia | reflexivity]].
  rewrite bind_modify. set (k2 := over _ _).
  erewrite bind_ret; [| apply (load_selector_spec k2 gdt _ 2 _ data_ok 0 Hg T1 eq_refl); [lia | reflexivity]].
  rewrite bind_modify. set (k3 := over _ _).
  pose proof (table_access _ _ _ 2 _ 0x93 T1 eq_refl ltac:(lia)) as T2. set (m2 := st8 m1 _ _) in T2. simpl in T2.
  erewrite bind_ret; [| apply (load_selector_spec k3 gdt _ 2 _ data_ok 0 Hg T2 eq_refl); [lia | reflexivity]].
  rewrite bind_modify. set (k4 := over _ _).
  pose proof (table_access _ _ _ 2 _ 0x93 T2 eq_refl ltac:(lia)) as T3. set (m3 := st8 m2 _ _) in T3. simpl in T3.
  erewrite bind_ret; [| apply (load_selector_spec k4 gdt _ 1 _ code_ok 0 Hg T3 eq_refl); [lia | reflexivity]].
  pose proof (table_access _ _ _ 1 _ 0x9B T3 eq_refl ltac:(lia)) as T4. set (m4 := st8 m3 _ _) in T4. simpl in T4.
  exists m4. split; [reflexivity |]. split; [exact T4 |].
  intros b Hb. unfold m4, m3, m2, m1. by rewrite !ld8_st8_ne by lia.
Qed.

(** The state gdt_init leaves. *)
Definition gdt_ready (cpu : Z) (c : cpu_t) (m : mem) (k : kernel) : kernel :=
  set_cpu cpu c (k <| hw ::= fun h => h <| hw_mem := m |> <| hw_gdtr := (55, cpu + CPU_GDT) |> <| hw_cs := 0x08 |>
    <| hw_ds := 0x10 |> <| hw_es := 0x10 |> <| hw_ss := 0x10 |> <| hw_tr := 0x28 |> |>).

Record gdt_tables (cpu : Z) (m : mem) : Prop := {
  gi_table : table_is m (cpu + CPU_GDT) (descriptors 0x9B 0x93 0x8B (cpu + CPU_TSS));
  gi_base : tss_base m (cpu + CPU_GDT + 40) = cpu + CPU_TSS;
  gi_clear : forall b, cpu + CPU_TSS <= b < cpu + CPU_TSS + SIZEOF_TSS -> ld8 m b = 0
}.

Lemma gdt_tables_agree cpu m m' :
  agree (cpu + CPU_GDT) (cpu + CPU_TSS + SIZEOF_TSS) m m' -> gdt_tables cpu m -> gdt_tables cpu m'.
Proof.
  unfold CPU_GDT, CPU_TSS, SIZEOF_TSS. intros A [T B C]. unfold CPU_GDT, CPU_TSS, SIZEOF_TSS in *. constructor.
  - eapply table_agree; [| exact T]. eapply agree_sub; [| | exact A]; simpl; unfold CPU_GDT; lia.
  - unfold CPU_GDT, CPU_TSS. rewrite <- B. unfold tss_base. f_equal.
    + change (dt_base (read_desc_at m' (cpu + 288 + 40)) = dt_base (read_desc_at m (cpu + 288 + 40))).
      f_equal. apply seg_desc_agree. eapply agree_sub; [| | exact A]; lia.
    + f_equal. eapply ld32_agree; [exact A | lia | lia].
  - unfold CPU_TSS, SIZEOF_TSS. intros b Hb. rewrite A by lia. by apply C.
Qed.

Lemma gdt_init_spec k cpu c :
  current_cpu k cpu -> s_cpus (sched k) !! cpu = Some c -> cpu + SIZEOF_CPU <= 2 ^ 64 ->
  exists m, gdt_init k = Ret tt (gdt_ready cpu (c <| c_rsp0 := 0 |>) m k) /\ gdt_tables cpu m /\
    agree_out (cpu + CPU_GDT) (cpu + CPU_TSS + SIZEOF_TSS) (mem_of k) m.
Proof.
  intros Hc Hs He. assert (Hp : 0 <= cpu) by (destruct Hc; lia). rewrite (gdt_init_run k cpu c Hc Hs).
  destruct (gdt_image_rest cpu (mem_of k) Hp He) as (I1 & I2 & I3 & I4).
  pose proof (gdt_image_table cpu (mem_of k)) as T. pose proof (gdt_image_agree cpu (mem_of k)) as A.
  set (m := gdt_image cpu (mem_of k)) in *. set (k0 := set_mem m _).
  destruct (gdt_load_spec k0 _ _ _ I2 I3 T) as (m1 & E & T1 & A1). rewrite (bind_ret _ _ _ _ _ E).
  set (k1 := with_segments _ _ _). unfold tss_load.
  rewrite (bind_ret _ _ _ _ _ (load_selector_spec k1 _ _ 5 _ tss_ok 1 eq_refl T1 eq_refl ltac:(lia) eq_refl)).
  pose proof (table_access _ _ _ 5 _ 0x8B T1 eq_refl ltac:(lia)) as T2.
  set (m2 := st8 m1 _ _) in T2. exists m2. split; [reflexivity |].
  assert (A2 : agree_out (cpu + CPU_GDT) (cpu + CPU_GDT + 48) m m2).
  { intros b Hb. unfold m2. rewrite ld8_st8_ne by lia. apply A1. lia. }
  unfold CPU_GDT, CPU_TSS, SIZEOF_TSS in *.
  split; [constructor; [exact T2 | |] |]; unfold CPU_GDT, CPU_TSS, SIZEOF_TSS in *.
  - pose proof (f_equal dt_base (T2 5%nat _ eq_refl)) as D. unfold tss_base, read_desc_at, dt_base in D |- *.
    change (8 * Z.of_nat 5) with 40 in D. rewrite D. replace (cpu + 288 + 40 + 8) with (cpu + 288 + 48) by lia.
    rewrite (ld32_agree (cpu + 336) (cpu + 340) m); [| eapply agree_out_disj; [| exact A2]; lia | lia ..].
    rewrite I4. unfold u32. pose proof (Z.div_mod (cpu + 432) (2 ^ 32)). lia.
  - intros b Hb. rewrite A2 by lia. by apply I1.
  - intros b Hb. rewrite A2 by lia. by apply A.
Qed.

(** ** Theorems *)

(** A descriptor written by gdt_set_entry_at reads back as the base, the low
    20 bits of the limit, the access byte and the flags it was given, and no
    byte outside its entry changes. *)
Theorem gdt_entry_roundtrip gdt index base limit access gran m :
  0 <= base < 2 ^ 32 -> 0 <= limit < 2 ^ 32 -> 0 <= access < 256 -> 0 <= gran < 256 ->
  let m' := gdt_set_entry_at gdt index base limit access gran m in
  read_desc_at m' (gdt + 8 * index) = Desc base (limit mod 2 ^ 20) access (gran / 16) /\
  agree_out (gdt + 8 * index) (gdt + 8 * index + 8) m m'.
Proof. intros Hb Hl Ha Hg m'. split; [by apply gdt_set_entry_at_spec | apply gdt_set_entry_at_agree]. Qed.

Lemma gdt_entry_roundtrip_witness :
  read_desc_at (gdt_set_entry_at 0x5000 1 0 0xFFFFFFFF 0x9A 0xA0 ∅) 0x5008 = Desc 0 0xFFFFF 0x9A 0xA.
Proof. apply (gdt_entry_roundtrip 0x5000 1 0 0xFFFFFFFF 0x9A 0xA0 ∅); lia. Defined.

(** C24: gdt_init builds and loads the tables of the running processor: the
    register holds the seven-entry table in its cpu_t, the kernel's code and
    data and the user's data and code segments and the task state segment
    decode as intended, with the accessed and busy bits the loads set, the task
    register points to a cleared segment of limit 103 at the cpu_t's tss, the
    segment registers hold the kernel's selectors, and nothing else of memory
    or of the kernel changes. *)
Theorem gdt_init_correct k cpu c :
  current_cpu k cpu -> s_cpus (sched k) !! cpu = Some c -> cpu + SIZEOF_CPU <= 2 ^ 64 ->
  exists k', gdt_init k = Ret tt k' /\
    hw_gdtr (hw k') = (55, cpu + CPU_GDT) /\
    table_is (mem_of k') (cpu + CPU_GDT) (descriptors 0x9B 0x93 0x8B (cpu + CPU_TSS)) /\
    tss_base (mem_of k') (cpu + CPU_GDT + 40) = cpu + CPU_TSS /\
    (forall b, cpu + CPU_TSS <= b < cpu + CPU_TSS + SIZEOF_TSS -> ld8 (mem_of k') b = 0) /\
    (hw_cs (hw k'), hw_ds (hw k'), hw_es (hw k'), hw_ss (hw k'), hw_tr (hw k')) = (0x08, 0x10, 0x10, 0x10, 0x28) /\
    agree_out (cpu + CPU_GDT) (cpu + CPU_TSS + SIZEOF_TSS) (mem_of k) (mem_of k') /\
    sched k' = sched (set_cpu cpu (c <| c_rsp0 := 0 |>) k) /\ heap k' = heap k /\ pmm k' = pmm k /\
    k' = gdt_ready cpu (c <| c_rsp0 := 0 |>) (mem_of k') k.
Proof.
  intros Hc Hs He. destruct (gdt_init_spec k cpu c Hc Hs He) as (m & E & [T B C] & A).
  eexists. split; [exact E |]. by split_and!.
Qed.

Definition one_cpu : kernel :=
  (initial_kernel ((plain_hw ∅) <| hw_msr := {[ MSR_GS_BASE := 0x6000 ]} |>))
  <| sched ::= fun s => s <| s_cpus := {[ 0x6000 := zero_cpu ]} |> <| s_cpu_table := [0x6000] |> |>.

Lemma gdt_init_correct_witness :
  exists k', gdt_init one_cpu = Ret tt k' /\ hw_gdtr (hw k') = (55, 0x6120) /\ hw_tr (hw k') = 0x28.
Proof.
  destruct (gdt_init_correct one_cpu 0x6000 zero_cpu) as (k' & E & G & _ & _ & _ & R & _);
    [split; [lia | reflexivity] | reflexivity | unfold SIZEOF_CPU; lia |].
  exists k'. split; [exact E |]. split; [exact G |]. by injection R.
Defined.
