(* ===== verification/Acpi.v ===== *)
(** acpi.c: the processors the firmware reports.

    The tables are bytes of physical memory, read at the offsets of the packed
    structs of acpi.h.  acpi_init looks for the table signed APIC among those
    the extended root table lists and walks its entries, at most as many rounds
    as its fuel says. *)

From S2P Require Import Prelude Memory State Lib Console ConsoleProps.

(** ** Layout of the tables *)

(** sizeof(acpi_header_t) and sizeof(acpi_madt_t) *)
Definition SIZEOF_HEADER : Z := 36.
Definition SIZEOF_MADT : Z := 44.

Definition rsdp_xsdt_address (m : mem) (p : Z) : Z := ld64 m (p + 24).
Definition header_length (m : mem) (p : Z) : Z := ld32 m (p + 4).
Definition madt_entry_type (m : mem) (p : Z) : Z := ld8 m p.
Definition madt_entry_length (m : mem) (p : Z) : Z := ld8 m (p + 1).
Definition lapic_apic_id (m : mem) (p : Z) : Z := ld8 m (p + 3).
Definition lapic_flags (m : mem) (p : Z) : Z := ld32 m (p + 4).

(** ** acpi_init *)

(** b_memcmp of the bytes at [p] with a string literal. *)
Fixpoint signature_cmp (m : mem) (p : Z) (lit : list Z) : Z :=
  match lit with
  | [] => 0
  | c :: lit' => if negb (ld8 m p =? c) then ld8 m p - c else signature_cmp m (p + 1) lit'
  end.

(** A 64-bit value assigned to an int. *)
Definition to_int (x : Z) : Z := let y := u32 x in if y <? 2 ^ 31 then y else y - 2 ^ 32.

(** [for (i = 0; i < entries; i++)], with [n] iterations left; 0 is NULL. *)
Fixpoint find_madt (n : nat) (m : mem) (table_ptrs i : Z) : Z :=
  match n with
  | O => 0
  | S n' =>
      let header := ld64 m (table_ptrs + 8 * i) in
      if signature_cmp m header (chars "APIC") =? 0 then header else find_madt n' m table_ptrs (i + 1)
  end.

Definition is_enabled (m : mem) (ptr : Z) : bool :=
  (madt_entry_type m ptr =? 0) && negb (Z.land (lapic_flags m ptr) 1 =? 0).

(** [cpu_apic_ids[cpu_count++] = id]: the array has 64 elements. *)
Definition record_id (id : Z) : M kernel unit :=
  a ← gets acpi;
  if (0 <=? acpi_cpu_count a) && (acpi_cpu_count a <? 64) then
    modify (fun k => k <| acpi ::= fun a =>
      a <| cpu_apic_ids ::= <[Z.to_nat (acpi_cpu_count a) := id]> |> <| acpi_cpu_count ::= fun n => n + 1 |> |>)
  else fault.

(** [while (ptr < end)], at most [fuel] rounds of it. *)
Fixpoint walk_madt (fuel : nat) (ptr end_ : Z) : M kernel unit :=
  match fuel with
  | O => nofuel
  | S fuel' =>
      if end_ <=? ptr then mret tt else
      m ← gets mem_of;
      when (is_enabled m ptr) (record_id (lapic_apic_id m ptr));;
      walk_madt fuel' (ptr + madt_entry_length m ptr) end_
  end.

(** The table signed APIC, from the root table. *)
Definition acpi_madt (m : mem) (rsdp : Z) : Z :=
  let xsdt := rsdp_xsdt_address m rsdp in
  let entries := to_int (u64 (header_length m xsdt - SIZEOF_HEADER) / 8) in
  let table_ptrs := xsdt + SIZEOF_HEADER in
  find_madt (Z.to_nat entries) m table_ptrs 0.

(** acpi_init, with at most [fuel] rounds of its loop over the entries. *)
Definition acpi_init_with (fuel : nat) (rsdp : Z) : M kernel unit :=
  m ← gets mem_of;
  let madt := acpi_madt m rsdp in
  if madt =? 0 then mret tt else
  walk_madt fuel (madt + SIZEOF_MADT) (madt + header_length m madt);;
  console_print (cstr "acpi: ");;
  n ← gets (fun k => acpi_cpu_count (acpi k));
  console_print_num (u64 n);;
  console_print (chars " cores" ++ [10; 0]).

(** Enough rounds for a table without an entry of length 0, each of the others
    having at least one byte, and for the 65 an entry of length 0 that records
    an identifier takes to leave the array. *)
Definition walk_fuel (m : mem) (madt : Z) : nat := Z.to_nat (header_length m madt + 66).

Definition acpi_init (rsdp : Z) : M kernel unit :=
  m ← gets mem_of;
  acpi_init_with (walk_fuel m (acpi_madt m rsdp)) rsdp.

Definition acpi_get_lapic_id (index : Z) : M kernel Z :=
  a ← gets acpi;
  if index <? 0 then fault else from_option (cpu_apic_ids a !! Z.to_nat index).

Definition acpi_get_cpu_count (k : kernel) : Z := acpi_cpu_count (acpi k).

(** ** Specification *)

(** An entry of the table as the firmware means it. *)
Record madt_entry := MadtEntry { me_type : Z; me_length : Z; me_id : Z; me_flags : Z }.

Definition entry_at (m : mem) (p : Z) (e : madt_entry) : Prop :=
  madt_entry_type m p = me_type e /\ madt_entry_length m p = me_length e /\ 0 < me_length e /\
  lapic_apic_id m p = me_id e /\ lapic_flags m p = me_flags e.

(** The entries lie one after the other from [p] to [end_]. *)
Fixpoint entries_at (m : mem) (p : Z) (es : list madt_entry) (end_ : Z) : Prop :=
  match es with
  | [] => p = end_
  | e :: es' => entry_at m p e /\ entries_at m (p + me_length e) es' end_
  end.

(** The processors that can be used: type 0 with bit 0 of the flags. *)
Definition usable_ids (es : list madt_entry) : list Z :=
  me_id <$> filter (fun e => (me_type e =? 0) && Z.odd (me_flags e) = true) es.

(** The identifiers recorded so far. *)
Definition recorded (k : kernel) : list Z := take (Z.to_nat (acpi_cpu_count (acpi k))) (cpu_apic_ids (acpi k)).

Definition acpi_ok (k : kernel) : Prop :=
  length (cpu_apic_ids (acpi k)) = 64%nat /\ 0 <= acpi_cpu_count (acpi k) <= 64.

(** ** Lemmas *)

Lemma record_id_spec k id :
  acpi_ok k -> acpi_cpu_count (acpi k) < 64 ->
  exists k', record_id id k = Ret tt k' /\ acpi_ok k' /\ recorded k' = recorded k ++ [id] /\
    k' = k <| acpi := acpi k' |>.
Proof.
  intros [Hl Hc] Hlt. unfold record_id. rewrite bind_gets.
  destruct (Z.leb_spec 0 (acpi_cpu_count (acpi k))), (Z.ltb_spec (acpi_cpu_count (acpi k)) 64); try lia. simpl.
  eexists. split; [reflexivity |]. split; [split; simpl; [by rewrite length_insert | lia] |]. split; [| keta k].
  unfold recorded. simpl. rewrite Z2Nat.inj_add by lia. change (Z.to_nat 1) with 1%nat.
  rewrite Nat.add_1_r. erewrite take_S_r; [| apply list_lookup_insert_eq; lia].
  by rewrite take_insert_ge.
Qed.

Lemma is_enabled_odd m p : is_enabled m p = (madt_entry_type m p =? 0) && Z.odd (lapic_flags m p).
Proof.
  unfold is_enabled. f_equal. change 1 with (Z.ones 1). rewrite Z.land_ones by lia. change (2 ^ 1) with 2.
  rewrite Zmod_odd. by destruct (Z.odd _).
Qed.

Lemma entries_at_length m es : forall p end_,
  entries_at m p es end_ -> p + Z.of_nat (length es) <= end_.
Proof.
  induction es as [| e es IH]; intros p end_ H; simpl in *; [lia |].
  destruct H as [(_ & _ & Hl & _) H]. apply IH in H. lia.
Qed.

Lemma usable_ids_cons e es :
  usable_ids (e :: es) = (if (me_type e =? 0) && Z.odd (me_flags e) then [me_id e] else []) ++ usable_ids es.
Proof. unfold usable_ids. rewrite filter_cons. by destruct ((me_type e =? 0) && Z.odd (me_flags e)). Qed.

Lemma walk_madt_spec es : forall fuel k p end_,
  entries_at (mem_of k) p es end_ -> acpi_ok k ->
  acpi_cpu_count (acpi k) + Z.of_nat (length (usable_ids es)) <= 64 -> (length es < fuel)%nat ->
  exists k', walk_madt fuel p end_ k = Ret tt k' /\ acpi_ok k' /\ recorded k' = recorded k ++ usable_ids es /\
    k' = k <| acpi := acpi k' |>.
Proof.
  induction es as [| e es IH]; intros [| fuel] k p end_ He Hok Hn Hf; try (simpl in Hf; lia); cbn [walk_madt].
  { simpl in He. subst. rewrite Z.leb_refl. exists k. split; [done |]. split; [done |].
    split; [by rewrite app_nil_r | keta k]. }
  pose proof (entries_at_length _ _ _ _ He). destruct (Z.leb_spec end_ p); [simpl in *; lia |].
  destruct He as [(T & L & Hp & I & F) He]. rewrite bind_gets, is_enabled_odd, T, F, I, L.
  rewrite usable_ids_cons in Hn |- *.
  destruct ((me_type e =? 0) && Z.odd (me_flags e)) eqn:Ee; cbn [when].
  - simpl in Hn. destruct (record_id_spec k (me_id e) Hok ltac:(lia)) as (k1 & E1 & O1 & R1 & F1).
    rewrite (bind_ret _ _ _ _ _ E1).
    assert (C1 : acpi_cpu_count (acpi k1) = acpi_cpu_count (acpi k) + 1).
    { apply (f_equal length) in R1. unfold recorded in R1. rewrite length_app, !length_take in R1. simpl in R1.
      destruct Hok, O1. lia. }
    destruct (IH fuel k1 (p + me_length e) end_) as (k' & E & O & R & Fr); [by rewrite F1 | done | lia | simpl in Hf; lia |].
    exists k'. split; [done |]. split; [done |]. split; [rewrite R, R1, <- app_assoc; done |]. rewrite Fr, F1. keta k.
  - rewrite bind_mret. by destruct (IH fuel k (p + me_length e) end_) as (k' & E & O & R & Fr);
      [.. | exists k']; try (simpl in Hf; lia).
Qed.

(** The walk over well-formed entries reaches the next position with what they
    record recorded. *)
Lemma walk_madt_prefix es : forall k p q end_,
  entries_at (mem_of k) p es q -> q < end_ -> acpi_ok k ->
  acpi_cpu_count (acpi k) + Z.of_nat (length (usable_ids es)) <= 64 ->
  exists k1, acpi_ok k1 /\ mem_of k1 = mem_of k /\
    forall fuel, walk_madt (length es + fuel) p end_ k = walk_madt fuel q end_ k1.
Proof.
  induction es as [| e es IH]; intros k p q end_ He Hq Hok Hn.
  { simpl in He. subst. by exists k. }
  pose proof (entries_at_length _ _ _ _ He) as Hlen. destruct He as [(T & L & Hp & I & F) He].
  rewrite usable_ids_cons, length_app in Hn.
  assert (Hstep : exists k1, acpi_ok k1 /\ mem_of k1 = mem_of k /\
    acpi_cpu_count (acpi k1) + Z.of_nat (length (usable_ids es)) <= 64 /\
    when (is_enabled (mem_of k) p) (record_id (lapic_apic_id (mem_of k) p)) k = Ret tt k1).
  { rewrite is_enabled_odd, T, F, I. destruct ((me_type e =? 0) && Z.odd (me_flags e)); simpl in Hn.
    - destruct (record_id_spec k (me_id e) Hok ltac:(lia)) as (k1 & E1 & O1 & R1 & F1).
      exists k1. split; [done |]. split; [by rewrite F1 |]. split; [| done].
      apply (f_equal length) in R1. unfold recorded in R1. rewrite length_app, !length_take in R1. simpl in R1.
      destruct Hok, O1. lia.
    - exists k. split; [done |]. split; [done |]. split; [lia | done]. }
  destruct Hstep as (k1 & O1 & M1 & C1 & E1).
  destruct (IH k1 (p + me_length e) q end_) as (k2 & O2 & M2 & H2); [by rewrite M1 | done | done | done |].
  exists k2. split; [done |]. split; [congruence |]. intros fuel.
  cbn [length Nat.add walk_madt]. simpl in Hlen. destruct (Z.leb_spec end_ p); [lia |].
  by rewrite bind_gets, (bind_ret _ _ _ _ _ E1), L.
Qed.

(** What runs out of rounds does so with fewer. *)
Lemma walk_madt_less n : forall fuel p end_ k,
  (fuel <= n)%nat -> walk_madt n p end_ k = NoFuel -> walk_madt fuel p end_ k = NoFuel.
Proof.
  induction n as [| n IH]; intros [| fuel] p end_ k Hf H; try done; [lia |]. cbn [walk_madt] in *.
  destruct (end_ <=? p); [done |]. rewrite bind_gets in *. unfold mbind, M_bind in *.
  destruct (when _ _ k) as [[] k' | | |]; try done. eapply IH; [lia | done].
Qed.

(** An entry of length 0 that records nothing is visited again and again. *)
Lemma walk_madt_stuck k q end_ :
  q < end_ -> madt_entry_length (mem_of k) q = 0 -> is_enabled (mem_of k) q = false ->
  forall fuel, walk_madt fuel q end_ k = NoFuel.
Proof.
  intros Hq Hl He fuel. induction fuel as [| fuel IH]; [done |]. cbn [walk_madt].
  destruct (Z.leb_spec end_ q); [lia |]. by rewrite bind_gets, He, Hl, Z.add_0_r.
Qed.

(** One that records an identifier does so until the array is full, and then
    writes behind it. *)
Lemma walk_madt_overrun n : forall k q end_ fuel,
  acpi_ok k -> acpi_cpu_count (acpi k) = 64 - Z.of_nat n ->
  q < end_ -> madt_entry_length (mem_of k) q = 0 -> is_enabled (mem_of k) q = true ->
  (n < fuel)%nat -> walk_madt fuel q end_ k = Fault.
Proof.
  induction n as [| n IH]; intros k q end_ [| fuel] Hok Hc Hq Hl He Hf; try lia; cbn [walk_madt].
  all: destruct (Z.leb_spec end_ q); [lia |]; rewrite bind_gets, He, Hl, Z.add_0_r; cbn [when].
  - assert (Hr : record_id (lapic_apic_id (mem_of k) q) k = Fault) by (unfold record_id; rewrite bind_gets, Hc; done).
    unfold mbind, M_bind. by rewrite Hr.
  - destruct (record_id_spec k (lapic_apic_id (mem_of k) q) Hok ltac:(lia)) as (k1 & E1 & O1 & R1 & F1).
    rewrite (bind_ret _ _ _ _ _ E1). apply IH; try done; try (by rewrite F1); [| lia].
    apply (f_equal length) in R1. unfold recorded in R1. rewrite length_app, !length_take in R1. simpl in R1.
    destruct Hok, O1. lia.
Qed.

(** The search stops at the first table with the signature. *)
Lemma find_madt_spec m ptrs madt : forall d n i,
  (forall j, i <= j < i + Z.of_nat d -> signature_cmp m (ld64 m (ptrs + 8 * j)) (chars "APIC") <> 0) ->
  ld64 m (ptrs + 8 * (i + Z.of_nat d)) = madt -> signature_cmp m madt (chars "APIC") = 0 -> (d < n)%nat ->
  find_madt n m ptrs i = madt.
Proof.
  induction d as [| d IH]; intros [| n] i Hne Hd Hm Hn; try lia; cbn [find_madt].
  - rewrite Z.add_0_r in Hd. by rewrite Hd, Hm.
  - destruct (Z.eqb_spec (signature_cmp m (ld64 m (ptrs + 8 * i)) (chars "APIC")) 0) as [E |].
    { by apply Hne in E; [| lia]. }
    apply IH; [intros; apply Hne; lia | by replace (i + 1 + Z.of_nat d) with (i + Z.of_nat (S d)) by lia | done | lia].
Qed.

Lemma find_madt_none m ptrs : forall n i,
  (forall j, i <= j < i + Z.of_nat n -> signature_cmp m (ld64 m (ptrs + 8 * j)) (chars "APIC") <> 0) ->
  find_madt n m ptrs i = 0.
Proof.
  induction n as [| n IH]; intros i Hne; [done |]. cbn [find_madt].
  destruct (Z.eqb_spec (signature_cmp m (ld64 m (ptrs + 8 * i)) (chars "APIC")) 0) as [E |].
  { by apply Hne in E; [| lia]. }
  apply IH. intros. apply Hne. lia.
Qed.

(** The number of tables the root table lists. *)
Lemma to_int_entries len : SIZEOF_HEADER <= len < 2 ^ 32 ->
  to_int (u64 (len - SIZEOF_HEADER) / 8) = (len - SIZEOF_HEADER) / 8.
Proof.
  unfold SIZEOF_HEADER. intros Hl. rewrite u64_small by lia. unfold to_int.
  assert (0 <= (len - 36) / 8 < 2 ^ 31) by (split; [apply Z.div_pos | apply Z.div_lt_upper_bound]; lia).
  rewrite u32_small by lia. by destruct (Z.ltb_spec ((len - 36) / 8) (2 ^ 31)); [| lia].
Qed.

(** The firmware's tables: of those the root table at the address [rsdp] gives
    lists, number [d] is the first signed APIC, at [madt]. *)
Record madt_found (m : mem) (rsdp : Z) (d : nat) (madt : Z) : Prop := {
  mf_length : SIZEOF_HEADER <= header_length m (rsdp_xsdt_address m rsdp);
  mf_before : forall j, 0 <= j < Z.of_nat d ->
    signature_cmp m (ld64 m (rsdp_xsdt_address m rsdp + SIZEOF_HEADER + 8 * j)) (chars "APIC") <> 0;
  mf_index : Z.of_nat d < (header_length m (rsdp_xsdt_address m rsdp) - SIZEOF_HEADER) / 8;
  mf_madt : ld64 m (rsdp_xsdt_address m rsdp + SIZEOF_HEADER + 8 * Z.of_nat d) = madt;
  mf_signature : signature_cmp m madt (chars "APIC") = 0;
  mf_not_null : madt <> 0
}.

(** It has the entries [es]. *)
Record acpi_tables (m : mem) (rsdp : Z) (d : nat) (madt : Z) (es : list madt_entry) : Prop := {
  at_found : madt_found m rsdp d madt;
  at_entries : entries_at m (madt + SIZEOF_MADT) es (madt + header_length m madt)
}.

Lemma acpi_madt_found m rsdp d madt : madt_found m rsdp d madt -> acpi_madt m rsdp = madt.
Proof.
  intros [T1 T2 T3 T4 T5 T6]. unfold acpi_madt. cbv zeta.
  rewrite to_int_entries by (split; [done | apply ld32_range]).
  by rewrite (find_madt_spec _ _ madt d) by (done || lia).
Qed.

Lemma acpi_print_shows : shows (
  console_print (cstr "acpi: ");;
  n ← gets (fun k => acpi_cpu_count (acpi k));
  console_print_num (u64 n);;
  console_print (chars " cores" ++ [10; 0])).
Proof.
  apply shows_bind; [auto with shows |]. intros _. apply shows_bind; [auto with shows |]. intros n.
  apply shows_bind; [apply shows_num, u64_range |]. intros _.
  apply (shows_print _ (chars " cores" ++ [10])); [done | repeat constructor; unfold is_char; lia].
Qed.

(** ** Theorems *)

(** C25: acpi_init records the identifiers of exactly the usable processors of
    the firmware's APIC table, in its order, after those already recorded (as
    many as the array holds), prints, and changes nothing else. *)
Theorem acpi_init_correct k rsdp d madt es :
  acpi_tables (mem_of k) rsdp d madt es -> acpi_ok k -> con_ready k ->
  acpi_cpu_count (acpi k) + Z.of_nat (length (usable_ids es)) <= 64 ->
  exists k', acpi_init rsdp k = Ret tt k' /\ acpi_ok k' /\ recorded k' = recorded k ++ usable_ids es /\
    con_ready k' /\ drawn (k <| acpi := acpi k' |>) k' /\
    (forall i id, recorded k' !! i = Some id -> acpi_get_lapic_id (Z.of_nat i) k' = Ret id k').
Proof.
  intros [T T7] Hok Hcon Hn. unfold acpi_init, acpi_init_with. rewrite !bind_gets. cbv zeta.
  rewrite (acpi_madt_found _ _ d madt) by done. apply mf_not_null, Z.eqb_neq in T. rewrite T.
  pose proof (entries_at_length _ _ _ _ T7) as Hlen.
  destruct (walk_madt_spec es (walk_fuel (mem_of k) madt) k _ _ T7 Hok Hn) as (k1 & E & O & R & F).
  { unfold walk_fuel. unfold SIZEOF_MADT in Hlen. lia. }
  rewrite (bind_ret _ _ _ _ _ E).
  destruct (acpi_print_shows k1) as ([] & k2 & E2 & D & C2); [by rewrite F |].
  assert (Ha : acpi k2 = acpi k1) by (by destruct D as (? & ? & ? & -> & _)).
  exists k2. unfold recorded, acpi_ok. rewrite Ha. split; [exact E2 |]. split; [exact O |]. split; [exact R |].
  split; [done |]. split; [by rewrite <- F |].
  intros i id Hi. unfold acpi_get_lapic_id. rewrite bind_gets, Ha, Nat2Z.id.
  destruct (Z.ltb_spec (Z.of_nat i) 0); [lia |]. apply lookup_take_Some in Hi as [Hi _]. by rewrite Hi.
Qed.

(** A root table with two tables, the second with three processors, one of
    them disabled, and an entry of another type. *)
Definition demo_madt : list madt_entry :=
  [MadtEntry 0 8 0 1; MadtEntry 1 12 5 0; MadtEntry 0 8 2 1; MadtEntry 0 8 3 0].

Definition put_entry (m : mem) (p : Z) (e : madt_entry) : mem :=
  st32 (st8 (st8 (st8 m p (me_type e)) (p + 1) (me_length e)) (p + 3) (me_id e)) (p + 4) (me_flags e).
Fixpoint put_entries (m : mem) (p : Z) (es : list madt_entry) : mem :=
  match es with [] => m | e :: es' => put_entries (put_entry m p e) (p + me_length e) es' end.
Definition put_bytes (m : mem) (p : Z) (l : list Z) : mem :=
  foldl (fun m '(i, b) => st8 m (p + Z.of_nat i) b) m (imap pair l).

Definition demo_tables : mem :=
  let m := st64 ∅ (0x1000 + 24) 0x2000 in
  let m := st32 m (0x2000 + 4) 52 in
  let m := st64 (st64 m (0x2000 + 36) 0x3000) (0x2000 + 44) 0x4000 in
  let m := put_bytes (put_bytes m 0x3000 (chars "FACP")) 0x4000 (chars "APIC") in
  put_entries (st32 m (0x4000 + 4) 80) (0x4000 + 44) demo_madt.

Lemma demo_tables_ok : acpi_tables demo_tables 0x1000 1 0x4000 demo_madt.
Proof.
  constructor; [constructor |].
  - by vm_compute.
  - intros j Hj. assert (j = 0) as -> by lia. by vm_compute.
  - by vm_compute.
  - by vm_compute.
  - by vm_compute.
  - done.
  - repeat split; by vm_compute.
Qed.

Lemma acpi_init_correct_witness :
  exists k', acpi_init 0x1000 (small_screen <| hw := plain_hw demo_tables |>) = Ret tt k' /\ recorded k' = [0; 2].
Proof.
  destruct (acpi_init_correct (small_screen <| hw := plain_hw demo_tables |>) 0x1000 1 0x4000 demo_madt)
    as (k' & E & _ & R & _); [apply demo_tables_ok | split; [reflexivity | simpl; lia]
    | split; [apply small_screen_ok | reflexivity] | vm_compute; congruence |].
  exists k'. split; [exact E |]. rewrite R. reflexivity.
Defined.

(** C26: the two ways acpi_init fails on the firmware's tables.  (1) When no
    listed table has the signature, the kernel is left as it is.  (2) When the
    walk over the APIC table comes, after any number of proper entries, to an
    entry of length 0 before the end of the table, it is never left: if the entry
    records nothing, no number of rounds of the loop is enough for acpi_init to
    return; if it records an identifier, it does so again and again until the
    array of 64 is full, and the next write is behind its end. *)
Theorem acpi_init_missing_or_stuck k rsdp :
  (let xsdt := rsdp_xsdt_address (mem_of k) rsdp in
   SIZEOF_HEADER <= header_length (mem_of k) xsdt ->
   (forall j, 0 <= j < (header_length (mem_of k) xsdt - SIZEOF_HEADER) / 8 ->
      signature_cmp (mem_of k) (ld64 (mem_of k) (xsdt + SIZEOF_HEADER + 8 * j)) (chars "APIC") <> 0) ->
   acpi_init rsdp k = Ret tt k) /\
  (forall d madt es p, madt_found (mem_of k) rsdp d madt ->
   entries_at (mem_of k) (madt + SIZEOF_MADT) es p -> p < madt + header_length (mem_of k) madt ->
   madt_entry_length (mem_of k) p = 0 -> acpi_ok k ->
   acpi_cpu_count (acpi k) + Z.of_nat (length (usable_ids es)) <= 64 ->
   if is_enabled (mem_of k) p then acpi_init rsdp k = Fault
   else forall fuel, acpi_init_with fuel rsdp k = NoFuel).
Proof.
  split.
  - intros xsdt Hl Hne. assert (0 <= (header_length (mem_of k) xsdt - SIZEOF_HEADER) / 8) by (apply Z.div_pos; lia).
    unfold acpi_init, acpi_init_with, acpi_madt. rewrite !bind_gets. cbv zeta.
    rewrite to_int_entries by (split; [done | apply ld32_range]). fold xsdt.
    rewrite find_madt_none; [done |]. intros j Hj. apply Hne. lia.
  - intros d madt es p Hd Hes Hp Hl Hok Hn. pose proof (entries_at_length _ _ _ _ Hes) as Hlen.
    destruct (walk_madt_prefix es k _ p _ Hes Hp Hok Hn) as (k1 & O1 & M1 & W).
    pose proof (mf_not_null _ _ _ _ Hd) as H0. apply Z.eqb_neq in H0.
    assert (Hw : forall fuel r, walk_madt fuel (madt + SIZEOF_MADT) (madt + header_length (mem_of k) madt) k = r ->
      r = Fault \/ r = NoFuel -> acpi_init_with fuel rsdp k = match r with Fault => Fault | _ => NoFuel end).
    { intros fuel r E Hr. unfold acpi_init_with. rewrite bind_gets, (acpi_madt_found _ _ d madt Hd). cbv zeta.
      rewrite H0. unfold mbind at 1, M_bind. rewrite E. by destruct Hr as [-> | ->]. }
    destruct (is_enabled (mem_of k) p) eqn:He.
    + unfold acpi_init. rewrite bind_gets, (acpi_madt_found _ _ d madt Hd). unfold walk_fuel, SIZEOF_MADT in *.
      apply (Hw _ Fault); [| by left].
      replace (Z.to_nat (header_length (mem_of k) madt + 66))
        with (length es + (Z.to_nat (header_length (mem_of k) madt + 66) - length es))%nat by lia.
      rewrite W. destruct O1 as [O1 C1].
      apply (walk_madt_overrun (Z.to_nat (64 - acpi_cpu_count (acpi k1)))); try (by rewrite ?M1); lia.
    + intros fuel. apply (Hw _ NoFuel); [| by right].
      destruct (Nat.le_gt_cases (length es) fuel) as [Hf | Hf].
      * replace fuel with (length es + (fuel - length es))%nat by lia. rewrite W.
        apply walk_madt_stuck; by rewrite ?M1.
      * pose proof (W 0%nat) as W0. simpl in W0. rewrite Nat.add_0_r in W0. by apply (walk_madt_less (length es)); [lia |].
Qed.

(** The same tables with the length of the second entry cleared. *)
Definition stuck_tables : mem := st8 demo_tables (0x4000 + 53) 0.

Lemma acpi_init_missing_or_stuck_witness :
  is_enabled stuck_tables (0x4000 + 52) = false /\
  (forall fuel, acpi_init_with fuel 0x1000 (small_screen <| hw := plain_hw stuck_tables |>) = NoFuel).
Proof.
  split; [by vm_compute |].
  destruct (acpi_init_missing_or_stuck (small_screen <| hw := plain_hw stuck_tables |>) 0x1000) as [_ H].
  apply (H 1%nat 0x4000 [MadtEntry 0 8 0 1] (0x4000 + 52)).
  - constructor; [by vm_compute | | by vm_compute | by vm_compute | by vm_compute | done].
    intros j Hj. assert (j = 0) as -> by lia. by vm_compute.
  - repeat split; by vm_compute.
  - by vm_compute.
  - by vm_compute.
  - split; [reflexivity | simpl; lia].
  - vm_compute. congruence.
Defined.
