(* ===== verification/Queue.v ===== *)
(** The scheduler's queues: NULL-terminated lists of threads linked through
    their [next] fields, in the store of thread_t objects.

    [qrep ts heads Q] says that the list starting at each address of [heads] is
    the one of the same position in [Q], and that no thread is in two places.
    The lemmas give the effect of the pointer manipulations of sched.c on
    [Q]. *)

From S2P Require Import Prelude Memory State.

Abbreviation threads := (gmap Z thread_t).

(** The list of threads that starts at address [h]. *)
Fixpoint lseg (ts : threads) (h : Z) (l : list Z) : Prop :=
  match l with
  | [] => h = 0
  | x :: l' => h = x /\ x <> 0 /\ exists t, ts !! x = Some t /\ lseg ts (t_next t) l'
  end.

Record qrep (ts : threads) (heads : list Z) (Q : list (list Z)) : Prop := {
  qr_lists : Forall2 (lseg ts) heads Q;
  qr_nodup : NoDup (concat Q)
}.

(** A thread's data, without its link. *)
Definition strip (t : thread_t) : thread_t := t <| t_next := 0 |>.

Lemma strip_next t n : strip (t <| t_next := n |>) = strip t.
Proof. by destruct t. Qed.

Lemma lseg_ext ts ts' l : forall h,
  (forall x, x ∈ l -> exists t t', ts !! x = Some t /\ ts' !! x = Some t' /\ t_next t' = t_next t) ->
  lseg ts h l -> lseg ts' h l.
Proof.
  induction l as [| x l IH]; intros h Hx H; [done |].
  destruct H as (-> & Hne & t & Ht & H). split; [done |]. split; [done |].
  destruct (Hx x ltac:(by left)) as (t1 & t' & E1 & E2 & En). simplify_eq.
  exists t'. split; [done |]. rewrite En. apply IH; [| done]. intros y Hy. apply Hx. by right.
Qed.

Lemma lseg_insert_notin ts l h x t : x ∉ l -> lseg ts h l -> lseg (<[x := t]> ts) h l.
Proof.
  revert h; induction l as [| y l IH]; intros h Hx H; [done |].
  apply not_elem_of_cons in Hx as [Hne Hx]. destruct H as (-> & H0 & t' & Ht' & H).
  split; [done |]. split; [done |]. exists t'. rewrite lookup_insert_ne by done. auto.
Qed.

Lemma lseg_insert_data ts l h x t t' :
  ts !! x = Some t -> t_next t' = t_next t -> lseg ts h l -> lseg (<[x := t']> ts) h l.
Proof.
  intros Hx Hn. revert h; induction l as [| y l IH]; intros h H; [done |].
  destruct H as (-> & H0 & t1 & Ht1 & H). split; [done |]. split; [done |].
  destruct (decide (x = y)) as [-> | Hne].
  - simplify_eq. exists t'. rewrite lookup_insert_eq, Hn. auto.
  - exists t1. rewrite lookup_insert_ne by done. auto.
Qed.

Lemma lseg_lookup ts h l x : lseg ts h l -> x ∈ l -> x <> 0 /\ exists t, ts !! x = Some t.
Proof.
  revert h; induction l as [| y l IH]; intros h H Hx; [by apply elem_of_nil in Hx |].
  destruct H as (-> & H0 & t & Ht & H). apply elem_of_cons in Hx as [-> | Hx]; eauto.
Qed.

Lemma lseg_head ts h l : lseg ts h l -> h = default 0 (head l).
Proof. destruct l; simpl; [done |]. by intros [-> _]. Qed.

Lemma lseg_nil ts h l : lseg ts h l -> h = 0 <-> l = [].
Proof. destruct l; simpl; [done |]. intros (-> & ? & _). naive_solver. Qed.

(** The link out of [x] inside a list leads to the rest of the list. *)
Lemma lseg_mid ts h k x r t :
  lseg ts h (k ++ x :: r) -> ts !! x = Some t -> lseg ts (t_next t) r.
Proof.
  revert h; induction k as [| y k IH]; intros h H Hx.
  - destruct H as (_ & _ & t' & Ht & H). by simplify_eq.
  - destruct H as (_ & _ & t' & _ & H). by eapply IH.
Qed.

(** *** One list *)

(** Unlinking [x] behind its predecessor [p]. *)
Lemma lseg_unlink ts h k p x r tp tx :
  NoDup (k ++ p :: x :: r) -> lseg ts h (k ++ p :: x :: r) ->
  ts !! p = Some tp -> ts !! x = Some tx ->
  lseg (<[p := tp <| t_next := t_next tx |>]> ts) h (k ++ p :: r).
Proof.
  revert h; induction k as [| y k IH]; intros h Hnd H Hp Hx; simpl in *.
  - destruct H as (-> & Hp0 & t & Ht & Hxr). simplify_eq.
    destruct Hxr as (Hn & Hx0 & t' & Ht' & Hr). simplify_eq.
    split; [done |]. split; [done |]. eexists. rewrite lookup_insert_eq. split; [done |]. simpl.
    apply lseg_insert_notin; [| done].
    apply NoDup_cons in Hnd as [Hnp _]. intros ?. apply Hnp. by right.
  - destruct H as (-> & Hy0 & t & Ht & H). apply NoDup_cons in Hnd as [Hny Hnd].
    split; [done |]. split; [done |]. exists t.
    rewrite lookup_insert_ne by (intros ->; apply Hny; apply elem_of_app; right; by left).
    split; [done |]. by apply IH.
Qed.

(** Linking [x] behind the last element [y]. *)
Lemma lseg_append ts h k y x ty tx :
  x <> 0 -> x ∉ k ++ [y] -> NoDup (k ++ [y]) -> lseg ts h (k ++ [y]) ->
  ts !! y = Some ty -> ts !! x = Some tx -> t_next tx = 0 ->
  lseg (<[y := ty <| t_next := x |>]> ts) h (k ++ [y; x]).
Proof.
  intros Hx0 Hx Hnd H Hy Htx Hn0. revert h Hx Hnd H; induction k as [| z k IH]; intros h Hx Hnd H; simpl in *.
  - destruct H as (-> & Hy0 & t & Ht & _). simplify_eq.
    split; [done |]. split; [done |]. eexists. rewrite lookup_insert_eq. split; [done |]. simpl.
    split; [done |]. split; [done |]. exists tx.
    rewrite lookup_insert_ne by (intros ->; apply Hx; by left). done.
  - destruct H as (-> & Hz0 & t & Ht & H). apply NoDup_cons in Hnd as [Hnz Hnd].
    apply not_elem_of_cons in Hx as [_ Hx].
    split; [done |]. split; [done |]. exists t.
    rewrite lookup_insert_ne by (intros ->; apply Hnz; apply elem_of_app; right; by left).
    split; [done |]. by apply IH.
Qed.

(** *** All queues *)

Lemma list_alter_lookup {A} (f : A -> A) (l : list A) i x :
  l !! i = Some x -> alter f i l = <[i := f x]> l.
Proof.
  intros Hi. apply list_eq. intros j. destruct (decide (j = i)) as [-> | Hne].
  - rewrite list_lookup_alter_eq, Hi, list_lookup_insert_eq; [done | by eapply lookup_lt_Some].
  - by rewrite list_lookup_alter_ne, list_lookup_insert_ne by done.
Qed.

Lemma concat_take_drop (Q : list (list Z)) i l :
  Q !! i = Some l -> concat Q ≡ₚ l ++ concat (take i Q ++ drop (S i) Q).
Proof.
  intros H. rewrite <- (take_drop_middle Q i l H) at 1.
  rewrite !concat_app. simpl. rewrite app_assoc, (Permutation_app_comm (concat _) l), <- app_assoc. done.
Qed.

Lemma concat_insert (Q : list (list Z)) i l l' :
  Q !! i = Some l -> concat (<[i := l']> Q) ≡ₚ l' ++ concat (take i Q ++ drop (S i) Q).
Proof.
  intros H. assert (Hl : <[i := l']> Q !! i = Some l')
    by (apply list_lookup_insert_eq; by eapply lookup_lt_Some).
  rewrite (concat_take_drop _ _ _ Hl). apply Permutation_app_head.
  rewrite take_insert_ge, drop_insert_lt by lia. done.
Qed.

(** Replacing one queue by a list that adds [x] in front. *)
Lemma concat_insert_cons (Q : list (list Z)) i l l' x :
  Q !! i = Some l -> l' ≡ₚ x :: l -> concat (<[i := l']> Q) ≡ₚ x :: concat Q.
Proof.
  intros H Hp. rewrite (concat_insert Q i l l' H), (concat_take_drop Q i l H), Hp. done.
Qed.

Lemma concat_remove (Q : list (list Z)) i l l' x :
  Q !! i = Some l -> l ≡ₚ x :: l' -> concat Q ≡ₚ x :: concat (<[i := l']> Q).
Proof.
  intros H Hp. rewrite (concat_insert Q i l l' H), (concat_take_drop Q i l H), Hp. done.
Qed.

Lemma elem_of_concat_lookup (Q : list (list Z)) i l x : Q !! i = Some l -> x ∈ l -> x ∈ concat Q.
Proof. intros H Hx. rewrite (concat_take_drop Q i l H). apply elem_of_app. by left. Qed.

Lemma queue_nodup (Q : list (list Z)) i l : NoDup (concat Q) -> Q !! i = Some l -> NoDup l.
Proof. intros Hnd H. rewrite (concat_take_drop Q i l H) in Hnd. by apply NoDup_app in Hnd as [? _]. Qed.

Lemma queues_disjoint (Q : list (list Z)) i j l l' x :
  NoDup (concat Q) -> Q !! i = Some l -> Q !! j = Some l' -> x ∈ l -> x ∈ l' -> i = j.
Proof.
  intros Hnd Hi Hj Hx Hx'. destruct (decide (i = j)) as [| Hne]; [done |].
  rewrite (concat_take_drop Q i l Hi) in Hnd. apply NoDup_app in Hnd as (_ & Hd & _).
  destruct (Hd x Hx). apply list_elem_of_In, in_concat. exists l'. split; [| by apply list_elem_of_In].
  apply list_elem_of_In, elem_of_app. destruct (decide (j < i)%nat).
  - left. apply (list_elem_of_lookup_2 _ j). by rewrite lookup_take_lt by lia.
  - right. apply (list_elem_of_lookup_2 _ (j - S i)). rewrite lookup_drop. rewrite <- Hj. f_equal. lia.
Qed.

Section queues.
Context (ts : threads) (heads : list Z) (Q : list (list Z)) (HQ : qrep ts heads Q).

Lemma qrep_head i l : Q !! i = Some l -> exists h, heads !! i = Some h /\ lseg ts h l.
Proof. intros Hl. by apply (Forall2_lookup_r _ _ _ _ _ (qr_lists _ _ _ HQ)) in Hl. Qed.

Lemma qrep_queue i h : heads !! i = Some h -> exists l, Q !! i = Some l /\ lseg ts h l.
Proof. intros Hl. by apply (Forall2_lookup_l _ _ _ _ _ (qr_lists _ _ _ HQ)) in Hl. Qed.

(** Every queued thread is an object of the store. *)
Lemma qrep_thread x : x ∈ concat Q -> x <> 0 /\ exists t, ts !! x = Some t.
Proof.
  intros Hx. apply list_elem_of_In, in_concat in Hx as (l & Hl & Hx).
  apply list_elem_of_In in Hl, Hx. apply list_elem_of_lookup in Hl as [i Hi].
  destruct (qrep_head i l Hi) as (h & _ & H). by eapply lseg_lookup.
Qed.

(** Updating a thread's data. *)
Lemma qrep_data x t t' :
  ts !! x = Some t -> t_next t' = t_next t -> qrep (<[x := t']> ts) heads Q.
Proof.
  intros Hx Hn. destruct HQ as [HL Hnd]. constructor; [| done].
  eapply Forall2_impl; [exact HL |]. intros h l. by apply lseg_insert_data with t.
Qed.

(** Writing a thread that is in no queue. *)
Lemma qrep_outside x t : x ∉ concat Q -> qrep (<[x := t]> ts) heads Q.
Proof.
  intros Hx. destruct HQ as [HL Hnd]. constructor; [| done].
  apply Forall2_lookup. intros i. pose proof (Forall2_lookup_lr (lseg ts) heads Q i) as Hlr.
  destruct (heads !! i) as [h |] eqn:Eh, (Q !! i) as [l |] eqn:El; try constructor.
  - apply lseg_insert_notin; [intros Hl; apply Hx; by eapply elem_of_concat_lookup | by eapply Hlr].
  - apply (Forall2_lookup_l _ _ _ _ _ HL) in Eh as (? & ? & _). congruence.
  - apply (Forall2_lookup_r _ _ _ _ _ HL) in El as (? & ? & _). congruence.
Qed.
End queues.

(** Replacing queue [i], when the new store keeps the other queues. *)
Lemma qrep_replace ts ts' heads Q i h' l l' :
  qrep ts heads Q -> Q !! i = Some l -> lseg ts' h' l' -> NoDup (concat (<[i := l']> Q)) ->
  (forall h j lj, j <> i -> Q !! j = Some lj -> lseg ts h lj -> lseg ts' h lj) ->
  qrep ts' (<[i := h']> heads) (<[i := l']> Q).
Proof.
  intros [HL Hnd] Hi Hl' Hnd' Hoth. constructor; [| done].
  apply Forall2_lookup. intros j. destruct (decide (j = i)) as [-> | Hne].
  - rewrite !list_lookup_insert_eq; [by constructor | by eapply lookup_lt_Some |].
    rewrite (Forall2_length _ _ _ HL). by eapply lookup_lt_Some.
  - rewrite !list_lookup_insert_ne by done.
    destruct (heads !! j) as [h |] eqn:Eh.
    + apply (Forall2_lookup_l _ _ _ _ _ HL) in Eh as (lj & Ej & H). rewrite Ej. constructor. by eapply Hoth.
    + destruct (Q !! j) as [lj |] eqn:Ej; [| constructor].
      apply (Forall2_lookup_r _ _ _ _ _ HL) in Ej as (? & ? & _). congruence.
Qed.

(** [x->next = head; head = x] for a thread in no queue. *)
Lemma qrep_push ts heads Q j h l x t :
  qrep ts heads Q -> heads !! j = Some h -> Q !! j = Some l -> x <> 0 -> x ∉ concat Q ->
  ts !! x = Some t -> t_next t = h ->
  qrep ts (<[j := x]> heads) (<[j := x :: l]> Q).
Proof.
  intros HQ Hh Hl Hx0 Hx Ht Hn. destruct (qrep_head _ _ _ HQ j l Hl) as (h' & Hh' & Hseg). simplify_eq.
  eapply qrep_replace; [exact HQ | exact Hl | | | by auto].
  - split; [done |]. split; [done |]. eauto.
  - rewrite (concat_insert_cons Q j l (x :: l) x Hl) by done. apply NoDup_cons. split; [done | apply HQ].
Qed.

(** [head = head->next]. *)
Lemma qrep_pop ts heads Q i x r t :
  qrep ts heads Q -> Q !! i = Some (x :: r) -> ts !! x = Some t ->
  qrep ts (<[i := t_next t]> heads) (<[i := r]> Q) /\ x ∉ concat (<[i := r]> Q) /\ x <> 0.
Proof.
  intros HQ Hi Ht. destruct (qrep_head _ _ _ HQ i _ Hi) as (h & _ & (-> & Hx0 & t' & Ht' & Hr)). simplify_eq.
  pose proof (concat_remove Q i (x :: r) r x Hi (Permutation_refl _)) as Hp.
  pose proof (qr_nodup _ _ _ HQ) as Hnd. rewrite Hp in Hnd. apply NoDup_cons in Hnd as [Hx Hnd].
  split; [| done]. eapply qrep_replace; [exact HQ | exact Hi | exact Hr | exact Hnd | by auto].
Qed.

(** [p->next = x->next] for the neighbour [p] in front of [x]. *)
Lemma qrep_unlink ts heads Q i k p x r tp tx :
  qrep ts heads Q -> Q !! i = Some (k ++ p :: x :: r) -> ts !! p = Some tp -> ts !! x = Some tx ->
  qrep (<[p := tp <| t_next := t_next tx |>]> ts) heads (<[i := k ++ p :: r]> Q) /\
  x ∉ concat (<[i := k ++ p :: r]> Q) /\ x <> 0 /\ p <> x.
Proof.
  intros HQ Hi Hp Hx. pose proof (qr_nodup _ _ _ HQ) as Hnd.
  pose proof (queue_nodup Q i _ Hnd Hi) as Hndl.
  destruct (qrep_head _ _ _ HQ i _ Hi) as (h & Hh & Hseg).
  assert (Hperm : k ++ p :: x :: r ≡ₚ x :: k ++ p :: r) by solve_Permutation.
  pose proof (concat_remove Q i _ _ x Hi Hperm) as Hc. rewrite Hc in Hnd. apply NoDup_cons in Hnd as [Hxn Hnd].
  assert (Hpl : p ∈ k ++ p :: x :: r) by (apply elem_of_app; right; by left).
  split.
  - replace heads with (<[i := h]> heads) by (by apply list_insert_id).
    eapply qrep_replace; [exact HQ | exact Hi | by apply (lseg_unlink _ _ _ _ x) | exact Hnd |].
    intros h' j lj Hj Ej Hl. apply lseg_insert_notin; [| done]. intros Hin.
    apply Hj. symmetry. by eapply (queues_disjoint Q i j); [apply HQ | | | |].
  - split; [done |]. split.
    + apply (lseg_lookup ts h (k ++ p :: x :: r)); [done |]. apply elem_of_app. right. right. by left.
    + intros ->. apply NoDup_app in Hndl as (_ & _ & Hndl). apply NoDup_cons in Hndl as [Hn _].
      apply Hn. by left.
Qed.

(** [last->next = x] for a thread [x] in no queue, behind the last one. *)
Lemma qrep_append ts heads Q i k y x ty tx :
  qrep ts heads Q -> Q !! i = Some (k ++ [y]) -> x <> 0 -> x ∉ concat Q ->
  ts !! y = Some ty -> ts !! x = Some tx -> t_next tx = 0 ->
  qrep (<[y := ty <| t_next := x |>]> ts) heads (<[i := k ++ [y; x]]> Q).
Proof.
  intros HQ Hi Hx0 Hx Hy Htx Hn0. pose proof (qr_nodup _ _ _ HQ) as Hnd.
  destruct (qrep_head _ _ _ HQ i _ Hi) as (h & Hh & Hseg).
  replace heads with (<[i := h]> heads) by (by apply list_insert_id).
  eapply qrep_replace; [exact HQ | exact Hi | | |].
  - apply (lseg_append _ _ _ _ _ _ tx); try done; [| by eapply queue_nodup].
    intros Hin. apply Hx. by eapply elem_of_concat_lookup.
  - rewrite (concat_insert_cons Q i (k ++ [y]) (k ++ [y; x]) x Hi) by solve_Permutation.
    apply NoDup_cons. done.
  - intros h' j lj Hj Ej Hl. apply lseg_insert_notin; [| done]. intros Hin.
    apply Hj. symmetry. eapply (queues_disjoint Q i j); [apply HQ | exact Hi | exact Ej | | exact Hin].
    apply elem_of_app. right. by left.
Qed.

(** The length of a queue is bounded by the number of threads. *)
Lemma queue_length ts heads Q i l : qrep ts heads Q -> Q !! i = Some l -> (length l <= size ts)%nat.
Proof.
  intros HQ Hi. destruct (qrep_head _ _ _ HQ i l Hi) as (h & _ & Hseg).
  pose proof (queue_nodup Q i l (qr_nodup _ _ _ HQ) Hi) as Hnd.
  rewrite <- (size_list_to_set (C := gset Z) l Hnd). rewrite <- (size_dom ts).
  apply subseteq_size. intros x Hx. apply elem_of_list_to_set in Hx.
  destruct (lseg_lookup ts h l x Hseg Hx) as (_ & t & Ht). by apply elem_of_dom_2 in Ht.
Qed.
