(* ===== verification/Sched.v ===== *)
(** sched.c: the scheduler.

    The loops over a processor's queues work on [qs]: the store of threads, the
    heads of the processor's ready queues and its cpu_extra_t.  [with_qs] runs
    such code on the kernel state, for the cpu_t at a given address. *)

From S2P Require Import Prelude Memory State Lib Console Pmm Heap Apic Cpu Queue.

Definition MAX_PRIORITY : Z := 31.
Definition DEFAULT_PRIORITY : Z := 10.
(** sizeof(thread_t) and the stack size *)
Definition SIZEOF_THREAD : Z := 104.
Definition STACK_BYTES : Z := 8192.

(** ** Queue code of one processor *)

Record qs := Qs {
  q_threads : threads;
  q_ready : list Z;
  q_extra : cpu_extra_t
}.
#[export] Instance qs_settable : Settable qs := fun r =>
  Qs (q_threads r) (q_ready r) (q_extra r).

Definition t_load (p : Z) : M qs thread_t := fun s =>
  match deref (q_threads s) p with Some t => Ret t s | None => Fault end.
Definition t_update (p : Z) (f : thread_t -> thread_t) : M qs unit :=
  t ← t_load p; modify (fun s => s <| q_threads ::= <[p := f t]> |>).

(** [cpu->ready_queues[p]], read and written; an index outside 0..31 faults. *)
Definition in_rq (p : Z) : bool := (0 <=? p) && (p <=? MAX_PRIORITY).
Definition rq_load (p : Z) : M qs Z := fun s =>
  if in_rq p then
    match q_ready s !! Z.to_nat p with Some h => Ret h s | None => Fault end
  else Fault.
Definition rq_store (p v : Z) : M qs unit :=
  _ ← rq_load p; modify (fun s => s <| q_ready ::= <[Z.to_nat p := v]> |>).

Definition set_sleep_queue (v : Z) : M qs unit :=
  modify (fun s => s <| q_extra ::= fun e => e <| sleep_queue := v |> |>).

(** [x->next = cpu->ready_queues[x->priority]; cpu->ready_queues[x->priority] = x] *)
Definition push_ready (x : Z) : M qs unit :=
  t ← t_load x;
  h ← rq_load (t_priority t);
  t_update x (fun t => t <| t_next := h |>);;
  rq_store (t_priority t) x.

(** The loop over the sleep queue in sched_reschedule. *)
Fixpoint wake_sleepers (fuel : nat) (current_tick prev_sleep curr_sleep : Z) : M qs unit :=
  match fuel with
  | O => nofuel
  | S fuel' =>
      if curr_sleep =? 0 then mret tt else
      t ← t_load curr_sleep;
      if t_wakeup_tick t <=? current_tick then
        let awake := curr_sleep in
        (if negb (prev_sleep =? 0) then t_update prev_sleep (fun p => p <| t_next := t_next t |>)
         else set_sleep_queue (t_next t));;
        t1 ← t_load curr_sleep;
        t_update awake (fun t => t <| t_state := THREAD_READY |>);;
        push_ready awake;;
        wake_sleepers fuel' current_tick prev_sleep (t_next t1)
      else wake_sleepers fuel' current_tick curr_sleep (t_next t)
  end.

(** The inner loop of sched_age_threads over the queue of priority [p]. *)
Fixpoint age_queue (fuel : nat) (p prev curr : Z) : M qs unit :=
  match fuel with
  | O => nofuel
  | S fuel' =>
      if curr =? 0 then mret tt else
      t ← t_load curr;
      if t_tid t =? 1 then age_queue fuel' p curr (t_next t) else
      t_update curr (fun t => t <| t_total_ticks := u64 (t_total_ticks t + 1) |>);;
      t ← t_load curr;
      if 19 <? t_total_ticks t then
        let aged := curr in
        t_update curr (fun t => t <| t_total_ticks := 0 |>);;
        (if negb (prev =? 0) then t_update prev (fun q => q <| t_next := t_next t |>)
         else rq_store p (t_next t));;
        t1 ← t_load curr;
        t_update aged (fun t => if t_priority t <? MAX_PRIORITY
          then t <| t_priority := u8 (t_priority t + 1) |> else t);;
        push_ready aged;;
        age_queue fuel' p prev (t_next t1)
      else age_queue fuel' p curr (t_next t)
  end.

(** [for (p = 0; p < MAX_PRIORITY; p++)], [n] more rounds. *)
Fixpoint age_queues (n : nat) (p : Z) : M qs unit :=
  match n with
  | O => mret tt
  | S n' =>
      fuel ← gets (fun s => S (size (q_threads s)));
      curr ← rq_load p;
      age_queue fuel p 0 curr;;
      age_queues n' (p + 1)
  end.

Definition sched_age_threads (current_tick : Z) : M qs unit :=
  last ← gets (fun s => last_age_tick (q_extra s));
  if u64 (current_tick - last) <? 20 then mret tt else
  modify (fun s => s <| q_extra ::= fun e => e <| last_age_tick := current_tick |> |>);;
  age_queues (Z.to_nat MAX_PRIORITY) 0.

(** [for (p = MAX_PRIORITY; p >= 0; p--) if (ready_queues[p] != NULL)]: the
    first such [p] below [n]. *)
Fixpoint find_ready (n : nat) : M qs (option Z) :=
  match n with
  | O => mret None
  | S p =>
      h ← rq_load (Z.of_nat p);
      if negb (h =? 0) then mret (Some (Z.of_nat p)) else find_ready p
  end.

(** [while (last->next) last = last->next]. *)
Fixpoint find_last (fuel : nat) (last : Z) : M qs Z :=
  match fuel with
  | O => nofuel
  | S fuel' =>
      t ← t_load last;
      if negb (t_next t =? 0) then find_last fuel' (t_next t) else mret last
  end.

Definition time_slice (priority : Z) : Z := u64 ((MAX_PRIORITY - priority + 1) * 2).

(** A running thread goes to the tail of its queue. *)
Definition requeue (current : Z) : M qs unit :=
  t_update current (fun t => t <| t_state := THREAD_READY |>
                               <| t_ticks_remaining := time_slice (t_priority t) |>
                               <| t_next := 0 |>);;
  t ← t_load current;
  h ← rq_load (t_priority t);
  if h =? 0 then rq_store (t_priority t) current
  else
    fuel ← gets (fun s => S (size (q_threads s)));
    last ← find_last fuel h;
    t_update last (fun t => t <| t_next := current |>).

(** The selection loop of sched_reschedule: the thread to switch to, if any,
    taken off its queue, with the current one put where its state says. *)
Definition pick_next (current : Z) : M qs (option Z) :=
  found ← find_ready (Z.to_nat (MAX_PRIORITY + 1));
  match found with
  | None => mret None
  | Some p =>
      c ← t_load current;
      if (t_priority c <? p) || ((p =? t_priority c) && (t_ticks_remaining c =? 0)) ||
         negb (bool_decide (t_state c = THREAD_RUNNING))
      then
        next ← rq_load p;
        n ← t_load next;
        rq_store p (t_next n);;
        match t_state c with
        | THREAD_RUNNING => requeue current
        | THREAD_SLEEPING =>
            h ← gets (fun s => sleep_queue (q_extra s));
            t_update current (fun t => t <| t_next := h |>);;
            set_sleep_queue current
        | _ => mret tt
        end;;
        mret (Some next)
      else mret None
  end.

(** sched_reschedule under the lock, up to the choice of the next thread. *)
Definition reschedule_queues (current current_rsp current_tick : Z) : M qs (option Z) :=
  t_update current (fun t => t <| t_rsp := current_rsp |>);;
  fuel ← gets (fun s => S (size (q_threads s)));
  h ← gets (fun s => sleep_queue (q_extra s));
  wake_sleepers fuel current_tick 0 h;;
  t_update current (fun t => if 0 <? t_ticks_remaining t
    then t <| t_ticks_remaining := t_ticks_remaining t - 1 |> else t);;
  sched_age_threads current_tick;;
  pick_next current.

(** ** On the kernel state *)

Definition cpu_lock_ref (cpu : Z) : spinlock_ref := {|
  lk_get := fun k => c_sched_lock <$> deref (s_cpus (sched k)) cpu;
  lk_set := fun v k => k <| sched ::= fun s =>
    s <| s_cpus ::= alter (fun c => c <| c_sched_lock := v |>) cpu |> |>
|}.
Definition global_lock_ref : spinlock_ref := {|
  lk_get := fun k => Some (global_sched_lock (sched k));
  lk_set := fun v k => k <| sched ::= fun s => s <| global_sched_lock := v |> |>
|}.

(** Put the queue state back; [id] is the index of its cpu_extra_t. *)
Definition put_qs (cpu : Z) (c : cpu_t) (id : Z) (s : qs) (k : kernel) : kernel :=
  k <| sched ::= fun sc =>
    sc <| s_threads := q_threads s |>
       <| s_cpus ::= <[cpu := c <| c_ready_queues := q_ready s |>]> |>
       <| cpu_extras ::= <[Z.to_nat id := q_extra s]> |> |>.

(** Run queue code on the processor at [cpu]; cpu_extras has 64 elements. *)
Definition with_qs {A} (cpu : Z) (code : M qs A) : M kernel A := fun k =>
  match deref (s_cpus (sched k)) cpu with
  | None => Fault
  | Some c =>
      match cpu_extras (sched k) !! Z.to_nat (c_cpu_id c) with
      | None => Fault
      | Some e =>
          match code (Qs (s_threads (sched k)) (c_ready_queues c) e) with
          | Ret a s => Ret a (put_qs cpu c (c_cpu_id c) s k)
          | Hang s => Hang (put_qs cpu c (c_cpu_id c) s k)
          | Fault => Fault
          | NoFuel => NoFuel
          end
      end
  end.

(** The same for code that does not touch cpu_extras. *)
Definition with_ready {A} (cpu : Z) (code : M qs A) : M kernel A := fun k =>
  match deref (s_cpus (sched k)) cpu with
  | None => Fault
  | Some c =>
      let back s := k <| sched ::= fun sc =>
        sc <| s_threads := q_threads s |>
           <| s_cpus ::= <[cpu := c <| c_ready_queues := q_ready s |>]> |> |> in
      match code (Qs (s_threads (sched k)) (c_ready_queues c) (CpuExtra 0 0)) with
      | Ret a s => Ret a (back s)
      | Hang s => Hang (back s)
      | Fault => Fault
      | NoFuel => NoFuel
      end
  end.

Definition thread_load (p : Z) : M kernel thread_t := fun k =>
  match deref (s_threads (sched k)) p with Some t => Ret t k | None => Fault end.
Definition set_thread (p : Z) (t : thread_t) (k : kernel) : kernel :=
  k <| sched ::= fun s => s <| s_threads ::= <[p := t]> |> |>.
Definition thread_update (p : Z) (f : thread_t -> thread_t) : M kernel unit :=
  t ← thread_load p; modify (set_thread p (f t)).

(** The memory of a dead thread is released; idle threads are kept. *)
Definition reap (current : Z) : M kernel unit :=
  c ← thread_load current;
  when (bool_decide (t_state c = THREAD_DEAD) && negb (t_priority c =? 0)) (
    when (negb (t_user_stack_limit c =? 0)) (kfree (t_user_stack_limit c));;
    kfree (t_stack_limit c);;
    kfree current).

Definition sched_reschedule (current_rsp : Z) : M kernel Z :=
  cpu ← cpu_get;
  c ← cpu_load cpu;
  if c_sched_thread c =? 0 then mret current_rsp else
  flags ← b_irq_save;
  spin_lock (cpu_lock_ref cpu);;
  let current := c_sched_thread c in
  tick ← gets apic_get_ticks;
  choice ← with_qs cpu (reschedule_queues current current_rsp tick);
  match choice with
  | Some next =>
      reap current;;
      thread_update next (fun t => t <| t_state := THREAD_RUNNING |>);;
      cpu_update cpu (fun c => c <| c_sched_thread := next |>);;
      n ← thread_load next;
      tss_set_stack (t_stack_top n);;
      cpu_update cpu (fun c => c <| c_kernel_stack := t_stack_top n |>);;
      spin_unlock (cpu_lock_ref cpu);;
      b_irq_restore flags;;
      mret (t_rsp n)
  | None =>
      spin_unlock (cpu_lock_ref cpu);;
      b_irq_restore flags;;
      t ← thread_load current;
      mret (t_rsp t)
  end.

(** [int $32] with the frame at [rsp]: the timer handler, the scheduler, and
    the acknowledgement interrupt_handler sends. *)
Definition sched_yield (rsp : Z) : M kernel Z :=
  apic_timer_handler;;
  r ← sched_reschedule rsp;
  b_outb 0x20 0x20;;
  mret r.

Definition cli : M kernel unit :=
  modify (fun k => k <| hw ::= fun h => h <| hw_rflags := Z.clearbit (hw_rflags h) RFLAGS_IF |> |>).
Definition sti : M kernel unit :=
  modify (fun k => k <| hw ::= fun h => h <| hw_rflags := Z.setbit (hw_rflags h) RFLAGS_IF |> |>).

(** The thread then halts until the scheduler takes the processor away. *)
Definition sched_exit : M kernel unit :=
  cli;;
  cpu ← cpu_get;
  c ← cpu_load cpu;
  when (negb (c_sched_thread c =? 0))
    (thread_update (c_sched_thread c) (fun t => t <| t_state := THREAD_DEAD |>));;
  sti;;
  hang.

(** sched_sleep up to its [int $32], and the whole of it. *)
Definition sched_doze (ms : Z) : M kernel unit :=
  cli;;
  cpu ← cpu_get;
  c ← cpu_load cpu;
  tick ← gets apic_get_ticks;
  when (negb (c_sched_thread c =? 0))
    (thread_update (c_sched_thread c) (fun t =>
       t <| t_state := THREAD_SLEEPING |> <| t_wakeup_tick := u64 (tick + ms / 10) |>));;
  sti.
Definition sched_sleep (rsp ms : Z) : M kernel Z := sched_doze ms;; sched_yield rsp.

Definition sched_get_tid : M kernel Z :=
  cpu ← cpu_get;
  c ← cpu_load cpu;
  if negb (c_sched_thread c =? 0) then
    t ← thread_load (c_sched_thread c); mret (t_tid t)
  else mret 0.

(** ** Start-up *)

Definition zero_thread : thread_t :=
  Thread 0 0 THREAD_READY 0 (replicate 16 0) 0 0 0 0 0 0 0 0 0.

Definition thread_zero (p : Z) : M kernel unit :=
  if p =? 0 then fault else modify (set_thread p zero_thread).

(** [b_strcpy(thread->name, name)] *)
Definition thread_set_name (p : Z) (name : list Z) : M kernel unit :=
  t ← thread_load p;
  n ← from_option (b_strcpy (t_name t) name);
  modify (set_thread p (t <| t_name := n |>)).

Definition next_tid_inc : M kernel Z :=
  tid ← gets (fun k => next_tid (sched k));
  modify (fun k => k <| sched ::= fun s => s <| next_tid := u64 (tid + 1) |> |>);;
  mret tid.

Definition sched_init : M kernel unit :=
  cpu ← cpu_get;
  flags ← b_irq_save;
  first ← gets (fun k => next_tid (sched k) =? 1);
  when first (modify (fun k => k <| sched ::= fun s =>
    s <| global_sched_lock := 0 |> <| cpu_extras := replicate 64 (CpuExtra 0 0) |> |>));;
  idle ← kmalloc SIZEOF_THREAD;
  thread_zero idle;;
  stack ← kmalloc STACK_BYTES;
  spin_lock global_lock_ref;;
  tid ← next_tid_inc;
  thread_update idle (fun t => t <| t_tid := tid |>);;
  spin_unlock global_lock_ref;;
  thread_update idle (fun t => t <| t_state := THREAD_RUNNING |> <| t_priority := 0 |>);;
  thread_set_name idle (cstr "idle");;
  thread_update idle (fun t => t <| t_stack_limit := stack |>
    <| t_stack_top := u64 (stack + STACK_BYTES) |> <| t_next := 0 |>);;
  cpu_update cpu (fun c => c <| c_sched_thread := idle |> <| c_ready_queues := replicate 32 0 |>
    <| c_sched_lock := 0 |>);;
  c ← cpu_load cpu;
  extras ← gets (fun k => cpu_extras (sched k));
  e ← from_option (extras !! Z.to_nat (c_cpu_id c));
  modify (fun k => k <| sched ::= fun s =>
    s <| cpu_extras := <[Z.to_nat (c_cpu_id c) := e <| sleep_queue := 0 |>]> extras |> |>);;
  b_irq_restore flags.

(** [*(--ptr) = v] for each value in turn. *)
Fixpoint push_words (ptr : Z) (vs : list Z) (m : mem) : Z * mem :=
  match vs with
  | [] => (ptr, m)
  | v :: vs' => push_words (ptr - 8) vs' (st64 m (ptr - 8) v)
  end.

(** The frame a new thread is entered through: ss, rsp, rflags, cs, rip, an
    error code, an interrupt number and 15 registers, from the top of the
    stack down. *)
Definition entry_frame (ss rsp cs entry : Z) : list Z :=
  [ss; rsp; 0x202; cs; entry; 0; 0] ++ replicate 15 0.

Definition build_frame (stack : Z) (frame : list Z) : M kernel Z := fun k =>
  let (ptr, m) := push_words (stack + STACK_BYTES) frame (mem_of k) in
  Ret ptr (set_mem m k).

(** From the allocation of the thread id on, both spawn functions do the same,
    but for the user stack. *)
Definition spawn_thread (thread ptr priority stack : Z) (ustack : option Z) : M kernel Z :=
  flags ← b_irq_save;
  spin_lock global_lock_ref;;
  tid ← next_tid_inc;
  thread_update thread (fun t => t <| t_tid := tid |>);;
  target_idx ← gets (fun k => next_cpu_index (sched k));
  count ← gets cpu_get_count;
  when (count =? 0) fault;;
  modify (fun k => k <| sched ::= fun s => s <| next_cpu_index := u32 (target_idx + 1) mod count |> |>);;
  spin_unlock global_lock_ref;;
  target_cpu ← cpu_get_by_index target_idx;
  c ← cpu_load target_cpu;
  thread_update thread (fun t =>
    t <| t_rsp := ptr |> <| t_state := THREAD_READY |> <| t_priority := priority |>
      <| t_ticks_remaining := time_slice priority |>
      <| t_stack_limit := stack |> <| t_stack_top := u64 (stack + STACK_BYTES) |>);;
  match ustack with
  | None => mret tt
  | Some u => thread_update thread (fun t =>
      t <| t_user_stack_limit := u |> <| t_user_stack_top := u64 (u + STACK_BYTES) |>)
  end;;
  thread_update thread (fun t => t <| t_core_affinity := u8 (c_cpu_id c) |>);;
  spin_lock (cpu_lock_ref target_cpu);;
  with_ready target_cpu (push_ready thread);;
  spin_unlock (cpu_lock_ref target_cpu);;
  b_irq_restore flags;;
  t ← thread_load thread;
  mret (t_tid t).

Definition clamp_priority (priority : Z) : Z :=
  if MAX_PRIORITY <? priority then MAX_PRIORITY else priority.

Definition set_name_if (thread : Z) (name : option (list Z)) : M kernel unit :=
  match name with
  | None => mret tt
  | Some n => thread_set_name thread n
  end.

Definition sched_spawn (entry priority : Z) (name : option (list Z)) : M kernel Z :=
  let priority := clamp_priority priority in
  thread ← kmalloc SIZEOF_THREAD;
  thread_zero thread;;
  set_name_if thread name;;
  stack ← kmalloc STACK_BYTES;
  ptr ← build_frame stack (entry_frame 0x10 (u64 (stack + STACK_BYTES)) 0x08 entry);
  spawn_thread thread ptr priority stack None.

Definition sched_spawn_user (entry priority : Z) (name : option (list Z)) : M kernel Z :=
  let priority := clamp_priority priority in
  thread ← kmalloc SIZEOF_THREAD;
  thread_zero thread;;
  set_name_if thread name;;
  kstack ← kmalloc STACK_BYTES;
  ustack ← kmalloc STACK_BYTES;
  ptr ← build_frame kstack (entry_frame 0x1B (u64 (ustack + STACK_BYTES)) 0x23 entry);
  spawn_thread thread ptr priority kstack (Some ustack).

(** ** Queries over all processors *)

(** [while (curr) { if (curr->tid == tid) ... }] *)
Fixpoint list_has_tid (fuel : nat) (tid curr : Z) : M qs bool :=
  match fuel with
  | O => nofuel
  | S fuel' =>
      if curr =? 0 then mret false else
      t ← t_load curr;
      if t_tid t =? tid then mret true else list_has_tid fuel' tid (t_next t)
  end.

(** [for (p = 0; p <= MAX_PRIORITY; p++)], [n] more rounds. *)
Fixpoint ready_has_tid (n : nat) (tid p : Z) : M qs bool :=
  match n with
  | O => mret false
  | S n' =>
      fuel ← gets (fun s => S (size (q_threads s)));
      curr ← rq_load p;
      b ← list_has_tid fuel tid curr;
      if (b : bool) then mret true else ready_has_tid n' tid (p + 1)
  end.

Definition queues_have_tid (tid : Z) : M qs bool :=
  b ← ready_has_tid (Z.to_nat (MAX_PRIORITY + 1)) tid 0;
  if (b : bool) then mret true else
  fuel ← gets (fun s => S (size (q_threads s)));
  h ← gets (fun s => sleep_queue (q_extra s));
  list_has_tid fuel tid h.

Definition alive_on (cpu tid : Z) : M kernel bool :=
  flags ← b_irq_save;
  spin_lock (cpu_lock_ref cpu);;
  c ← cpu_load cpu;
  running ← (if negb (c_sched_thread c =? 0) then
               t ← thread_load (c_sched_thread c); mret (t_tid t =? tid)
             else mret false);
  b ← (if (running : bool) then mret true else with_qs cpu (queues_have_tid tid));
  spin_unlock (cpu_lock_ref cpu);;
  b_irq_restore flags;;
  mret b.

(** [for (i = 0; i < cpu_get_count(); i++)], [n] more processors. *)
Fixpoint alive_from (n : nat) (i tid : Z) : M kernel Z :=
  match n with
  | O => mret 0
  | S n' =>
      cpu ← cpu_get_by_index i;
      b ← alive_on cpu tid;
      if (b : bool) then mret 1 else alive_from n' (i + 1) tid
  end.

Definition sched_is_alive (tid : Z) : M kernel Z :=
  count ← gets cpu_get_count;
  alive_from (Z.to_nat count) 0 tid.

(** One line of sched_print_tasks. *)
Definition print_task (tid priority core : Z) (state : string) (name : list Z) : M kernel unit :=
  console_print_num tid;;
  console_print (cstr " ");;
  console_print_num priority;;
  console_print (cstr " ");;
  console_print_num core;;
  console_print (cstr state);;
  console_print name;;
  console_print (cstr "
").

Fixpoint print_list (fuel : nat) (core : Z) (state : string) (curr : Z) : M kernel unit :=
  match fuel with
  | O => nofuel
  | S fuel' =>
      if curr =? 0 then mret tt else
      t ← thread_load curr;
      print_task (t_tid t) (t_priority t) core state (t_name t);;
      print_list fuel' core state (t_next t)
  end.

Fixpoint print_ready (fuel : nat) (core : Z) (heads : list Z) : M kernel unit :=
  match heads with
  | [] => mret tt
  | h :: heads' => print_list fuel core " ready " h;; print_ready fuel core heads'
  end.

Fixpoint print_cpus (n : nat) (i : Z) : M kernel unit :=
  match n with
  | O => mret tt
  | S n' =>
      cpu ← cpu_get_by_index i;
      flags ← b_irq_save;
      spin_lock (cpu_lock_ref cpu);;
      c ← cpu_load cpu;
      when (negb (c_sched_thread c =? 0)) (
        t ← thread_load (c_sched_thread c);
        print_task (t_tid t) (t_priority t) (c_cpu_id c) " running " (t_name t));;
      fuel ← gets (fun k => S (size (s_threads (sched k))));
      print_ready fuel (c_cpu_id c) (c_ready_queues c);;
      extras ← gets (fun k => cpu_extras (sched k));
      e ← from_option (extras !! Z.to_nat (c_cpu_id c));
      print_list fuel (c_cpu_id c) " sleeping " (sleep_queue e);;
      spin_unlock (cpu_lock_ref cpu);;
      b_irq_restore flags;;
      print_cpus n' (i + 1)
  end.

Definition sched_print_tasks : M kernel unit :=
  console_print (cstr "tid pri core state name
");;
  console_print (cstr "------------------------
");;
  count ← gets cpu_get_count;
  print_cpus (Z.to_nat count) 0.

(** ** sched_handoff *)

(** Take the first thread with id [tid] off the queue of priority [p]; the
    result is its address, 0 when there is none. *)
Fixpoint unlink_tid (fuel : nat) (tid p prev curr : Z) : M qs Z :=
  match fuel with
  | O => nofuel
  | S fuel' =>
      if curr =? 0 then mret 0 else
      t ← t_load curr;
      if t_tid t =? tid then
        (if negb (prev =? 0) then t_update prev (fun q => q <| t_next := t_next t |>)
         else rq_store p (t_next t));;
        mret curr
      else unlink_tid fuel' tid p curr (t_next t)
  end.

(** [for (p = MAX_PRIORITY; p >= 0; p--)], for [p] below [n]. *)
Fixpoint unlink_ready (n : nat) (tid : Z) : M qs Z :=
  match n with
  | O => mret 0
  | S p =>
      fuel ← gets (fun s => S (size (q_threads s)));
      curr ← rq_load (Z.of_nat p);
      target ← unlink_tid fuel tid (Z.of_nat p) 0 curr;
      if negb (target =? 0) then mret target else unlink_ready p tid
  end.

Fixpoint unlink_cpus (n : nat) (i tid : Z) : M kernel Z :=
  match n with
  | O => mret 0
  | S n' =>
      cpu ← cpu_get_by_index i;
      spin_lock (cpu_lock_ref cpu);;
      target ← with_ready cpu (unlink_ready (Z.to_nat (MAX_PRIORITY + 1)) tid);
      spin_unlock (cpu_lock_ref cpu);;
      if negb (target =? 0) then mret target else unlink_cpus n' (i + 1) tid
  end.

(** [rsp] is where the frame of the final [int $32] is. *)
Definition sched_handoff (rsp tid : Z) : M kernel unit :=
  if tid =? 0 then mret tt else
  flags ← b_irq_save;
  this_cpu ← cpu_get;
  count ← gets cpu_get_count;
  target ← unlink_cpus (Z.to_nat count) 0 tid;
  when (negb (target =? 0)) (
    spin_lock (cpu_lock_ref this_cpu);;
    c ← cpu_load this_cpu;
    thread_update target (fun t =>
      t <| t_priority := MAX_PRIORITY |> <| t_core_affinity := u8 (c_cpu_id c) |>);;
    with_ready this_cpu (push_ready target);;
    spin_unlock (cpu_lock_ref this_cpu));;
  b_irq_restore flags;;
  when (negb (target =? 0)) (_ ← sched_yield rsp; mret tt).
