(* ===== verification/SchedSpec.v ===== *)
(** The scheduler on lists.

    [aqs] is the queue state of one processor with its queues as lists of
    thread addresses and the threads without their links; each piece of queue
    code of sched.c has a counterpart on it.  The refinement lemmas say that the
    pointer code, run on a state that [rep]resents a list state, returns within
    its fuel and leaves a state that represents the result of the
    counterpart. *)

From S2P Require Import Prelude Memory State Lib Cpu Queue Sched.

Record aqs := Aqs {
  a_thr : threads;
  a_ready : list (list Z);
  a_sleep : list Z;
  a_age : Z
}.
#[export] Instance aqs_settable : Settable aqs := fun r =>
  Aqs (a_thr r) (a_ready r) (a_sleep r) (a_age r).

Definition queues (a : aqs) : list (list Z) := a_ready a ++ [a_sleep a].
Definition queued (a : aqs) : list Z := concat (queues a).

(** ** Operations on lists *)

Definition a_update (x : Z) (f : thread_t -> thread_t) (a : aqs) : aqs :=
  a <| a_thr ::= alter f x |>.
Definition a_push (x : Z) (a : aqs) : aqs :=
  match a_thr a !! x with
  | Some t => a <| a_ready ::= alter (cons x) (Z.to_nat (t_priority t)) |>
  | None => a
  end.

Definition due (now x : Z) (a : aqs) : bool :=
  match a_thr a !! x with Some t => t_wakeup_tick t <=? now | None => false end.

Definition set_ready (t : thread_t) : thread_t := t <| t_state := THREAD_READY |>.

(** [kept] are the sleepers already looked at, [xs] the rest. *)
Fixpoint wake_list (now : Z) (kept xs : list Z) (a : aqs) : aqs :=
  match xs with
  | [] => a
  | x :: xs' =>
      if due now x a then
        wake_list now kept xs'
          (a_push x (a_update x set_ready (a <| a_sleep := kept ++ xs' |>)))
      else wake_list now (kept ++ [x]) xs' a
  end.
Definition a_wake (now : Z) (a : aqs) : aqs := wake_list now [] (a_sleep a) a.

(** What ageing does to a thread it looks at, and whether it promotes it. *)
Definition tick_age (t : thread_t) : thread_t := t <| t_total_ticks := u64 (t_total_ticks t + 1) |>.
Definition zero_ticks (t : thread_t) : thread_t := t <| t_total_ticks := 0 |>.
Definition promote (t : thread_t) : thread_t :=
  if t_priority t <? MAX_PRIORITY then t <| t_priority := u8 (t_priority t + 1) |> else t.
Definition aged (t : thread_t) : bool := 19 <? t_total_ticks (tick_age t).

Fixpoint age_list (p : nat) (kept xs : list Z) (a : aqs) : aqs :=
  match xs with
  | [] => a
  | x :: xs' =>
      match a_thr a !! x with
      | None => a
      | Some t =>
          if t_tid t =? 1 then age_list p (kept ++ [x]) xs' a
          else if aged t then
            age_list p kept xs'
              (a_push x (a_update x promote (a_update x zero_ticks (a_update x tick_age
                (a <| a_ready ::= <[p := kept ++ xs']> |>)))))
          else age_list p (kept ++ [x]) xs' (a_update x tick_age a)
      end
  end.

Fixpoint age_lists (n p : nat) (a : aqs) : aqs :=
  match n with
  | O => a
  | S n' => age_lists n' (S p) (age_list p [] (default [] (a_ready a !! p)) a)
  end.

Definition a_age_threads (now : Z) (a : aqs) : aqs :=
  if u64 (now - a_age a) <? 20 then a else age_lists 31 0 (a <| a_age := now |>).

(** The highest non-empty queue below [n]. *)
Fixpoint highest (n : nat) (R : list (list Z)) : option nat :=
  match n with
  | O => None
  | S p => match default [] (R !! p) with [] => highest p R | _ => Some p end
  end.

Definition fresh_slice (t : thread_t) : thread_t :=
  t <| t_state := THREAD_READY |> <| t_ticks_remaining := time_slice (t_priority t) |>.

Definition a_requeue (cur : Z) (a : aqs) : aqs :=
  let a := a_update cur fresh_slice a in
  match a_thr a !! cur with
  | Some t => a <| a_ready ::= alter (fun l => l ++ [cur]) (Z.to_nat (t_priority t)) |>
  | None => a
  end.

(** Must the processor be given to a thread of priority [p]? *)
Definition preempts (p : nat) (c : thread_t) : bool :=
  (t_priority c <? Z.of_nat p) || ((Z.of_nat p =? t_priority c) && (t_ticks_remaining c =? 0)) ||
  negb (bool_decide (t_state c = THREAD_RUNNING)).

Definition a_pick (cur : Z) (a : aqs) : option Z * aqs :=
  match highest 32 (a_ready a), a_thr a !! cur with
  | Some p, Some c =>
      if preempts p c then
        match a_ready a !! p with
        | Some (next :: l) =>
            let a := a <| a_ready ::= <[p := l]> |> in
            (Some next,
             match t_state c with
             | THREAD_RUNNING => a_requeue cur a
             | THREAD_SLEEPING => a <| a_sleep ::= cons cur |>
             | _ => a
             end)
        | _ => (None, a)
        end
      else (None, a)
  | _, _ => (None, a)
  end.

Definition use_tick (t : thread_t) : thread_t :=
  if 0 <? t_ticks_remaining t then t <| t_ticks_remaining := t_ticks_remaining t - 1 |> else t.

(** The queues when the choice is made, and the choice. *)
Definition a_prepare (cur rsp now : Z) (a : aqs) : aqs :=
  a_age_threads now (a_update cur use_tick (a_wake now (a_update cur (fun t => t <| t_rsp := rsp |>) a))).
Definition a_reschedule (cur rsp now : Z) (a : aqs) : option Z * aqs :=
  a_pick cur (a_prepare cur rsp now a).

(** ** Representation and invariant *)

Record rep (s : qs) (a : aqs) : Prop := {
  rp_thr : a_thr a = strip <$> q_threads s;
  rp_len : length (a_ready a) = 32%nat;
  rp_queues : qrep (q_threads s) (q_ready s ++ [sleep_queue (q_extra s)]) (queues a);
  rp_age : a_age a = last_age_tick (q_extra s)
}.

Definition is_priority (p : Z) : Prop := 0 <= p <= MAX_PRIORITY.

(** Queue [p] holds ready threads of priority [p]; sleepers are asleep. *)
Record a_wf (a : aqs) : Prop := {
  wf_ready : forall p l x, a_ready a !! p = Some l -> x ∈ l ->
    exists t, a_thr a !! x = Some t /\ t_state t = THREAD_READY /\ t_priority t = Z.of_nat p;
  wf_sleep : forall x, x ∈ a_sleep a ->
    exists t, a_thr a !! x = Some t /\ t_state t = THREAD_SLEEPING /\ is_priority (t_priority t)
}.

(** ** Lemmas: single steps *)

Lemma t_load_eq s x t : q_threads s !! x = Some t -> x <> 0 -> t_load x s = Ret t s.
Proof. intros Hx Hne. unfold t_load, deref. apply Z.eqb_neq in Hne. by rewrite Hne, Hx. Qed.

Lemma bind_t_load {B} s x t (f : thread_t -> M qs B) :
  q_threads s !! x = Some t -> x <> 0 -> (t_load x ≫= f) s = f t s.
Proof. intros. by apply bind_ret, t_load_eq. Qed.

Lemma bind_t_update {B} s x t g (f : unit -> M qs B) :
  q_threads s !! x = Some t -> x <> 0 ->
  (t_update x g ≫= f) s = f tt (s <| q_threads ::= <[x := g t]> |>).
Proof.
  intros Hx Hne. apply bind_ret. unfold t_update. by rewrite (bind_t_load s x t).
Qed.

Lemma in_rq_true p : is_priority p -> in_rq p = true.
Proof.
  intros [? ?]. unfold in_rq. apply andb_true_iff. split; [by apply Z.leb_le | by apply Z.leb_le].
Qed.

Lemma bind_rq_load {B} s p h (f : Z -> M qs B) :
  is_priority p -> q_ready s !! Z.to_nat p = Some h -> (rq_load p ≫= f) s = f h s.
Proof. intros Hp Hh. apply bind_ret. unfold rq_load. by rewrite in_rq_true, Hh. Qed.

Lemma rq_store_eq s p h v :
  is_priority p -> q_ready s !! Z.to_nat p = Some h ->
  rq_store p v s = Ret tt (s <| q_ready ::= <[Z.to_nat p := v]> |>).
Proof. intros Hp Hh. unfold rq_store. by rewrite (bind_rq_load s p h). Qed.

Lemma rep_thread s a x t0 :
  rep s a -> a_thr a !! x = Some t0 -> exists t, q_threads s !! x = Some t /\ strip t = t0.
Proof.
  intros Hr Hx. rewrite (rp_thr _ _ Hr), lookup_fmap in Hx.
  destruct (q_threads s !! x) as [t |]; simplify_eq/=. eauto.
Qed.

Lemma rep_thread' s a x t : rep s a -> q_threads s !! x = Some t -> a_thr a !! x = Some (strip t).
Proof. intros Hr Hx. rewrite (rp_thr _ _ Hr), lookup_fmap, Hx. done. Qed.

Lemma rep_heads_len s a : rep s a -> length (q_ready s) = 32%nat.
Proof.
  intros Hr. pose proof (Forall2_length _ _ _ (qr_lists _ _ _ (rp_queues _ _ Hr))) as H.
  unfold queues in H. rewrite !length_app, (rp_len _ _ Hr) in H. simpl in H. lia.
Qed.

(** The head of ready queue [p], and of the sleep queue. *)
Lemma rep_ready s a p l :
  rep s a -> a_ready a !! p = Some l ->
  (p < 32)%nat /\ exists h, q_ready s !! p = Some h /\ lseg (q_threads s) h l /\ queues a !! p = Some l.
Proof.
  intros Hr Hl. assert (Hp : (p < 32)%nat) by (rewrite <- (rp_len _ _ Hr); by eapply lookup_lt_Some).
  assert (HQ : queues a !! p = Some l) by (unfold queues; rewrite lookup_app_l; [done | by rewrite (rp_len _ _ Hr)]).
  destruct (qrep_head _ _ _ (rp_queues _ _ Hr) p l HQ) as (h & Hh & Hs).
  rewrite lookup_app_l in Hh by (by rewrite (rep_heads_len s a)). eauto 6.
Qed.

Lemma rep_sleep s a : rep s a -> lseg (q_threads s) (sleep_queue (q_extra s)) (a_sleep a) /\
  queues a !! 32%nat = Some (a_sleep a).
Proof.
  intros Hr. assert (HQ : queues a !! 32%nat = Some (a_sleep a)).
  { unfold queues. rewrite lookup_app_r by (rewrite (rp_len _ _ Hr); lia). by rewrite (rp_len _ _ Hr). }
  destruct (qrep_head _ _ _ (rp_queues _ _ Hr) 32 _ HQ) as (h & Hh & Hs).
  rewrite lookup_app_r, (rep_heads_len s a Hr) in Hh by (by rewrite (rep_heads_len s a Hr)).
  simpl in Hh. by simplify_eq.
Qed.

Lemma rep_queued_thread s a x : rep s a -> x ∈ queued a -> x <> 0 /\ exists t, q_threads s !! x = Some t.
Proof. intros Hr. apply (qrep_thread _ _ _ (rp_queues _ _ Hr)). Qed.

Lemma alter_strip (ts : threads) (x : Z) t f g :
  ts !! x = Some t -> strip (f t) = g (strip t) ->
  alter g x (strip <$> ts) = strip <$> <[x := f t]> ts.
Proof.
  intros Hx Hf. rewrite fmap_insert, Hf. apply map_eq. intros y.
  destruct (decide (y = x)) as [-> | Hne].
  - by rewrite lookup_alter_eq, lookup_insert_eq, lookup_fmap, Hx.
  - by rewrite lookup_alter_ne, lookup_insert_ne by done.
Qed.

(** Updating a thread's data: [f] keeps the link and does to the data what [g]
    does to the thread without its link. *)
Lemma rep_update s a x t f g :
  rep s a -> q_threads s !! x = Some t -> t_next (f t) = t_next t -> strip (f t) = g (strip t) ->
  rep (s <| q_threads ::= <[x := f t]> |>) (a_update x g a).
Proof.
  intros Hr Hx Hn Hf. destruct Hr as [Ht Hl HQ Ha]. constructor; try done.
  - simpl. rewrite Ht. by apply alter_strip.
  - by apply qrep_data with t.
Qed.

(** A new head or a new link in front: the queue code of [push_ready]. *)
Lemma push_ready_rep s a x t :
  rep s a -> q_threads s !! x = Some t -> x <> 0 -> x ∉ queued a -> is_priority (t_priority t) ->
  exists s', push_ready x s = Ret tt s' /\ rep s' (a_push x a) /\
    (forall y, y <> x -> q_threads s' !! y = q_threads s !! y).
Proof.
  intros Hr Hx Hx0 Hxq Hp. unfold push_ready. rewrite (bind_t_load s x t) by done.
  assert (Hlt : (Z.to_nat (t_priority t) < 32)%nat) by (destruct Hp; unfold MAX_PRIORITY in *; lia).
  destruct (lookup_lt_is_Some_2 (a_ready a) (Z.to_nat (t_priority t))) as [l Hl]; [by rewrite (rp_len _ _ Hr) |].
  destruct (rep_ready s a _ l Hr Hl) as (_ & h & Hh & Hseg & HQ).
  rewrite (bind_rq_load s _ h), (bind_t_update _ x t) by done.
  rewrite (rq_store_eq _ _ h) by done. eexists. split; [reflexivity |]. split.
  2:{ intros y Hy. simpl. by rewrite lookup_insert_ne. }
  unfold a_push. rewrite (rep_thread' s a x t) by done.
  change (t_priority (strip t)) with (t_priority t). destruct Hr as [Ht Hlen HQr Ha].
  constructor; simpl; try done.
  - rewrite fmap_insert, strip_next. rewrite insert_id; [done |]. by rewrite lookup_fmap, Hx.
  - by rewrite length_alter.
  - pose proof (qrep_outside _ _ _ HQr x (t <| t_next := h |>) Hxq) as HQ'.
    assert (Hh' : (q_ready s ++ [sleep_queue (q_extra s)]) !! Z.to_nat (t_priority t) = Some h)
      by (by apply lookup_app_l_Some).
    pose proof (qrep_push _ _ _ _ h l x _ HQ' Hh' HQ Hx0 Hxq ltac:(apply lookup_insert_eq) eq_refl) as HP.
    rewrite insert_app_l in HP by (by eapply lookup_lt_Some).
    unfold queues in *. simpl. rewrite insert_app_l in HP by (by rewrite Hlen).
    replace (alter (cons x) (Z.to_nat (t_priority t)) (a_ready a))
      with (<[Z.to_nat (t_priority t) := x :: l]> (a_ready a)); [exact HP |].
    symmetry. by apply (list_alter_lookup (cons x)).
Qed.

(** Taking [x] out of a queue, behind [prev] or at the head. *)
Lemma unlink_queue ts heads Q i kept x xs t :
  qrep ts heads Q -> Q !! i = Some (kept ++ x :: xs) -> ts !! x = Some t ->
  t_next t = default 0 (head xs) /\ x <> 0 /\ x ∉ concat (<[i := kept ++ xs]> Q) /\
  match last kept with
  | None => kept = [] /\ qrep ts (<[i := t_next t]> heads) (<[i := kept ++ xs]> Q)
  | Some p => p <> 0 /\ p <> x /\ exists tp, ts !! p = Some tp /\
      qrep (<[p := tp <| t_next := t_next t |>]> ts) heads (<[i := kept ++ xs]> Q)
  end.
Proof.
  intros HQ Hi Hx. destruct (qrep_head _ _ _ HQ i _ Hi) as (h & _ & Hseg).
  split; [by eapply lseg_head, lseg_mid |].
  destruct (last kept) as [p |] eqn:El.
  - apply last_Some in El as [k ->]. rewrite <- app_assoc in *. simpl in *.
    assert (Hp : p ∈ k ++ p :: x :: xs) by (apply elem_of_app; right; by left).
    destruct (lseg_lookup _ _ _ p Hseg Hp) as (Hp0 & tp & Htp).
    destruct (qrep_unlink _ _ _ i k p x xs tp t HQ Hi Htp Hx) as (H1 & H2 & H3 & H4).
    split_and!; eauto.
  - apply last_None in El as ->. simpl in *.
    destruct (qrep_pop _ _ _ i x xs t HQ Hi Hx) as (H1 & H2 & H3). by split_and!.
Qed.

Lemma strip_relink (ts : threads) p tp n :
  ts !! p = Some tp -> strip <$> <[p := tp <| t_next := n |>]> ts = strip <$> ts.
Proof.
  intros Hp. rewrite fmap_insert, strip_next. apply insert_id. by rewrite lookup_fmap, Hp.
Qed.

Definition prev_of (kept : list Z) : Z := default 0 (last kept).

Lemma unlink_sleep_rep s a kept x xs t :
  rep s a -> a_sleep a = kept ++ x :: xs -> q_threads s !! x = Some t ->
  exists s', (if negb (prev_of kept =? 0)
              then t_update (prev_of kept) (fun p => p <| t_next := t_next t |>)
              else set_sleep_queue (t_next t)) s = Ret tt s' /\
    rep s' (a <| a_sleep := kept ++ xs |>) /\ x ∉ queued (a <| a_sleep := kept ++ xs |>) /\ x <> 0 /\
    q_threads s' !! x = Some t /\ t_next t = default 0 (head xs).
Proof.
  intros Hr Hs Hx. destruct (rep_sleep s a Hr) as [Hseg HQ]. rewrite Hs in HQ.
  destruct (unlink_queue _ _ _ 32 kept x xs t (rp_queues _ _ Hr) HQ Hx) as (Hn & Hx0 & Hxq & Hc).
  assert (HQ' : <[32%nat := kept ++ xs]> (queues a) = queues (a <| a_sleep := kept ++ xs |>)).
  { unfold queues. simpl. pose proof (rp_len _ _ Hr) as Hl.
    replace 32%nat with (length (a_ready a) + 0)%nat by lia. by rewrite insert_app_r. }
  rewrite HQ' in *. pose proof (rep_heads_len s a Hr) as Hhl. destruct Hr as [Ht Hl Hq Ha].
  unfold prev_of. destruct (last kept) as [p |] eqn:El; simpl.
  - destruct Hc as (Hp0 & Hpx & tp & Htp & Hq'). apply Z.eqb_neq in Hp0 as Hp0'. rewrite Hp0'. simpl.
    unfold t_update. rewrite (bind_t_load s p tp) by done. eexists. split; [reflexivity |].
    split; [constructor; try done; simpl; by rewrite strip_relink |].
    split_and!; try done. simpl. by rewrite lookup_insert_ne.
  - destruct Hc as [-> Hq']. eexists. split; [reflexivity |]. split; [| by split_and!].
    constructor; try done. simpl in *.
    replace 32%nat with (length (q_ready s) + 0)%nat in Hq' by lia. by rewrite insert_app_r in Hq'.
Qed.

Lemma unlink_ready_rep s a p kept x xs t :
  rep s a -> a_ready a !! p = Some (kept ++ x :: xs) -> q_threads s !! x = Some t ->
  exists s', (if negb (prev_of kept =? 0)
              then t_update (prev_of kept) (fun q => q <| t_next := t_next t |>)
              else rq_store (Z.of_nat p) (t_next t)) s = Ret tt s' /\
    rep s' (a <| a_ready ::= <[p := kept ++ xs]> |>) /\
    x ∉ queued (a <| a_ready ::= <[p := kept ++ xs]> |>) /\ x <> 0 /\
    q_threads s' !! x = Some t /\ t_next t = default 0 (head xs).
Proof.
  intros Hr Hs Hx. destruct (rep_ready s a p _ Hr Hs) as (Hp & h & Hh & Hseg & HQ).
  destruct (unlink_queue _ _ _ p kept x xs t (rp_queues _ _ Hr) HQ Hx) as (Hn & Hx0 & Hxq & Hc).
  assert (HQ' : <[p := kept ++ xs]> (queues a) = queues (a <| a_ready ::= <[p := kept ++ xs]> |>)).
  { unfold queues. simpl. apply insert_app_l. by rewrite (rp_len _ _ Hr). }
  rewrite HQ' in *. pose proof (rep_heads_len s a Hr) as Hhl. destruct Hr as [Ht Hl Hq Ha].
  unfold prev_of. destruct (last kept) as [q |] eqn:El; simpl.
  - destruct Hc as (Hp0 & Hpx & tp & Htp & Hq'). apply Z.eqb_neq in Hp0 as Hp0'. rewrite Hp0'. simpl.
    unfold t_update. rewrite (bind_t_load s q tp) by done. eexists. split; [reflexivity |].
    split; [constructor; try done; simpl; [by rewrite strip_relink | by rewrite length_insert] |].
    split_and!; try done. simpl. by rewrite lookup_insert_ne.
  - destruct Hc as [-> Hq']. rewrite (rq_store_eq s _ h) by (rewrite ?Nat2Z.id; done || (unfold is_priority, MAX_PRIORITY; lia)).
    eexists. split; [reflexivity |]. split; [| by split_and!].
    constructor; try done; simpl; [by rewrite length_insert |]. rewrite Nat2Z.id.
    rewrite insert_app_l in Hq' by lia. done.
Qed.

(** ** Lemmas: the loops *)

Lemma a_push_thr x a : a_thr (a_push x a) = a_thr a.
Proof. unfold a_push. by case_match. Qed.
Lemma a_push_sleep x a : a_sleep (a_push x a) = a_sleep a.
Proof. unfold a_push. by case_match. Qed.

Lemma prev_of_snoc kept x : prev_of (kept ++ [x]) = x.
Proof. unfold prev_of. by rewrite last_snoc. Qed.

(** The threads [xs] have a ready queue to go to. *)
Definition ranked (a : aqs) (xs : list Z) : Prop :=
  forall x, x ∈ xs -> exists t, a_thr a !! x = Some t /\ is_priority (t_priority t).

Lemma ranked_update a x f xs :
  (forall t, is_priority (t_priority t) -> is_priority (t_priority (f t))) ->
  ranked a xs -> ranked (a_update x f a) xs.
Proof.
  intros Hf Hr y Hy. destruct (Hr y Hy) as (t & Ht & Hp). simpl.
  destruct (decide (y = x)) as [-> | Hne].
  - rewrite lookup_alter_eq, Ht. simpl. eauto.
  - rewrite lookup_alter_ne by done. eauto.
Qed.

Lemma ranked_cons a x xs : ranked a (x :: xs) -> ranked a xs.
Proof. intros H y Hy. apply H. by right. Qed.

Lemma wake_rep now xs : forall kept s a fuel,
  rep s a -> a_sleep a = kept ++ xs -> ranked a xs -> (length xs < fuel)%nat ->
  exists s', wake_sleepers fuel now (prev_of kept) (default 0 (head xs)) s = Ret tt s' /\
    rep s' (wake_list now kept xs a).
Proof.
  induction xs as [| x xs IH]; intros kept s a [| fuel] Hr Hs Hrk Hf; try (simpl in Hf; lia).
  { exists s. done. }
  destruct (Hrk x ltac:(by left)) as (t0 & Ht0 & Hp). destruct (rep_thread s a x t0 Hr Ht0) as (t & Ht & Est).
  destruct (rep_sleep s a Hr) as [Hseg _]. rewrite Hs in Hseg.
  assert (Hx0 : x <> 0) by (apply (lseg_lookup _ _ _ x Hseg); apply elem_of_app; right; by left).
  change (default 0 (head (x :: xs))) with x. cbn [wake_sleepers wake_list].
  apply Z.eqb_neq in Hx0 as Hx0'. rewrite Hx0'.
  rewrite (bind_t_load s x t) by done. unfold due. rewrite Ht0.
  assert (t_wakeup_tick t0 = t_wakeup_tick t) as -> by (by rewrite <- Est).
  destruct (t_wakeup_tick t <=? now) eqn:Ed.
  - destruct (unlink_sleep_rep s a kept x xs t Hr Hs Ht) as (s1 & E1 & R1 & Hxq & _ & Ht1 & Hn).
    rewrite (bind_ret _ _ _ _ _ E1), (bind_t_load s1 x t), (bind_t_update s1 x t) by done.
    pose proof (rep_update s1 _ x t set_ready set_ready R1 Ht1 eq_refl eq_refl) as R2.
    rewrite <- Est in Hp.
    destruct (push_ready_rep _ _ x (set_ready t) R2 ltac:(apply lookup_insert_eq) Hx0 Hxq Hp)
      as (s3 & E3 & R3 & _).
    rewrite (bind_ret _ _ _ _ _ E3), Hn. apply IH; [exact R3 | | | simpl in Hf; lia].
    + rewrite a_push_sleep. done.
    + intros y Hy. rewrite a_push_thr.
      apply (ranked_update (a <| a_sleep := kept ++ xs |>) x set_ready xs);
        [done | by apply (ranked_cons a x) | done].
  - assert (Hn : t_next t = default 0 (head xs)) by (by eapply lseg_head, lseg_mid).
    rewrite Hn. pose proof (IH (kept ++ [x])) as IH'. rewrite prev_of_snoc in IH'.
    apply IH'; [done | by rewrite <- app_assoc | by eapply ranked_cons | simpl in Hf; lia].
Qed.

Lemma promote_strip t : strip (promote t) = promote (strip t).
Proof. unfold promote. destruct t; simpl. by destruct (_ <? _). Qed.
Lemma promote_next t : t_next (promote t) = t_next t.
Proof. unfold promote. by destruct (_ <? _). Qed.

Lemma promote_priority t p : t_priority t = Z.of_nat p -> (p < 31)%nat -> t_priority (promote t) = Z.of_nat (S p).
Proof.
  intros Hp Hlt. unfold promote, MAX_PRIORITY. simpl. rewrite Hp.
  destruct (Z.ltb_spec (Z.of_nat p) 31); [| lia]. simpl. rewrite u8_small by lia. lia.
Qed.

(** The threads [xs] have priority [p]. *)
Definition level (a : aqs) (p : nat) (xs : list Z) : Prop :=
  forall x, x ∈ xs -> exists t, a_thr a !! x = Some t /\ t_priority t = Z.of_nat p.

Lemma level_update a x f p xs : x ∉ xs -> level a p xs -> level (a_update x f a) p xs.
Proof.
  intros Hx H y Hy. destruct (H y Hy) as (t & Ht & Hp). exists t. simpl.
  rewrite lookup_alter_ne by (by intros ->). done.
Qed.

Lemma a_push_ready x a p t :
  a_thr a !! x = Some t -> Z.to_nat (t_priority t) <> p -> a_ready (a_push x a) !! p = a_ready a !! p.
Proof. intros Hx Hp. unfold a_push. rewrite Hx. simpl. by apply list_lookup_alter_ne. Qed.

Lemma level_push a x p xs : level a p xs -> level (a_push x a) p xs.
Proof. intros H y Hy. rewrite a_push_thr. auto. Qed.

Lemma level_cons a p x xs : level a p (x :: xs) -> level a p xs.
Proof. intros H y Hy. apply H. by right. Qed.

(** An aged thread moves to the front of the next queue. *)
Lemma age_move_rep s a p kept x xs t :
  rep s a -> a_ready a !! p = Some (kept ++ x :: xs) -> q_threads s !! x = Some t -> x <> 0 ->
  t_priority t = Z.of_nat p -> (p < 31)%nat ->
  let a' := a_push x (a_update x promote (a_update x zero_ticks a <| a_ready ::= <[p := kept ++ xs]> |>)) in
  exists s', rep s' a' /\ a_ready a' !! p = Some (kept ++ xs) /\
    forall rest : Z -> M qs unit,
      (t_update x zero_ticks;;
       (if negb (prev_of kept =? 0) then t_update (prev_of kept) (fun q => q <| t_next := t_next t |>)
        else rq_store (Z.of_nat p) (t_next t));;
       t1 ← t_load x;
       t_update x promote;;
       push_ready x;;
       rest (t_next t1)) s = rest (t_next t) s'.
Proof.
  intros Hr Hs Ht Hx0 Hp Hp31 a'. set (s2 := s <| q_threads ::= <[x := zero_ticks t]> |>). set (z := zero_ticks t) in *.
  assert (Ht2 : q_threads s2 !! x = Some z) by apply lookup_insert_eq.
  pose proof (rep_update s _ x t zero_ticks zero_ticks Hr Ht eq_refl eq_refl : rep s2 _) as R2.
  destruct (unlink_ready_rep s2 _ p kept x xs z R2 Hs Ht2) as (s3 & E3 & R3 & Hxq & _ & Ht3 & _).
  change (t_next z) with (t_next t) in E3.
  pose proof (rep_update s3 _ x z promote promote R3 Ht3 (promote_next z) (promote_strip z)) as R4.
  assert (Hpz : t_priority (promote z) = Z.of_nat (S p)) by (by apply promote_priority).
  set (s4 := s3 <| q_threads ::= _ |>) in *.
  assert (Ht4 : q_threads s4 !! x = Some (promote z)) by apply lookup_insert_eq.
  destruct (push_ready_rep s4 _ x (promote z) R4 Ht4 Hx0 Hxq) as (s5 & E5 & R5 & _).
  { rewrite Hpz. unfold is_priority, MAX_PRIORITY. lia. }
  exists s5. split; [exact R5 |]. split.
  - unfold a'. erewrite a_push_ready; [| exact (rep_thread' s4 _ x _ R4 Ht4) | simpl; rewrite Hpz; lia].
    simpl. apply list_lookup_insert_eq. by eapply lookup_lt_Some.
  - intros rest. rewrite (bind_t_update s x t) by done. fold s2.
    rewrite (bind_ret _ _ _ _ _ E3), (bind_t_load s3 x z), (bind_t_update s3 x z) by done.
    fold s4. by rewrite (bind_ret _ _ _ _ _ E5).
Qed.

Lemma age_rep p xs : forall kept s a fuel, (p < 31)%nat ->
  rep s a -> a_ready a !! p = Some (kept ++ xs) -> level a p xs -> (length xs < fuel)%nat ->
  exists s', age_queue fuel (Z.of_nat p) (prev_of kept) (default 0 (head xs)) s = Ret tt s' /\
    rep s' (age_list p kept xs a).
Proof.
  induction xs as [| x xs IH]; intros kept s a [| fuel] Hp31 Hr Hs Hlv Hf; try (simpl in Hf; lia).
  { exists s. done. }
  destruct (Hlv x ltac:(by left)) as (t0 & Ht0 & Hp). destruct (rep_thread s a x t0 Hr Ht0) as (t & Ht & Est).
  destruct (rep_ready s a p _ Hr Hs) as (_ & h & Hh & Hseg & HQ).
  assert (Hx0 : x <> 0) by (apply (lseg_lookup _ _ _ x Hseg); apply elem_of_app; right; by left).
  assert (Hnx : x ∉ xs).
  { pose proof (queue_nodup _ _ _ (qr_nodup _ _ _ (rp_queues _ _ Hr)) HQ) as Hnd.
    apply NoDup_app in Hnd as (_ & _ & Hnd). by apply NoDup_cons in Hnd as [? _]. }
  assert (Hn : t_next t = default 0 (head xs)) by (by eapply lseg_head, lseg_mid).
  change (default 0 (head (x :: xs))) with x. cbn [age_queue age_list].
  apply Z.eqb_neq in Hx0 as Hx0'. rewrite Hx0', Ht0.
  rewrite (bind_t_load s x t) by done.
  assert (t_tid t0 = t_tid t) as -> by (by rewrite <- Est).
  destruct (t_tid t =? 1).
  { rewrite Hn. pose proof (IH (kept ++ [x])) as IH'. rewrite prev_of_snoc in IH'.
    apply IH'; [done | done | by rewrite <- app_assoc | by eapply level_cons | simpl in Hf; lia]. }
  rewrite (bind_t_update s x t) by done. set (s1 := s <| q_threads ::= _ |>).
  assert (Ht1 : q_threads s1 !! x = Some (tick_age t)) by apply lookup_insert_eq.
  pose proof (rep_update s a x t tick_age tick_age Hr Ht eq_refl eq_refl : rep s1 _) as R1.
  rewrite (bind_t_load s1 x (tick_age t)) by done.
  assert (aged t0 = (19 <? t_total_ticks (tick_age t))) as -> by (unfold aged; by rewrite <- Est).
  change (t_total_ticks (tick_age t)) with (u64 (t_total_ticks t + 1)).
  destruct (19 <? u64 (t_total_ticks t + 1)) eqn:Ea.
  2:{ change (t_next (tick_age t)) with (t_next t). rewrite Hn. pose proof (IH (kept ++ [x])) as IH'. rewrite prev_of_snoc in IH'.
      apply IH'; [done | exact R1 | by rewrite <- app_assoc | | simpl in Hf; lia].
      apply level_update; [done | by eapply level_cons]. }
  destruct (age_move_rep s1 _ p kept x xs (tick_age t) R1 Hs Ht1 Hx0 ltac:(by rewrite <- Hp, <- Est) Hp31) as (s5 & R5 & Hs5 & E5).
  destruct (IH kept s5 _ fuel Hp31 R5 Hs5) as (s' & E' & R'); [| simpl in Hf; lia |].
  - apply level_push. do 3 (apply level_update; [done |]). by apply (level_cons a p x).
  - exists s'. split; [| exact R']. rewrite <- E', <- Hn. exact (E5 (age_queue fuel (Z.of_nat p) (prev_of kept))).
Qed.

(** ** The invariant under the list operations *)

Record a_inv (a : aqs) : Prop := {
  ai_wf : a_wf a;
  ai_nodup : NoDup (queued a);
  ai_len : length (a_ready a) = 32%nat
}.

Lemma rep_nodup s a : rep s a -> NoDup (queued a).
Proof. intros Hr. apply (rp_queues _ _ Hr). Qed.

Lemma queues_ready a p l : a_ready a !! p = Some l -> queues a !! p = Some l.
Proof. intros H. unfold queues. by apply lookup_app_l_Some. Qed.
Lemma queues_sleep a : queues a !! length (a_ready a) = Some (a_sleep a).
Proof. unfold queues. rewrite lookup_app_r, Nat.sub_diag by lia. done. Qed.

Lemma elem_of_ready a p l x : a_ready a !! p = Some l -> x ∈ l -> x ∈ queued a.
Proof. intros H. by apply elem_of_concat_lookup with p, queues_ready. Qed.
Lemma elem_of_sleep a x : x ∈ a_sleep a -> x ∈ queued a.
Proof. by apply elem_of_concat_lookup with (length (a_ready a)), queues_sleep. Qed.

Lemma queued_set_sleep a x l' :
  a_sleep a ≡ₚ x :: l' -> queued a ≡ₚ x :: queued (a <| a_sleep := l' |>).
Proof.
  intros H. unfold queued, queues. simpl. rewrite !concat_app. simpl. rewrite !app_nil_r, H.
  by rewrite Permutation_middle.
Qed.

Lemma queued_set_ready a p l x l' :
  a_ready a !! p = Some l -> l ≡ₚ x :: l' ->
  queued a ≡ₚ x :: queued (a <| a_ready ::= <[p := l']> |>).
Proof.
  intros Hl H. unfold queued, queues. simpl.
  rewrite <- insert_app_l by (by eapply lookup_lt_Some).
  apply (concat_remove _ p l); [by apply queues_ready | done].
Qed.

Lemma wf_sub a a' :
  a_wf a -> a_thr a' = a_thr a ->
  (forall p l' x, a_ready a' !! p = Some l' -> x ∈ l' -> exists l, a_ready a !! p = Some l /\ x ∈ l) ->
  (forall x, x ∈ a_sleep a' -> x ∈ a_sleep a) -> a_wf a'.
Proof.
  intros [Hr Hs] Ht Hsub Hsl. constructor.
  - intros p l' x Hl Hx. destruct (Hsub p l' x Hl Hx) as (l & Hl0 & Hx0). rewrite Ht. eauto.
  - intros x Hx. rewrite Ht. eauto.
Qed.

Lemma unlink_sleep_inv a kept x xs :
  a_inv a -> a_sleep a = kept ++ x :: xs ->
  a_inv (a <| a_sleep := kept ++ xs |>) /\ x ∉ queued (a <| a_sleep := kept ++ xs |>) /\
  queued a ≡ₚ x :: queued (a <| a_sleep := kept ++ xs |>).
Proof.
  intros [Hwf Hnd Hlen] Hs.
  assert (Hp : queued a ≡ₚ x :: queued (a <| a_sleep := kept ++ xs |>)).
  { apply queued_set_sleep. rewrite Hs. by rewrite Permutation_middle. }
  pose proof Hnd as Hnd'. rewrite Hp in Hnd'. apply NoDup_cons in Hnd' as [Hx Hnd'].
  split; [constructor; try done | done].
  apply (wf_sub a); [done | done | by eauto |]. simpl. rewrite Hs.
  intros y Hy. apply elem_of_app in Hy as [? | ?]; apply elem_of_app; [by left | right; by right].
Qed.

Lemma unlink_ready_inv a p kept x xs :
  a_inv a -> a_ready a !! p = Some (kept ++ x :: xs) ->
  a_inv (a <| a_ready ::= <[p := kept ++ xs]> |>) /\
  x ∉ queued (a <| a_ready ::= <[p := kept ++ xs]> |>) /\
  queued a ≡ₚ x :: queued (a <| a_ready ::= <[p := kept ++ xs]> |>).
Proof.
  intros [Hwf Hnd Hlen] Hs.
  assert (Hp : queued a ≡ₚ x :: queued (a <| a_ready ::= <[p := kept ++ xs]> |>)).
  { apply (queued_set_ready a p _ x _ Hs). by rewrite Permutation_middle. }
  pose proof Hnd as Hnd'. rewrite Hp in Hnd'. apply NoDup_cons in Hnd' as [Hx Hnd'].
  split; [constructor; try done; [| simpl; by rewrite length_insert] | done].
  apply (wf_sub a); [done | done | | done]. simpl.
  intros q l' y Hl Hy. destruct (decide (q = p)) as [-> | Hne].
  - rewrite list_lookup_insert_eq in Hl by (by eapply lookup_lt_Some). simplify_eq.
    eexists. split; [exact Hs |].
    apply elem_of_app in Hy as [? | ?]; apply elem_of_app; [by left | right; by right].
  - rewrite list_lookup_insert_ne in Hl by done. eauto.
Qed.

(** A thread in no queue may change at will. *)
Lemma update_outside_inv a x f : a_inv a -> x ∉ queued a -> a_inv (a_update x f a).
Proof.
  intros [[Hr Hs] Hnd Hlen] Hx. constructor; try done. constructor; simpl.
  - intros p l y Hl Hy. rewrite lookup_alter_ne; [by eauto |].
    intros ->. apply Hx. by eapply elem_of_ready.
  - intros y Hy. rewrite lookup_alter_ne; [by eauto |].
    intros ->. apply Hx. by apply elem_of_sleep.
Qed.

(** A queued one may change all but its state and priority. *)
Lemma update_inside_inv a x f :
  (forall t, t_state (f t) = t_state t /\ t_priority (f t) = t_priority t) ->
  a_inv a -> a_inv (a_update x f a).
Proof.
  intros Hf [[Hr Hs] Hnd Hlen]. constructor; try done. constructor; simpl.
  - intros p l y Hl Hy. destruct (Hr p l y Hl Hy) as (t & Ht & Hst & Hp).
    destruct (decide (y = x)) as [-> | Hne].
    + rewrite lookup_alter_eq, Ht. exists (f t). destruct (Hf t). split_and!; try done; congruence.
    + rewrite lookup_alter_ne by done. eauto.
  - intros y Hy. destruct (Hs y Hy) as (t & Ht & Hst & Hp).
    destruct (decide (y = x)) as [-> | Hne].
    + rewrite lookup_alter_eq, Ht. exists (f t). destruct (Hf t) as [E1 E2].
      split_and!; try done; [congruence | by rewrite E2].
    + rewrite lookup_alter_ne by done. eauto.
Qed.

(** Adding a ready thread to its queue, at either end. *)
Lemma add_ready_inv a x t l l' :
  a_inv a -> x ∉ queued a -> a_thr a !! x = Some t -> t_state t = THREAD_READY ->
  is_priority (t_priority t) -> a_ready a !! Z.to_nat (t_priority t) = Some l -> l' ≡ₚ x :: l ->
  let a' := a <| a_ready ::= <[Z.to_nat (t_priority t) := l']> |> in
  a_inv a' /\ queued a' ≡ₚ x :: queued a.
Proof.
  intros [Hwf Hnd Hlen] Hx Ht Hst Hp Hl Hl' a'.
  assert (Hq : queued a' ≡ₚ x :: queued a).
  { unfold queued, queues. simpl. rewrite <- insert_app_l by (by eapply lookup_lt_Some).
    apply (concat_insert_cons _ _ l); [by apply queues_ready | done]. }
  split; [| done]. constructor; [constructor | rewrite Hq; by apply NoDup_cons | simpl; by rewrite length_insert].
  - simpl. intros q lq y Hlq Hy. destruct (decide (q = Z.to_nat (t_priority t))) as [-> | Hne].
    + rewrite list_lookup_insert_eq in Hlq by (by eapply lookup_lt_Some). simplify_eq.
      rewrite Hl' in Hy. apply elem_of_cons in Hy as [-> | Hy]; [| by eapply wf_ready].
      exists t. split_and!; try done. destruct Hp. lia.
    + rewrite list_lookup_insert_ne in Hlq by done. by eapply wf_ready.
  - simpl. by apply wf_sleep.
Qed.

Lemma ready_queue a p : a_inv a -> is_priority p -> exists l, a_ready a !! Z.to_nat p = Some l.
Proof.
  intros Ha [? ?]. apply lookup_lt_is_Some_2. rewrite (ai_len _ Ha). unfold MAX_PRIORITY in *. lia.
Qed.

Lemma push_inv a x t :
  a_inv a -> x ∉ queued a -> a_thr a !! x = Some t -> t_state t = THREAD_READY ->
  is_priority (t_priority t) -> a_inv (a_push x a) /\ queued (a_push x a) ≡ₚ x :: queued a.
Proof.
  intros Ha Hx Ht Hst Hp. destruct (ready_queue a _ Ha Hp) as [l Hl].
  unfold a_push. rewrite Ht.
  replace (a <| a_ready ::= alter (cons x) (Z.to_nat (t_priority t)) |>)
    with (a <| a_ready ::= <[Z.to_nat (t_priority t) := x :: l]> |>).
  - by apply (add_ready_inv a x t l).
  - unfold over. simpl. f_equal. symmetry. by apply (list_alter_lookup (cons x)).
Qed.

(** ** What the list operations do *)

Lemma wake_list_spec now xs : forall kept a,
  a_inv a -> a_sleep a = kept ++ xs ->
  let a' := wake_list now kept xs a in
  a_inv a' /\ queued a' ≡ₚ queued a /\ a_age a' = a_age a /\
  a_sleep a' = kept ++ filter (fun x => due now x a = false) xs /\
  (forall x, a_thr a' !! x =
     if bool_decide (x ∈ xs) && due now x a then set_ready <$> a_thr a !! x else a_thr a !! x).
Proof.
  induction xs as [| x xs IH]; intros kept a Ha Hs; cbn [wake_list].
  { by split_and!. }
  destruct (wf_sleep _ (ai_wf _ Ha) x) as (t & Ht & Hst & Hp).
  { rewrite Hs. apply elem_of_app. right. by left. }
  destruct (due now x a) eqn:Ed.
  - destruct (unlink_sleep_inv a kept x xs Ha Hs) as (H1 & Hx & Hq).
    set (a1 := a <| a_sleep := kept ++ xs |>) in *.
    pose proof (update_outside_inv a1 x set_ready H1 Hx) as H2.
    set (a2 := a_update x set_ready a1) in *.
    assert (Ht2 : a_thr a2 !! x = Some (set_ready t)) by (simpl; by rewrite lookup_alter_eq, Ht).
    destruct (push_inv a2 x (set_ready t) H2 Hx Ht2 eq_refl Hp) as [H3 Hq3].
    assert (Hnx : x ∉ xs).
    { intros Hin. apply Hx, elem_of_sleep. apply elem_of_app. by right. }
    assert (Hdue : forall y, y <> x -> due now y (a_push x a2) = due now y a).
    { intros y Hy. unfold due. rewrite a_push_thr. simpl. by rewrite lookup_alter_ne. }
    destruct (IH kept (a_push x a2)) as (I1 & I2 & I3 & I4 & I5); [done | by rewrite a_push_sleep |].
    split_and!; try done.
    + rewrite I2, Hq3, Hq. done.
    + rewrite I3. unfold a_push. by case_match.
    + rewrite I4. f_equal. rewrite filter_cons_False by congruence.
      apply list_filter_ext_in. intros y Hy. rewrite Hdue; [done |]. by intros ->.
    + intros y. rewrite I5, a_push_thr. destruct (decide (y = x)) as [-> | Hne].
      * rewrite bool_decide_eq_false_2 by done. rewrite bool_decide_eq_true_2 by (by left). simpl.
        rewrite Ed. by rewrite lookup_alter_eq, Ht.
      * rewrite Hdue by done. simpl. rewrite lookup_alter_ne by done.
        assert (bool_decide (y ∈ x :: xs) = bool_decide (y ∈ xs)) as ->; [| done].
        apply bool_decide_ext. rewrite elem_of_cons. naive_solver.
  - destruct (IH (kept ++ [x]) a) as (I1 & I2 & I3 & I4 & I5); [done | by rewrite <- app_assoc |].
    split_and!; try done.
    + rewrite I4, filter_cons_True by done. by rewrite <- app_assoc.
    + intros y. rewrite I5. destruct (decide (y = x)) as [-> | Hne].
      * by rewrite Ed, !andb_false_r.
      * assert (bool_decide (y ∈ x :: xs) = bool_decide (y ∈ xs)) as ->; [| done].
        apply bool_decide_ext. rewrite elem_of_cons. naive_solver.
Qed.

(** One look of the ageing loop at a thread. *)
Definition age_once (t : thread_t) : thread_t :=
  if t_tid t =? 1 then t
  else if aged t then promote (zero_ticks (tick_age t)) else tick_age t.

Lemma age_list_spec p xs : forall kept a, (p < 31)%nat ->
  a_inv a -> a_ready a !! p = Some (kept ++ xs) ->
  let a' := age_list p kept xs a in
  a_inv a' /\ queued a' ≡ₚ queued a /\ a_age a' = a_age a /\ a_sleep a' = a_sleep a /\
  (forall x, a_thr a' !! x =
     if bool_decide (x ∈ xs) then age_once <$> a_thr a !! x else a_thr a !! x).
Proof.
  induction xs as [| x xs IH]; intros kept a Hp31 Ha Hs; cbn [age_list].
  { by split_and!. }
  assert (Hxl : x ∈ kept ++ x :: xs) by (apply elem_of_app; right; by left).
  destruct (wf_ready _ (ai_wf _ Ha) p _ x Hs Hxl) as (t & Ht & Hst & Hp).
  assert (Hnx : x ∉ xs).
  { pose proof (queue_nodup _ _ _ (ai_nodup _ Ha) (queues_ready _ _ _ Hs)) as Hnd.
    apply NoDup_app in Hnd as (_ & _ & Hnd). by apply NoDup_cons in Hnd as [? _]. }
  assert (Hcons : forall y, y <> x -> bool_decide (y ∈ x :: xs) = bool_decide (y ∈ xs)).
  { intros y Hy. apply bool_decide_ext. rewrite elem_of_cons. naive_solver. }
  rewrite Ht. destruct (t_tid t =? 1) eqn:Et; [| destruct (aged t) eqn:Ea].
  - destruct (IH (kept ++ [x]) a) as (I1 & I2 & I3 & I4 & I5); [done | done | by rewrite <- app_assoc |].
    split_and!; try done. intros y. rewrite I5. destruct (decide (y = x)) as [-> | Hne]; [| by rewrite Hcons].
    rewrite bool_decide_eq_false_2, bool_decide_eq_true_2 by (done || by left).
    rewrite Ht. simpl. unfold age_once. by rewrite Et.
  - destruct (unlink_ready_inv a p kept x xs Ha Hs) as (H1 & Hx & Hq).
    set (a1 := a <| a_ready ::= <[p := kept ++ xs]> |>) in *.
    set (a4 := a_update x promote (a_update x zero_ticks (a_update x tick_age a1))).
    assert (H4 : a_inv a4) by (do 3 (apply update_outside_inv; [| done]); done).
    set (t' := promote (zero_ticks (tick_age t))).
    assert (Ht4 : a_thr a4 !! x = Some t') by (simpl; by rewrite !lookup_alter_eq, Ht).
    assert (Hpt : t_priority t' = Z.of_nat (S p)) by (by apply promote_priority).
    destruct (push_inv a4 x t' H4 Hx Ht4) as [H5 Hq5].
    { unfold t', promote. case_match; exact Hst. }
    { rewrite Hpt. unfold is_priority, MAX_PRIORITY. lia. }
    destruct (IH kept (a_push x a4)) as (I1 & I2 & I3 & I4 & I5); [done | done | |].
    { rewrite (a_push_ready x a4 p t') by (done || (rewrite Hpt; lia)).
      simpl. apply list_lookup_insert_eq. by eapply lookup_lt_Some. }
    split_and!; try done.
    + rewrite I2, Hq5, Hq. done.
    + rewrite I3. unfold a_push. by case_match.
    + rewrite I4. by rewrite a_push_sleep.
    + intros y. rewrite I5, a_push_thr. destruct (decide (y = x)) as [-> | Hne].
      * rewrite bool_decide_eq_false_2, bool_decide_eq_true_2 by (done || by left).
        rewrite Ht4, Ht. simpl. unfold age_once. by rewrite Et, Ea.
      * rewrite Hcons by done. simpl. by rewrite !lookup_alter_ne by done.
  - assert (H1 : a_inv (a_update x tick_age a)) by (by apply update_inside_inv).
    destruct (IH (kept ++ [x]) (a_update x tick_age a)) as (I1 & I2 & I3 & I4 & I5);
      [done | done | by rewrite <- app_assoc |].
    split_and!; try done. intros y. rewrite I5. simpl. destruct (decide (y = x)) as [-> | Hne].
    + rewrite bool_decide_eq_false_2, bool_decide_eq_true_2 by (done || by left).
      rewrite lookup_alter_eq, Ht. simpl. unfold age_once. by rewrite Et, Ea.
    + rewrite Hcons by done. by rewrite lookup_alter_ne by done.
Qed.

(** ** Ageing all queues *)

(** Ageing changes a thread's waiting time and raises its priority, nothing else. *)
Definition ages (t t' : thread_t) : Prop :=
  t' = t <| t_total_ticks := t_total_ticks t' |> <| t_priority := t_priority t' |> /\
  t_priority t <= t_priority t'.

Lemma ages_refl t : ages t t.
Proof. split; [by destruct t | lia]. Qed.

Lemma ages_trans t1 t2 t3 : ages t1 t2 -> ages t2 t3 -> ages t1 t3.
Proof.
  intros [E1 H1] [E2 H2]. split; [| lia]. rewrite E2, E1. by destruct t1, t3.
Qed.

Lemma age_once_ages t : is_priority (t_priority t) -> ages t (age_once t).
Proof.
  intros [H0 H1]. unfold age_once, promote, MAX_PRIORITY in *.
  destruct (t_tid t =? 1); [apply ages_refl |]. destruct (aged t); [| split; [by destruct t | simpl; lia]].
  simpl. destruct (Z.ltb_spec (t_priority t) 31); split; try (by destruct t); simpl; try lia.
  rewrite u8_small by lia. lia.
Qed.

Lemma wf_level a p l : a_inv a -> a_ready a !! p = Some l -> level a p l.
Proof. intros Ha Hl x Hx. destruct (wf_ready _ (ai_wf _ Ha) p l x Hl Hx) as (t & ? & ? & ?). eauto. Qed.

Lemma age_lists_spec n : forall p a,
  (p + n <= 31)%nat -> a_inv a ->
  let a' := age_lists n p a in
  a_inv a' /\ queued a' ≡ₚ queued a /\ a_age a' = a_age a /\ a_sleep a' = a_sleep a /\
  (forall x, x ∉ queued a -> a_thr a' !! x = a_thr a !! x) /\
  (forall x t, a_thr a !! x = Some t -> exists t', a_thr a' !! x = Some t' /\ ages t t').
Proof.
  induction n as [| n IH]; intros p a Hp Ha; cbn [age_lists].
  { split_and!; try done. intros x t Ht. exists t. split; [done | apply ages_refl]. }
  destruct (lookup_lt_is_Some_2 (a_ready a) p) as [l Hl]; [rewrite (ai_len _ Ha); lia |].
  rewrite Hl. simpl.
  destruct (age_list_spec p l [] a ltac:(lia) Ha Hl) as (I1 & I2 & I3 & I4 & I5).
  destruct (IH (S p) (age_list p [] l a) ltac:(lia) I1) as (J1 & J2 & J3 & J4 & J5 & J6).
  split_and!; try done; try congruence; [by rewrite J2 | |].
  - intros x Hx. rewrite J5 by (by rewrite I2). rewrite I5.
    rewrite bool_decide_eq_false_2; [done |]. intros Hin. apply Hx. by eapply elem_of_ready.
  - intros x t Ht. specialize (I5 x). case_bool_decide as Hin.
    + rewrite Ht in I5. destruct (J6 x _ I5) as (t' & Ht' & Hag). exists t'. split; [done |].
      eapply ages_trans; [apply age_once_ages | exact Hag].
      destruct (wf_level a p l Ha Hl x Hin) as (t1 & Ht1 & Hp1). simplify_eq. rewrite Hp1.
      unfold is_priority, MAX_PRIORITY. lia.
    + rewrite Ht in I5. destruct (J6 x _ I5) as (t' & Ht' & Hag). eauto.
Qed.

Lemma age_queues_rep n : forall p s a,
  (p + n <= 31)%nat -> rep s a -> a_inv a ->
  exists s', age_queues n (Z.of_nat p) s = Ret tt s' /\ rep s' (age_lists n p a).
Proof.
  induction n as [| n IH]; intros p s a Hp Hr Ha; cbn [age_queues age_lists]; [by exists s |].
  destruct (lookup_lt_is_Some_2 (a_ready a) p) as [l Hl]; [rewrite (ai_len _ Ha); lia |].
  rewrite Hl. simpl. destruct (rep_ready s a p l Hr Hl) as (_ & h & Hh & Hseg & HQ).
  pose proof (queue_length _ _ _ _ _ (rp_queues _ _ Hr) HQ).
  rewrite bind_gets. rewrite (bind_rq_load s _ h) by
    (rewrite ?Nat2Z.id; done || (unfold is_priority, MAX_PRIORITY; lia)).
  destruct (age_rep p l [] s a (S (size (q_threads s))) ltac:(lia) Hr Hl (wf_level a p l Ha Hl) ltac:(lia))
    as (s1 & E1 & R1).
  rewrite (lseg_head _ _ _ Hseg). change (prev_of []) with 0 in E1. rewrite (bind_ret _ _ _ _ _ E1).
  destruct (age_list_spec p l [] a ltac:(lia) Ha Hl) as (I1 & _).
  replace (Z.of_nat p + 1) with (Z.of_nat (S p)) by lia. apply IH; [lia | done | done].
Qed.

Lemma set_age_inv a v : a_inv a -> a_inv (a <| a_age := v |>).
Proof. intros [[] ? ?]. by repeat constructor. Qed.

Lemma a_age_threads_spec now a :
  a_inv a ->
  let a' := a_age_threads now a in
  a_inv a' /\ queued a' ≡ₚ queued a /\ a_sleep a' = a_sleep a /\
  (forall x, x ∉ queued a -> a_thr a' !! x = a_thr a !! x) /\
  (forall x t, a_thr a !! x = Some t -> exists t', a_thr a' !! x = Some t' /\ ages t t').
Proof.
  intros Ha. unfold a_age_threads. destruct (_ <? 20).
  - split_and!; try done. intros x t Ht. exists t. split; [done | apply ages_refl].
  - destruct (age_lists_spec 31 0 (a <| a_age := now |>) ltac:(lia) (set_age_inv a now Ha))
      as (J1 & J2 & _ & J4 & J5 & J6). by split_and!.
Qed.

Lemma age_threads_rep now s a :
  rep s a -> a_inv a ->
  exists s', sched_age_threads now s = Ret tt s' /\ rep s' (a_age_threads now a).
Proof.
  intros Hr Ha. unfold sched_age_threads, a_age_threads. rewrite bind_gets, (rp_age _ _ Hr).
  destruct (_ <? 20); [by exists s |]. rewrite bind_modify.
  apply (age_queues_rep 31 0); [lia | | by apply set_age_inv].
  destruct Hr. by constructor.
Qed.

(** ** Choosing *)

Lemma find_ready_rep s a n :
  rep s a -> (n <= 32)%nat -> find_ready n s = Ret (Z.of_nat <$> highest n (a_ready a)) s.
Proof.
  intros Hr. induction n as [| n IH]; intros Hn; cbn [find_ready highest]; [done |].
  destruct (lookup_lt_is_Some_2 (a_ready a) n) as [l Hl]; [rewrite (rp_len _ _ Hr); lia |].
  destruct (rep_ready s a n l Hr Hl) as (_ & h & Hh & Hseg & _).
  rewrite (bind_rq_load s _ h) by (rewrite ?Nat2Z.id; done || (unfold is_priority, MAX_PRIORITY; lia)).
  rewrite Hl. simpl. pose proof (lseg_nil _ _ _ Hseg) as Hnil. destruct l as [| x l].
  - rewrite (proj2 Hnil) by done. simpl. apply IH. lia.
  - destruct (Z.eqb_spec h 0) as [E |]; [by apply Hnil in E | done].
Qed.

Lemma highest_spec n R p :
  highest n R = Some p -> (p < n)%nat /\ (exists x l, R !! p = Some (x :: l)) /\
  forall q l, (p < q < n)%nat -> R !! q = Some l -> l = [].
Proof.
  induction n as [| n IH]; cbn [highest]; [done |].
  destruct (R !! n) as [[| x l] |] eqn:E; simpl; intros H.
  - destruct (IH H) as (? & ? & Hrest). split_and!; try done; [lia |].
    intros q l Hq Hl. destruct (decide (q = n)) as [-> |]; [congruence | apply (Hrest q); [lia | done]].
  - simplify_eq. split; [lia |]. split; [eauto |]. intros; lia.
  - destruct (IH H) as (? & ? & Hrest). split_and!; try done; [lia |].
    intros q l Hq Hl. destruct (decide (q = n)) as [-> |]; [congruence | apply (Hrest q); [lia | done]].
Qed.

Lemma highest_None n R : highest n R = None -> forall q l, (q < n)%nat -> R !! q = Some l -> l = [].
Proof.
  induction n as [| n IH]; cbn [highest]; [lia |]. intros H q l Hq Hl.
  destruct (decide (q = n)) as [-> | Hne].
  - rewrite Hl in H. simpl in H. by destruct l.
  - apply (IH ltac:(by destruct (default [] (R !! n))) q); [lia | done].
Qed.

Lemma find_last_rep s k : forall h y fuel,
  lseg (q_threads s) h (k ++ [y]) -> (length k < fuel)%nat -> find_last fuel h s = Ret y s.
Proof.
  induction k as [| x k IH]; intros h y [| fuel] Hseg Hf; try (simpl in Hf; lia); cbn [find_last].
  - destruct Hseg as (-> & Hy & t & Ht & Hn). simpl in Hn. rewrite (bind_t_load s y t) by done. by rewrite Hn.
  - destruct Hseg as (-> & Hx & t & Ht & Hseg). rewrite (bind_t_load s x t) by done.
    destruct (Z.eqb_spec (t_next t) 0) as [E |].
    + apply (lseg_nil _ _ _ Hseg) in E. by destruct k.
    + simpl. apply IH; [done | simpl in Hf; lia].
Qed.

(** A thread in no queue may change link and data. *)
Lemma rep_update_outside s a x t f g :
  rep s a -> x ∉ queued a -> q_threads s !! x = Some t -> strip (f t) = g (strip t) ->
  rep (s <| q_threads ::= <[x := f t]> |>) (a_update x g a).
Proof.
  intros [Ht Hl HQ Ha] Hxq Hx Hf. constructor; try done.
  - simpl. rewrite Ht. by apply alter_strip.
  - by apply qrep_outside.
Qed.

Lemma requeue_rep s a cur t :
  rep s a -> cur ∉ queued a -> cur <> 0 -> q_threads s !! cur = Some t -> is_priority (t_priority t) ->
  exists s', requeue cur s = Ret tt s' /\ rep s' (a_requeue cur a).
Proof.
  intros Hr Hq H0 Ht Hp. unfold requeue. rewrite (bind_t_update s cur t) by done.
  match goal with |- context [s <| q_threads ::= <[cur := ?v]> |>] => set (t1 := v) end.
  set (s1 := s <| q_threads ::= <[cur := t1]> |>).
  assert (R1 : rep s1 (a_update cur fresh_slice a)).
  { apply (rep_update_outside s a cur t (fun _ => t1) fresh_slice); try done. }
  assert (Ht1 : q_threads s1 !! cur = Some t1) by apply lookup_insert_eq.
  rewrite (bind_t_load s1 cur t1) by done. change (t_priority t1) with (t_priority t).
  assert (Hlt : (Z.to_nat (t_priority t) < 32)%nat) by (destruct Hp; unfold MAX_PRIORITY in *; lia).
  destruct (lookup_lt_is_Some_2 (a_ready a) (Z.to_nat (t_priority t))) as [l Hl]; [by rewrite (rp_len _ _ Hr) |].
  destruct (rep_ready s1 _ _ l R1 Hl) as (_ & h & Hh & Hseg & HQ).
  rewrite (bind_rq_load s1 _ h) by done.
  assert (Ea : a_requeue cur a = (a_update cur fresh_slice a)
            <| a_ready ::= <[Z.to_nat (t_priority t) := l ++ [cur]]> |>).
  { unfold a_requeue. rewrite (rep_thread' s1 _ cur t1 R1 Ht1). change (t_priority (strip t1)) with (t_priority t).
    unfold over. simpl. f_equal. by apply (list_alter_lookup (fun l => l ++ [cur])). }
  rewrite Ea. pose proof (rep_heads_len _ _ R1) as Hhl. destruct R1 as [T L HQr A].
  assert (Hins : forall l', <[Z.to_nat (t_priority t) := l']> (queues (a_update cur fresh_slice a)) =
    queues ((a_update cur fresh_slice a) <| a_ready ::= <[Z.to_nat (t_priority t) := l']> |>)).
  { intros l'. unfold queues. simpl. apply insert_app_l. simpl in L. lia. }
  destruct (Z.eqb_spec h 0) as [-> | Hne].
  - assert (l = []) as -> by (by apply (lseg_nil _ _ _ Hseg)).
    rewrite (rq_store_eq s1 _ 0) by done. eexists. split; [reflexivity |].
    assert (Hh' : (q_ready s1 ++ [sleep_queue (q_extra s1)]) !! Z.to_nat (t_priority t) = Some 0)
      by (by apply lookup_app_l_Some).
    pose proof (qrep_push _ _ _ _ 0 [] cur t1 HQr Hh' HQ H0 Hq Ht1 eq_refl) as HP.
    rewrite Hins, insert_app_l in HP by lia. constructor; try done. simpl in *. by rewrite length_insert.
  - destruct (last l) as [y |] eqn:El.
    2:{ apply last_None in El. by destruct Hne; apply (lseg_nil _ _ _ Hseg). }
    apply last_Some in El as [k ->].
    assert (Hyl : y ∈ k ++ [y]) by (apply elem_of_app; right; by left).
    destruct (lseg_lookup _ _ _ y Hseg Hyl) as (Hy0 & ty & Hty).
    pose proof (queue_length _ _ _ _ _ HQr HQ) as Hlen. rewrite length_app in Hlen. change (length [y]) with 1%nat in Hlen.
    rewrite bind_gets, (bind_ret _ _ _ _ _ (find_last_rep s1 k h y (S (size (q_threads s1))) Hseg ltac:(lia))).
    unfold t_update. rewrite (bind_t_load s1 y ty) by done. eexists. split; [reflexivity |].
    pose proof (qrep_append _ _ _ _ k y cur ty t1 HQr HQ H0 Hq Hty Ht1 eq_refl) as HP.
    rewrite <- app_assoc. simpl. rewrite Hins in HP.
    constructor; try done; [simpl; by rewrite strip_relink | simpl in *; by rewrite length_insert].
Qed.

(** [current->next = sleep_queue; sleep_queue = current]. *)
Lemma push_sleep_rep s a cur t :
  rep s a -> cur ∉ queued a -> cur <> 0 -> q_threads s !! cur = Some t ->
  exists s', (t_update cur (fun t => t <| t_next := sleep_queue (q_extra s) |>);;
              set_sleep_queue cur) s = Ret tt s' /\ rep s' (a <| a_sleep ::= cons cur |>).
Proof.
  intros Hr Hq H0 Ht. rewrite (bind_t_update s cur t) by done.
  eexists. split; [reflexivity |]. pose proof (rep_heads_len _ _ Hr) as Hhl.
  destruct (rep_sleep s a Hr) as [Hseg HQ]. destruct Hr as [T L HQr A].
  constructor; try done; [simpl; by rewrite strip_relink |].
  set (h := sleep_queue (q_extra s)) in *.
  pose proof (qrep_outside _ _ _ HQr cur (t <| t_next := h |>) Hq) as HQ'.
  assert (Hh : (q_ready s ++ [h]) !! 32%nat = Some h)
    by (rewrite lookup_app_r, Hhl by lia; done).
  pose proof (qrep_push _ _ _ 32 h (a_sleep a) cur _ HQ' Hh HQ H0 Hq ltac:(apply lookup_insert_eq) eq_refl) as HP.
  unfold queues in *. simpl in *.
  replace 32%nat with (length (q_ready s) + 0)%nat in HP at 1 by lia. rewrite insert_app_r in HP.
  replace 32%nat with (length (a_ready a) + 0)%nat in HP by lia. rewrite insert_app_r in HP. exact HP.
Qed.

Lemma strip_fields t t0 :
  strip t = t0 -> t_priority t0 = t_priority t /\ t_state t0 = t_state t /\
  t_ticks_remaining t0 = t_ticks_remaining t /\ t_tid t0 = t_tid t /\ t_rsp t0 = t_rsp t /\
  t_stack_top t0 = t_stack_top t.
Proof. by intros <-. Qed.

Lemma pick_rep s a cur c :
  rep s a -> cur ∉ queued a -> cur <> 0 -> a_thr a !! cur = Some c -> is_priority (t_priority c) ->
  exists s', pick_next cur s = Ret (fst (a_pick cur a)) s' /\ rep s' (snd (a_pick cur a)).
Proof.
  intros Hr Hq H0 Hc Hp. unfold pick_next, a_pick.
  rewrite (bind_ret _ _ _ _ _ (find_ready_rep s a (Z.to_nat (MAX_PRIORITY + 1)) Hr ltac:(done))).
  change (Z.to_nat (MAX_PRIORITY + 1)) with 32%nat. rewrite Hc.
  destruct (highest 32 (a_ready a)) as [p |] eqn:Eh; [| by exists s]. simpl.
  destruct (rep_thread s a cur c Hr Hc) as (t & Ht & Est).
  destruct (strip_fields t c Est) as (E1 & E2 & E3 & _).
  rewrite (bind_t_load s cur t) by done. unfold preempts. rewrite <- E1, <- E2, <- E3.
  destruct (_ || _ || _); [| by exists s].
  destruct (highest_spec _ _ _ Eh) as (Hp32 & (next & l & Hl) & _).
  destruct (rep_ready s a p _ Hr Hl) as (_ & h & Hh & Hseg & HQ).
  pose proof Hseg as (-> & Hn0 & n & Hn & _).
  rewrite (bind_rq_load s _ next), (bind_t_load s next n) by
    (rewrite ?Nat2Z.id; done || (unfold is_priority, MAX_PRIORITY; lia)).
  destruct (unlink_ready_rep s a p [] next l n Hr Hl Hn) as (s1 & U1 & R1 & Hnq & _ & _ & _).
  change (negb (prev_of [] =? 0)) with false in U1. cbn iota in U1.
  rewrite (bind_ret _ _ _ _ _ U1), Hl. simpl app in R1. set (a1 := a <| a_ready ::= <[p := l]> |>) in *.
  assert (Hq1 : cur ∉ queued a1).
  { intros Hin. apply Hq. rewrite (queued_set_ready a p (next :: l) next l Hl) by done. by right. }
  destruct (rep_thread s1 a1 cur c R1 Hc) as (t1 & Ht1 & Est1).
  destruct (strip_fields t1 c Est1) as (F1 & _).
  destruct (t_state c) eqn:Est'.
  - by exists s1.
  - destruct (requeue_rep s1 a1 cur t1 R1 Hq1 H0 Ht1) as (s2 & E & R2); [by rewrite <- F1 |].
    rewrite (bind_ret _ _ _ _ _ E). by exists s2.
  - destruct (push_sleep_rep s1 a1 cur t1 R1 Hq1 H0 Ht1) as (s2 & E & R2).
    exists s2. split; [| done].
    erewrite (bind_ret _ _ s1 tt s2); [done |]. rewrite bind_gets. exact E.
  - by exists s1.
Qed.

(** ** sched_reschedule's queue work *)

(** The current thread of a processor: in no queue, of a proper priority. *)
Record a_current (a : aqs) (cur : Z) (c : thread_t) : Prop := {
  ac_nonnull : cur <> 0;
  ac_outside : cur ∉ queued a;
  ac_thread : a_thr a !! cur = Some c;
  ac_priority : is_priority (t_priority c)
}.

(** The state in which the choice is made. *)
Lemma a_prepare_spec cur rsp now a c :
  a_inv a -> a_current a cur c ->
  let c' := use_tick (c <| t_rsp := rsp |>) in
  let a' := a_prepare cur rsp now a in
  a_inv a' /\ a_current a' cur c' /\ queued a' ≡ₚ queued a /\
  a_sleep a' = filter (fun x => due now x a = false) (a_sleep a) /\
  (forall x, x ∈ a_sleep a -> due now x a = true ->
     exists p l t, a_ready a' !! p = Some l /\ x ∈ l /\ a_thr a' !! x = Some t /\ t_state t = THREAD_READY).
Proof.
  intros Ha [H0 Hq Hc Hp] c' a'. unfold a', a_prepare, a_wake.
  set (f := fun t : thread_t => t <| t_rsp := rsp |>).
  pose proof (update_outside_inv a cur f Ha Hq) as H1. set (a1 := a_update cur f a) in *.
  destruct (wake_list_spec now (a_sleep a1) [] a1 H1 eq_refl) as (I1 & I2 & I3 & I4 & I5).
  set (a2 := wake_list now [] (a_sleep a1) a1) in *.
  assert (Hq2 : cur ∉ queued a2) by (by rewrite I2).
  pose proof (update_outside_inv a2 cur use_tick I1 Hq2) as H3. set (a3 := a_update cur use_tick a2) in *.
  destruct (a_age_threads_spec now a3 H3) as (J1 & J2 & J3 & J4 & J5).
  assert (Hns : cur ∉ a_sleep a1) by (intros Hin; apply Hq; by apply elem_of_sleep).
  assert (Hdue : forall x, x ∈ a_sleep a -> due now x a1 = due now x a).
  { intros x Hx. unfold due. simpl. rewrite lookup_alter_ne; [done |]. intros ->. by apply Hns. }
  assert (Hfil : a_sleep a2 = filter (fun x => due now x a = false) (a_sleep a)).
  { rewrite I4. simpl. apply list_filter_ext_in. intros x Hx. by rewrite Hdue. }
  split_and!; try done.
  - constructor; try done; [by rewrite J2 | |].
    + rewrite J4 by done. simpl. rewrite lookup_alter_eq, I5.
      rewrite bool_decide_eq_false_2 by done. simpl. rewrite lookup_alter_eq, Hc. done.
    + unfold c', use_tick. by case_match.
  - rewrite J2. exact I2.
  - rewrite J3. exact Hfil.
  - intros x Hx Hdx.
    assert (Hxq : x ∈ queued (a_age_threads now a3)).
    { rewrite J2. change (queued a3) with (queued a2). rewrite I2. by apply elem_of_sleep. }
    unfold queued, queues in Hxq. rewrite concat_app in Hxq. simpl in Hxq. rewrite app_nil_r in Hxq.
    apply elem_of_app in Hxq as [Hxr | Hxs].
    + apply list_elem_of_In, in_concat in Hxr as (l & Hl & Hxl).
      apply list_elem_of_In in Hl, Hxl. apply list_elem_of_lookup in Hl as [p Hl].
      destruct (wf_ready _ (ai_wf _ J1) p l x Hl Hxl) as (t & Ht & Hst & _). eauto 8.
    + rewrite J3 in Hxs. change (a_sleep a3) with (a_sleep a2) in Hxs. rewrite Hfil in Hxs.
      apply list_elem_of_filter in Hxs as [Hd _]. congruence.
Qed.

Lemma reschedule_rep s a cur rsp now c :
  rep s a -> a_inv a -> a_current a cur c ->
  exists s', reschedule_queues cur rsp now s = Ret (fst (a_reschedule cur rsp now a)) s' /\
    rep s' (snd (a_reschedule cur rsp now a)).
Proof.
  intros Hr Ha [H0 Hq Hc Hp]. unfold reschedule_queues, a_reschedule, a_prepare.
  destruct (rep_thread s a cur c Hr Hc) as (t & Ht & Est).
  set (f := fun t : thread_t => t <| t_rsp := rsp |>).
  rewrite (bind_t_update s cur t) by done.
  pose proof (rep_update s a cur t f f Hr Ht eq_refl eq_refl) as R1.
  set (s1 := s <| q_threads ::= _ |>) in *.
  pose proof (update_outside_inv a cur f Ha Hq) as A1. set (a1 := a_update cur f a) in *.
  rewrite !bind_gets. destruct (rep_sleep s1 a1 R1) as [Hseg HQ].
  pose proof (queue_length _ _ _ _ _ (rp_queues _ _ R1) HQ) as Hlen.
  destruct (wake_rep now (a_sleep a1) [] s1 a1 (S (size (q_threads s1))) R1 eq_refl) as (s2 & E2 & R2);
    [| lia |].
  { intros x Hx. destruct (wf_sleep _ (ai_wf _ A1) x Hx) as (t' & ? & _ & ?). eauto. }
  rewrite (lseg_head _ _ _ Hseg). change (prev_of []) with 0 in E2. rewrite (bind_ret _ _ _ _ _ E2).
  destruct (wake_list_spec now (a_sleep a1) [] a1 A1 eq_refl) as (A2 & I2 & _ & _ & I5).
  unfold a_wake. set (a2 := wake_list now [] (a_sleep a1) a1) in *.
  assert (Hq2 : cur ∉ queued a2) by (by rewrite I2).
  assert (Hc2 : a_thr a2 !! cur = Some (f c)).
  { rewrite I5. rewrite bool_decide_eq_false_2 by (intros Hin; apply Hq; by apply elem_of_sleep).
    simpl. by rewrite lookup_alter_eq, Hc. }
  destruct (rep_thread s2 a2 cur _ R2 Hc2) as (t2 & Ht2 & Est2).
  rewrite (bind_t_update s2 cur t2) by done.
  assert (Hut : t_next (use_tick t2) = t_next t2 /\ strip (use_tick t2) = use_tick (strip t2))
    by (unfold use_tick; simpl; by case_match).
  pose proof (rep_update s2 a2 cur t2 use_tick use_tick R2 Ht2 (proj1 Hut) (proj2 Hut)) as R3.
  pose proof (update_outside_inv a2 cur use_tick A2 Hq2) as A3.
  change (fun t => if 0 <? t_ticks_remaining t then _ else t) with use_tick.
  destruct (age_threads_rep now _ _ R3 A3) as (s4 & E4 & R4).
  change (if 0 <? t_ticks_remaining t2 then _ else t2) with (use_tick t2).
  rewrite (bind_ret _ _ _ _ _ E4).
  destruct (a_age_threads_spec now _ A3) as (_ & J2 & _ & J4 & _).
  apply (pick_rep _ _ cur (use_tick (f c)) R4); [by rewrite J2 | done | |].
  - rewrite J4 by done. simpl. by rewrite lookup_alter_eq, Hc2.
  - unfold use_tick. case_match; exact Hp.
Qed.
