(* ===== verification/SchedProps.v ===== *)
(** The scheduler's theorems: what sched_reschedule decides, that it loses no
    thread, and what the other entry points of sched.c do to the queues. *)

From S2P Require Import Prelude Memory State Lib Console Pmm Heap Apic Cpu Queue Sched SchedSpec.

(** ** The choice *)

(** Does the current thread stay in the queues when it is switched out? *)
Definition stays (c : thread_t) : bool :=
  match t_state c with THREAD_RUNNING | THREAD_SLEEPING => true | _ => false end.

Lemma a_pick_switch cur a c p next l :
  a_inv a -> a_current a cur c -> highest 32 (a_ready a) = Some p -> a_ready a !! p = Some (next :: l) ->
  preempts p c = true ->
  let a' := snd (a_pick cur a) in
  fst (a_pick cur a) = Some next /\ a_inv a' /\
  next :: queued a' ≡ₚ (if stays c then cur :: queued a else queued a) /\
  next ∉ queued a' /\ next <> cur /\
  exists n, a_thr a' !! next = Some n /\ a_thr a !! next = Some n /\ is_priority (t_priority n).
Proof.
  intros Ha [H0 Hq Hc Hp] Hh Hl Hpre. unfold a_pick. rewrite Hh, Hc, Hpre, Hl. cbn [fst snd].
  destruct (unlink_ready_inv a p [] next l Ha Hl) as (A1 & Hn1 & Hperm). simpl app in *.
  set (a1 := a <| a_ready ::= <[p := l]> |>) in *.
  assert (Hq1 : cur ∉ queued a1) by (intros Hin; apply Hq; rewrite Hperm; by right).
  destruct (wf_ready _ (ai_wf _ Ha) p _ next Hl ltac:(by left)) as (n & Hn & Hns & Hnp).
  assert (Hpn : is_priority (t_priority n)).
  { rewrite Hnp. destruct (highest_spec _ _ _ Hh). unfold is_priority, MAX_PRIORITY. lia. }
  assert (Hne : next <> cur) by (intros ->; apply Hq; rewrite Hperm; by left).
  split; [done |]. unfold stays. destruct (t_state c) eqn:Est.
  - split_and!; try done; eauto 6.
  - unfold a_requeue. pose proof (update_outside_inv a1 cur fresh_slice A1 Hq1) as A2.
    set (a2 := a_update cur fresh_slice a1) in *.
    assert (Hc2 : a_thr a2 !! cur = Some (fresh_slice c)) by (simpl; by rewrite lookup_alter_eq, Hc).
    rewrite Hc2. destruct (ready_queue a2 (t_priority (fresh_slice c)) A2 Hp) as [lq Hlq].
    destruct (add_ready_inv a2 cur (fresh_slice c) lq (lq ++ [cur]) A2 Hq1 Hc2 eq_refl Hp Hlq) as [A3 P3];
      [by rewrite Permutation_app_comm |].
    replace (a2 <| a_ready ::= alter (fun l0 => l0 ++ [cur]) (Z.to_nat (t_priority (fresh_slice c))) |>)
      with (a2 <| a_ready ::= <[Z.to_nat (t_priority (fresh_slice c)) := lq ++ [cur]]> |>).
    2:{ unfold over. simpl. f_equal. symmetry. by apply (list_alter_lookup (fun l0 => l0 ++ [cur])). }
    split_and!; try done.
    + rewrite P3. change (queued a2) with (queued a1). rewrite Hperm. by rewrite Permutation_swap.
    + rewrite P3. apply not_elem_of_cons. done.
    + exists n. simpl. rewrite lookup_alter_ne by done. done.
  - assert (P3 : queued (a1 <| a_sleep ::= cons cur |>) ≡ₚ cur :: queued a1).
    { rewrite (queued_set_sleep (a1 <| a_sleep ::= cons cur |>) cur (a_sleep a1)) by done. done. }
    destruct A1 as [[W1 W2] N1 L1]. split_and!; try done.
    + constructor; [constructor | rewrite P3; by apply NoDup_cons | done]; [exact W1 |].
      intros x Hx. simpl in Hx. apply elem_of_cons in Hx as [-> | Hx]; [| by apply W2].
      exists c. split_and!; done.
    + rewrite P3, Hperm. by rewrite Permutation_swap.
    + rewrite P3. by apply not_elem_of_cons.
    + exists n. done.
  - split_and!; try done; eauto 6.
Qed.

Lemma a_pick_stay cur a c :
  a_thr a !! cur = Some c -> fst (a_pick cur a) = None ->
  (forall p next l, highest 32 (a_ready a) = Some p -> a_ready a !! p = Some (next :: l) -> preempts p c = false) /\
  snd (a_pick cur a) = a.
Proof.
  intros Hc. unfold a_pick. rewrite Hc. destruct (highest 32 (a_ready a)) as [p |] eqn:Eh; [| done].
  destruct (preempts p c) eqn:Ep.
  - destruct (a_ready a !! p) as [[| x l] |] eqn:El; try done.
    + destruct (highest_spec _ _ _ Eh) as (_ & (y & l & Hl) & _). congruence.
    + destruct (highest_spec _ _ _ Eh) as (_ & (y & l & Hl) & _). congruence.
  - intros _. split; [| done]. by intros q next l [= <-] _.
Qed.

(** The choice of another thread, read backwards: it is the first of the highest
    non-empty queue. *)
Lemma a_pick_chosen cur a c next a' :
  a_inv a -> a_current a cur c -> a_pick cur a = (Some next, a') ->
  exists p l n, highest 32 (a_ready a) = Some p /\ a_ready a !! p = Some (next :: l) /\ preempts p c = true /\
    a_inv a' /\ next :: queued a' ≡ₚ (if stays c then cur :: queued a else queued a) /\
    next ∉ queued a' /\ next <> cur /\ a_thr a' !! next = Some n /\ a_thr a !! next = Some n /\
    is_priority (t_priority n).
Proof.
  intros Ha Hc Epick. destruct (highest 32 (a_ready a)) as [p |] eqn:Eh.
  2:{ unfold a_pick in Epick. by rewrite Eh in Epick. }
  destruct (highest_spec _ _ _ Eh) as (_ & (x & l & Hl) & _).
  assert (Hpre : preempts p c = true).
  { unfold a_pick in Epick. rewrite Eh, (ac_thread _ _ _ Hc) in Epick. by destruct (preempts p c). }
  destruct (a_pick_switch cur a c p x l Ha Hc Eh Hl Hpre) as (Hx & Ai & Pa & Hnq & Hne & n & Hn & Hn' & Hp).
  rewrite Epick in *. cbn [fst snd] in *. injection Hx as <-. exists p, l, n. by split_and!.
Qed.

Lemma preempts_false p c :
  preempts p c = false ->
  t_state c = THREAD_RUNNING /\ Z.of_nat p <= t_priority c /\
  (Z.of_nat p = t_priority c -> t_ticks_remaining c <> 0).
Proof.
  unfold preempts. intros [[H1 H2]%orb_false_iff H3]%orb_false_iff. zbool.
  apply bool_decide_eq_true in H3. split; [done |]. split; [lia |].
  intros E. rewrite E, Z.eqb_refl in H2. simpl in H2. by apply Z.eqb_neq in H2.
Qed.

(** ** On the kernel state *)

(** The processor at [cpu], with record [c], has the queues [a]. *)
Record cpu_view (k : kernel) (cpu : Z) (c : cpu_t) (a : aqs) : Prop := {
  cv_addr : cpu <> 0;
  cv_cpu : s_cpus (sched k) !! cpu = Some c;
  cv_rep : exists e, cpu_extras (sched k) !! Z.to_nat (c_cpu_id c) = Some e /\
    rep (Qs (s_threads (sched k)) (c_ready_queues c) e) a
}.

Lemma deref_Some {A} (m : gmap Z A) p x : m !! p = Some x -> p <> 0 -> deref m p = Some x.
Proof. intros H Hne. unfold deref. apply Z.eqb_neq in Hne. by rewrite Hne. Qed.

(** The same kernel with other scheduler data. *)
Definition with_sched (s : sched_t) (k : kernel) : kernel := k <| sched := s |>.

Lemma with_qs_rep {A} k cpu c a (code : M qs A) r (a' : aqs) :
  cpu_view k cpu c a ->
  (forall s, rep s a -> exists s', code s = Ret r s' /\ rep s' a') ->
  exists k' rq, with_qs cpu code k = Ret r k' /\
    cpu_view k' cpu (c <| c_ready_queues := rq |>) a' /\
    hw k' = hw k /\ heap k' = heap k /\ apic k' = apic k /\ mem_of k' = mem_of k /\
    s_cpu_table (sched k') = s_cpu_table (sched k) /\
    (forall q, q <> cpu -> s_cpus (sched k') !! q = s_cpus (sched k) !! q) /\
    exists s', k' = with_sched s' k.
Proof.
  intros [H0 Hc (e & He & Hr)] Hcode. destruct (Hcode _ Hr) as (s' & E & Hr').
  unfold with_qs. rewrite (deref_Some _ _ _ Hc H0), He, E.
  eexists _, (q_ready s'). split; [reflexivity |]. split_and!; try done.
  - constructor; [done | simpl; apply lookup_insert_eq |]. exists (q_extra s'). simpl.
    rewrite list_lookup_insert_eq by (by eapply lookup_lt_Some). split; [done |]. by destruct s'.
  - intros q Hq. simpl. by rewrite lookup_insert_ne.
  - by eexists.
Qed.

Lemma view_thread k cpu c a x t :
  cpu_view k cpu c a -> a_thr a !! x = Some t ->
  exists t1, s_threads (sched k) !! x = Some t1 /\ strip t1 = t.
Proof. intros [_ _ (e & _ & Hr)] Hx. apply (rep_thread _ _ _ _ Hr Hx). Qed.

(** The final updates of a switch: the thread record, then the cpu record. *)
Lemma view_update_thread k cpu c a x t f g :
  cpu_view k cpu c a -> s_threads (sched k) !! x = Some t -> x <> 0 ->
  t_next (f t) = t_next t -> strip (f t) = g (strip t) ->
  exists k', thread_update x f k = Ret tt k' /\ cpu_view k' cpu c (a_update x g a) /\
    hw k' = hw k /\ heap k' = heap k /\ apic k' = apic k /\ mem_of k' = mem_of k /\
    s_cpus (sched k') = s_cpus (sched k) /\ s_threads (sched k') = <[x := f t]> (s_threads (sched k)) /\
    exists s', k' = with_sched s' k.
Proof.
  intros [H0 Hc (e & He & Hr)] Hx Hx0 Hn Hs. unfold thread_update, thread_load.
  eexists. split; [unfold mbind, M_bind; rewrite (deref_Some _ _ _ Hx Hx0); reflexivity |].
  split_and!; try done; [| by eexists]. constructor; [done | done |]. exists e. split; [done |].
  apply (rep_update _ a x t f g Hr Hx Hn Hs).
Qed.

Lemma view_update_cpu k cpu c a f :
  cpu_view k cpu c a -> c_ready_queues (f c) = c_ready_queues c -> c_cpu_id (f c) = c_cpu_id c ->
  exists k', cpu_update cpu f k = Ret tt k' /\ cpu_view k' cpu (f c) a /\
    hw k' = hw k /\ heap k' = heap k /\ apic k' = apic k /\ mem_of k' = mem_of k /\
    s_threads (sched k') = s_threads (sched k) /\ exists s', k' = with_sched s' k.
Proof.
  intros [H0 Hc (e & He & Hr)] Hq Hi. rewrite (cpu_update_spec k cpu c f Hc H0).
  eexists. split; [reflexivity |]. split_and!; try done; [| by eexists].
  constructor; [done | simpl; apply lookup_insert_eq |]. exists e. rewrite Hi, Hq. done.
Qed.

Lemma view_lock k cpu c a v :
  cpu_view k cpu c a ->
  cpu_view (lk_set (cpu_lock_ref cpu) v k) cpu (c <| c_sched_lock := v |>) a /\
  lk_get (cpu_lock_ref cpu) k = Some (c_sched_lock c).
Proof.
  intros [H0 Hc (e & He & Hr)]. split.
  - constructor; [done | simpl; by rewrite lookup_alter_eq, Hc |]. exists e. done.
  - simpl. by rewrite (deref_Some _ _ _ Hc H0).
Qed.

Lemma view_masked k cpu c a : cpu_view k cpu c a -> cpu_view (masked k) cpu c a.
Proof. by intros []. Qed.
Lemma view_rflags k cpu c a f : cpu_view k cpu c a -> cpu_view (set_rflags f k) cpu c a.
Proof. by intros []. Qed.

(** *** Releasing a dead thread *)

(** The memory of a thread: its record, its stack and its user stack, in
    different blocks of the heap. *)
Record holds_thread (k : kernel) (p : Z) (t : thread_t) : Prop := {
  ht_blocks : exists l o1 o2, heap_rep k l /\ held k l p o1 /\ held k l (t_stack_limit t) o2 /\ o1 <> o2 /\
    (t_user_stack_limit t = 0 \/
     exists o3, held k l (t_user_stack_limit t) o3 /\ o3 <> o1 /\ o3 <> o2);
  ht_lock : heap_lock (heap k) = 0
}.

Lemma reap_spec k cur t :
  s_threads (sched k) !! cur = Some t -> cur <> 0 ->
  (t_state t = THREAD_DEAD -> t_priority t <> 0 -> holds_thread k cur t) ->
  exists m', reap cur k = Ret tt (set_mem m' k) /\ (t_state t <> THREAD_DEAD -> m' = mem_of k).
Proof.
  intros Ht H0 Hdead. unfold reap, thread_load, mbind at 1, M_bind at 1. rewrite (deref_Some _ _ _ Ht H0).
  destruct (bool_decide (t_state t = THREAD_DEAD) && negb (t_priority t =? 0)) eqn:E; cbn [when].
  2:{ exists (mem_of k). split; [| done]. unfold mret, M_ret. f_equal. keta k. }
  apply andb_true_iff in E as [E1%bool_decide_eq_true E2%negb_true_iff%Z.eqb_neq].
  destruct (Hdead E1 E2) as [(l & o1 & o2 & Hr & H1 & H2 & H12 & H3) Hl].
  assert (Hu : exists m1 l1, when (negb (t_user_stack_limit t =? 0)) (kfree (t_user_stack_limit t)) k =
            Ret tt (set_mem m1 k) /\ heap_rep (set_mem m1 k) l1 /\
            held (set_mem m1 k) l1 cur o1 /\ held (set_mem m1 k) l1 (t_stack_limit t) o2).
  { destruct (Z.eqb_spec (t_user_stack_limit t) 0) as [Eu | Eu]; cbn [negb when].
    - exists (mem_of k), l. assert (set_mem (mem_of k) k = k) as -> by (keta k). done.
    - destruct H3 as [| (o3 & H3 & H31 & H32)]; [done |].
      destruct (kfree_held k l _ o3 Hr Hl H3) as (m1 & l1 & E3 & R1 & K1). exists m1, l1.
      split_and!; try done; apply K1; auto. }
  destruct Hu as (m1 & l1 & Eu & R1 & K1 & K2). rewrite (bind_ret _ _ _ _ _ Eu).
  destruct (kfree_held _ l1 _ o2 R1 Hl K2) as (m2 & l2 & E3 & R2 & K3). rewrite (bind_ret _ _ _ _ _ E3).
  destruct (kfree_held _ l2 cur o1 R2 Hl (K3 _ _ H12 K1)) as (m3 & l3 & E4 & _ & _). rewrite E4.
  by exists m3.
Qed.

(** *** sched_reschedule *)

Definition set_running (t : thread_t) : thread_t := t <| t_state := THREAD_RUNNING |>.

Lemma view_set_mem k cpu c a m : cpu_view k cpu c a -> cpu_view (set_mem m k) cpu c a.
Proof. by intros []. Qed.

Lemma thread_load_eq k x t : s_threads (sched k) !! x = Some t -> x <> 0 -> thread_load x k = Ret t k.
Proof. intros Hx H0. unfold thread_load. by rewrite (deref_Some _ _ _ Hx H0). Qed.

(** The switch to [next], from the release of the old thread on. *)
Lemma switch_spec k cpu c a cur next n flags :
  current_cpu k cpu -> cpu_view k cpu c a -> cur <> 0 -> next <> 0 ->
  (exists t, s_threads (sched k) !! cur = Some t /\
     (t_state t = THREAD_DEAD -> t_priority t <> 0 -> holds_thread k cur t)) ->
  a_thr a !! next = Some n ->
  exists k' c', (reap cur;;
      thread_update next (fun t => t <| t_state := THREAD_RUNNING |>);;
      cpu_update cpu (fun c => c <| c_sched_thread := next |>);;
      n ← thread_load next;
      tss_set_stack (t_stack_top n);;
      cpu_update cpu (fun c => c <| c_kernel_stack := t_stack_top n |>);;
      spin_unlock (cpu_lock_ref cpu);;
      b_irq_restore flags;;
      mret (t_rsp n)) k = Ret (t_rsp n) k' /\
    cpu_view k' cpu c' (a_update next set_running a) /\
    c_sched_thread c' = next /\ c_rsp0 c' = t_stack_top n /\ c_kernel_stack c' = t_stack_top n /\
    c_sched_lock c' = 0 /\ hw_rflags (hw k') = flags /\ apic k' = apic k /\
    exists m' s', k' = set_rflags flags (set_mem m' (with_sched s' k)) /\
      (forall t, s_threads (sched k) !! cur = Some t -> t_state t <> THREAD_DEAD -> m' = mem_of k).
Proof.
  intros Hcur Hv Hc0 Hn0 (tc & Htc & Hreap) Hn.
  destruct (reap_spec k cur tc Htc Hc0 Hreap) as (m' & Er & Hm'). rewrite (bind_ret _ _ _ _ _ Er).
  pose proof (view_set_mem _ _ _ _ m' Hv) as V1. set (k1 := set_mem m' k) in *.
  destruct (view_thread k1 cpu c a next n V1 Hn) as (n1 & Hn1 & En).
  destruct (strip_fields n1 n En) as (_ & _ & _ & _ & Ersp & Etop).
  destruct (view_update_thread k1 cpu c a next n1 set_running set_running V1 Hn1 Hn0 eq_refl eq_refl)
    as (k2 & E2 & V2 & Hh2 & _ & Ha2 & _ & _ & Ht2 & s2 & F2).
  rewrite (bind_ret _ _ _ _ _ E2).
  destruct (view_update_cpu k2 cpu c _ (fun c => c <| c_sched_thread := next |>) V2 ltac:(done) ltac:(done))
    as (k3 & E3 & V3 & Hh3 & _ & Ha3 & _ & Ht3 & s3 & F3).
  rewrite (bind_ret _ _ _ _ _ E3).
  rewrite (bind_ret _ _ _ _ _ (thread_load_eq k3 next (set_running n1) ltac:(rewrite Ht3, Ht2; apply lookup_insert_eq) Hn0)).
  cbn [t_stack_top t_rsp set_running over].
  assert (Hcur3 : current_cpu k3 cpu) by (destruct Hcur; split; [done | by rewrite Hh3, Hh2]).
  destruct (view_update_cpu k3 cpu _ _ (fun c => c <| c_rsp0 := t_stack_top n1 |>) V3 ltac:(done) ltac:(done))
    as (k4 & E4 & V4 & Hh4 & _ & Ha4 & _ & _ & s4 & F4).
  assert (E4' : tss_set_stack (t_stack_top n1) k3 = Ret tt k4).
  { unfold tss_set_stack. by rewrite (bind_ret _ _ _ _ _ (cpu_get_spec k3 cpu Hcur3)). }
  change (t_stack_top (set_running n1)) with (t_stack_top n1). rewrite (bind_ret _ _ _ _ _ E4').
  destruct (view_update_cpu k4 cpu _ _ (fun c => c <| c_kernel_stack := t_stack_top n1 |>) V4 ltac:(done) ltac:(done))
    as (k5 & E5 & V5 & Hh5 & _ & Ha5 & _ & _ & s5 & F5).
  rewrite (bind_ret _ _ _ _ _ E5).
  destruct (view_lock k5 cpu _ _ 0 V5) as [V6 L6]. rewrite (bind_spin_unlock _ _ k5 _ L6), bind_irq_restore.
  change (t_rsp (set_running n1)) with (t_rsp n1). rewrite <- Ersp.
  eexists _, _. split; [reflexivity |]. split; [apply view_rflags; exact V6 |].
  change (apic k1) with (apic k) in Ha2. cbn. rewrite Etop. split_and!; try done; [congruence |].
  exists m', (sched (lk_set (cpu_lock_ref cpu) 0 k5)). split; [by rewrite F5, F4, F3, F2 | naive_solver].
Qed.

Lemma holds_thread_frame k k' p t t' :
  heap k' = heap k -> mem_of k' = mem_of k ->
  t_stack_limit t' = t_stack_limit t -> t_user_stack_limit t' = t_user_stack_limit t ->
  holds_thread k p t -> holds_thread k' p t'.
Proof.
  intros Hh Hm H1 H2 [(l & o1 & o2 & Hr & K1 & K2 & Hne & K3) Hl]. constructor; [| by rewrite Hh].
  assert (Hr' : heap_rep k' l) by (destruct Hr; constructor; rewrite ?Hh, ?Hm; done).
  exists l, o1, o2. unfold held in *. rewrite H1, H2, Hh. destruct K1 as (? & ? & ?), K2 as (? & ? & ?). by split_and!.
Qed.

(** What the choice does to the current thread's record: a dead thread's is not
    touched. *)
Lemma a_pick_current cur a c :
  a_current a cur c ->
  exists c', a_thr (snd (a_pick cur a)) !! cur = Some c' /\ (t_state c' = THREAD_DEAD -> c' = c) /\
    t_rsp c' = t_rsp c /\ t_stack_top c' = t_stack_top c.
Proof.
  intros [H0 Hq Hc Hp]. unfold a_pick. rewrite Hc.
  destruct (highest 32 (a_ready a)) as [p |]; [| by exists c].
  destruct (preempts p c); [| by exists c].
  destruct (a_ready a !! p) as [[| next l] |]; [by exists c | | by exists c]. cbn [snd].
  destruct (t_state c) eqn:Est; try (by exists c).
  unfold a_requeue. exists (fresh_slice c).
  assert (Hl : a_thr (a_update cur fresh_slice (a <| a_ready ::= <[p := l]> |>)) !! cur = Some (fresh_slice c))
    by (simpl; by rewrite lookup_alter_eq, Hc).
  rewrite Hl. by split_and!.
Qed.

Lemma use_tick_keeps c rsp :
  let c' := use_tick (c <| t_rsp := rsp |>) in
  t_rsp c' = rsp /\ t_state c' = t_state c /\ t_priority c' = t_priority c /\
  t_stack_limit c' = t_stack_limit c /\ t_user_stack_limit c' = t_user_stack_limit c.
Proof. unfold use_tick. simpl. by destruct (0 <? _). Qed.

(** The assumptions on a processor about to reschedule: it runs thread [cur]
    with record [th], its queues are [a], and if [th] has died its memory can be
    released. *)
Record sched_ready (k : kernel) (cpu : Z) (c : cpu_t) (a : aqs) (cur : Z) (th : thread_t) : Prop := {
  sr_cpu : current_cpu k cpu;
  sr_view : cpu_view k cpu c a;
  sr_inv : a_inv a;
  sr_thread : c_sched_thread c = cur;
  sr_lock : c_sched_lock c = 0;
  sr_current : a_current a cur th;
  sr_reap : t_state th = THREAD_DEAD -> t_priority th <> 0 -> holds_thread k cur th
}.

(** A dead current thread can still be released after the choice, which does not
    touch its record. *)
Lemma reap_after_choice k k2 cpu c2 a' cur th rsp pre :
  (t_state th = THREAD_DEAD -> t_priority th <> 0 -> holds_thread k cur th) ->
  heap k2 = heap k -> mem_of k2 = mem_of k -> cpu_view k2 cpu c2 a' ->
  a_current pre cur (use_tick (th <| t_rsp := rsp |>)) -> a' = snd (a_pick cur pre) ->
  exists t, s_threads (sched k2) !! cur = Some t /\
    (t_state t = THREAD_DEAD -> t_priority t <> 0 -> holds_thread k2 cur t) /\
    (t_state th <> THREAD_DEAD -> t_state t <> THREAD_DEAD).
Proof.
  intros Hreap Hh Hm V2 Cp ->. set (c1 := use_tick _) in *.
  destruct (use_tick_keeps th rsp) as (U1 & U2 & U3 & U4 & U5). fold c1 in U1, U2, U3, U4, U5.
  destruct (a_pick_current cur pre c1 Cp) as (c' & Hc' & Hdead & _).
  destruct (view_thread k2 cpu _ _ cur c' V2 Hc') as (t & Ht & Et).
  destruct (strip_fields t c' Et) as (F1 & F2 & _). exists t. split; [done |].
  split; [| intros Hnd Hd; apply Hnd; rewrite <- U2, <- Hdead by congruence; congruence]. intros Hd Hpr.
  rewrite <- F2 in Hd. pose proof (Hdead Hd) as Edead. rewrite Edead in Et, F1, Hd.
  apply (holds_thread_frame k k2 cur th t); try done; [by rewrite <- U4, <- Et | by rewrite <- U5, <- Et |].
  apply Hreap; [by rewrite <- U2 | by rewrite <- U3, F1].
Qed.

(** The current thread keeps the processor. *)
Lemma stay_spec k cpu c a cur t flags :
  cpu_view k cpu c a -> a_thr a !! cur = Some t -> cur <> 0 ->
  let k' := set_rflags flags (lk_set (cpu_lock_ref cpu) 0 k) in
  (spin_unlock (cpu_lock_ref cpu);; b_irq_restore flags;; t ← thread_load cur; mret (t_rsp t)) k = Ret (t_rsp t) k' /\
  cpu_view k' cpu (c <| c_sched_lock := 0 |>) a.
Proof.
  intros V Ht H0 k'. destruct (view_lock k cpu c a 0 V) as [V1 L1]. split; [| by apply view_rflags].
  rewrite (bind_spin_unlock _ _ k _ L1), bind_irq_restore. fold k'.
  destruct (view_thread k cpu c a cur t V Ht) as (t1 & Ht1 & Et). destruct (strip_fields t1 t Et) as (_ & _ & _ & _ & -> & _).
  by rewrite (bind_ret _ _ _ _ _ (thread_load_eq k' cur t1 Ht1 H0)).
Qed.

Lemma sched_reschedule_spec k cpu c a cur th rsp :
  sched_ready k cpu c a cur th ->
  let pre := a_prepare cur rsp (apic_get_ticks k) a in
  exists k' c', c_sched_lock c' = 0 /\ hw_rflags (hw k') = hw_rflags (hw k) /\ apic k' = apic k /\
    (exists m' s', k' = set_mem m' (with_sched s' k) /\ (t_state th <> THREAD_DEAD -> m' = mem_of k)) /\
    match a_pick cur pre with
    | (None, a') => sched_reschedule rsp k = Ret rsp k' /\ cpu_view k' cpu c' a' /\ c_sched_thread c' = cur /\
        c_rsp0 c' = c_rsp0 c
    | (Some next, a') => exists n, a_thr a' !! next = Some n /\
        sched_reschedule rsp k = Ret (t_rsp n) k' /\
        cpu_view k' cpu c' (a_update next set_running a') /\ c_sched_thread c' = next /\
        c_rsp0 c' = t_stack_top n /\ c_kernel_stack c' = t_stack_top n
    end.
Proof.
  intros [Hcpu Hv Ha Hth Hlk Hcur Hreap] pre. pose proof Hcur as [H0 Hq Hc Hp].
  destruct (a_prepare_spec cur rsp (apic_get_ticks k) a th Ha Hcur) as (Ap & Cp & Pp & _).
  fold pre in Ap, Cp, Pp. set (c1 := use_tick (th <| t_rsp := rsp |>)) in *.
  destruct (use_tick_keeps th rsp) as (U1 & _). fold c1 in U1.
  unfold sched_reschedule.
  rewrite (bind_ret _ _ _ _ _ (cpu_get_spec k cpu Hcpu)).
  rewrite (bind_ret _ _ _ _ _ (cpu_load_spec k cpu c (cv_cpu _ _ _ _ Hv) (cv_addr _ _ _ _ Hv))).
  rewrite Hth. apply Z.eqb_neq in H0 as H0'. rewrite H0'. rewrite bind_irq_save.
  destruct (view_lock (masked k) cpu c a 1 (view_masked _ _ _ _ Hv)) as [V1 L1].
  rewrite bind_spin_lock by (by rewrite L1, Hlk). cbv zeta. rewrite bind_gets.
  set (k1 := lk_set (cpu_lock_ref cpu) 1 (masked k)) in *.
  change (apic_get_ticks k1) with (apic_get_ticks k).
  destruct (with_qs_rep k1 cpu _ a (reschedule_queues cur rsp (apic_get_ticks k))
              (fst (a_pick cur pre)) (snd (a_pick cur pre)) V1)
    as (k2 & rq & E2 & V2 & Hh2 & Hhp2 & Hap2 & Hm2 & _ & _ & s2 & F2).
  { intros s Hs. apply (reschedule_rep s a cur rsp (apic_get_ticks k) th Hs Ha Hcur). }
  rewrite (bind_ret _ _ _ _ _ E2).
  destruct (a_pick cur pre) as [[next |] a'] eqn:Epick; cbn [fst snd] in *.
  - destruct (a_pick_chosen cur pre c1 next a' Ap Cp Epick) as (p & l & n & _ & Hl & _ & _ & _ & _ & _ & Hn & _).
    assert (Hn0 : next <> 0).
    { destruct V1 as [_ _ (e1 & _ & R1)]. apply (rep_queued_thread _ _ next R1). rewrite <- Pp.
      apply (elem_of_ready _ p (next :: l)); [done | by left]. }
    assert (Hcpu2 : current_cpu k2 cpu) by (destruct Hcpu; split; [done | by rewrite Hh2]).
    destruct (reap_after_choice k k2 cpu _ a' cur th rsp pre Hreap Hhp2 Hm2 V2 Cp) as (t & Ht & Hrp & Hnd); [by rewrite Epick |].
    destruct (switch_spec k2 cpu _ a' cur next n (hw_rflags (hw k)) Hcpu2 V2 H0 Hn0 (ex_intro _ t (conj Ht Hrp)) Hn) as
      (k' & c' & E' & V' & S1 & S2 & S3 & S4 & S5 & S6 & m' & s' & S7 & S8).
    exists k', c'. split; [done |]. split; [done |].
    split; [by rewrite S6, Hap2 |]. split; [| exists n; by split_and!].
    exists m', s'. split; [rewrite S7, F2; keta k |].
    intros Hd. change (mem_of k) with (mem_of k1). rewrite <- Hm2. apply (S8 t Ht), Hnd, Hd.
  - destruct (a_pick_stay cur pre c1 (ac_thread _ _ _ Cp)) as [_ Estay]; [by rewrite Epick |].
    rewrite Epick in Estay. cbn [snd] in Estay. subst a'.
    destruct (stay_spec k2 cpu _ pre cur c1 (hw_rflags (hw k)) V2 (ac_thread _ _ _ Cp) H0) as (E3 & V3).
    rewrite E3, U1. eexists _, _. split; [| split; [| split; [| split; [| split; [reflexivity | split; [exact V3 |]]]]]]; try done.
    exists (mem_of k), (sched (lk_set (cpu_lock_ref cpu) 0 k2)). split; [| done]. rewrite F2. keta k.
Qed.

(** What the choice leaves of the sleep queue: a sleeping thread that is switched
    out joins it. *)
Lemma a_pick_sleep cur a x :
  (x ∈ a_sleep (snd (a_pick cur a)) -> x = cur \/ x ∈ a_sleep a) /\
  (x ∈ a_sleep a -> x ∈ a_sleep (snd (a_pick cur a))).
Proof.
  split; unfold a_pick.
  2:{ repeat (case_match; cbn [snd]; try done); [unfold a_requeue; by case_match | by right]. } destruct (highest 32 (a_ready a)); [| by right].
  destruct (a_thr a !! cur) as [c |]; [| by right]. destruct (preempts _ c); [| by right].
  destruct (a_ready a !! _) as [[| next l] |]; try by right. cbn [snd].
  destruct (t_state c); try by right.
  - unfold a_requeue. case_match; by right.
  - simpl. by intros [-> | ?]%elem_of_cons; [left | right].
Qed.

(** One call, seen from the queues: nothing is lost, the invariant is kept, due
    sleepers have left the sleep queue. *)
Lemma sched_reschedule_queues k cpu c a cur th rsp :
  sched_ready k cpu c a cur th ->
  let pre := a_prepare cur rsp (apic_get_ticks k) a in
  exists r k' c' a' th', sched_reschedule rsp k = Ret r k' /\
    cpu_view k' cpu c' a' /\ a_inv a' /\ a_current a' (c_sched_thread c') th' /\
    c_sched_thread c' :: queued a' ≡ₚ
      (if stays th || bool_decide (c_sched_thread c' = cur) then cur :: queued a else queued a) /\
    (forall x, (x ∈ a_sleep a' -> x = cur \/ x ∈ a_sleep pre) /\ (x ∈ a_sleep pre -> x ∈ a_sleep a')) /\
    r = t_rsp th' /\ c_sched_lock c' = 0 /\ hw_rflags (hw k') = hw_rflags (hw k) /\
    c_sched_thread c' = default cur (fst (a_pick cur pre)) /\
    a' = match fst (a_pick cur pre) with
         | Some next => a_update next set_running (snd (a_pick cur pre))
         | None => snd (a_pick cur pre)
         end /\
    (exists m' s', k' = set_mem m' (with_sched s' k) /\ (t_state th <> THREAD_DEAD -> m' = mem_of k)) /\
    (if bool_decide (c_sched_thread c' = cur) then t_state th' = t_state th /\ c_rsp0 c' = c_rsp0 c
     else t_state th' = THREAD_RUNNING /\ c_rsp0 c' = t_stack_top th').
Proof.
  intros Hsr pre. pose proof Hsr as [_ _ Ha _ _ Hcur _].
  destruct (sched_reschedule_spec k cpu c a cur th rsp Hsr) as (k' & c' & Hlk & Hrf & _ & Hfr & HR).
  destruct (a_prepare_spec cur rsp (apic_get_ticks k) a th Ha Hcur) as (Ap & Cp & Pp & _).
  fold pre in HR, Ap, Cp, Pp. set (c1 := use_tick (th <| t_rsp := rsp |>)) in *.
  assert (Hst : stays c1 = stays th).
  { unfold stays. destruct (use_tick_keeps th rsp) as (_ & E & _). unfold c1. by rewrite E. }
  pose proof (a_pick_sleep cur pre) as Hsl.
  destruct (a_pick cur pre) as [[next |] a'] eqn:Epick; cbn [snd] in Hsl.
  - destruct HR as (n & Hn & E & V & S1 & S2 & _).
    destruct (a_pick_chosen cur pre c1 next a' Ap Cp Epick)
      as (p & l & n' & _ & Hl & _ & Ai & Pa & Hnq & Hne & Hn' & _ & Hpn).
    cbn [fst snd] in *. assert (n' = n) as -> by congruence.
    exists (t_rsp n), k', c', (a_update next set_running a'), (set_running n). rewrite S1.
    split_and!; try done.
    + by apply update_outside_inv.
    + constructor; [| done | simpl; by rewrite lookup_alter_eq, Hn | done].
      destruct (sr_view _ _ _ _ _ _ Hsr) as [_ _ (e1 & _ & R1)].
      apply (rep_queued_thread _ _ _ R1). rewrite <- Pp. apply (elem_of_ready _ p _ _ Hl). by left.
    + change (queued (a_update _ _ a')) with (queued a'). rewrite Pa, Hst.
      rewrite (bool_decide_eq_false_2 (next = cur)) by done. rewrite orb_false_r.
      destruct (stays th); by rewrite Pp.
    + by rewrite (bool_decide_eq_false_2 (next = cur)).
  - destruct HR as (E & V & S1 & S2).
    destruct (a_pick_stay cur pre c1 (ac_thread _ _ _ Cp)) as [_ Es]; [by rewrite Epick |].
    rewrite Epick in Es. cbn [snd] in Es. subst a'.
    destruct (use_tick_keeps th rsp) as (U1 & U2 & _).
    exists rsp, k', c', pre, c1. rewrite S1. split_and!; try done; [| by rewrite (bool_decide_eq_true_2 (cur = cur))].
    rewrite (bool_decide_eq_true_2 (cur = cur)), orb_true_r by done. by rewrite Pp.
Qed.

(** Thread [x] waits in the ready queue of priority [q]. *)
Definition waits (a : aqs) (q : nat) (x : Z) : Prop := exists l, a_ready a !! q = Some l /\ x ∈ l.

Lemma queued_cases a x : x ∈ queued a -> (exists q, waits a q x) \/ x ∈ a_sleep a.
Proof.
  unfold queued, queues. rewrite concat_app. simpl. rewrite app_nil_r.
  intros [Hx | Hx]%elem_of_app; [left | by right].
  apply list_elem_of_In, in_concat in Hx as (l & Hl & Hxl). apply list_elem_of_In in Hl, Hxl.
  apply list_elem_of_lookup in Hl as [p Hl]. by exists p, l.
Qed.

(** ** Theorems *)

(** C10: sched_reschedule returns, with the processor's lock released and the
    interrupt flag restored.  With [pre] the queues after waking, charging the
    tick and ageing, either the current thread keeps the processor, because
    nothing is ready, or because it is running and every ready thread has a
    lower priority, or its own priority while its time slice lasts.  Or the
    first thread of the highest non-empty queue gets the processor: its saved
    stack pointer is returned, its kernel stack installed in the processor
    record and the task state segment. *)
Theorem sched_reschedule_picks_highest k cpu c a cur th rsp :
  sched_ready k cpu c a cur th ->
  let pre := a_prepare cur rsp (apic_get_ticks k) a in
  let c1 := use_tick (th <| t_rsp := rsp |>) in
  exists r k' c' a', sched_reschedule rsp k = Ret r k' /\ cpu_view k' cpu c' a' /\
    c_sched_lock c' = 0 /\ hw_rflags (hw k') = hw_rflags (hw k) /\
    ((r = rsp /\ c_sched_thread c' = cur /\
      forall q x, waits pre q x -> t_state c1 = THREAD_RUNNING /\
        (Z.of_nat q < t_priority c1 \/ Z.of_nat q = t_priority c1 /\ t_ticks_remaining c1 <> 0)) \/
     (exists p next l n, a_ready pre !! p = Some (next :: l) /\ a_thr pre !! next = Some n /\
        (forall q x, waits pre q x -> (q <= p)%nat) /\
        (t_state c1 <> THREAD_RUNNING \/ t_priority c1 < Z.of_nat p \/
         t_priority c1 = Z.of_nat p /\ t_ticks_remaining c1 = 0) /\
        r = t_rsp n /\ c_sched_thread c' = next /\
        c_rsp0 c' = t_stack_top n /\ c_kernel_stack c' = t_stack_top n)).
Proof.
  intros Hsr pre c1. pose proof Hsr as [_ _ Ha _ _ Hcur _].
  destruct (sched_reschedule_spec k cpu c a cur th rsp Hsr) as (k' & c' & Hlk & Hrf & _ & Hfr & HR). fold pre in HR.
  destruct (a_prepare_spec cur rsp (apic_get_ticks k) a th Ha Hcur) as (Ap & Cp & _). fold pre c1 in Ap, Cp.
  assert (H32 : forall q x, waits pre q x -> (q < 32)%nat).
  { intros q x (l & Hl & _). rewrite <- (ai_len _ Ap). by eapply lookup_lt_Some. }
  destruct (a_pick cur pre) as [[next |] a'] eqn:Epick.
  - destruct HR as (n & Hn & E & V & S1 & S2 & S3).
    destruct (a_pick_chosen cur pre c1 next a' Ap Cp Epick)
      as (p & l & n' & Eh & Hl & Hpre & _ & _ & _ & _ & Hn' & Hn'' & _).
    destruct (highest_spec _ _ _ Eh) as (_ & _ & Hmax).
    cbn [fst snd] in *. assert (n' = n) as -> by congruence.
    exists (t_rsp n), k', c', (a_update next set_running a'). split_and!; try done. right.
    exists p, next, l, n. split_and!; try done.
    + intros q y Hw. destruct (decide (q <= p)%nat) as [| Hgt]; [done |]. exfalso.
      pose proof (H32 q y Hw). destruct Hw as (lq & Hlq & Hy). rewrite (Hmax q lq) in Hy by (done || lia).
      by apply elem_of_nil in Hy.
    + unfold preempts in Hpre. apply orb_true_iff in Hpre as [[?%Z.ltb_lt | [?%Z.eqb_eq ?%Z.eqb_eq]%andb_true_iff]%orb_true_iff | Hst].
      * right. by left.
      * right. right. by split.
      * left. by apply negb_true_iff, bool_decide_eq_false in Hst.
  - destruct HR as (E & V & S1 & S2). exists rsp, k', c', a'. split_and!; try done. left. split_and!; try done.
    destruct (a_pick_stay cur pre c1 (ac_thread _ _ _ Cp)) as [Hstay _]; [by rewrite Epick |].
    intros q x Hw. pose proof (H32 q x Hw) as Hq. destruct Hw as (lq & Hlq & Hx).
    destruct (highest 32 (a_ready pre)) as [p |] eqn:Eh.
    + destruct (highest_spec _ _ _ Eh) as (Hp & (y & l & Hl) & Hmax).
      destruct (preempts_false p c1 (Hstay p y l eq_refl Hl)) as (F1 & F2 & F3). split; [done |].
      assert (q <= p)%nat.
      { destruct (decide (q <= p)%nat) as [| Hgt]; [done |]. exfalso.
        rewrite (Hmax q lq) in Hx by (done || lia). by apply elem_of_nil in Hx. }
      destruct (decide (Z.of_nat q = t_priority c1)); [right; split; [done |]; apply F3; lia | left; lia].
    + rewrite (highest_None _ _ Eh q lq Hq Hlq) in Hx. by apply elem_of_nil in Hx.
Qed.

(** C11: no thread is lost or duplicated.  After sched_reschedule the running
    thread and the queued ones are, as a multiset, those from before, except
    that a thread that has exited and is switched away from is dropped.  The
    queues keep their invariant (queue [p] holds ready threads of priority [p],
    sleepers are asleep, nothing is in two places), and the new current thread
    is in no queue. *)
Theorem sched_reschedule_conserves k cpu c a cur th rsp :
  sched_ready k cpu c a cur th ->
  exists r k' c' a' th', sched_reschedule rsp k = Ret r k' /\
    cpu_view k' cpu c' a' /\ a_inv a' /\ a_current a' (c_sched_thread c') th' /\
    c_sched_thread c' :: queued a' ≡ₚ
      (if stays th || bool_decide (c_sched_thread c' = cur) then cur :: queued a else queued a).
Proof.
  intros Hsr. destruct (sched_reschedule_queues k cpu c a cur th rsp Hsr) as (r & k' & c' & a' & th' & H).
  exists r, k', c', a', th'. naive_solver.
Qed.

(** C12: sleepers.  Every thread whose wake-up tick has come is, after
    sched_reschedule, the current thread or ready in some queue; every other
    sleeper is still asleep. *)
Theorem sched_reschedule_wakes k cpu c a cur th rsp :
  sched_ready k cpu c a cur th ->
  exists r k' c' a', sched_reschedule rsp k = Ret r k' /\ cpu_view k' cpu c' a' /\
    forall x, x ∈ a_sleep a ->
      if due (apic_get_ticks k) x a
      then x ∉ a_sleep a' /\ (x = c_sched_thread c' \/ exists q, waits a' q x)
      else x ∈ a_sleep a'.
Proof.
  intros Hsr. pose proof Hsr as [_ _ Ha _ _ Hcur _].
  destruct (sched_reschedule_queues k cpu c a cur th rsp Hsr)
    as (r & k' & c' & a' & th' & E & V & Ha' & Hc' & Hperm & Hsl & _).
  destruct (a_prepare_spec cur rsp (apic_get_ticks k) a th Ha Hcur) as (_ & _ & _ & Hfil & _).
  rewrite Hfil in Hsl.
  exists r, k', c', a'. split; [done |]. split; [done |]. intros x Hx.
  assert (Hne : x <> cur) by (intros ->; apply (ac_outside _ _ _ Hcur); by apply elem_of_sleep).
  assert (Hin : x ∈ c_sched_thread c' :: queued a').
  { rewrite Hperm. apply elem_of_sleep in Hx. case_match; [by right | done]. }
  destruct (due (apic_get_ticks k) x a) eqn:Ed.
  - assert (Hns : x ∉ a_sleep a').
    { intros Hs. destruct (proj1 (Hsl x) Hs) as [| [Hd _]%list_elem_of_filter]; congruence. }
    split; [done |]. apply elem_of_cons in Hin as [-> | Hin]; [by left | right].
    by destruct (queued_cases a' x Hin).
  - apply Hsl, list_elem_of_filter. done.
Qed.

(** ** A concrete processor *)

(** One processor at address 0x1000, at tick 7: the idle thread runs, a thread
    of priority 10 is ready, one of priority 12 sleeps until tick 5 and one of
    priority 3 until tick 100. *)
Definition demo_thread (tid : Z) (st : thread_state_t) (priority rsp wakeup next : Z) : thread_t :=
  Thread tid rsp st priority (replicate 16 0) 0 4 0 wakeup 0x9000 (0x10000 * tid) 0 0 next.
Definition demo_threads : threads := list_to_map [
  (0x2000, demo_thread 1 THREAD_RUNNING 0 0x1F00 0 0);
  (0x3000, demo_thread 2 THREAD_READY 10 0x2F00 0 0);
  (0x4000, demo_thread 3 THREAD_SLEEPING 12 0x3F00 5 0x5000);
  (0x5000, demo_thread 4 THREAD_SLEEPING 3 0x4F00 100 0)].
Definition demo_cpu : cpu_t := Cpu 0 0 0x2000 (<[10%nat := 0x3000]> (replicate 32 0)) 0 0 0.
Definition demo_sched : sched_t :=
  Sched 5 0 0 (CpuExtra 0x4000 0 :: replicate 63 (CpuExtra 0 0)) demo_threads {[0x1000 := demo_cpu]} [0x1000].
Definition demo : kernel :=
  (initial_kernel (plain_hw ∅)) <| hw ::= fun h => h <| hw_msr := {[MSR_GS_BASE := 0x1000]} |> |>
    <| apic := Apic 0 0 7 |> <| sched := demo_sched |>.
Definition demo_queues : aqs :=
  Aqs (strip <$> demo_threads) (<[10%nat := [0x3000]]> (replicate 32 [])) [0x4000; 0x5000] 0.
Definition demo_idle : thread_t := demo_thread 1 THREAD_RUNNING 0 0x1F00 0 0.

Lemma demo_view : cpu_view demo 0x1000 demo_cpu demo_queues.
Proof.
  constructor; [done | by vm_compute |]. exists (CpuExtra 0x4000 0). split; [done |].
  constructor; [done | done | | done]. constructor.
  - cbn. repeat (apply Forall2_cons; split); try apply Forall2_nil_2; try reflexivity; simpl;
      repeat first [split; [done |] | eexists; split; [by vm_compute |] | done].
  - apply (bool_decide_unpack _). by vm_compute.
Qed.

Lemma demo_inv : a_inv demo_queues.
Proof.
  constructor; [constructor | | done].
  - intros p l x Hl Hx. cbn [a_ready demo_queues] in Hl. apply list_lookup_insert_Some in Hl as [(<- & <- & _) | (_ & Hl)].
    + apply list_elem_of_singleton in Hx as ->. eexists. split; [by vm_compute | done].
    + apply lookup_replicate in Hl as [-> _]. by apply elem_of_nil in Hx.
  - intros x [-> | ->%list_elem_of_singleton]%elem_of_cons; eexists; (split; [by vm_compute | done]).
  - apply (bool_decide_unpack _). by vm_compute.
Qed.

Lemma demo_ready : sched_ready demo 0x1000 demo_cpu demo_queues 0x2000 demo_idle.
Proof.
  constructor; [by vm_compute | apply demo_view | apply demo_inv | done | done | | done].
  constructor; [done | | by vm_compute | done]. apply (bool_decide_unpack _). by vm_compute.
Qed.

Lemma sched_reschedule_picks_highest_witness :
  exists k', sched_reschedule 0x1F00 demo = Ret 0x3F00 k'.
Proof.
  destruct (sched_reschedule_picks_highest demo _ _ _ _ _ 0x1F00 demo_ready) as (r & k' & c' & a' & E & _).
  exists k'. rewrite E. f_equal. revert E. by vm_compute; intros [= <- _].
Defined.

Lemma sched_reschedule_conserves_witness :
  exists r k', sched_reschedule 0x1F00 demo = Ret r k' /\ exists c' a', cpu_view k' 0x1000 c' a' /\ a_inv a'.
Proof.
  destruct (sched_reschedule_conserves demo _ _ _ _ _ 0x1F00 demo_ready) as (r & k' & c' & a' & th' & E & V & I & _).
  eauto 8.
Defined.

Lemma sched_reschedule_wakes_witness :
  exists r k' c' a', sched_reschedule 0x1F00 demo = Ret r k' /\ cpu_view k' 0x1000 c' a' /\
    0x4000 ∉ a_sleep a' /\ 0x5000 ∈ a_sleep a'.
Proof.
  destruct (sched_reschedule_wakes demo _ _ _ _ _ 0x1F00 demo_ready) as (r & k' & c' & a' & E & V & H).
  exists r, k', c', a'. split; [done |]. split; [done |].
  split; [apply (H 0x4000) | apply (H 0x5000)]; vm_compute; by repeat constructor.
Defined.
