(* ===== verification/SchedTypes.v ===== *)
(** What rescheduling does to the individual thread records: which of their
    fields it leaves alone, and that every field keeps to its C type. *)

From S2P Require Import Prelude Memory State Lib Pmm Heap Apic Cpu Queue Sched SchedSpec SchedProps.

(** Every record of [a'] is [R]-related to the one of [a]. *)
Definition each_thread (R : thread_t -> thread_t -> Prop) (a a' : aqs) : Prop :=
  forall x, option_Forall2 R (a_thr a !! x) (a_thr a' !! x).

(** The changes the scheduler makes to a record, other than saving the stack
    pointer. *)
Class Stable (R : thread_t -> thread_t -> Prop) : Prop := {
  st_preorder :: PreOrder R;
  st_ready t : R t (set_ready t);
  st_tick t : R t (use_tick t);
  st_age t : R t (tick_age t);
  st_zero t : R t (zero_ticks t);
  st_promote t : R t (promote t);
  st_slice t : R t (fresh_slice t);
  st_running t : R t (set_running t)
}.

Section EachThread.
Context (R : thread_t -> thread_t -> Prop) `{!Stable R}.

#[export] Instance each_preorder : PreOrder (each_thread R).
Proof.
  split.
  - intros a x. destruct (a_thr a !! x); by constructor.
  - intros a1 a2 a3 H1 H2 x. specialize (H1 x). specialize (H2 x).
    destruct H1; inversion H2; constructor. by etrans.
Qed.

Lemma each_update x f a : (forall t, R t (f t)) -> each_thread R a (a_update x f a).
Proof.
  intros Hf y. simpl. destruct (decide (y = x)) as [-> | Hne]; [rewrite lookup_alter_eq | rewrite lookup_alter_ne by done].
  - destruct (a_thr a !! x); constructor. apply Hf.
  - destruct (a_thr a !! y); by constructor.
Qed.

Lemma each_thr a b a' : each_thread R a b -> a_thr a' = a_thr b -> each_thread R a a'.
Proof. intros H E x. rewrite E. apply H. Qed.

Lemma each_push x a b : each_thread R a b -> each_thread R a (a_push x b).
Proof. intros H. apply (each_thr a b); [done | apply a_push_thr]. Qed.

Lemma each_step x f a b : each_thread R a b -> (forall t, R t (f t)) -> each_thread R a (a_update x f b).
Proof. intros H Hf. etrans; [exact H | by apply each_update]. Qed.

Lemma each_wake now xs : forall kept a, each_thread R a (wake_list now kept xs a).
Proof.
  induction xs as [| x xs IH]; intros kept a; cbn [wake_list]; [reflexivity |].
  destruct (due now x a); [| apply IH]. etrans; [| apply IH].
  apply each_push, each_step; [by apply (each_thr a a) | apply st_ready].
Qed.

Lemma each_age_list p xs : forall kept a, each_thread R a (age_list p kept xs a).
Proof.
  induction xs as [| x xs IH]; intros kept a; cbn [age_list]; [reflexivity |].
  destruct (a_thr a !! x) as [t |]; [| reflexivity]. destruct (t_tid t =? 1); [apply IH |].
  destruct (aged t); (etrans; [| apply IH]).
  - apply each_push. repeat apply each_step;
      [by apply (each_thr a a) | apply st_age | apply st_zero | apply st_promote].
  - apply each_update, st_age.
Qed.

Lemma each_age_lists n : forall p a, each_thread R a (age_lists n p a).
Proof.
  induction n as [| n IH]; intros p a; cbn [age_lists]; [reflexivity |]. etrans; [apply each_age_list | apply IH].
Qed.

Lemma each_pick cur a : each_thread R a (snd (a_pick cur a)).
Proof.
  unfold a_pick. repeat (case_match; cbn [snd]; try reflexivity); try (by apply (each_thr a a)).
  unfold a_requeue. assert (E : each_thread R a (a_update cur fresh_slice a)) by apply each_update, st_slice.
  case_match; by eapply each_thr.
Qed.

(** Rescheduling, once the stack pointer is saved. *)
Lemma each_prepare cur rsp now a :
  each_thread R (a_update cur (fun t => t <| t_rsp := rsp |>) a) (a_prepare cur rsp now a).
Proof.
  unfold a_prepare, a_age_threads, a_wake. set (b := a_update cur _ a).
  assert (E : each_thread R b (a_update cur use_tick (wake_list now [] (a_sleep b) b)))
    by (apply each_step; [apply each_wake | apply st_tick]).
  case_match; [exact E |]. etrans; [| apply each_age_lists]. by eapply each_thr.
Qed.

Lemma each_chosen cur rsp now a :
  let pre := a_prepare cur rsp now a in
  each_thread R (a_update cur (fun t => t <| t_rsp := rsp |>) a)
    match fst (a_pick cur pre) with
    | Some next => a_update next set_running (snd (a_pick cur pre))
    | None => snd (a_pick cur pre)
    end.
Proof.
  intros pre. assert (E : each_thread R (a_update cur (fun t => t <| t_rsp := rsp |>) a) (snd (a_pick cur pre)))
    by (etrans; [apply each_prepare | apply each_pick]).
  destruct (fst _); [by apply each_step; [| apply st_running] | done].
Qed.
End EachThread.

(** ** The stack pointers *)

Definition stack_of (t : thread_t) : Z * Z := (t_rsp t, t_stack_top t).
Definition stacks (a : aqs) : gmap Z (Z * Z) := stack_of <$> a_thr a.

Definition same_stack (t t' : thread_t) : Prop := stack_of t = stack_of t'.

#[export] Instance same_stack_stable : Stable same_stack.
Proof.
  constructor; unfold same_stack; try done.
  - split; [done | intros ? ? ?; congruence].
  - intros t. unfold use_tick. by case_match.
  - intros t. unfold promote. by case_match.
Qed.

Lemma each_stacks a a' : each_thread same_stack a a' -> stacks a' = stacks a.
Proof.
  intros H. apply map_eq. intros x. unfold stacks. rewrite !lookup_fmap. specialize (H x).
  destruct H as [? ? E |]; [| done]. simpl. by rewrite E.
Qed.

(** ** The types of the fields *)

Definition word (w : Z) : Prop := 0 <= w < 2 ^ 64.

(** The fields of a thread_t hold values of their types, the priority one of an
    existing queue; the links are the queues' business. *)
Record thread_typed (t : thread_t) : Prop := {
  ty_tid : word (t_tid t);
  ty_rsp : word (t_rsp t);
  ty_priority : is_priority (t_priority t);
  ty_name : length (t_name t) = 16%nat;
  ty_affinity : 0 <= t_core_affinity t < 2 ^ 8;
  ty_remaining : word (t_ticks_remaining t);
  ty_total : word (t_total_ticks t);
  ty_wakeup : word (t_wakeup_tick t);
  ty_limits : word (t_stack_limit t) /\ word (t_user_stack_limit t);
  ty_tops : word (t_stack_top t) /\ word (t_user_stack_top t)
}.

Definition stays_typed (t t' : thread_t) : Prop := thread_typed t -> thread_typed t'.

#[export] Instance stays_typed_stable : Stable stays_typed.
Proof.
  assert (U : forall x, word (u64 x)) by (intros; apply u64_range).
  constructor; unfold stays_typed.
  - split; [by intros ? | intros ? ? ?; auto].
  - by intros t [].
  - intros t []. unfold use_tick. case_match; constructor; simpl; try done. unfold word in *. zbool. lia.
  - intros t []. constructor; simpl; try done.
  - intros t []. constructor; simpl; try done.
  - intros t []. unfold promote. case_match; constructor; simpl; try done.
    unfold is_priority, MAX_PRIORITY in *. zbool. rewrite u8_small; lia.
  - intros t []. constructor; simpl; try done. apply U.
  - by intros t [].
Qed.

Lemma strip_typed t : thread_typed (strip t) <-> thread_typed t.
Proof. split; by intros []. Qed.

(** All records of the scheduler are typed. *)
Definition threads_typed (k : kernel) : Prop := map_Forall (fun _ => thread_typed) (s_threads (sched k)).

Lemma view_typed k cpu c a :
  cpu_view k cpu c a -> threads_typed k <-> map_Forall (fun _ => thread_typed) (a_thr a).
Proof.
  intros [_ _ (e & _ & Hr)]. unfold threads_typed. rewrite (rp_thr _ _ Hr). cbn [q_threads]. rewrite map_Forall_fmap.
  split; intros H x t Hx; [exact (proj2 (strip_typed t) (H x t Hx)) | exact (proj1 (strip_typed t) (H x t Hx))].
Qed.

Lemma each_typed a a' :
  each_thread stays_typed a a' -> map_Forall (fun _ => thread_typed) (a_thr a) -> map_Forall (fun _ => thread_typed) (a_thr a').
Proof. intros H Ha x t Hx. specialize (H x). rewrite Hx in H. inversion H as [t0 ? HR E |]. apply HR. by apply (Ha x). Qed.

(** ** Theorem *)

(** C13: sched_reschedule keeps every field of every thread record within its
    C type and every priority an index of the array of queues: time slices do
    not go below zero, tick counts wrap at 64 bits, ageing stops at the highest
    priority.  The stack pointer it returns is a machine word. *)
Theorem sched_reschedule_typed k cpu c a cur th rsp :
  sched_ready k cpu c a cur th -> word rsp -> threads_typed k ->
  exists r k', sched_reschedule rsp k = Ret r k' /\ word r /\ threads_typed k'.
Proof.
  intros Hs Hr Hty.
  destruct (sched_reschedule_queues k cpu c a cur th rsp Hs)
    as (r & k' & c' & a' & th' & E & V & _ & Hc' & _ & _ & -> & _ & _ & _ & Ha' & _).
  exists (t_rsp th'), k'. split; [done |]. rewrite (view_typed _ _ _ _ V).
  assert (Hty' : map_Forall (fun _ => thread_typed) (a_thr a')).
  { rewrite Ha'. eapply each_typed; [apply (each_chosen stays_typed) |].
    apply (view_typed _ _ _ _ (sr_view _ _ _ _ _ _ Hs)) in Hty. intros x t Hx. cbn [a_thr a_update over] in Hx.
    apply lookup_alter_Some in Hx as [(-> & t0 & H0 & ->) | [_ Hx]]; [| by apply (Hty x)].
    destruct (Hty _ _ H0). by constructor. }
  split; [| done]. apply (Hty' _ _ (ac_thread _ _ _ Hc')).
Qed.

Lemma demo_typed : threads_typed demo.
Proof.
  unfold threads_typed. change (s_threads (sched demo)) with demo_threads. unfold demo_threads.
  repeat apply map_Forall_insert_2; try apply map_Forall_empty; constructor; simpl; unfold word, is_priority, MAX_PRIORITY; done || lia.
Qed.

Lemma sched_reschedule_typed_witness :
  exists r k', sched_reschedule 0x1F00 demo = Ret r k' /\ word r /\ threads_typed k'.
Proof. apply (sched_reschedule_typed demo _ _ _ _ _ 0x1F00 demo_ready); [unfold word; lia | apply demo_typed]. Defined.
