(* ===== verification/SchedSleep.v ===== *)
(** sched_sleep: what happens to a thread that goes to sleep. *)

From S2P Require Import Prelude Memory State Lib Pmm Heap Apic Cpu Queue Sched SchedSpec SchedProps.

(** The thread's record when it sleeps until tick [t]. *)
Definition asleep (t : Z) (th : thread_t) : thread_t :=
  th <| t_state := THREAD_SLEEPING |> <| t_wakeup_tick := t |>.

(** The scheduler's precondition only depends on the register that names the
    processor and on the scheduler's data, unless the current thread is dead. *)
Lemma sched_ready_frame k k' cpu c a cur th :
  hw_msr (hw k') = hw_msr (hw k) -> sched k' = sched k -> t_state th <> THREAD_DEAD ->
  sched_ready k cpu c a cur th -> sched_ready k' cpu c a cur th.
Proof.
  intros Hm Hs Hst [[Hb Hc] [V1 V2 V3] Ha Ht Hl Hcur _]. constructor; try done.
  - split; [done | by rewrite Hm].
  - constructor; [done | by rewrite Hs | by rewrite Hs].
Qed.

(** The tick and the hardware accesses of a software interrupt. *)
Definition ticked (k : kernel) : kernel :=
  k <| apic ::= fun a => a <| global_ticks := u64 (global_ticks a + 1) |> |>
    <| hw ::= fun h => h <| hw_apic_out ::= fun l => l ++ [(apic_addr k APIC_REG_EOI, 0)] |> |>.

Lemma apic_timer_handler_eq k : apic_timer_handler k = Ret tt (ticked k).
Proof. reflexivity. Qed.

(** What the choice does with a current thread that is asleep. *)
Lemma a_pick_asleep cur a c :
  a_thr a !! cur = Some c -> t_state c = THREAD_SLEEPING ->
  a_thr (snd (a_pick cur a)) !! cur = Some c /\
  match fst (a_pick cur a) with
  | Some _ => cur ∈ a_sleep (snd (a_pick cur a))
  | None => forall p, highest 32 (a_ready a) <> Some p
  end.
Proof.
  intros Hc Hs. unfold a_pick. rewrite Hc. destruct (highest 32 (a_ready a)) as [p |] eqn:Eh; [| done].
  destruct (highest_spec _ _ _ Eh) as (_ & (x & l & Hl) & _).
  assert (preempts p c = true) as -> by (unfold preempts; by rewrite Hs, orb_true_r).
  rewrite Hl, Hs. simpl. split; [done | by left].
Qed.

(** The thread is marked, and interrupts are on. *)
Lemma sched_doze_spec k cpu c a cur th ms :
  sched_ready k cpu c a cur th -> t_state th <> THREAD_DEAD ->
  let target := u64 (apic_get_ticks k + ms / 10) in
  exists s', let k1 := set_rflags (Z.setbit (Z.clearbit (hw_rflags (hw k)) RFLAGS_IF) RFLAGS_IF) (with_sched s' k) in
    sched_doze ms k = Ret tt k1 /\
    sched_ready k1 cpu c (a_update cur (asleep target) a) cur (asleep target th).
Proof.
  intros [Hcpu Hv Ha Ht Hl Hcur _] Hst target. pose proof Hcur as [H0 Hq Hc Hp].
  unfold sched_doze, cli, sti. rewrite bind_modify. set (k0 := k <| hw ::= _ |>).
  assert (Hcpu0 : current_cpu k0 cpu) by done. assert (V0 : cpu_view k0 cpu c a) by (by destruct Hv).
  rewrite (bind_ret _ _ _ _ _ (cpu_get_spec k0 cpu Hcpu0)).
  rewrite (bind_ret _ _ _ _ _ (cpu_load_spec k0 cpu c (cv_cpu _ _ _ _ V0) (cv_addr _ _ _ _ V0))).
  rewrite bind_gets, Ht. rewrite (proj2 (Z.eqb_neq cur 0) H0). cbn [negb when].
  destruct (view_thread k0 cpu c a cur th V0 Hc) as (t1 & Ht1 & Es).
  destruct (view_update_thread k0 cpu c a cur t1 (asleep target) (asleep target) V0 Ht1 H0 eq_refl eq_refl)
    as (k1 & E1 & V1 & _ & _ & _ & _ & _ & _ & s' & ->).
  change (apic_get_ticks k0) with (apic_get_ticks k). fold target.
  change (fun t : thread_t => _) with (asleep target). rewrite (bind_ret _ _ _ _ _ E1).
  exists s'. split; [reflexivity |]. constructor; try done.
  - by destruct V1.
  - by apply update_outside_inv.
  - constructor; [done | done | simpl; by rewrite lookup_alter_eq, Hc | done].
Qed.

(** Sleeping is marking the thread and giving up the processor. *)
Lemma sched_sleep_yield k cpu c a cur th rsp ms :
  sched_ready k cpu c a cur th -> t_state th <> THREAD_DEAD ->
  let target := u64 (apic_get_ticks k + ms / 10) in
  exists k1, sched_sleep rsp ms k = sched_yield rsp k1 /\
    sched_ready k1 cpu c (a_update cur (asleep target) a) cur (asleep target th) /\ apic k1 = apic k /\
    Z.testbit (hw_rflags (hw k1)) RFLAGS_IF = true.
Proof.
  intros Hs Hst target. destruct (sched_doze_spec k cpu c a cur th ms Hs Hst) as (s' & E & Hs').
  eexists. split; [unfold sched_sleep; rewrite (bind_ret _ _ _ _ _ E); reflexivity |]. split_and!; [exact Hs' | done |].
  cbn [set_rflags hw_rflags hw over]. by rewrite Z.setbit_eqb by (unfold RFLAGS_IF; lia).
Qed.

(** Giving up the processor is rescheduling at the next tick. *)
Lemma sched_yield_reschedule k rsp r k' :
  sched_reschedule rsp (ticked k) = Ret r k' ->
  sched_yield rsp k = Ret r (k' <| hw ::= fun h => h <| hw_out ::= fun l => l ++ [(0x20, 0x20)] |> |>).
Proof.
  intros E. unfold sched_yield. rewrite (bind_ret _ _ _ _ _ (apic_timer_handler_eq k)), (bind_ret _ _ _ _ _ E).
  reflexivity.
Qed.

(** Sleeping gives the processor back. *)
Lemma sched_sleep_returns k cpu c a cur th rsp ms :
  sched_ready k cpu c a cur th -> t_state th <> THREAD_DEAD -> exists r k', sched_sleep rsp ms k = Ret r k'.
Proof.
  intros Hsr Hst. destruct (sched_sleep_yield k cpu c a cur th rsp ms Hsr Hst) as (k1 & E1 & Hs1 & _).
  apply (sched_ready_frame k1 (ticked k1)) in Hs1; [| done | done | done].
  destruct (sched_reschedule_queues _ _ _ _ _ _ rsp Hs1) as (r & k' & c' & a' & th' & E & _).
  rewrite E1, (sched_yield_reschedule k1 rsp r k' E). by eexists _, _.
Qed.

(** C37: a running thread that calls sched_sleep gives up the processor and no
    thread is lost.  The scheduler returns in a well-formed state with its lock
    free and interrupts on; the caller's record says it sleeps until [ms]
    milliseconds after the call, in ticks, and holds its stack pointer.  When any
    thread was ready the caller is in the sleep queue and another thread runs;
    otherwise the caller keeps the processor. *)
Theorem sched_sleep_correct k cpu c a cur th rsp ms :
  sched_ready k cpu c a cur th -> t_state th = THREAD_RUNNING ->
  let target := u64 (apic_get_ticks k + ms / 10) in
  exists r k' c' a' th', sched_sleep rsp ms k = Ret r k' /\
    cpu_view k' cpu c' a' /\ a_inv a' /\ a_current a' (c_sched_thread c') th' /\ r = t_rsp th' /\
    c_sched_lock c' = 0 /\ Z.testbit (hw_rflags (hw k')) RFLAGS_IF = true /\
    c_sched_thread c' :: queued a' ≡ₚ cur :: queued a /\
    (exists t, a_thr a' !! cur = Some t /\ t_state t = THREAD_SLEEPING /\
       t_wakeup_tick t = target /\ t_rsp t = rsp) /\
    (if bool_decide (c_sched_thread c' = cur) then forall q x, ~ waits a' q x else cur ∈ a_sleep a').
Proof.
  intros Hsr Hst target.
  destruct (sched_sleep_yield k cpu c a cur th rsp ms Hsr ltac:(by rewrite Hst)) as (k1 & E1 & Hs1 & _ & Hif).
  fold target in Hs1. set (a1 := a_update cur (asleep target) a) in *.
  pose proof (sched_ready_frame k1 (ticked k1) cpu c a1 cur (asleep target th) eq_refl eq_refl ltac:(done) Hs1) as Hs2.
  destruct (sched_reschedule_queues _ cpu c a1 cur (asleep target th) rsp Hs2)
    as (r & k' & c' & a' & th' & E & V & Ha' & Hc' & Hperm & _ & Hr & Hlk & Hrf & Hth & Hpick & _).
  rewrite E1, (sched_yield_reschedule k1 rsp r k' E).
  destruct (a_prepare_spec cur rsp (apic_get_ticks (ticked k1)) a1 (asleep target th)) as (_ & Cp & _);
    [apply Hs1 | apply Hs1 |].
  set (pre := a_prepare cur rsp (apic_get_ticks (ticked k1)) a1) in *.
  set (c1 := use_tick (asleep target th <| t_rsp := rsp |>)) in *.
  assert (Hc1 : t_state c1 = THREAD_SLEEPING /\ t_wakeup_tick c1 = target /\ t_rsp c1 = rsp)
    by (unfold c1, use_tick; simpl; by destruct (0 <? _)).
  destruct (a_pick_asleep cur pre c1 (ac_thread _ _ _ Cp) (proj1 Hc1)) as [Hthr Hsl].
  assert (Hne : forall next, fst (a_pick cur pre) = Some next -> c_sched_thread c' <> cur /\ next <> cur).
  { intros next Ep. rewrite Ep in Hth, Hpick, Hsl. simpl in Hth. rewrite Hth.
    assert (next <> cur); [| done]. intros ->. apply (ac_outside _ _ _ Hc'). rewrite Hth, Hpick.
    by apply elem_of_sleep. }
  exists r, (k' <| hw ::= fun h => h <| hw_out ::= fun l => l ++ [(0x20, 0x20)] |> |>), c', a', th'.
  split; [reflexivity |]. split; [by destruct V |]. split; [done |]. split; [done |]. split; [done |]. split; [done |].
  split; [cbn [hw_rflags hw over]; by rewrite Hrf |].
  split; [rewrite Hperm; by unfold stays |].
  split.
  - exists c1. split; [| done]. rewrite Hpick. destruct (fst (a_pick cur pre)) as [next |] eqn:Ep; [| done].
    simpl. rewrite lookup_alter_ne; [done |]. intros ->. by destruct (Hne cur eq_refl).
  - case_bool_decide as Hx.
    + destruct (fst (a_pick cur pre)) as [next |]; [by destruct (Hne next eq_refl) |].
      destruct (highest 32 (a_ready pre)) as [p |] eqn:Eh; [by destruct (Hsl p) |]. intros q x (l & Hl & Hx').
      assert (a' = pre) as Epre by (rewrite Hpick; unfold a_pick; by rewrite Eh). rewrite Epre in Hl, Ha'.
      rewrite (highest_None _ _ Eh q l) in Hx' by (rewrite <- ?(ai_len _ Ha'); by eauto using lookup_lt_Some).
      by apply elem_of_nil in Hx'.
    + rewrite Hpick. destruct (fst (a_pick cur pre)); [done |]. simpl in Hth. congruence.
Qed.

Lemma sched_sleep_correct_witness :
  exists r k' c' a' th', sched_sleep 0x1F00 50 demo = Ret r k' /\ cpu_view k' 0x1000 c' a' /\
    a_current a' (c_sched_thread c') th' /\ exists t, a_thr a' !! 0x2000 = Some t /\ t_wakeup_tick t = 12.
Proof.
  destruct (sched_sleep_correct demo _ _ _ _ _ 0x1F00 50 demo_ready eq_refl)
    as (r & k' & c' & a' & th' & E & V & _ & C & _ & _ & _ & _ & (t & Ht & _ & Hw & _) & _).
  eexists r, k', c', a', th'. split; [exact E |]. split; [exact V |]. split; [exact C |]. exists t. by split.
Defined.

(** *** What sleeping does not touch *)

(** The parts of the kernel outside the scheduler and the memory. *)
Definition outside (k : kernel) : console_t * kbd_t * shell_t := (console k, kbd k, shell k).

Lemma keeps_with_qs {A} cpu (code : M qs A) : keeps outside (with_qs cpu code).
Proof.
  intros k. unfold with_qs. destruct (deref _ cpu) as [c |]; [| done].
  destruct (cpu_extras _ !! _) as [e |]; [| done].
  by destruct (code (Qs _ _ e)).
Qed.

Lemma keeps_kfree p : keeps outside (kfree p).
Proof. unfold kfree. auto 20 with keeps. Qed.

Lemma keeps_thread_load x : keeps outside (thread_load x).
Proof. intros k. unfold thread_load. by destruct (deref _ x). Qed.
Lemma keeps_cpu_load x : keeps outside (cpu_load x).
Proof. intros k. unfold cpu_load. by destruct (deref _ x). Qed.
#[local] Hint Resolve keeps_with_qs keeps_kfree keeps_thread_load keeps_cpu_load : keeps.

Lemma keeps_sched_yield rsp : keeps outside (sched_yield rsp).
Proof.
  assert (Hr : forall cur, keeps outside (reap cur)) by (intros; unfold reap; auto 20 with keeps).
  unfold sched_yield, apic_timer_handler, apic_write, sched_reschedule, thread_update,
    tss_set_stack, cpu_update, cpu_get, b_rdmsr, b_outb.
  repeat first [solve [auto with keeps] | apply keeps_bind; [| intro] | apply Hr | case_match | progress cbv zeta].
Qed.

Lemma keeps_sched_sleep rsp ms : keeps outside (sched_sleep rsp ms).
Proof.
  pose proof (keeps_sched_yield rsp). unfold sched_sleep, sched_doze, cli, sti, cpu_get, b_rdmsr, thread_update.
  auto 20 with keeps.
Qed.
