(* ===== verification/SchedSpawn.v ===== *)
(** Creating threads, and asking whether a thread is alive. *)

From S2P Require Import Prelude Memory State Lib Console Pmm Heap Apic Cpu Queue Sched SchedSpec SchedProps.

(** ** The entry frame *)

Lemma push_words_spec vs : forall ptr m,
  let r := push_words ptr vs m in
  fst r = ptr - 8 * Z.of_nat (length vs) /\ agree_out (fst r) ptr m (snd r) /\
  forall j v, vs !! j = Some v -> ld64 (snd r) (ptr - 8 * (Z.of_nat j + 1)) = u64 v.
Proof.
  induction vs as [| v vs IH]; intros ptr m r; subst r; cbn [push_words].
  { simpl. split; [lia |]. split; [done |]. intros j v. by rewrite lookup_nil. }
  destruct (IH (ptr - 8) (st64 m (ptr - 8) v)) as (E & Hag & Hw).
  set (r := push_words (ptr - 8) vs (st64 m (ptr - 8) v)) in *. cbn [length].
  assert (Hl : fst r = ptr - 8 * Z.of_nat (S (length vs))) by lia. split; [exact Hl |]. split.
  - transitivity (st64 m (ptr - 8) v).
    + eapply agree_out_sub; [| | apply agree_out_st64]; lia.
    + eapply agree_out_sub; [| | exact Hag]; lia.
  - intros [| j] w Hj; cbn in Hj.
    + injection Hj as ->. replace (ptr - 8 * (Z.of_nat 0 + 1)) with (ptr - 8) by lia.
      rewrite (ld64_agree (ptr - 8) ptr (st64 m (ptr - 8) w)); [apply ld64_st64_eq | | lia | lia].
      intros b Hb. apply Hag. lia.
    + replace (ptr - 8 * (Z.of_nat (S j) + 1)) with (ptr - 8 - 8 * (Z.of_nat j + 1)) by lia. by apply Hw.
Qed.

(** ** Stepping through spawn_thread *)

Lemma bind_thread_update {B} k x t f (g : unit -> M kernel B) :
  s_threads (sched k) !! x = Some t -> x <> 0 -> (thread_update x f ≫= g) k = g tt (set_thread x (f t) k).
Proof.
  intros Hx H0. unfold thread_update. unfold mbind, M_bind. by rewrite (thread_load_eq k x t Hx H0).
Qed.
Lemma set_thread_lookup k x t : s_threads (sched (set_thread x t k)) !! x = Some t.
Proof. apply lookup_insert_eq. Qed.

Lemma next_tid_inc_eq k : next_tid_inc k =
  Ret (next_tid (sched k)) (k <| sched ::= fun s => s <| next_tid := u64 (next_tid (sched k) + 1) |> |>).
Proof. done. Qed.

Lemma cpu_get_by_index_eq k i cpu :
  0 <= i -> s_cpu_table (sched k) !! Z.to_nat i = Some cpu -> cpu_get_by_index i k = Ret cpu k.
Proof.
  intros Hi Ht. unfold cpu_get_by_index. rewrite bind_gets. unfold cpu_get_count.
  pose proof (lookup_lt_Some _ _ _ Ht). destruct (Z.leb_spec (Z.of_nat (length (s_cpu_table (sched k)))) i); [lia |].
  destruct (Z.ltb_spec i 0); [lia |]. unfold gets. by rewrite Ht.
Qed.

(** A thread that no queue holds may be written. *)
Definition put_thread (x : Z) (t : thread_t) (a : aqs) : aqs := a <| a_thr ::= <[x := strip t]> |>.

Lemma put_thread_inv x t a : a_inv a -> x ∉ queued a -> a_inv (put_thread x t a).
Proof.
  intros [[W1 W2] N L] Hx. constructor; try done. constructor.
  - intros p l y Hl Hy. simpl. rewrite lookup_insert_ne; [by eapply W1 |]. intros ->. apply Hx. by eapply elem_of_ready.
  - intros y Hy. simpl. rewrite lookup_insert_ne; [by apply W2 |]. intros ->. apply Hx. by apply elem_of_sleep.
Qed.

Lemma view_put_thread k cpu c a x t :
  cpu_view k cpu c a -> x ∉ queued a -> cpu_view (set_thread x t k) cpu c (put_thread x t a).
Proof.
  intros [H0 Hc (e & He & [Ht Hl HQ Ha])] Hx. constructor; [done | done |]. exists e. split; [done |].
  constructor; try done; [| by apply qrep_outside].
  simpl. rewrite Ht. by rewrite fmap_insert.
Qed.

(** What cpu_view depends on. *)
Lemma view_frame k k' cpu c a :
  s_cpus (sched k') = s_cpus (sched k) -> cpu_extras (sched k') = cpu_extras (sched k) ->
  s_threads (sched k') = s_threads (sched k) -> cpu_view k cpu c a -> cpu_view k' cpu c a.
Proof. intros E1 E2 E3 [H0 Hc He]. constructor; [done | by rewrite E1 |]. by rewrite E2, E3. Qed.

(** push_ready does not look at the cpu_extra_t. *)
Lemma push_ready_extra x ts rq e e' s :
  push_ready x (Qs ts rq e) = Ret tt s -> push_ready x (Qs ts rq e') = Ret tt (Qs (q_threads s) (q_ready s) e').
Proof.
  unfold push_ready, t_load, rq_load, t_update, rq_store, modify, mbind, M_bind. cbn [q_threads q_ready].
  destruct (deref ts x) as [t |] eqn:Ed; [| done]. unfold rq_load. cbn [q_threads q_ready].
  destruct (in_rq (t_priority t)); [| done]. destruct (rq !! Z.to_nat (t_priority t)) as [h |] eqn:Eh; [| done].
  unfold t_load. cbn [q_threads q_ready over]. rewrite Ed. simpl. rewrite Eh. intros [= <-]. done.
Qed.

Lemma with_ready_push k cpu c a x t :
  cpu_view k cpu c a -> s_threads (sched k) !! x = Some t -> x <> 0 -> x ∉ queued a -> is_priority (t_priority t) ->
  exists k' rq, with_ready cpu (push_ready x) k = Ret tt k' /\
    cpu_view k' cpu (c <| c_ready_queues := rq |>) (a_push x a) /\
    k' = k <| sched ::= fun s => s <| s_threads := s_threads (sched k') |> <| s_cpus := s_cpus (sched k') |> |> /\
    (forall y, y <> x -> s_threads (sched k') !! y = s_threads (sched k) !! y) /\
    (forall q, q <> cpu -> s_cpus (sched k') !! q = s_cpus (sched k) !! q).
Proof.
  intros [H0 Hc (e & He & Hr)] Hx Hx0 Hq Hp.
  destruct (push_ready_rep _ a x t Hr Hx Hx0 Hq Hp) as (s' & E & R & Hoth).
  unfold with_ready. rewrite (deref_Some _ _ _ Hc H0), (push_ready_extra _ _ _ _ _ _ E). cbn [q_threads q_ready].
  assert (Hex : q_extra s' = e).
  { revert E. unfold push_ready, t_load, rq_load, t_update, rq_store, modify, mbind, M_bind. cbn [q_threads q_ready].
    rewrite (deref_Some _ _ _ Hx Hx0). unfold rq_load. cbn [q_threads q_ready].
    destruct (in_rq (t_priority t)); [| done]. destruct (c_ready_queues c !! _) as [h |] eqn:Eh; [| done].
    unfold t_load. cbn [q_threads q_ready over]. rewrite (deref_Some _ _ _ Hx Hx0). simpl. rewrite Eh. by intros [= <-]. }
  eexists _, (q_ready s'). split; [reflexivity |]. split_and!; [| | done |].
  - constructor; [done | simpl; apply lookup_insert_eq |]. exists e. simpl. split; [done |]. subst e. by destruct s'.
  - by destruct k as [? ? ? ? ? ? ? [] ? ? ?].
  - intros q Hqc. simpl. by rewrite lookup_insert_ne.
Qed.

(** The record of a spawned thread, from the zeroed and named one. *)
Definition spawned (t0 : thread_t) (tid ptr priority stack core : Z) (ustack : option Z) : thread_t :=
  let t := t0 <| t_tid := tid |> <| t_rsp := ptr |> <| t_state := THREAD_READY |> <| t_priority := priority |>
    <| t_ticks_remaining := time_slice priority |>
    <| t_stack_limit := stack |> <| t_stack_top := u64 (stack + STACK_BYTES) |> in
  let t := match ustack with
    | None => t
    | Some u => t <| t_user_stack_limit := u |> <| t_user_stack_top := u64 (u + STACK_BYTES) |>
    end in
  t <| t_core_affinity := u8 core |>.

Lemma set_thread_twice k x t t' : set_thread x t (set_thread x t' k) = set_thread x t k.
Proof.
  destruct k as [? ? ? ? ? ? ? [] ? ? ?]. unfold set_thread, over. simpl. do 2 f_equal. apply insert_insert_eq.
Qed.

(** Outside the scheduler's variables nothing changes but memory, which the
    relation leaves to its users; of these variables the table of processors,
    the sleep queues and the records of the processors other than [cpu] are
    kept. *)
Record same_outside (k k' : kernel) (cpu : Z) : Prop := {
  sm_rest : k' = set_mem (mem_of k') (k <| sched := sched k' |>);
  sm_extras : cpu_extras (sched k') = cpu_extras (sched k);
  sm_table : s_cpu_table (sched k') = s_cpu_table (sched k);
  sm_cpus : forall q, q <> cpu -> s_cpus (sched k') !! q = s_cpus (sched k) !! q
}.

Lemma same_rest k k' :
  hw k' = hw k -> console k' = console k -> pmm k' = pmm k -> heap k' = heap k -> kernel_pml4 k' = kernel_pml4 k ->
  kbd k' = kbd k -> apic k' = apic k -> alpc k' = alpc k -> acpi k' = acpi k ->
  vmm_test_active k' = vmm_test_active k -> shell k' = shell k ->
  k' = set_mem (mem_of k') (k <| sched := sched k' |>).
Proof. destruct k as [[] ? ? ? ? ? ? ? ? ? ? ?], k'. simpl. intros. by subst. Qed.

Lemma same_outside_trans k1 k2 k3 cpu :
  same_outside k1 k2 cpu -> same_outside k2 k3 cpu -> same_outside k1 k3 cpu.
Proof.
  intros [R1 E1 T1 C1] [R2 E2 T2 C2]. constructor; [| congruence | congruence |].
  - rewrite R2. rewrite R1 at 1. generalize (mem_of k3) (sched k3) (mem_of k2) (sched k2).
    clear. intros m3 s3 m2 s2. by destruct k1 as [[] ? ? ? ? ? ? ? ? ? ? ?].
  - intros q Hq. by rewrite C2, C1.
Qed.

Lemma spawn_thread_spec k x ptr priority stack ustack t0 cpu c a :
  s_threads (sched k) !! x = Some t0 -> x <> 0 -> x ∉ queued a -> global_sched_lock (sched k) = 0 ->
  0 <= next_cpu_index (sched k) -> s_cpu_table (sched k) !! Z.to_nat (next_cpu_index (sched k)) = Some cpu ->
  cpu_view k cpu c a -> c_sched_lock c = 0 -> is_priority priority ->
  let tid := next_tid (sched k) in
  let T := spawned t0 tid ptr priority stack (c_cpu_id c) ustack in
  exists k' c', spawn_thread x ptr priority stack ustack k = Ret tid k' /\
    cpu_view k' cpu c' (a_push x (put_thread x T a)) /\ c_sched_lock c' = 0 /\
    next_tid (sched k') = u64 (tid + 1) /\
    next_cpu_index (sched k') = u32 (next_cpu_index (sched k) + 1) mod cpu_get_count k /\
    global_sched_lock (sched k') = 0 /\ mem_of k' = mem_of k /\ same_outside k k' cpu /\ c' = c <| c_ready_queues := c_ready_queues c' |> /\
    (forall y, y <> x -> s_threads (sched k') !! y = s_threads (sched k) !! y).
Proof.
  intros Hx H0 Hq Hgl Hi Htab Hv Hlk Hp tid T.
  unfold spawn_thread. rewrite bind_irq_save, bind_spin_lock by (simpl; by rewrite Hgl).
  rewrite (bind_ret _ _ _ _ _ (next_tid_inc_eq _)).
  match goal with |- context [(thread_update _ _ ≫= _) ?s] => set (k1 := s) end.
  rewrite (bind_thread_update k1 x t0 _ _ Hx H0), !bind_gets.
  assert (Hcnt : (cpu_get_count (set_thread x (t0 <| t_tid := next_tid (sched (lk_set global_lock_ref 1 (masked k))) |>) k1) =? 0) = false).
  { unfold cpu_get_count. simpl. pose proof (lookup_lt_Some _ _ _ Htab). apply Z.eqb_neq. lia. }
  rewrite Hcnt. cbn [when]. rewrite bind_mret, bind_modify. kstep.
  match goal with |- context [(cpu_get_by_index _ ≫= _) ?s] => set (k2 := s) end.
  rewrite (bind_ret _ _ _ _ _ (cpu_get_by_index_eq k2 (next_cpu_index (sched k)) cpu Hi Htab)).
  rewrite (bind_ret _ _ _ _ _ (cpu_load_spec k2 cpu c (cv_cpu _ _ _ _ Hv) (cv_addr _ _ _ _ Hv))).
  rewrite (bind_thread_update k2 x (t0 <| t_tid := tid |>) _ _ ltac:(apply lookup_insert_eq) H0).
  match goal with |- context [set_thread x ?t k2] => set (t1 := t) end.
  assert (Hus : forall (g : unit -> M kernel Z), (match ustack with
      | Some u => thread_update x (fun t => t <| t_user_stack_limit := u |> <| t_user_stack_top := u64 (u + STACK_BYTES) |>)
      | None => mret tt end ≫= g) (set_thread x t1 k2) =
      g tt (set_thread x (match ustack with
        | Some u => t1 <| t_user_stack_limit := u |> <| t_user_stack_top := u64 (u + STACK_BYTES) |>
        | None => t1 end) k2)).
  { intros g. destruct ustack as [u |]; [| done].
    by rewrite (bind_thread_update _ x t1 _ _ (set_thread_lookup k2 x t1) H0), set_thread_twice. }
  rewrite Hus. rewrite (bind_thread_update _ x _ _ _ (set_thread_lookup k2 x _) H0), set_thread_twice.
  match goal with |- context [set_thread x ?t k2] => change t with T end. set (k4 := set_thread x T k2).
  assert (V4 : cpu_view k4 cpu c (put_thread x T a)).
  { apply (view_frame (set_thread x T k)); [done | done | | by apply view_put_thread].
    simpl. apply insert_insert_eq. }
  destruct (view_lock k4 cpu c _ 1 V4) as [V5 L5]. rewrite Hlk in L5. rewrite (bind_spin_lock _ _ k4 L5).
  destruct (with_ready_push _ cpu _ _ x T V5 (set_thread_lookup k2 x T) H0 Hq) as (k6 & rq & E6 & V6 & Ek6 & Hoth & Hcs).
  { by destruct ustack. }
  rewrite (bind_ret _ _ _ _ _ E6).
  destruct (view_lock k6 cpu _ _ 0 V6) as [V7 L7]. rewrite (bind_spin_unlock _ _ k6 _ L7), bind_irq_restore.
  match goal with |- context [(thread_load x ≫= _) ?s] => set (k7 := s) end.
  assert (Hx7 : exists t7, s_threads (sched k7) !! x = Some t7 /\ t_tid t7 = tid).
  { assert (Ha : a_thr (a_push x (put_thread x T a)) !! x = Some (strip T)).
    { rewrite a_push_thr. simpl. apply lookup_insert_eq. }
    destruct (view_thread k6 cpu _ _ x _ V6 Ha) as (t7 & Ht7 & Es). exists t7. split; [exact Ht7 |].
    transitivity (t_tid (strip t7)); [done |]. rewrite Es. by destruct ustack. }
  destruct Hx7 as (t7 & Ht7 & Etid). rewrite (bind_ret _ _ _ _ _ (thread_load_eq k7 x t7 Ht7 H0)), Etid.
  exists k7. eexists. split; [done |]. split; [apply view_rflags; exact V7 |]. split; [done |].
  split; [unfold k7; by rewrite Ek6 |]. split; [unfold k7; by rewrite Ek6 |]. split; [unfold k7; by rewrite Ek6 |].
  split; [unfold k7; by rewrite Ek6 |].
  split; [| split; [clear -Hlk; destruct c; simpl in Hlk; by subst |]].
  - constructor.
    + apply same_rest; try (unfold k7; rewrite Ek6; reflexivity).
      transitivity (hw (set_rflags (hw_rflags (hw k)) (masked k))); [unfold k7; by rewrite Ek6 |].
      clear. by destruct k as [[] ? ? ? ? ? ? ? ? ? ?].
    + unfold k7. by rewrite Ek6.
    + unfold k7. by rewrite Ek6.
    + intros q Hq'. unfold k7. simpl. rewrite lookup_alter_ne, Hcs by done. simpl. by rewrite lookup_alter_ne.
  - intros y Hy. transitivity (s_threads (sched k6) !! y); [done |]. rewrite Hoth by done. simpl.
    by rewrite !lookup_insert_ne.
Qed.

(** ** Spawning *)

(** A context_t at [rsp], as the interrupt return path will load it: zeroed
    registers, then rip, cs, rflags, rsp and ss. *)
Record entry_context (m : mem) (rsp ss usp cs entry : Z) : Prop := {
  ec_regs : forall j, 0 <= j < 17 -> ld64 m (rsp + 8 * j) = 0;
  ec_rip : ld64 m (rsp + 136) = entry;
  ec_cs : ld64 m (rsp + 144) = cs;
  ec_rflags : ld64 m (rsp + 152) = 0x202;
  ec_rsp : ld64 m (rsp + 160) = usp;
  ec_ss : ld64 m (rsp + 168) = ss
}.

Lemma build_frame_spec k bl off sz ss usp cs entry :
  let stack := heap_start (heap k) + off + HDR in
  heap_rep k bl -> 0 <= off -> block_at off bl = Some (sz, false) -> STACK_BYTES <= sz ->
  is_u64 ss -> is_u64 usp -> is_u64 cs -> is_u64 entry ->
  exists m, build_frame stack (entry_frame ss usp cs entry) k = Ret (stack + 8016) (set_mem m k) /\
    heap_rep (set_mem m k) bl /\ entry_context m (stack + 8016) ss usp cs entry /\
    agree_out stack (stack + sz) (mem_of k) m.
Proof.
  intros stack Hr Ho Hb Hsz U1 U2 U3 U4. unfold build_frame.
  destruct (push_words_spec (entry_frame ss usp cs entry) (stack + STACK_BYTES) (mem_of k)) as (E & Hag & Hw).
  destruct (push_words _ _ _) as [ptr m] eqn:Er. cbn [fst snd] in *. change (length _) with 22%nat in E.
  unfold STACK_BYTES in *. assert (ptr = stack + 8016) as -> by lia.
  assert (Ha : agree_out stack (stack + sz) (mem_of k) m) by (eapply agree_out_sub; [| | exact Hag]; lia).
  exists m. split; [done |]. split; [by eapply heap_rep_write |]. split; [| done].
  assert (Hat : forall j v, entry_frame ss usp cs entry !! j = Some v -> is_u64 v ->
            forall a, a = stack + 8192 - 8 * (Z.of_nat j + 1) -> ld64 m a = v).
  { intros j v Hj Hv a ->. rewrite (Hw j v Hj). by apply u64_small. }
  constructor;
    [| by apply (Hat 4%nat); [| | lia] | by apply (Hat 3%nat); [| | lia] | by apply (Hat 2%nat); [| | lia]
     | by apply (Hat 1%nat); [| | lia] | by apply (Hat 0%nat); [| | lia]].
  intros j Hj. apply (Hat (21 - Z.to_nat j)%nat); [| done | lia].
  assert (Hd : (21 - Z.to_nat j = 5 \/ 21 - Z.to_nat j = 6 \/ 7 <= 21 - Z.to_nat j < 22)%nat) by lia.
  unfold entry_frame. destruct Hd as [-> | [-> | Hd]]; [done | done |].
  rewrite lookup_app_r by (simpl; lia). apply lookup_replicate_2. simpl. lia.
Qed.

Lemma set_name_if_spec k x name :
  x <> 0 -> (forall n, name = Some n -> exists nm, cstring n = Some nm /\ (length nm < 16)%nat /\ Forall is_byte n) ->
  exists d, set_name_if x name (set_thread x zero_thread k) = Ret tt (set_thread x (zero_thread <| t_name := d |>) k) /\
    cstring d = match name with Some n => cstring n | None => Some [] end.
Proof.
  intros H0 Hn. destruct name as [n |]; simpl.
  - destruct (Hn n eq_refl) as (nm & Hc & Hl & Hb).
    destruct (b_strcpy_spec n (replicate 16 0) nm Hc ltac:(by rewrite length_replicate) Hb
      ltac:(by apply Forall_replicate)) as (d & Hcp & Hd & _ & _).
    exists d. split; [| congruence]. unfold thread_set_name.
    rewrite (bind_ret _ _ _ _ _ (thread_load_eq _ x _ (set_thread_lookup k x zero_thread) H0)).
    cbn [t_name zero_thread]. rewrite Hcp. cbn [from_option]. rewrite bind_mret. unfold modify.
    by rewrite set_thread_twice.
  - exists (replicate 16 0). done.
Qed.

(** The next spawn goes to the processor at [cpu], whose queues are [a]; the
    queued threads are blocks of the heap. *)
Record can_spawn (k : kernel) (bl : blocks) (cpu : Z) (c : cpu_t) (a : aqs) : Prop := {
  cs_heap : heap_rep k bl;
  cs_heap_lock : heap_lock (heap k) = 0;
  cs_global : global_sched_lock (sched k) = 0;
  cs_index : 0 <= next_cpu_index (sched k);
  cs_cpu : s_cpu_table (sched k) !! Z.to_nat (next_cpu_index (sched k)) = Some cpu;
  cs_view : cpu_view k cpu c a;
  cs_lock : c_sched_lock c = 0;
  cs_inv : a_inv a;
  cs_held : forall y, y ∈ queued a -> exists off, held k bl y off
}.

(** What a spawn does to the scheduler: thread [x] with record [T] is in front
    of its ready queue on [cpu], of whose record only the queue heads change;
    the sleepers, the other threads, processors and variables of the kernel are
    as they were. *)
Record spawned_on (k k' : kernel) (cpu : Z) (c : cpu_t) (a : aqs) (x : Z) (T : thread_t) : Prop := {
  so_new : x <> 0 /\ x ∉ queued a;
  so_view : exists c', cpu_view k' cpu c' (a_push x (put_thread x T a)) /\ c_sched_lock c' = 0 /\
    c' = c <| c_ready_queues := c_ready_queues c' |>;
  so_inv : a_inv (a_push x (put_thread x T a));
  so_queue : forall l, a_ready a !! Z.to_nat (t_priority T) = Some l ->
    a_ready (a_push x (put_thread x T a)) = <[Z.to_nat (t_priority T) := x :: l]> (a_ready a);
  so_sleep : a_sleep (a_push x (put_thread x T a)) = a_sleep a;
  so_tid : t_tid T = next_tid (sched k) /\ next_tid (sched k') = u64 (next_tid (sched k) + 1);
  so_next_cpu : next_cpu_index (sched k') = u32 (next_cpu_index (sched k) + 1) mod cpu_get_count k;
  so_others : forall y, y <> x -> s_threads (sched k') !! y = s_threads (sched k) !! y;
  so_unlocked : global_sched_lock (sched k') = 0;
  so_outside : same_outside k k' cpu
}.

Lemma spawn_after k bl cpu c a x t0 m ptr priority stack ustack :
  can_spawn k bl cpu c a -> x <> 0 -> x ∉ queued a -> is_priority priority ->
  let T := spawned t0 (next_tid (sched k)) ptr priority stack (c_cpu_id c) ustack in
  exists k', spawn_thread x ptr priority stack ustack (set_thread x t0 (set_mem m k)) = Ret (next_tid (sched k)) k' /\
    spawned_on k k' cpu c a x T /\ mem_of k' = m /\ heap k' = heap k.
Proof.
  intros [Hr Hl Hg Hi Ht Hv Hlk Ha Hh] H0 Hq Hp T. set (k3 := set_thread x t0 (set_mem m k)).
  pose proof (view_put_thread _ cpu c a x t0 (view_set_mem k cpu c a m Hv) Hq) as V3. fold k3 in V3.
  destruct (spawn_thread_spec k3 x ptr priority stack ustack t0 cpu c (put_thread x t0 a)
    (set_thread_lookup _ x t0) H0 Hq Hg Hi Ht V3 Hlk Hp) as (k' & c' & E & V & Lk & N1 & N2 & N3 & Hmem & Hout & Hc' & Hoth).
  assert (Epp : put_thread x T (put_thread x t0 a) = put_thread x T a).
  { unfold put_thread, over. simpl. f_equal. apply insert_insert_eq. }
  change (next_tid (sched k3)) with (next_tid (sched k)) in *.
  fold T in V. rewrite Epp in V.
  assert (HT : t_state T = THREAD_READY /\ t_priority T = priority /\ t_tid T = next_tid (sched k)) by (by destruct ustack).
  destruct HT as (HT1 & HT2 & HT3).
  pose proof (put_thread_inv x T a Ha Hq) as Ha1.
  assert (HTl : a_thr (put_thread x T a) !! x = Some (strip T)) by apply lookup_insert_eq.
  exists k'. split; [exact E |]. split; [| split; [exact Hmem | by rewrite (sm_rest _ _ _ Hout)]].
  assert (O3 : same_outside k k3 cpu) by (constructor; done).
  constructor; try done; [by exists c' | | | | | by apply (same_outside_trans k k3)].
  - apply (push_inv _ x (strip T) Ha1 Hq HTl); [done | by rewrite <- HT2 in Hp].
  - intros l Hl0. unfold a_push. rewrite HTl. simpl. change (t_priority (strip T)) with (t_priority T).
    by apply (list_alter_lookup (cons x)).
  - by rewrite a_push_sleep.
  - intros y Hy. rewrite Hoth by done. simpl. by rewrite lookup_insert_ne.
Qed.

Lemma clamp_priority_ok p : 0 <= p -> is_priority (clamp_priority p) /\ clamp_priority p = Z.min p 31.
Proof. intros H. unfold clamp_priority, is_priority, MAX_PRIORITY. case_match; zbool; lia. Qed.

(** The address of a fresh block is in no queue. *)
Lemma fresh_not_queued k bl a o1 (P : Z -> Z -> Prop) :
  (forall y, y ∈ queued a -> exists off, held k bl y off) ->
  (forall q o, held k bl q o -> o <> o1 /\ P q o) ->
  heap_start (heap k) + o1 + HDR ∉ queued a.
Proof. intros Hh Hk Hin. destruct (Hh _ Hin) as (o & Ho). destruct (Hk _ _ Ho) as [Hne _]. destruct Ho as (E & _). lia. Qed.

(** The memory of a spawn: the record and the (kernel) stack are allocated, then
    perhaps another block, then the frame is written on the stack. *)
Lemma spawn_memory k m1 m2 m3 m4 bl bl1 bl2 bl3 o sz :
  heap_rep k bl -> heap_rep (set_mem m1 k) bl1 -> heap_rep (set_mem m2 k) bl2 -> heap_rep (set_mem m3 k) bl3 ->
  blocks_kept bl bl1 -> blocks_kept bl1 bl2 -> blocks_kept bl2 bl3 ->
  heap_only k (set_mem m1 k) bl -> heap_only (set_mem m1 k) (set_mem m2 k) bl1 ->
  heap_only (set_mem m2 k) (set_mem m3 k) bl2 ->
  0 <= o -> block_at o bl3 = Some (sz, false) -> o + HDR + sz <= POOL_BYTES ->
  (forall q o', held (set_mem m1 k) bl1 q o' -> o' <> o) ->
  agree_out (heap_start (heap k) + o + HDR) (heap_start (heap k) + o + HDR + sz) m3 m4 ->
  heap_only k (set_mem m4 k) bl /\ blocks_kept bl bl3.
Proof.
  intros R R1 R2 R3 K1 K2 K3 H1 H2 H3 Ho Hat Hb Hnew Hag.
  pose proof (chain_sizes _ _ _ _ (hr_chain _ _ R)) as S. pose proof (chain_sizes _ _ _ _ (hr_chain _ _ R1)) as S1.
  pose proof (chain_sizes _ _ _ _ (hr_chain _ _ R2)) as S2. pose proof (chain_sizes _ _ _ _ (hr_chain _ _ R3)) as S3.
  assert (K13 : blocks_kept bl1 bl3) by (intros o' s Ho' H'; by apply K3, K2).
  split; [| intros o' s Ho' H'; by apply K13, K1].
  apply (heap_only_trans k (set_mem m1 k) _ bl bl1); try done.
  apply (heap_only_trans _ (set_mem m3 k) _ bl1 bl1); try done; [by intros o' s | |].
  - by apply (heap_only_trans _ (set_mem m2 k) _ bl1 bl2).
  - apply (heap_only_write (set_mem m3 k) m4 bl1 bl3 o sz); try done.
    intros s Hs. apply (Hnew (heap_start (heap k) + o + HDR) o); [| done]. split; [done |]. split; [done |]. by exists s.
Qed.

(** ** Theorems *)

(** C21: sched_spawn.  With memory for the record and the stack, it returns the
    next thread id; the new thread is ready in front of the queue of its
    priority (capped at 31) on the processor whose turn it is, with a full time
    slice, and its saved stack pointer addresses a context on its own stack that
    enters [entry] in ring 0 with interrupts on.  Ids and processors are handed
    out in turn.  The heap has two more blocks; the bytes of the blocks that
    were allocated before (other threads' stacks among them) and all memory
    outside the heap are kept, and so are the other threads, the other
    processors, the locks, the interrupt flag and the rest of the kernel. *)
Theorem sched_spawn_correct k bl cpu c a o1 bl1 o2 bl2 entry priority name :
  can_spawn k bl cpu c a -> 0 <= priority < 256 -> is_u64 entry ->
  (forall n, name = Some n -> exists nm, cstring n = Some nm /\ (length nm < 16)%nat /\ Forall is_byte n) ->
  alloc_list (align8 SIZEOF_THREAD) bl = Some (o1, bl1) ->
  alloc_list (align8 STACK_BYTES) bl1 = Some (o2, bl2) ->
  let x := heap_start (heap k) + o1 + HDR in
  let stack := heap_start (heap k) + o2 + HDR in
  exists k' T, sched_spawn entry priority name k = Ret (next_tid (sched k)) k' /\
    spawned_on k k' cpu c a x T /\ heap_rep k' bl2 /\ heap_only k k' bl /\ blocks_kept bl bl2 /\
    t_state T = THREAD_READY /\ t_priority T = Z.min priority 31 /\ t_ticks_remaining T = 2 * (32 - Z.min priority 31) /\
    t_stack_limit T = stack /\ t_stack_top T = stack + 8192 /\
    cstring (t_name T) = match name with Some n => cstring n | None => Some [] end /\
    entry_context (mem_of k') (t_rsp T) 0x10 (stack + 8192) 0x08 entry.
Proof.
  intros Hcs Hp He Hn A1 A2 x stack. pose proof Hcs as [Hr Hl _ _ _ _ _ _ Hh].
  destruct (clamp_priority_ok priority ltac:(lia)) as [Hpr Hmin]. destruct (hr_start _ _ Hr) as (Hs0 & _ & Hs1).
  destruct (kmalloc_held k bl SIZEOF_THREAD o1 bl1 Hr Hl ltac:(unfold SIZEOF_THREAD; lia) A1)
    as (m1 & sz1 & E1 & R1 & O1 & B1 & _ & _ & K1 & L1 & G1 & Bk1).
  pose proof (fresh_not_queued k bl a o1 _ Hh K1) as Hq. fold x in Hq, E1.
  assert (H0 : x <> 0) by (unfold x, HDR; lia). apply Z.eqb_neq in H0 as H0'.
  unfold sched_spawn. cbv zeta. rewrite (bind_ret _ _ _ _ _ E1). unfold thread_zero at 1. rewrite H0', bind_modify.
  destruct (set_name_if_spec (set_mem m1 k) x name H0 Hn) as (d & Ed & Hd). rewrite (bind_ret _ _ _ _ _ Ed).
  set (t0 := zero_thread <| t_name := d |>) in *. set (k1 := set_thread x t0 (set_mem m1 k)).
  destruct (kmalloc_held k1 bl1 STACK_BYTES o2 bl2 (heap_rep_frame (set_mem m1 k) k1 _ eq_refl eq_refl R1) Hl
    ltac:(unfold STACK_BYTES; lia) A2) as (m2 & sz2 & E2 & R2 & O2 & B2 & S2 & P2 & K2 & L2 & G2 & Bk2).
  change (heap_start (heap k1) + o2 + HDR) with stack in E2. rewrite (bind_ret _ _ _ _ _ E2).
  assert (Hst : u64 (stack + STACK_BYTES) = stack + 8192).
  { apply u64_small. unfold stack, STACK_BYTES, HDR in *. lia. }
  rewrite Hst.
  destruct (build_frame_spec (set_mem m2 k1) bl2 o2 sz2 0x10 (stack + 8192) 0x08 entry R2 O2 B2 S2
    ltac:(done) ltac:(unfold is_u64, stack, STACK_BYTES, HDR in *; lia) ltac:(done) He) as (m3 & E3 & R3 & C3 & W3).
  change (heap_start (heap (set_mem m2 k1)) + o2 + HDR) with stack in *. rewrite (bind_ret _ _ _ _ _ E3).
  change (set_mem m3 (set_mem m2 k1)) with (set_thread x t0 (set_mem m3 k)).
  destruct (spawn_memory k m1 m2 m2 m3 bl bl1 bl2 bl2 o2 sz2) as [Hmem Hkept];
    [exact Hr | exact R1 | by apply (heap_rep_frame (set_mem m2 k1)) | by apply (heap_rep_frame (set_mem m2 k1))
    | exact Bk1 | exact Bk2 | by intros o s | exact (conj L1 G1) | exact (conj L2 G2) | by split | exact O2 | exact B2
    | exact P2 | intros q o' Hq'; by apply (K2 q o') | exact W3 |].
  destruct (spawn_after k bl cpu c a x t0 m3 (stack + 8016) (clamp_priority priority) stack None Hcs H0 Hq Hpr)
    as (k' & E & Hsp & Hm & Hhp).
  eexists k', _. split; [exact E |]. split; [exact Hsp |]. rewrite Hm. split_and!; try done.
  - apply (heap_rep_frame (set_mem m3 (set_mem m2 k1))); [by rewrite Hhp | by rewrite Hm | done].
  - unfold heap_only. rewrite Hm. exact Hmem.
  - simpl. rewrite Hmin. unfold time_slice, MAX_PRIORITY. rewrite u64_small; lia.
Qed.

(** sched_spawn_user does the same for a ring 3 thread: with memory for the
    record and two stacks, the context on the kernel stack enters [entry] with
    the user segments and the top of the user stack. *)
Theorem sched_spawn_user_correct k bl cpu c a o1 bl1 o2 bl2 o3 bl3 entry priority name :
  can_spawn k bl cpu c a -> 0 <= priority < 256 -> is_u64 entry ->
  (forall n, name = Some n -> exists nm, cstring n = Some nm /\ (length nm < 16)%nat /\ Forall is_byte n) ->
  alloc_list (align8 SIZEOF_THREAD) bl = Some (o1, bl1) ->
  alloc_list (align8 STACK_BYTES) bl1 = Some (o2, bl2) ->
  alloc_list (align8 STACK_BYTES) bl2 = Some (o3, bl3) ->
  let x := heap_start (heap k) + o1 + HDR in
  let kstack := heap_start (heap k) + o2 + HDR in
  let ustack := heap_start (heap k) + o3 + HDR in
  exists k' T, sched_spawn_user entry priority name k = Ret (next_tid (sched k)) k' /\
    spawned_on k k' cpu c a x T /\ heap_rep k' bl3 /\ heap_only k k' bl /\ blocks_kept bl bl3 /\
    t_state T = THREAD_READY /\ t_priority T = Z.min priority 31 /\
    t_stack_limit T = kstack /\ t_stack_top T = kstack + 8192 /\
    t_user_stack_limit T = ustack /\ t_user_stack_top T = ustack + 8192 /\
    entry_context (mem_of k') (t_rsp T) 0x1B (ustack + 8192) 0x23 entry.
Proof.
  intros Hcs Hp He Hn A1 A2 A3 x kstack ustack. pose proof Hcs as [Hr Hl _ _ _ _ _ _ Hh].
  destruct (clamp_priority_ok priority ltac:(lia)) as [Hpr Hmin]. destruct (hr_start _ _ Hr) as (Hs0 & _ & Hs1).
  destruct (kmalloc_held k bl SIZEOF_THREAD o1 bl1 Hr Hl ltac:(unfold SIZEOF_THREAD; lia) A1)
    as (m1 & sz1 & E1 & R1 & O1 & B1 & _ & _ & K1 & L1 & G1 & Bk1).
  pose proof (fresh_not_queued k bl a o1 _ Hh K1) as Hq. fold x in Hq, E1.
  assert (H0 : x <> 0) by (unfold x, HDR; lia). apply Z.eqb_neq in H0 as H0'.
  unfold sched_spawn_user. cbv zeta. rewrite (bind_ret _ _ _ _ _ E1). unfold thread_zero at 1. rewrite H0', bind_modify.
  destruct (set_name_if_spec (set_mem m1 k) x name H0 Hn) as (d & Ed & Hd). rewrite (bind_ret _ _ _ _ _ Ed).
  set (t0 := zero_thread <| t_name := d |>) in *. set (k1 := set_thread x t0 (set_mem m1 k)).
  destruct (kmalloc_held k1 bl1 STACK_BYTES o2 bl2 (heap_rep_frame (set_mem m1 k) k1 _ eq_refl eq_refl R1) Hl
    ltac:(unfold STACK_BYTES; lia) A2) as (m2 & sz2 & E2 & R2 & O2 & B2 & S2 & P2 & K2 & L2 & G2 & Bk2).
  change (heap_start (heap k1) + o2 + HDR) with kstack in E2. rewrite (bind_ret _ _ _ _ _ E2).
  destruct (kmalloc_held (set_mem m2 k1) bl2 STACK_BYTES o3 bl3 R2 Hl
    ltac:(unfold STACK_BYTES; lia) A3) as (m3 & sz3 & E3 & R3 & O3 & B3 & S3 & P3 & K3h & L3 & G3 & K3).
  change (heap_start (heap (set_mem m2 k1)) + o3 + HDR) with ustack in E3. rewrite (bind_ret _ _ _ _ _ E3).
  change (set_mem m3 (set_mem m2 k1)) with (set_mem m3 k1) in *.
  assert (Hst : u64 (ustack + STACK_BYTES) = ustack + 8192).
  { apply u64_small. unfold ustack, STACK_BYTES, HDR in *. lia. }
  rewrite Hst.
  destruct (build_frame_spec (set_mem m3 k1) bl3 o2 sz2 0x1B (ustack + 8192) 0x23 entry R3 O2 (K3 o2 sz2 O2 B2) S2
    ltac:(done) ltac:(unfold is_u64, ustack, STACK_BYTES, HDR in *; lia) ltac:(done) He) as (m4 & E4 & R4 & C4 & W4).
  change (heap_start (heap (set_mem m3 k1)) + o2 + HDR) with kstack in *. rewrite (bind_ret _ _ _ _ _ E4).
  change (set_mem m4 (set_mem m3 k1)) with (set_thread x t0 (set_mem m4 k)).
  destruct (spawn_memory k m1 m2 m3 m4 bl bl1 bl2 bl3 o2 sz2) as [Hmem Hkept];
    [exact Hr | exact R1 | by apply (heap_rep_frame (set_mem m2 k1)) | by apply (heap_rep_frame (set_mem m3 k1))
    | exact Bk1 | exact Bk2 | exact K3 | exact (conj L1 G1) | exact (conj L2 G2) | exact (conj L3 G3) | exact O2
    | exact (K3 o2 sz2 O2 B2) | exact P2 | intros q o' Hq'; by apply (K2 q o') | exact W4 |].
  destruct (spawn_after k bl cpu c a x t0 m4 (kstack + 8016) (clamp_priority priority) kstack (Some ustack) Hcs H0 Hq Hpr)
    as (k' & E & Hsp & Hm & Hhp).
  eexists k', _. split; [exact E |]. split; [exact Hsp |]. rewrite Hm. split_and!; try done.
  - apply (heap_rep_frame (set_mem m4 (set_mem m3 k1))); [by rewrite Hhp | by rewrite Hm | done].
  - unfold heap_only. rewrite Hm. exact Hmem.
  - simpl. apply u64_small. unfold kstack, STACK_BYTES, HDR in *. lia.
Qed.

(** ** Is a thread alive? *)

Definition has_tid (ts : threads) (tid x : Z) : bool :=
  match ts !! x with Some t => t_tid t =? tid | None => false end.

Lemma list_has_tid_spec tid s : forall l h fuel,
  lseg (q_threads s) h l -> (length l < fuel)%nat ->
  list_has_tid fuel tid h s = Ret (existsb (has_tid (q_threads s) tid) l) s.
Proof.
  induction l as [| x l IH]; intros h fuel Hl Hf; (destruct fuel as [| fuel]; [simpl in Hf; lia |]); cbn [list_has_tid].
  { simpl in Hl. by subst h. }
  destruct Hl as (-> & H0 & t & Ht & Hl). apply Z.eqb_neq in H0 as H0'. rewrite H0'.
  rewrite (bind_t_load s x t _ Ht H0). cbn [existsb]. unfold has_tid at 1. rewrite Ht.
  destruct (t_tid t =? tid); [done |]. simpl. apply IH; [done |]. simpl in Hf. lia.
Qed.

Lemma ready_has_tid_spec tid s a : rep s a -> forall n p, (p + n = 32)%nat ->
  ready_has_tid n tid (Z.of_nat p) s = Ret (existsb (has_tid (q_threads s) tid) (concat (drop p (a_ready a)))) s.
Proof.
  intros Hr. induction n as [| n IH]; intros p Hp; cbn [ready_has_tid].
  { rewrite drop_ge; [done |]. rewrite (rp_len _ _ Hr). lia. }
  destruct (lookup_lt_is_Some_2 (a_ready a) p) as [l Hl]; [rewrite (rp_len _ _ Hr); lia |].
  destruct (rep_ready s a p l Hr Hl) as (_ & h & Hh & Hseg & HQ).
  rewrite bind_gets. rewrite (bind_rq_load s (Z.of_nat p) h) by (rewrite ?Nat2Z.id; try done; unfold is_priority, MAX_PRIORITY; lia).
  pose proof (queue_length _ _ _ _ _ (rp_queues _ _ Hr) HQ).
  rewrite (bind_ret _ _ _ _ _ (list_has_tid_spec tid s l h (S (size (q_threads s))) Hseg ltac:(lia))).
  rewrite (drop_S _ l p Hl). cbn [concat]. rewrite existsb_app.
  destruct (existsb _ l); [done |]. replace (Z.of_nat p + 1) with (Z.of_nat (S p)) by lia. apply IH. lia.
Qed.

Lemma queues_have_tid_spec tid s a :
  rep s a -> queues_have_tid tid s = Ret (existsb (has_tid (q_threads s) tid) (queued a)) s.
Proof.
  intros Hr. unfold queues_have_tid. change (Z.to_nat (MAX_PRIORITY + 1)) with 32%nat.
  rewrite (bind_ret _ _ _ _ _ (ready_has_tid_spec tid s a Hr 32 0 eq_refl)). rewrite drop_0.
  unfold queued, queues. rewrite concat_app, existsb_app. simpl concat. rewrite app_nil_r.
  destruct (existsb _ (concat (a_ready a))); [done |]. rewrite !bind_gets.
  destruct (rep_sleep s a Hr) as [Hseg HQ]. pose proof (queue_length _ _ _ _ _ (rp_queues _ _ Hr) HQ).
  apply list_has_tid_spec; [done | lia].
Qed.

(** Processor [cpu] runs or queues a thread with id [tid]. *)
Definition on_cpu (k : kernel) (tid : Z) (v : Z * cpu_t * aqs) : bool :=
  has_tid (s_threads (sched k)) tid (c_sched_thread (snd (fst v))) ||
  existsb (has_tid (s_threads (sched k)) tid) (queued (snd v)).

(** A processor nobody works on, with its record and its queues. *)
Record quiet (k : kernel) (v : Z * cpu_t * aqs) : Prop := {
  qt_view : cpu_view k (fst (fst v)) (snd (fst v)) (snd v);
  qt_lock : c_sched_lock (snd (fst v)) = 0;
  qt_thread : c_sched_thread (snd (fst v)) <> 0;
  qt_current : exists t, s_threads (sched k) !! c_sched_thread (snd (fst v)) = Some t
}.

Lemma with_qs_same {A} k cpu c a (code : M qs A) r :
  cpu_view k cpu c a -> (forall s, rep s a -> q_threads s = s_threads (sched k) -> code s = Ret r s) ->
  with_qs cpu code k = Ret r k.
Proof.
  intros [H0 Hc (e & He & Hr)] Hcode. unfold with_qs. rewrite (deref_Some _ _ _ Hc H0), He, (Hcode _ Hr eq_refl).
  f_equal. destruct k as [? ? ? ? ? ? ? [] ? ? ?]. unfold put_qs, over. simpl in *. do 2 f_equal.
  - by rewrite list_insert_id.
  - rewrite insert_id; [done |]. rewrite Hc. f_equal. by destruct c.
Qed.

Lemma lock_cycle (cs : gmap Z cpu_t) cpu c :
  cs !! cpu = Some c -> c_sched_lock c = 0 ->
  alter (fun c => c <| c_sched_lock := 0 |>) cpu (alter (fun c => c <| c_sched_lock := 1 |>) cpu cs) = cs.
Proof.
  intros Hc Hlk. apply map_eq. intros q. destruct (decide (q = cpu)) as [-> | Hne].
  - rewrite !lookup_alter_eq, Hc. simpl. f_equal. destruct c; simpl in *. by subst.
  - by rewrite !lookup_alter_ne.
Qed.

Lemma alive_on_spec k tid v : quiet k v -> alive_on (fst (fst v)) tid k = Ret (on_cpu k tid v) k.
Proof.
  destruct v as [[cpu c] a]. intros [Hv Hlk H0 (t & Ht)]. cbn [fst snd] in *. unfold alive_on.
  rewrite bind_irq_save.
  destruct (view_lock (masked k) cpu c a 1 (view_masked _ _ _ _ Hv)) as [V1 L1]. rewrite Hlk in L1.
  rewrite (bind_spin_lock _ _ _ L1). set (k1 := lk_set (cpu_lock_ref cpu) 1 (masked k)) in *.
  rewrite (bind_ret _ _ _ _ _ (cpu_load_spec k1 cpu _ (cv_cpu _ _ _ _ V1) (cv_addr _ _ _ _ V1))).
  change (c_sched_thread (c <| c_sched_lock := 1 |>)) with (c_sched_thread c).
  apply Z.eqb_neq in H0 as H0'. rewrite H0'. cbn [negb].
  assert (Hrun : (t ← thread_load (c_sched_thread c); mret (t_tid t =? tid)) k1 = Ret (t_tid t =? tid) k1)
    by (by rewrite (bind_ret _ _ _ _ _ (thread_load_eq k1 _ t Ht H0))).
  rewrite (bind_ret _ _ _ _ _ Hrun).
  assert (Hb : (if t_tid t =? tid then mret true else with_qs cpu (queues_have_tid tid)) k1 =
            Ret (on_cpu k tid (cpu, c, a)) k1).
  { unfold on_cpu, has_tid at 1. cbn [fst snd]. rewrite Ht. destruct (t_tid t =? tid); [done |]. simpl.
    apply (with_qs_same k1 cpu _ a _ _ V1). intros s Hs Hts. rewrite (queues_have_tid_spec tid s a Hs), Hts. done. }
  rewrite (bind_ret _ _ _ _ _ Hb).
  destruct (view_lock k1 cpu _ a 0 V1) as [_ L2]. rewrite (bind_spin_unlock _ _ _ _ L2), bind_irq_restore.
  unfold mret, M_ret. f_equal. unfold k1. pose proof (cv_cpu _ _ _ _ Hv) as Hc. clear -Hc Hlk.
  pose proof (lock_cycle (s_cpus (sched k)) cpu c Hc Hlk) as Hcy.
  destruct k as [[] ? ? ? ? ? ? [] ? ? ?]. cbn in *. unfold over in *. simpl in *. by rewrite Hcy.
Qed.

(** sched_is_alive returns, with the state unchanged, 1 when some processor
    runs, or has in one of its ready queues or its sleep queue, a thread with
    the given id, and 0 otherwise. *)
Theorem sched_is_alive_correct k tid vs :
  s_cpu_table (sched k) = (fun v => fst (fst v)) <$> vs -> Forall (quiet k) vs ->
  sched_is_alive tid k = Ret (if existsb (on_cpu k tid) vs then 1 else 0) k.
Proof.
  intros Htab Hq. unfold sched_is_alive. rewrite bind_gets. unfold cpu_get_count. rewrite Nat2Z.id.
  assert (H : forall n j, (j + n = length vs)%nat ->
    alive_from n (Z.of_nat j) tid k = Ret (if existsb (on_cpu k tid) (drop j vs) then 1 else 0) k).
  { induction n as [| n IH]; intros j Hj; cbn [alive_from]; [by rewrite drop_ge by lia |].
    destruct (lookup_lt_is_Some_2 vs j) as [v Hv]; [lia |].
    rewrite (bind_ret _ _ _ _ _ (cpu_get_by_index_eq k (Z.of_nat j) (fst (fst v)) ltac:(lia)
      ltac:(by rewrite Nat2Z.id, Htab, list_lookup_fmap, Hv))).
    rewrite (bind_ret _ _ _ _ _ (alive_on_spec k tid v (proj1 (Forall_lookup _ _) Hq j v Hv))).
    rewrite (drop_S _ v j Hv). cbn [existsb]. destruct (on_cpu k tid v); [done |].
    replace (Z.of_nat j + 1) with (Z.of_nat (S j)) by lia. apply IH. lia. }
  rewrite Htab, length_fmap. rewrite <- (drop_0 vs) at 2. by apply (H (length vs) 0%nat).
Qed.

(** ** A concrete processor *)

(** One processor that runs its idle thread, and a heap of one free block. *)
Definition fresh_cpu : cpu_t := Cpu 0 0 0x2000 (replicate 32 0) 0 0 0.
Definition fresh_threads : threads := {[0x2000 := demo_idle]}.
Definition fresh_sched : sched_t :=
  Sched 2 0 0 (replicate 64 (CpuExtra 0 0)) fresh_threads {[0x1000 := fresh_cpu]} [0x1000].
Definition fresh_machine : kernel :=
  small_heap <| hw ::= fun h => h <| hw_msr := {[MSR_GS_BASE := 0x1000]} |> |> <| sched := fresh_sched |>.
Definition fresh_queues : aqs := Aqs (strip <$> fresh_threads) (replicate 32 []) [] 0.

Lemma fresh_can_spawn : can_spawn fresh_machine [(POOL_BYTES - HDR, true)] 0x1000 fresh_cpu fresh_queues.
Proof.
  assert (Hnil : queued fresh_queues = []) by (by vm_compute).
  constructor; try done; [by apply (heap_rep_frame small_heap), small_heap_rep | | |].
  - constructor; [done | by vm_compute |]. exists (CpuExtra 0 0). split; [done |].
    constructor; [done | done | | done]. constructor; [| change (NoDup (queued fresh_queues)); rewrite Hnil; by apply NoDup_nil_2].
    by repeat (apply Forall2_cons; split); try apply Forall2_nil_2.
  - constructor; [constructor | by rewrite Hnil; apply NoDup_nil_2 | done].
    + intros p l x Hl Hx. cbn [a_ready fresh_queues] in Hl. apply lookup_replicate in Hl as [-> _].
      by apply elem_of_nil in Hx.
    + intros x Hx. by apply elem_of_nil in Hx.
  - intros y Hy. rewrite Hnil in Hy. by apply elem_of_nil in Hy.
Qed.

Lemma shell_name_ok n : Some (cstr "shell") = Some n ->
  exists nm, cstring n = Some nm /\ (length nm < 16)%nat /\ Forall is_byte n.
Proof.
  intros [= <-]. exists (chars "shell"). split; [by vm_compute |]. split; [vm_compute; lia |]. by repeat constructor.
Qed.

Lemma sched_spawn_correct_witness : exists k' T,
  sched_spawn 0x400000 10 (Some (cstr "shell")) fresh_machine = Ret 2 k' /\
  t_priority T = 10 /\ entry_context (mem_of k') (t_rsp T) 0x10 (0x200000 + 8344) 0x08 0x400000.
Proof.
  destruct (sched_spawn_correct fresh_machine _ _ _ _
    0 [(104, false); (POOL_BYTES - HDR - 104 - HDR, true)]
    128 [(104, false); (8192, false); (POOL_BYTES - HDR - 104 - HDR - 8192 - HDR, true)]
    0x400000 10 (Some (cstr "shell")) fresh_can_spawn ltac:(done) ltac:(done) shell_name_ok eq_refl eq_refl)
    as (k' & T & E & _ & _ & _ & _ & _ & Hp & _ & _ & _ & _ & Hc).
  exists k', T. split; [exact E |]. split; [exact Hp | exact Hc].
Defined.

Lemma sched_spawn_user_correct_witness : exists k' T,
  sched_spawn_user 0x400000 40 None fresh_machine = Ret 2 k' /\ t_priority T = 31 /\
  entry_context (mem_of k') (t_rsp T) 0x1B (0x200000 + 8344 + 24 + 8192) 0x23 0x400000.
Proof.
  destruct (sched_spawn_user_correct fresh_machine _ _ _ _
    0 [(104, false); (POOL_BYTES - HDR - 104 - HDR, true)]
    128 [(104, false); (8192, false); (POOL_BYTES - HDR - 104 - HDR - 8192 - HDR, true)]
    8344 [(104, false); (8192, false); (8192, false); (POOL_BYTES - HDR - 104 - HDR - 8192 - HDR - 8192 - HDR, true)]
    0x400000 40 None fresh_can_spawn ltac:(done) ltac:(done) ltac:(done) eq_refl eq_refl eq_refl)
    as (k' & T & E & _ & _ & _ & _ & _ & Hp & _ & _ & _ & _ & Hc).
  exists k', T. split; [exact E |]. split; [exact Hp | exact Hc].
Defined.

Lemma sched_is_alive_correct_witness :
  sched_is_alive 4 demo = Ret 1 demo /\ sched_is_alive 9 demo = Ret 0 demo.
Proof.
  assert (Hq : Forall (quiet demo) [(0x1000, demo_cpu, demo_queues)]).
  { apply Forall_singleton. constructor; [apply demo_view | done | done |].
    exists demo_idle. by vm_compute. }
  split; [rewrite (sched_is_alive_correct demo 4 [(0x1000, demo_cpu, demo_queues)] eq_refl Hq) | rewrite (sched_is_alive_correct demo 9 [(0x1000, demo_cpu, demo_queues)] eq_refl Hq)];
    f_equal; by vm_compute.
Defined.
