(* ===== verification/SchedInit.v ===== *)
(** Start-up of the scheduler on a processor: sched_init makes the state in
    which sched_reschedule may run. *)

From S2P Require Import Prelude Memory State Lib Console Pmm Heap Apic Cpu Queue Sched SchedSpec SchedProps SchedSpawn.

(** The idle thread sched_init creates. *)
Definition idle_thread (tid stack : Z) (name : list Z) : thread_t :=
  zero_thread <| t_tid := tid |> <| t_state := THREAD_RUNNING |> <| t_priority := 0 |> <| t_name := name |>
    <| t_stack_limit := stack |> <| t_stack_top := u64 (stack + STACK_BYTES) |> <| t_next := 0 |>.

Definition idle_name : list Z := chars "idle" ++ replicate 12 0.

(** The queues of a processor that has only its idle thread. *)
Definition no_queues (ts : threads) (age : Z) : aqs := Aqs (strip <$> ts) (replicate 32 []) [] age.

Lemma no_queues_queued ts age : queued (no_queues ts age) = [].
Proof. done. Qed.

Lemma no_queues_inv ts age : a_inv (no_queues ts age).
Proof.
  constructor; [constructor | apply NoDup_nil_2 | done].
  - intros p l x Hl Hx. apply lookup_replicate in Hl as [-> _]. by apply elem_of_nil in Hx.
  - intros x Hx. by apply elem_of_nil in Hx.
Qed.

Lemma no_queues_rep ts e :
  sleep_queue e = 0 -> rep (Qs ts (replicate 32 0) e) (no_queues ts (last_age_tick e)).
Proof.
  intros He. constructor; [done | done | | done]. cbn [q_ready q_extra q_threads]. rewrite He.
  constructor; [by repeat (apply Forall2_cons; split); try apply Forall2_nil_2 | apply NoDup_nil_2].
Qed.

(** The table of sleep queues, cleared by the first processor. *)
Definition extras_at_start (s : sched_t) : list cpu_extra_t :=
  if next_tid s =? 1 then replicate 64 (CpuExtra 0 0) else cpu_extras s.

Definition sched_started (cpu : Z) (c : cpu_t) (e : cpu_extra_t) (x stack : Z) (s : sched_t) : sched_t :=
  s <| next_tid := u64 (next_tid s + 1) |> <| global_sched_lock := 0 |>
    <| cpu_extras := <[Z.to_nat (c_cpu_id c) := e <| sleep_queue := 0 |>]> (extras_at_start s) |>
    <| s_threads ::= <[x := idle_thread (next_tid s) stack idle_name]> |>
    <| s_cpus ::= <[cpu := c <| c_sched_thread := x |> <| c_ready_queues := replicate 32 0 |> <| c_sched_lock := 0 |>]> |>.

Lemma bind_when_modify {B} b f (g : unit -> M kernel B) k :
  (when b (modify f) ≫= g) k = g tt (if b then f k else k).
Proof. by destruct b. Qed.

(** *** Steps on the scheduler's variables *)

Section Steps.
Context {B : Type} (k : kernel).
Context (nt gl ni : Z) (ex : list cpu_extra_t) (th : threads) (cp : gmap Z cpu_t) (tb : list Z).

Definition at_sched (s : sched_t) : kernel := k <| sched := s |>.

Lemma step_global_lock (g : unit -> M kernel B) :
  (spin_lock global_lock_ref ≫= g) (at_sched (Sched nt 0 ni ex th cp tb)) = g tt (at_sched (Sched nt 1 ni ex th cp tb)).
Proof. done. Qed.
Lemma step_global_unlock (g : unit -> M kernel B) :
  (spin_unlock global_lock_ref ≫= g) (at_sched (Sched nt gl ni ex th cp tb)) = g tt (at_sched (Sched nt 0 ni ex th cp tb)).
Proof. done. Qed.
Lemma step_next_tid (g : Z -> M kernel B) :
  (next_tid_inc ≫= g) (at_sched (Sched nt gl ni ex th cp tb)) = g nt (at_sched (Sched (u64 (nt + 1)) gl ni ex th cp tb)).
Proof. done. Qed.
Lemma step_thread x t f (g : unit -> M kernel B) :
  th !! x = Some t -> x <> 0 ->
  (thread_update x f ≫= g) (at_sched (Sched nt gl ni ex th cp tb)) =
  g tt (at_sched (Sched nt gl ni ex (<[x := f t]> th) cp tb)).
Proof. intros Hx H0. by rewrite (bind_thread_update _ x t). Qed.
Lemma step_idle_name x t (g : unit -> M kernel B) :
  th !! x = Some t -> x <> 0 -> t_name t = replicate 16 0 ->
  (thread_set_name x (cstr "idle") ≫= g) (at_sched (Sched nt gl ni ex th cp tb)) =
  g tt (at_sched (Sched nt gl ni ex (<[x := t <| t_name := idle_name |>]> th) cp tb)).
Proof.
  intros Hx H0 Hn. unfold thread_set_name, mbind, M_bind. by rewrite (thread_load_eq (at_sched (Sched nt gl ni ex th cp tb)) x t Hx H0), Hn.
Qed.
Lemma step_cpu p c f (g : unit -> M kernel B) :
  cp !! p = Some c -> p <> 0 ->
  (cpu_update p f ≫= g) (at_sched (Sched nt gl ni ex th cp tb)) =
  g tt (at_sched (Sched nt gl ni ex th (<[p := f c]> cp) tb)).
Proof. intros Hp H0. by rewrite (bind_ret _ _ _ _ _ (cpu_update_spec (at_sched (Sched nt gl ni ex th cp tb)) p c f Hp H0)). Qed.
Lemma step_cpu_load p c (g : cpu_t -> M kernel B) :
  cp !! p = Some c -> p <> 0 ->
  (cpu_load p ≫= g) (at_sched (Sched nt gl ni ex th cp tb)) = g c (at_sched (Sched nt gl ni ex th cp tb)).
Proof. intros Hp H0. by rewrite (bind_ret _ _ _ _ _ (cpu_load_spec (at_sched (Sched nt gl ni ex th cp tb)) p c Hp H0)). Qed.
End Steps.

(** From the allocation of the stack on. *)
Definition sched_init_tail (cpu idle flags : Z) : M kernel unit :=
  stack ← kmalloc STACK_BYTES;
  spin_lock global_lock_ref;;
  tid ← next_tid_inc;
  thread_update idle (fun t => t <| t_tid := tid |>);;
  spin_unlock global_lock_ref;;
  thread_update idle (fun t => t <| t_state := THREAD_RUNNING |> <| t_priority := 0 |>);;
  thread_set_name idle (cstr "idle");;
  thread_update idle (fun t => t <| t_stack_limit := stack |>
    <| t_stack_top := u64 (stack + STACK_BYTES) |> <| t_next := 0 |>);;
  cpu_update cpu (fun c => c <| c_sched_thread := idle |> <| c_ready_queues := replicate 32 0 |>
    <| c_sched_lock := 0 |>);;
  c ← cpu_load cpu;
  extras ← gets (fun k => cpu_extras (sched k));
  e ← from_option (extras !! Z.to_nat (c_cpu_id c));
  modify (fun k => k <| sched ::= fun s =>
    s <| cpu_extras := <[Z.to_nat (c_cpu_id c) := e <| sleep_queue := 0 |>]> extras |> |>);;
  b_irq_restore flags.

Lemma sched_init_tail_spec k nt ni ex th cp tb cpu c idle flags stack m e :
  kmalloc STACK_BYTES (at_sched k (Sched nt 0 ni ex (<[idle := zero_thread]> th) cp tb)) =
    Ret stack (at_sched (set_mem m k) (Sched nt 0 ni ex (<[idle := zero_thread]> th) cp tb)) ->
  idle <> 0 -> cpu <> 0 -> cp !! cpu = Some c -> ex !! Z.to_nat (c_cpu_id c) = Some e ->
  sched_init_tail cpu idle flags (at_sched k (Sched nt 0 ni ex (<[idle := zero_thread]> th) cp tb)) =
  Ret tt (set_rflags flags (at_sched (set_mem m k) (Sched (u64 (nt + 1)) 0 ni
    (<[Z.to_nat (c_cpu_id c) := e <| sleep_queue := 0 |>]> ex) (<[idle := idle_thread nt stack idle_name]> th)
    (<[cpu := c <| c_sched_thread := idle |> <| c_ready_queues := replicate 32 0 |> <| c_sched_lock := 0 |>]> cp) tb))).
Proof.
  intros Em Hx Hc Hcpu He. unfold sched_init_tail. rewrite (bind_ret _ _ _ _ _ Em).
  rewrite step_global_lock, step_next_tid.
  erewrite step_thread by (done || apply lookup_insert_eq). rewrite step_global_unlock, insert_insert_eq.
  erewrite step_thread by (done || apply lookup_insert_eq). rewrite insert_insert_eq.
  erewrite step_idle_name by (done || apply lookup_insert_eq). rewrite insert_insert_eq.
  erewrite step_thread by (done || apply lookup_insert_eq). rewrite insert_insert_eq.
  erewrite step_cpu by done. erewrite step_cpu_load by (done || apply lookup_insert_eq).
  rewrite bind_gets. cbv beta. change (cpu_extras (sched (at_sched _ (Sched _ _ _ ?l _ _ _)))) with l.
  change (c_cpu_id (over _ _)) with (c_cpu_id c). rewrite He. cbn [from_option]. rewrite bind_mret, bind_modify. done.
Qed.

(** The payload of an allocated block is live. *)
Lemma block_live l : forall a off sz b,
  0 <= off -> block_at off l = Some (sz, false) -> a + off + HDR <= b < a + off + HDR + sz -> live_byte a l b.
Proof.
  induction l as [| [s f] l IH]; intros a off sz b Ho Hb Hr; [done |]. cbn [block_at live_byte] in *.
  destruct (Z.eqb_spec off 0) as [-> |]; [simplify_eq; left; split; [done | lia] |].
  destruct (Z.ltb_spec off (HDR + s)); [done |]. right. eapply (IH _ (off - (HDR + s))); [lia | exact Hb | lia].
Qed.

(** sched_init with memory for the record and the stack of the idle thread. *)
Lemma sched_init_spec k bl cpu c o1 bl1 o2 bl2 e :
  current_cpu k cpu -> s_cpus (sched k) !! cpu = Some c ->
  extras_at_start (sched k) !! Z.to_nat (c_cpu_id c) = Some e ->
  heap_rep k bl -> heap_lock (heap k) = 0 -> (next_tid (sched k) = 1 \/ global_sched_lock (sched k) = 0) ->
  alloc_list (align8 SIZEOF_THREAD) bl = Some (o1, bl1) ->
  alloc_list (align8 STACK_BYTES) bl1 = Some (o2, bl2) ->
  let x := heap_start (heap k) + o1 + HDR in
  let stack := heap_start (heap k) + o2 + HDR in
  exists m, sched_init k = Ret tt (set_mem m (k <| sched ::= sched_started cpu c e x stack |>)) /\
    heap_rep (set_mem m k) bl2 /\ x <> 0 /\
    (forall q o, held k bl q o -> held (set_mem m k) bl2 q o /\ q <> x) /\
    (forall o s b, 0 <= o -> block_at o bl = Some (s, false) ->
       heap_start (heap k) + o + HDR <= b < heap_start (heap k) + o + HDR + s ->
       block_at o bl2 = Some (s, false) /\ ld8 m b = ld8 (mem_of k) b) /\
    agree_out (heap_start (heap k)) (heap_start (heap k) + POOL_BYTES) (mem_of k) m.
Proof.
  intros Hc Hs He Hr Hl Hg A1 A2 x stack. destruct (sched k) as [nt gl ni exs th cp tb] eqn:Ek. simpl in Hs, Hg.
  assert (Hcpu : cpu <> 0) by (destruct Hc; lia).
  set (K := masked k). set (ex := extras_at_start (Sched nt gl ni exs th cp tb)) in *.
  assert (Estart : sched_init k = (idle ← kmalloc SIZEOF_THREAD; thread_zero idle;; sched_init_tail cpu idle (hw_rflags (hw k)))
    (at_sched K (Sched nt 0 ni ex th cp tb))).
  { unfold sched_init. rewrite (bind_ret _ _ _ _ _ (cpu_get_spec k cpu Hc)), bind_irq_save, bind_gets, bind_when_modify.
    fold K. change (sched K) with (sched k). rewrite Ek. cbn [next_tid].
    match goal with |- _ ?k1 = _ => replace k1 with (at_sched K (Sched nt 0 ni ex th cp tb)); [reflexivity |] end.
    unfold ex, extras_at_start. cbn [next_tid cpu_extras]. destruct (Z.eqb_spec nt 1) as [-> | Hne].
    - unfold K. destruct k as [[] ? ? ? ? ? ? ? ? ? ?]. simpl in Ek. subst. reflexivity.
    - destruct Hg as [| ->]; [done |]. unfold K. destruct k as [[] ? ? ? ? ? ? ? ? ? ?]. simpl in Ek. by subst. }
  rewrite Estart. set (S0 := Sched nt 0 ni ex th cp tb). set (k1 := at_sched K S0).
  destruct (kmalloc_held k1 bl SIZEOF_THREAD o1 bl1 (heap_rep_frame k k1 _ eq_refl eq_refl Hr) Hl
    ltac:(unfold SIZEOF_THREAD; lia) A1) as (m1 & sz1 & E1 & R1 & O1 & B1 & Z1 & P1 & H1 & L1 & G1 & F1).
  change (heap_start (heap k1) + o1 + HDR) with x in E1. rewrite (bind_ret _ _ _ _ _ E1).
  destruct (hr_start _ _ Hr) as (Hs0 & _ & _).
  assert (Hx : x <> 0) by (unfold x, HDR; lia). apply Z.eqb_neq in Hx as Hx'.
  unfold thread_zero. rewrite Hx', bind_modify. set (K1 := set_mem m1 K).
  change (set_thread x zero_thread (set_mem m1 k1)) with (at_sched K1 (Sched nt 0 ni ex (<[x := zero_thread]> th) cp tb)).
  set (k2 := at_sched K1 _).
  destruct (kmalloc_held k2 bl1 STACK_BYTES o2 bl2 (heap_rep_frame (set_mem m1 k1) k2 _ eq_refl eq_refl R1) Hl
    ltac:(unfold STACK_BYTES; lia) A2) as (m2 & sz2 & E2 & R2 & O2 & B2 & Z2 & P2 & H2 & L2 & G2 & F2).
  change (heap_start (heap k2) + o2 + HDR) with stack in E2.
  unfold k2. rewrite (sched_init_tail_spec K1 nt ni ex th cp tb cpu c x (hw_rflags (hw k)) stack m2 e E2 Hx Hcpu Hs He).
  exists m2. split.
  { f_equal. unfold K1, K. destruct k as [[] ? ? ? ? ? ? ? ? ? ?]. simpl in Ek. by subst. }
  split; [by apply (heap_rep_frame (set_mem m2 k2)) |]. split; [done |]. split.
  - intros q o Hq. destruct (H1 q o) as [Hne Hq1]; [exact Hq |]. destruct (H2 q o Hq1) as [_ Hq2]. split; [exact Hq2 |].
    destruct Hq as (-> & _). unfold x. lia.
  - split.
    + intros o s b Ho Hb Hr'. pose proof (F1 o s Ho Hb) as Hb1. split; [by apply F2 |].
      transitivity (ld8 m1 b); [apply L2; by eapply block_live | apply L1; by eapply block_live].
    + transitivity m1; [exact G1 | exact G2].
Qed.


(** The processor can schedule: its idle thread runs and nothing waits. *)
Lemma sched_started_ready k' s cpu c e x stack :
  current_cpu k' cpu -> x <> 0 -> (Z.to_nat (c_cpu_id c) < length (extras_at_start s))%nat ->
  sched k' = sched_started cpu c e x stack s ->
  sched_ready k' cpu (c <| c_sched_thread := x |> <| c_ready_queues := replicate 32 0 |> <| c_sched_lock := 0 |>)
    (no_queues (s_threads (sched k')) (last_age_tick e)) x (idle_thread (next_tid s) stack idle_name).
Proof.
  intros Hc Hx Hlen Hk. constructor; try done.
  - constructor; [destruct Hc; lia | rewrite Hk; apply lookup_insert_eq |].
    exists (e <| sleep_queue := 0 |>). split; [rewrite Hk; by apply list_lookup_insert_eq |].
    exact (no_queues_rep (s_threads (sched k')) (e <| sleep_queue := 0 |>) eq_refl).
  - apply no_queues_inv.
  - constructor; [done | by rewrite no_queues_queued; apply not_elem_of_nil | | done].
    simpl. rewrite lookup_fmap, Hk. simpl. by rewrite lookup_insert_eq.
Qed.

(** ** Theorems *)

(** C22: sched_init, run on a processor whose record exists, with memory for a
    thread and its stack: the processor gets an idle thread with the next
    thread id, running at the lowest priority on a fresh stack; its queues are
    empty and its lock free, so that the scheduler's precondition holds; the
    heap stays well formed and keeps what was allocated in it, the other
    processors' records and sleep queues and all other threads are untouched
    (the first call clears the table of sleep queues). *)
Theorem sched_init_correct k bl cpu c o1 bl1 o2 bl2 :
  current_cpu k cpu -> s_cpus (sched k) !! cpu = Some c -> 0 <= c_cpu_id c < 64 ->
  length (cpu_extras (sched k)) = 64%nat ->
  heap_rep k bl -> heap_lock (heap k) = 0 -> (next_tid (sched k) = 1 \/ global_sched_lock (sched k) = 0) ->
  alloc_list (align8 SIZEOF_THREAD) bl = Some (o1, bl1) ->
  alloc_list (align8 STACK_BYTES) bl1 = Some (o2, bl2) ->
  let x := heap_start (heap k) + o1 + HDR in
  exists k' c' a th, sched_init k = Ret tt k' /\ sched_ready k' cpu c' a x th /\ queued a = [] /\
    t_tid th = next_tid (sched k) /\ t_state th = THREAD_RUNNING /\ t_priority th = 0 /\
    t_stack_limit th = heap_start (heap k) + o2 + HDR /\ cstring (t_name th) = Some (chars "idle") /\
    heap_rep k' bl2 /\ (forall q o, held k bl q o -> held k' bl2 q o) /\
    next_tid (sched k') = u64 (next_tid (sched k) + 1) /\ global_sched_lock (sched k') = 0 /\
    (forall p, p <> cpu -> s_cpus (sched k') !! p = s_cpus (sched k) !! p) /\
    (forall y, y <> x -> s_threads (sched k') !! y = s_threads (sched k) !! y) /\
    (next_tid (sched k) <> 1 -> forall i, i <> Z.to_nat (c_cpu_id c) ->
       cpu_extras (sched k') !! i = cpu_extras (sched k) !! i) /\
    hw_rflags (hw k') = hw_rflags (hw k).
Proof.
  intros Hc Hs Hid Hlen Hr Hl Hg A1 A2 x.
  assert (Hlen' : length (extras_at_start (sched k)) = 64%nat)
    by (unfold extras_at_start; destruct (_ =? 1); [apply length_replicate | done]).
  destruct (lookup_lt_is_Some_2 (extras_at_start (sched k)) (Z.to_nat (c_cpu_id c))) as [e He]; [lia |].
  destruct (sched_init_spec k bl cpu c o1 bl1 o2 bl2 e Hc Hs He Hr Hl Hg A1 A2) as (m & E & R & Hx & Hh & _).
  fold x in E, Hx. eexists _, _, _, _. split; [exact E |].
  split; [apply (sched_started_ready _ (sched k) cpu c e x (heap_start (heap k) + o2 + HDR)); [done | done | lia | done] |]. split; [done |]. split; [done |]. split; [done |].
  split; [done |]. split; [done |]. split; [by vm_compute |]. split; [by apply (heap_rep_frame (set_mem m k)) |].
  split; [intros q o Hq; by apply Hh |]. split; [done |]. split; [done |]. split_and!; simpl.
  - intros p Hp. by rewrite lookup_insert_ne.
  - intros y Hy. by rewrite lookup_insert_ne.
  - intros Hn i Hi. unfold extras_at_start. apply Z.eqb_neq in Hn. rewrite Hn. by rewrite list_lookup_insert_ne.
  - done.
Qed.

(** A processor at 0x1000 with nothing running, and a heap of one free block. *)
Definition idle_machine : kernel :=
  small_heap <| hw ::= fun h => h <| hw_msr := {[MSR_GS_BASE := 0x1000]} |> |>
    <| sched := Sched 1 0 0 (replicate 64 (CpuExtra 0 0)) ∅ {[0x1000 := zero_cpu]} [0x1000] |>.

Lemma sched_init_correct_witness :
  exists k' c' a th, sched_init idle_machine = Ret tt k' /\ sched_ready k' 0x1000 c' a (0x200000 + 24) th.
Proof.
  assert (Hr : heap_rep idle_machine [(POOL_BYTES - HDR, true)])
    by (apply (heap_rep_frame small_heap idle_machine); [reflexivity | reflexivity | exact small_heap_rep]).
  assert (Hc : current_cpu idle_machine 0x1000) by (split; [lia | reflexivity]).
  destruct (sched_init_correct idle_machine _ 0x1000 zero_cpu 0
    [(104, false); (POOL_BYTES - HDR - 104 - HDR, true)] (HDR + 104)
    [(104, false); (8192, false); (POOL_BYTES - HDR - 104 - HDR - 8192 - HDR, true)] Hc eq_refl
    ltac:(split; [discriminate | reflexivity]) eq_refl Hr eq_refl (or_introl eq_refl) eq_refl eq_refl)
    as (k' & c' & a & th & E & R & _).
  exists k', c', a, th. exact (conj E R).
Defined.
