(* ===== verification/Idt.v ===== *)
(** idt.c and the assembly it calls: the interrupt descriptor table and the
    interrupt dispatcher.

    The static arrays are bytes of physical memory at the addresses of the
    image; [isr_stub_table] is the table of stubs in interrupt.asm.  A stub
    pushes the interrupted registers as a context_t and calls
    interrupt_handler with its address. *)

From S2P Require Import Prelude Memory State Lib Console ConsoleProps Pmm Vmm Keyboard Apic Cpu Gdt Sched.

(** ** The table *)

Definition exception_messages : list string :=
  ["division by zero"; "debug"; "nmi"; "breakpoint";
   "overflow"; "out of bounds"; "invalid opcode"; "no coprocessor";
   "double fault"; "coprocessor segment overrun"; "bad tss"; "segment not present";
   "stack fault"; "general protection fault"; "page fault"; "unknown interrupt";
   "coprocessor fault"; "alignment check"; "machine check"; "simd floating point";
   "virtualization"; "reserved"; "reserved"; "reserved";
   "reserved"; "reserved"; "reserved"; "reserved";
   "reserved"; "reserved"; "security exception"; "reserved"]%string.

(** An idt_entry_t at [e]: isr_low +0, kernel_cs +2, ist +4, attributes +5,
    isr_mid +6, isr_high +8, reserved +12. *)
Definition idt_set_gate (idt vector isr attributes : Z) (m : mem) : mem :=
  let e := idt + 16 * vector in
  let m := st16 m e (Z.land isr 0xFFFF) in
  let m := st16 m (e + 2) 0x08 in
  let m := st8 m (e + 4) 0 in
  let m := st8 m (e + 5) attributes in
  let m := st16 m (e + 6) (Z.land (Z.shiftr isr 16) 0xFFFF) in
  let m := st32 m (e + 8) (Z.land (Z.shiftr isr 32) 0xFFFFFFFF) in
  st32 m (e + 12) 0.

Definition pic_remap : M kernel unit :=
  b_outb 0x20 0x11;;
  b_io_wait;;
  b_outb 0xA0 0x11;;
  b_io_wait;;
  b_outb 0x21 0x20;;
  b_io_wait;;
  b_outb 0xA1 0x28;;
  b_io_wait;;
  b_outb 0x21 0x04;;
  b_io_wait;;
  b_outb 0xA1 0x02;;
  b_io_wait;;
  b_outb 0x21 0x01;;
  b_io_wait;;
  b_outb 0xA1 0x01;;
  b_io_wait;;
  b_outb 0x21 0xFD;;
  b_outb 0xA1 0xFF.

(** [for (i = 0; i < 48; i++)], with [n] iterations left. *)
Fixpoint set_gates (n : nat) (idt stubs i : Z) (m : mem) : mem :=
  match n with
  | O => m
  | S n' => set_gates n' idt stubs (i + 1) (idt_set_gate idt i (ld64 m (stubs + 8 * i)) 0x8E m)
  end.

(** sizeof(idt) *)
Definition SIZEOF_IDT : Z := 4096.

Definition idt_load (ptr : Z) : M kernel unit :=
  modify (fun k => k <| hw ::= fun h =>
    h <| hw_idtr := (ld16 (hw_mem h) ptr, ld64 (hw_mem h) (ptr + 2)) |> |>).

Definition idt_init (img : image) : M kernel unit :=
  on_mem (fun m => b_memset m (sym_idt img) 0 SIZEOF_IDT);;
  on_mem (set_gates 48 (sym_idt img) (sym_isr_stub_table img) 0);;
  pic_remap;;
  on_mem (fun m => st16 m (sym_idtr img) (SIZEOF_IDT - 1));;
  on_mem (fun m => st64 m (sym_idtr img + 2) (sym_idt img));;
  idt_load (sym_idtr img).

Definition idt_init_ap (img : image) : M kernel unit := idt_load (sym_idtr img).

(** ** Dispatch *)

(** The fields of the context_t at [ctx]. *)
Definition ctx_int_no (m : mem) (ctx : Z) : Z := ld64 m (ctx + 120).
Definition ctx_err_code (m : mem) (ctx : Z) : Z := ld64 m (ctx + 128).
Definition ctx_rip (m : mem) (ctx : Z) : Z := ld64 m (ctx + 136).
Definition ctx_cs (m : mem) (ctx : Z) : Z := ld64 m (ctx + 144).

(** The acknowledgement at the end. *)
Definition acknowledge (int_no : Z) : M kernel unit :=
  when ((32 <=? int_no) && (int_no <=? 47))
    (when (40 <=? int_no) (b_outb 0xA0 0x20);; b_outb 0x20 0x20).

(** A fault of a user thread ends the thread. *)
Definition user_exception (int_no rsp : Z) : M kernel unit :=
  console_print (cstr "user exception: ");;
  msg ← from_option (exception_messages !! Z.to_nat int_no);
  console_print (cstr msg);;
  console_print (cstr " at ");;
  rip ← gets (fun k => ctx_rip (mem_of k) rsp);
  console_print_num rip;;
  console_newline;;
  console_print (cstr "fault at rip ");;
  rip ← gets (fun k => ctx_rip (mem_of k) rsp);
  console_print_num rip;;
  console_newline;;
  sched_exit.

Definition kernel_exception (int_no rsp : Z) : M kernel unit :=
  console_print (cstr "exception ");;
  console_print_num int_no;;
  console_print (cstr " err ");;
  err ← gets (fun k => ctx_err_code (mem_of k) rsp);
  console_print_num err;;
  console_print (cstr " rip ");;
  rip ← gets (fun k => ctx_rip (mem_of k) rsp);
  console_print_num rip;;
  console_newline.

(** The page fault the shell's test provokes: map the page again, writable. *)
Definition repair_page : M kernel unit :=
  fault_addr ← b_get_cr2;
  pml4 ← gets vmm_get_kernel_pml4;
  phys ← gets (fun k => vmm_get_phys pml4 fault_addr (mem_of k));
  vmm_map pml4 (page_mask fault_addr) phys (Z.lor PAGE_PRESENT PAGE_WRITABLE).

Definition interrupt_handler (rsp : Z) : M kernel Z :=
  int_no ← gets (fun k => u8 (ctx_int_no (mem_of k) rsp));
  test ← gets vmm_test_active;
  if int_no =? 0x20 then
    apic_timer_handler;;
    rsp ← sched_reschedule rsp;
    acknowledge int_no;;
    mret rsp
  else if int_no =? 0x21 then
    keyboard_handler;;
    acknowledge int_no;;
    mret rsp
  else if (int_no =? 3) || (int_no =? 4) then
    console_print (chars "[idt] idt diag called" ++ [10; 0]);;
    acknowledge int_no;;
    mret rsp
  else if (int_no =? 14) && negb (test =? 0) then
    repair_page;;
    mret rsp
  else if int_no <? 32 then
    cs ← gets (fun k => ctx_cs (mem_of k) rsp);
    (if Z.land cs 3 =? 3 then user_exception int_no rsp else kernel_exception int_no rsp);;
    hang
  else
    acknowledge int_no;;
    mret rsp.

(** ** What the processor reads *)

Record gate_t := Gate { gt_offset : Z; gt_selector : Z; gt_ist : Z; gt_attributes : Z }.

Definition read_gate (m : mem) (e : Z) : gate_t :=
  Gate (ld16 m e + 2 ^ 16 * ld16 m (e + 6) + 2 ^ 32 * ld32 m (e + 8)) (ld16 m (e + 2)) (ld8 m (e + 4)) (ld8 m (e + 5)).

(** ** Lemmas *)

Lemma read_gate_agree m m' e : agree e (e + 12) m m' -> read_gate m' e = read_gate m e.
Proof.
  intros H. unfold read_gate. rewrite ?(ld16_agree e (e + 12) m m'), ?(ld32_agree e (e + 12) m m') by (done || lia).
  by rewrite ?(ld8_agree e (e + 12) m m') by (done || lia).
Qed.

Lemma idt_set_gate_agree idt v isr attr m :
  agree_out (idt + 16 * v) (idt + 16 * v + 16) m (idt_set_gate idt v isr attr m).
Proof.
  intros b Hb. unfold idt_set_gate. cbv zeta. rewrite !ld8_st32_out, ld8_st16_ne, !ld8_st8_ne by lia.
  by rewrite !ld8_st16_ne by lia.
Qed.

Lemma split_addr a : 0 <= a < 2 ^ 64 ->
  u16 (Z.land a 0xFFFF) + 2 ^ 16 * u16 (Z.land (Z.shiftr a 16) 0xFFFF) +
  2 ^ 32 * u32 (Z.land (Z.shiftr a 32) 0xFFFFFFFF) = a.
Proof.
  intros Ha. change 0xFFFFFFFF with (Z.ones 32). change 0xFFFF with (Z.ones 16).
  rewrite !Z.land_ones, !Z.shiftr_div_pow2 by lia. unfold u16, u32. rewrite !Z.mod_mod by lia. zdiv.
Qed.

(** A gate reads back as it was set. *)
Lemma idt_set_gate_spec idt v isr attr m :
  0 <= isr < 2 ^ 64 -> 0 <= attr < 256 ->
  read_gate (idt_set_gate idt v isr attr m) (idt + 16 * v) = Gate isr 0x08 0 attr.
Proof.
  intros Hi Ha. unfold read_gate, idt_set_gate. cbv zeta. set (e := idt + 16 * v).
  assert (R : forall m a v b, b + 2 <= a \/ a + 4 <= b -> ld16 (st32 m a v) b = ld16 m b)
    by (intros; by apply (ldn_stn_out 4 2)).
  repeat (rewrite ?R by lia; rewrite ?ld16_st8_ne by lia; rewrite ?ld8_st16_ne by lia; rewrite ?ld8_st8_ne by lia;
    rewrite ?ld8_st32_out by lia; rewrite ?ld32_st32_ne by lia; rewrite ?ld16_st16_ne by lia;
    rewrite ?ld8_st8_eq, ?ld16_st16_eq, ?ld32_st32_eq).
  rewrite (u8_small attr), split_addr by done. done.
Qed.

Lemma set_gates_spec idt stubs n : forall i m,
  0 <= i -> i + Z.of_nat n <= 256 -> stubs + 8 * (i + Z.of_nat n) <= idt \/ idt + 4096 <= stubs ->
  (forall v, i <= v < i + Z.of_nat n ->
     read_gate (set_gates n idt stubs i m) (idt + 16 * v) = Gate (ld64 m (stubs + 8 * v)) 0x08 0 0x8E) /\
  agree_out (idt + 16 * i) (idt + 16 * (i + Z.of_nat n)) m (set_gates n idt stubs i m).
Proof.
  induction n as [| n IH]; intros i m Hi Hn Hd; cbn [set_gates]; [split; [lia | done] |].
  set (m1 := idt_set_gate idt i (ld64 m (stubs + 8 * i)) 0x8E m).
  pose proof (idt_set_gate_agree idt i (ld64 m (stubs + 8 * i)) 0x8E m) as A. fold m1 in A.
  destruct (IH (i + 1) m1) as [G A1]; [lia .. |]. split.
  - intros v Hv. destruct (decide (v = i)) as [-> | Hne].
    + rewrite (read_gate_agree m1); [apply idt_set_gate_spec; [apply ld64_range | lia] |].
      eapply agree_out_disj; [| exact A1]. lia.
    + rewrite G by lia. f_equal. eapply ld64_agree; [eapply agree_out_disj; [| exact A] | reflexivity | reflexivity].
      lia.
  - intros b Hb. rewrite A1 by lia. apply A. lia.
Qed.

(** Skip the branches a vector above 33 does not take. *)
Ltac idle_vector :=
  repeat match goal with
  | |- context [?v =? ?c] => destruct (Z.eqb_spec v c) as [?Hvc |]; [lia |]
  | |- context [?v <? 32] => destruct (Z.ltb_spec v 32); [lia |]
  end; cbn [orb andb]; unfold acknowledge.

(** Ending the current thread. *)
Definition ended (x : Z) (t : thread_t) (k : kernel) : kernel :=
  set_rflags (Z.setbit (Z.clearbit (hw_rflags (hw k)) RFLAGS_IF) RFLAGS_IF)
    (set_thread x (t <| t_state := THREAD_DEAD |>) k).

Lemma sched_exit_spec k cpu c t :
  current_cpu k cpu -> s_cpus (sched k) !! cpu = Some c -> c_sched_thread c <> 0 ->
  s_threads (sched k) !! c_sched_thread c = Some t ->
  sched_exit k = Hang (ended (c_sched_thread c) t k).
Proof.
  intros Hc Hs Hx Ht. unfold sched_exit, cli. rewrite bind_modify. set (k1 := over _ _).
  assert (Hc1 : current_cpu k1 cpu) by exact Hc.
  rewrite (bind_ret _ _ _ _ _ (cpu_get_spec k1 cpu Hc1)).
  rewrite (bind_ret _ _ _ _ _ (cpu_load_spec k1 cpu c Hs ltac:(destruct Hc; lia))).
  rewrite (proj2 (Z.eqb_neq _ _) Hx). cbn [negb when]. unfold thread_update.
  assert (E : thread_load (c_sched_thread c) k1 = Ret t k1).
  { unfold thread_load, deref. rewrite (proj2 (Z.eqb_neq _ _) Hx). simpl. by rewrite Ht. }
  unfold mbind, M_bind. rewrite E. unfold modify, sti, hang. reflexivity.
Qed.

Lemma exception_message v : 0 <= v < 32 ->
  exists msg, exception_messages !! Z.to_nat v = Some msg /\ prints (chars msg) (console_print (cstr msg)).
Proof.
  intros Hv. destruct (lookup_lt_is_Some_2 exception_messages (Z.to_nat v)) as [msg Hm]; [simpl; lia |].
  exists msg. split; [done |]. apply prints_lit. revert Hm. generalize (Z.to_nat v). clear Hv.
  assert (H : Forall (fun s => forallb (fun c => (0 <? c) && (c <? 128)) (chars s) = true) exception_messages)
    by (repeat constructor).
  rewrite Forall_lookup in H. intros n Hn. by apply (H n).
Qed.

(** The frame at [rsp] is not on the screen. *)
Definition frame_off_screen (k : kernel) (rsp : Z) : Prop :=
  rsp + 152 <= framebuffer (console k) \/ fb_end (console k) <= rsp.

(** Drawing leaves such a frame alone. *)
Lemma frame_drawn k k' rsp :
  frame_off_screen k rsp -> drawn k k' ->
  ctx_rip (mem_of k') rsp = ctx_rip (mem_of k) rsp /\ ctx_err_code (mem_of k') rsp = ctx_err_code (mem_of k) rsp.
Proof.
  intros Hf (m & x & y & -> & A). change (mem_of (set_cursor x y (set_mem m k))) with m.
  assert (Ha : agree rsp (rsp + 152) (mem_of k) m) by (eapply agree_out_disj; [| exact A]; destruct Hf; lia).
  unfold ctx_rip, ctx_err_code. by rewrite !(ld64_agree _ _ _ _ _ Ha) by lia.
Qed.

(** [say P HC0 HC]: run the printing statement at the head of the goal's program,
    with [P : prints b m], extending what was printed since the first state,
    which [HC0] says is ready; [HC] says so of the current one. *)
Ltac say P HC0 HC :=
  match goal with
  | HT : is_text ?a, HS : said ?a ?k0 ?k, HD : drawn ?k0 ?k |- context [(mbind ?f ?m) ?k] =>
      let k' := fresh "k" in let E := fresh in let T' := fresh in let S' := fresh in let D' := fresh in let C' := fresh in
      destruct (prints_step a _ m f k0 k P HC0 HT HS HD HC) as (k' & E & T' & S' & D' & C');
      rewrite E; clear E HT HS HD HC; rename T' into HT; rename S' into HS; rename D' into HD; rename C' into HC
  end.

Lemma said_nil k : con_ready k -> said [] k k.
Proof.
  intros HC. destruct (print_put k [] HC ltac:(constructor)) as (m & x & y & E & S & _).
  injection E as Em Ex Ey. unfold said in *. rewrite S, <- Em, <- Ex, <- Ey. keta k.
Qed.

(** The reports of the two kinds of exception. *)
Definition user_report (msg : string) (rip : list Z) : list Z :=
  chars "user exception: " ++ chars msg ++ chars " at " ++ rip ++ [10] ++ chars "fault at rip " ++ rip ++ [10].
Definition kernel_report (v err rip : list Z) : list Z :=
  chars "exception " ++ v ++ chars " err " ++ err ++ chars " rip " ++ rip ++ [10].

Lemma user_exception_spec k v rsp cpu c t :
  0 <= v < 32 -> con_ready k -> frame_off_screen k rsp ->
  current_cpu k cpu -> s_cpus (sched k) !! cpu = Some c -> c_sched_thread c <> 0 ->
  s_threads (sched k) !! c_sched_thread c = Some t ->
  exists msg ds k1, exception_messages !! Z.to_nat v = Some msg /\ numeral (ctx_rip (mem_of k) rsp) ds /\
    said (user_report msg ds) k k1 /\ drawn k k1 /\ user_exception v rsp k = Hang (ended (c_sched_thread c) t k1).
Proof.
  intros Hv HC0 Hf Hc Hs Hx Ht. unfold user_exception.
  destruct (exception_message v Hv) as (msg & Hm & Pm). rewrite Hm. cbn [from_option].
  destruct (prints_num (ctx_rip (mem_of k) rsp) (ld64_range _ _)) as (ds & Hds & Pd).
  pose proof (said_nil k HC0) as HS. pose proof (drawn_refl k) as HD. pose proof HC0 as HC.
  assert (HT : is_text []) by constructor.
  say (prints_lit "user exception: " eq_refl) HC0 HC. rewrite bind_mret. say Pm HC0 HC. say (prints_lit " at " eq_refl) HC0 HC.
  rewrite bind_gets, (proj1 (frame_drawn k _ rsp Hf HD)). say Pd HC0 HC. say prints_newline HC0 HC.
  say (prints_lit "fault at rip " eq_refl) HC0 HC. rewrite bind_gets, (proj1 (frame_drawn k _ rsp Hf HD)). say Pd HC0 HC. say prints_newline HC0 HC.
  eexists msg, ds, _. split; [done |]. split; [done |].
  split; [| split; [exact HD |]; destruct HD as (m & x & y & -> & _); by apply (sched_exit_spec _ cpu c t)].
  unfold user_report. by rewrite ?app_assoc in *.
Qed.

Lemma kernel_exception_spec k v rsp :
  0 <= v < 32 -> con_ready k -> frame_off_screen k rsp ->
  exists dv de dr k1, numeral v dv /\ numeral (ctx_err_code (mem_of k) rsp) de /\ numeral (ctx_rip (mem_of k) rsp) dr /\
    said (kernel_report dv de dr) k k1 /\ drawn k k1 /\ kernel_exception v rsp k = Ret tt k1.
Proof.
  intros Hv HC0 Hf. unfold kernel_exception.
  destruct (prints_num v ltac:(lia)) as (dv & Hdv & Pv).
  destruct (prints_num (ctx_err_code (mem_of k) rsp) (ld64_range _ _)) as (de & Hde & Pe).
  destruct (prints_num (ctx_rip (mem_of k) rsp) (ld64_range _ _)) as (dr & Hdr & Pr).
  pose proof (said_nil k HC0) as HS. pose proof (drawn_refl k) as HD. pose proof HC0 as HC.
  assert (HT : is_text []) by constructor.
  say (prints_lit "exception " eq_refl) HC0 HC. say Pv HC0 HC. say (prints_lit " err " eq_refl) HC0 HC.
  rewrite bind_gets, (proj2 (frame_drawn k _ rsp Hf HD)). say Pe HC0 HC. say (prints_lit " rip " eq_refl) HC0 HC.
  rewrite bind_gets, (proj1 (frame_drawn k _ rsp Hf HD)). say Pr HC0 HC.
  destruct (prints_run _ _ _ prints_newline HC) as (k' & E & S & D & C).
  exists dv, de, dr, k'. split; [done |]. split; [done |]. split; [done |].
  split; [| split; [exact (drawn_trans _ _ _ HD D) | exact E]]. pose proof (said_app _ [10] k _ k' HC0 HT (proj1 prints_newline) HS S) as HR.
  unfold kernel_report. by rewrite ?app_assoc in *.
Qed.

(** ** Theorems *)

(** Where the linker may put the arrays. *)
Record image_ok (img : image) : Prop := {
  im_idt : 0 <= sym_idt img /\ sym_idt img + SIZEOF_IDT <= 2 ^ 64;
  im_idtr : sym_idtr img + 10 <= sym_idt img \/ sym_idt img + SIZEOF_IDT <= sym_idtr img;
  im_stubs : sym_isr_stub_table img + 8 * 48 <= sym_idt img \/ sym_idt img + SIZEOF_IDT <= sym_isr_stub_table img
}.

Definition remap_log : list (Z * Z) :=
  [(0x20, 0x11); (0x80, 0); (0xA0, 0x11); (0x80, 0); (0x21, 0x20); (0x80, 0); (0xA1, 0x28); (0x80, 0);
   (0x21, 0x04); (0x80, 0); (0xA1, 0x02); (0x80, 0); (0x21, 0x01); (0x80, 0); (0xA1, 0x01); (0x80, 0);
   (0x21, 0xFD); (0xA1, 0xFF)].

Definition outs (l : list (Z * Z)) (k : kernel) : kernel := k <| hw ::= fun h => h <| hw_out ::= fun o => o ++ l |> |>.

Lemma outs_nil k : outs [] k = k.
Proof. destruct k as [[] ? ? ? ? ? ? ? ? ? ?]. unfold outs. simpl. unfold over. simpl. by rewrite app_nil_r. Qed.
Lemma logged_outs p v l k : logged p v (outs l k) = outs (l ++ [(p, u8 v)]) k.
Proof. unfold logged, outs, over. simpl. by rewrite app_assoc. Qed.

Lemma pic_remap_spec k : pic_remap k = Ret tt (outs remap_log k).
Proof.
  transitivity (pic_remap (outs [] k)); [by rewrite outs_nil |]. unfold pic_remap.
  do 17 (first [rewrite bind_outb | rewrite bind_io_wait]; rewrite logged_outs; cbn [app]).
  change (b_outb 0xA1 0xFF ?k1) with (Ret tt (logged 0xA1 0xFF k1)). by rewrite logged_outs.
Qed.

(** C36: after idt_init the processor finds, for each of the 48 vectors, an
    interrupt gate to that vector's stub in the kernel's code segment, and no
    present gate for any other vector; the controllers are remapped to vectors
    32 to 47 with only the keyboard enabled, and nothing else changes. *)
Theorem idt_init_correct img k :
  image_ok img ->
  exists k', idt_init img k = Ret tt k' /\ hw_idtr (hw k') = (4095, sym_idt img) /\
    (forall v, 0 <= v < 48 -> read_gate (mem_of k') (sym_idt img + 16 * v) =
       Gate (ld64 (mem_of k) (sym_isr_stub_table img + 8 * v)) 0x08 0 0x8E) /\
    (forall v, 48 <= v < 256 -> gt_attributes (read_gate (mem_of k') (sym_idt img + 16 * v)) = 0) /\
    hw_out (hw k') = hw_out (hw k) ++ remap_log /\
    (forall b, ~ (sym_idt img <= b < sym_idt img + SIZEOF_IDT) -> ~ (sym_idtr img <= b < sym_idtr img + 10) ->
       ld8 (mem_of k') b = ld8 (mem_of k) b) /\
    k' = k <| hw ::= fun h => h <| hw_mem := mem_of k' |> <| hw_idtr := hw_idtr (hw k') |> <| hw_out := hw_out (hw k') |> |>.
Proof.
  intros [[I1 I2] I3 I4]. unfold idt_init, on_mem. rewrite !bind_modify, (bind_ret _ _ _ _ _ (pic_remap_spec _)), !bind_modify.
  unfold idt_load, modify. set (k' := over _ _). exists k'. split; [reflexivity |]. unfold SIZEOF_IDT in *.
  set (m0 := b_memset (mem_of k) (sym_idt img) 0 4096). set (m1 := set_gates 48 (sym_idt img) (sym_isr_stub_table img) 0 m0).
  change (mem_of k') with (st64 (st16 m1 (sym_idtr img) 4095) (sym_idtr img + 2) (sym_idt img)).
  pose proof (b_memset_agree_out (mem_of k) (sym_idt img) 0 4096 ltac:(lia)) as A0. fold m0 in A0.
  destruct (set_gates_spec (sym_idt img) (sym_isr_stub_table img) 48 0 m0) as [G A]; [lia .. |]. fold m1 in G, A.
  assert (R : forall v, 0 <= v < 256 ->
    read_gate (st64 (st16 m1 (sym_idtr img) 4095) (sym_idtr img + 2) (sym_idt img)) (sym_idt img + 16 * v) =
    read_gate m1 (sym_idt img + 16 * v)).
  { intros v Hv. apply read_gate_agree. intros b Hb. by rewrite ld8_st64_out, ld8_st16_ne by lia. }
  split_and!.
  - change (hw_idtr (hw k')) with (ld16 (mem_of k') (sym_idtr img), ld64 (mem_of k') (sym_idtr img + 2)).
    change (mem_of k') with (st64 (st16 m1 (sym_idtr img) 4095) (sym_idtr img + 2) (sym_idt img)).
    rewrite ld64_st64_eq, ld16_st64_ne, ld16_st16_eq by lia. by rewrite u64_small by lia.
  - intros v Hv. rewrite R, G by lia. f_equal.
    eapply ld64_agree; [eapply agree_out_disj; [| exact A0] | reflexivity | reflexivity]. lia.
  - intros v Hv. rewrite R by lia. simpl. rewrite A by lia. unfold m0. rewrite b_memset_ld8 by lia.
    destruct (Z.leb_spec (sym_idt img) (sym_idt img + 16 * v + 5)),
      (Z.ltb_spec (sym_idt img + 16 * v + 5) (sym_idt img + 4096)); done || lia.
  - done.
  - intros b Hb Hb'. rewrite ld8_st64_out, ld8_st16_ne, A, A0 by lia. done.
  - subst k'. clear. unfold outs. destruct k as [[] ? ? ? ? ? ? ? ? ? ? ?]. reflexivity.
Qed.

Definition demo_image : image := Image 0x9000 0xB000 0xC000 0xD000 0xE000 0xF000 0xF100 (fun _ => 0xF200).

Lemma demo_image_ok : image_ok demo_image.
Proof. constructor; simpl; unfold SIZEOF_IDT; lia. Qed.

Lemma idt_init_correct_witness :
  exists k', idt_init demo_image (initial_kernel (plain_hw ∅)) = Ret tt k' /\ hw_idtr (hw k') = (4095, 0x9000).
Proof.
  destruct (idt_init_correct demo_image (initial_kernel (plain_hw ∅)) demo_image_ok) as (k' & E & R & _).
  by exists k'.
Defined.

(** Device interrupts.  A timer interrupt is what sched_yield raises: one
    tick, a scheduling decision and the acknowledgement; a keyboard interrupt
    runs the keyboard handler; the other vectors of the controllers are only
    acknowledged, the second controller first; any other vector is left
    alone. *)
Lemma interrupt_handler_irq k rsp :
  let v := u8 (ctx_int_no (mem_of k) rsp) in
  (v = 0x20 -> interrupt_handler rsp k = sched_yield rsp k) /\
  (v = 0x21 -> interrupt_handler rsp k = (keyboard_handler;; b_outb 0x20 0x20;; mret rsp) k) /\
  (34 <= v < 40 -> interrupt_handler rsp k = Ret rsp (logged 0x20 0x20 k)) /\
  (40 <= v < 48 -> interrupt_handler rsp k = Ret rsp (logged 0x20 0x20 (logged 0xA0 0x20 k))) /\
  (48 <= v -> interrupt_handler rsp k = Ret rsp k).
Proof.
  intros v. unfold interrupt_handler. rewrite !bind_gets. fold v. split_and!; intros Hv.
  - rewrite Hv. reflexivity.
  - rewrite Hv. reflexivity.
  - idle_vector. destruct (Z.leb_spec 32 v), (Z.leb_spec v 47), (Z.leb_spec 40 v); done || lia.
  - idle_vector. destruct (Z.leb_spec 32 v), (Z.leb_spec v 47), (Z.leb_spec 40 v); done || lia.
  - idle_vector. destruct (Z.leb_spec 32 v), (Z.leb_spec v 47); done || lia.
Qed.

(** C27: processor exceptions, on a console that is ready and with the frame off
    the screen.  Vectors 3 and 4 print a diagnostic line and return to the
    interrupted code.  The other vectors below 32, the page fault of the memory
    test (vector 14 while vmm_test_active, see below) apart, never return to the
    code that raised them: for code of the kernel, the vector, the error code
    and the address are reported and the processor is stopped for good; for a
    user thread, the name of the exception and the address are reported and the
    thread is marked dead, with interrupts on, so that the scheduler never runs
    it again. *)
Theorem interrupt_handler_exception k rsp :
  let v := u8 (ctx_int_no (mem_of k) rsp) in
  v < 32 -> (v = 14 -> vmm_test_active k = 0) -> con_ready k -> frame_off_screen k rsp ->
  (v = 3 \/ v = 4 ->
   exists k', interrupt_handler rsp k = Ret rsp k' /\ said (chars "[idt] idt diag called" ++ [10]) k k' /\ drawn k k') /\
  (v <> 3 -> v <> 4 -> Z.land (ctx_cs (mem_of k) rsp) 3 <> 3 ->
   exists dv de dr k', interrupt_handler rsp k = Hang k' /\ drawn k k' /\ said (kernel_report dv de dr) k k' /\
     numeral v dv /\ numeral (ctx_err_code (mem_of k) rsp) de /\ numeral (ctx_rip (mem_of k) rsp) dr) /\
  (forall cpu c t, v <> 3 -> v <> 4 -> Z.land (ctx_cs (mem_of k) rsp) 3 = 3 ->
   current_cpu k cpu -> s_cpus (sched k) !! cpu = Some c -> c_sched_thread c <> 0 ->
   s_threads (sched k) !! c_sched_thread c = Some t ->
   exists msg ds k1, interrupt_handler rsp k = Hang (ended (c_sched_thread c) t k1) /\
     drawn k k1 /\ said (user_report msg ds) k k1 /\
     exception_messages !! Z.to_nat v = Some msg /\ numeral (ctx_rip (mem_of k) rsp) ds).
Proof.
  intros v Hv H14 Hcon Hf. pose proof (u8_range (ctx_int_no (mem_of k) rsp)) as Hr. fold v in Hr.
  unfold interrupt_handler. rewrite !bind_gets. fold v.
  assert (Ht : (v =? 14) && negb (vmm_test_active k =? 0) = false).
  { destruct (Z.eqb_spec v 14); [| done]. by rewrite H14. }
  rewrite Ht. destruct (Z.eqb_spec v 0x20), (Z.eqb_spec v 0x21); try lia. split; [| split].
  - intros H34. assert (E34 : (v =? 3) || (v =? 4) = true) by (by destruct H34 as [-> | ->]). rewrite E34.
    assert (P : prints (chars "[idt] idt diag called" ++ [10]) (console_print (chars "[idt] idt diag called" ++ [10; 0]))).
    { split; [| done]. apply Forall_app. split; [by apply (prints_lit "[idt] idt diag called") |].
      apply Forall_cons. split; [lia | constructor]. }
    destruct (prints_run _ _ k P Hcon) as (k' & E & S & D & _). exists k'. rewrite (bind_ret _ _ _ _ _ E).
    split; [| done]. by destruct H34 as [-> | ->].
  - intros H3 H4 Hcs. destruct (Z.eqb_spec v 3), (Z.eqb_spec v 4), (Z.ltb_spec v 32); try lia. cbn [orb].
    rewrite bind_gets. apply Z.eqb_neq in Hcs. rewrite Hcs.
    destruct (kernel_exception_spec k v rsp ltac:(lia) Hcon Hf) as (dv & de & dr & k' & N1 & N2 & N3 & S & D & E).
    exists dv, de, dr, k'. by rewrite (bind_ret _ _ _ _ _ E).
  - intros cpu c t H3 H4 Hcs Hc Hs Hx Hth. destruct (Z.eqb_spec v 3), (Z.eqb_spec v 4), (Z.ltb_spec v 32); try lia. cbn [orb].
    rewrite bind_gets. apply Z.eqb_eq in Hcs. rewrite Hcs.
    destruct (user_exception_spec k v rsp cpu c t ltac:(lia) Hcon Hf Hc Hs Hx Hth) as (msg & ds & k1 & M & N & S & D & E).
    exists msg, ds, k1. split; [| done]. unfold mbind, M_bind. by rewrite E.
Qed.

(** A machine with one processor and one user thread, which faults with vector
    13 at the frame 0x5000. *)
Definition faulting_thread : thread_t := zero_thread <| t_tid := 7 |> <| t_state := THREAD_RUNNING |>.
Definition faulting : kernel :=
  small_screen
    <| hw := (plain_hw (st64 (st64 ∅ (0x5000 + 120) 13) (0x5000 + 144) 0x23)) <| hw_msr := {[ MSR_GS_BASE := 0x6000 ]} |> |>
    <| sched ::= fun s => s <| s_cpus := {[ 0x6000 := zero_cpu <| c_sched_thread := 0x7000 |> ]} |>
                            <| s_threads := {[ 0x7000 := faulting_thread ]} |> |>.

Lemma interrupt_handler_exception_witness :
  exists msg ds k1, interrupt_handler 0x5000 faulting = Hang (ended 0x7000 faulting_thread k1) /\
    drawn faulting k1 /\ said (user_report msg ds) faulting k1 /\ msg = "general protection fault"%string.
Proof.
  destruct (interrupt_handler_exception faulting 0x5000) as (_ & _ & H);
    [vm_compute; congruence .. | split; [apply small_screen_ok | reflexivity] | left; by vm_compute |].
  specialize (H 0x6000 (zero_cpu <| c_sched_thread := 0x7000 |>) faulting_thread).
  change (c_sched_thread (zero_cpu <| c_sched_thread := 0x7000 |>)) with 0x7000 in H.
  destruct H as (msg & ds & k1 & E & D & S & M & _);
    [vm_compute; congruence .. | split; [lia | reflexivity] | reflexivity | simpl; lia | reflexivity |].
  exists msg, ds, k1. split; [done |]. split; [done |]. split; [done |]. vm_compute in M. congruence.
Defined.

Lemma page_mask_idem x : is_u64 x -> page_mask (page_mask x) = page_mask x.
Proof.
  intros Hx. rewrite (page_mask_eq x Hx). pose proof (Z.mod_pos_bound x 4096 ltac:(lia)).
  rewrite page_mask_eq by (unfold is_u64 in *; zdiv). unfold is_u64 in Hx. zdiv.
Qed.

Lemma vmm_get_phys_page root v m :
  is_u64 (vmm_get_phys root v m) /\ page_mask (vmm_get_phys root v m) = vmm_get_phys root v m.
Proof.
  rewrite vmm_get_phys_tbl. change (tbl 4 m root v) with (t ← tbl 3 m root v; follow (ld64 m (t + 8 * table_index 3 v))).
  destruct (tbl 3 m root v) as [t |]; [| done]. simpl. unfold follow. destruct (present _); [| done]. simpl. pose proof (ld64_range m (t + 8 * table_index 3 v)) as H.
  split; [rewrite page_mask_eq by done; unfold is_u64; zdiv | by apply page_mask_idem].
Qed.

Lemma vpage_mask x : is_u64 x -> vpage (page_mask x) = vpage x.
Proof. intros Hx. rewrite page_mask_eq by done. unfold vpage. f_equal. zdiv. Qed.

(** The physical page the entry [old] gives, 0 for none. *)
Definition old_page (old : option Z) : Z := default 0 (page_mask <$> old).

Lemma repair_page_spec k :
  pmm_inv k -> pmm_lock (pmm k) = 0 -> tree (mem_of k) (kernel_pml4 k) (pmm_owned k) -> is_u64 (hw_cr2 (hw k)) ->
  let old := pte (mem_of k) (kernel_pml4 k) (hw_cr2 (hw k)) in
  (old = None -> 3 < free_pages (pmm k)) ->
  exists k', repair_page k = Ret tt k' /\
    mapped (inv := pmm_ok) (owned := pmm_owned) (avail := pmm_avail)
      (kernel_pml4 k) (page_mask (hw_cr2 (hw k))) (old_page old) 3 k k' /\
    page_mask (old_page old) = old_page old.
Proof.
  intros HI Hl Htree Hcr old Hfree. unfold repair_page, b_get_cr2. rewrite !bind_gets.
  change (vmm_get_kernel_pml4 k) with (kernel_pml4 k).
  destruct (vmm_get_phys_page (kernel_pml4 k) (hw_cr2 (hw k)) (mem_of k)) as [P1 P2].
  assert (Hph : vmm_get_phys (kernel_pml4 k) (hw_cr2 (hw k)) (mem_of k) = old_page old)
    by (by rewrite vmm_get_phys_tbl, tbl_pte).
  rewrite Hph in *. change (Z.lor PAGE_PRESENT PAGE_WRITABLE) with 3.
  assert (Hsp : same_path 4 (hw_cr2 (hw k)) (page_mask (hw_cr2 (hw k))) = true)
    by (rewrite same_path_vpage, vpage_mask by done; apply Z.eqb_refl).
  destruct old as [e |] eqn:Eo.
  - destruct (vmm_map_present (avail := pmm_avail) k (kernel_pml4 k) (page_mask (hw_cr2 (hw k))) (old_page (Some e)) 3
      (conj HI Hl) Htree) as (k' & E & Hm & _); [| done | lia | done | by exists k'].
    intros H3. rewrite (tbl_same_path 3 _ _ (hw_cr2 (hw k))) in H3 by (by apply (same_path_le 4); [lia |]).
    subst old. unfold pte in Eo. by rewrite H3 in Eo.
  - destruct (vmm_map_spec (avail := pmm_avail) k (kernel_pml4 k) (page_mask (hw_cr2 (hw k))) (old_page None) 3
      (conj HI Hl) Htree (Hfree eq_refl) P1 ltac:(lia) eq_refl) as (k' & E & Hm). by exists k'.
Qed.

(** C28: the page fault of the memory test.  With a well-formed kernel page-table
    tree, the handler returns to the faulting instruction having mapped the page
    of the fault again: its entry is then the physical page it had, present and
    writable, the entries of all other pages (address and permissions) are what
    they were, the tree and the page allocator stay well formed and no page in
    use that is not a table changes.  When the page was mapped, no table is
    needed and every address keeps its translation; when it was not, there must
    be three pages to spare, and the page is mapped onto physical page 0. *)
Theorem interrupt_handler_repairs k rsp :
  u8 (ctx_int_no (mem_of k) rsp) = 14 -> vmm_test_active k <> 0 ->
  pmm_inv k -> pmm_lock (pmm k) = 0 -> tree (mem_of k) (kernel_pml4 k) (pmm_owned k) -> is_u64 (hw_cr2 (hw k)) ->
  let root := kernel_pml4 k in
  let old := pte (mem_of k) root (hw_cr2 (hw k)) in
  (old = None -> 3 < free_pages (pmm k)) ->
  exists k', interrupt_handler rsp k = Ret rsp k' /\
    pmm_inv k' /\ pmm_lock (pmm k') = 0 /\ tree (mem_of k') root (pmm_owned k') /\
    (forall v, pte (mem_of k') root v =
       if vpage v =? vpage (hw_cr2 (hw k)) then Some (Z.lor (old_page old) (Z.lor PAGE_PRESENT PAGE_WRITABLE))
       else pte (mem_of k) root v) /\
    (old <> None -> forall v, tbl 4 (mem_of k') root v = tbl 4 (mem_of k) root v) /\
    (forall p, pmm_owned k p -> (forall d v, (d <= 3)%nat -> tbl d (mem_of k) root v <> Some p) ->
       agree p (p + 4096) (mem_of k) (mem_of k')).
Proof.
  intros Hv Ht HI Hl Htree Hcr root old Hfree. unfold interrupt_handler. rewrite !bind_gets, Hv.
  apply Z.eqb_neq in Ht. cbn [Z.eqb orb andb Pos.eqb]. rewrite Ht. cbn [negb].
  destruct (repair_page_spec k HI Hl Htree Hcr Hfree) as (k' & E & [[I L] R O V M F D G] & Hpm).
  fold root old in F, G, D, R, Hpm.
  exists k'. rewrite (bind_ret _ _ _ _ _ E). split; [done |]. split; [done |]. split; [done |]. split; [done |].
  split; [| split; [| intros p Hp Hn; by destruct (D p Hp Hn)]].
  - intros v. rewrite G, same_path_vpage, vpage_mask, Hpm, Z.eqb_sym by done. done.
  - intros Ho v. rewrite F, same_path_vpage, vpage_mask, Hpm by done.
    destruct (Z.eqb_spec (vpage (hw_cr2 (hw k))) (vpage v)) as [Ev |]; [| done].
    rewrite (tbl_same_path 4 _ _ (hw_cr2 (hw k))) by (rewrite same_path_vpage, Ev; apply Z.eqb_refl).
    rewrite tbl_pte. fold root old. by destruct old.
Qed.

(** The machine of the page-table examples with the frame of a page fault in
    page 5, which is in use, and the memory test under way, after it mapped the
    page 0x300000 read-only at 0xCAFEBABE000. *)
Definition with_frame : kernel := set_mem (st64 (mem_of vmm_empty_root) 0x5078 14) vmm_empty_root.
Definition under_test (k : kernel) : kernel :=
  k <| hw ::= fun h => h <| hw_cr2 := 0xCAFEBABE123 |> |> <| kernel_pml4 := 0x1000 |> <| vmm_test_active := 1 |>.

Lemma with_frame_ok :
  pmm_ok with_frame /\ tree (mem_of with_frame) 0x1000 (pmm_owned with_frame) /\ pmm_owned with_frame 0x5000 /\
  forall d v t, tbl d (mem_of with_frame) 0x1000 v = Some t -> t = 0x1000.
Proof.
  destruct (pa_write vmm_machine 0x1000 (mem_of vmm_empty_root)
    (conj vmm_machine_inv eq_refl) (vmm_machine_owned 0x1000 ltac:(by left))) as (HI & _ & Ho); [apply b_memset_agree_out; lia |].
  destruct (pa_write vmm_empty_root 0x5000 (mem_of with_frame) HI) as (HI' & _ & Ho').
  { apply Ho, vmm_machine_owned. by right. }
  { eapply agree_out_sub; [| | apply agree_out_st64]; lia. }
  split; [exact HI' |].
  destruct (tree_empty (mem_of with_frame) 0x1000 (pmm_owned with_frame)) as [Ht Hr].
  - apply Ho', Ho, vmm_machine_owned. by left.
  - intros i Hi. unfold with_frame. change (mem_of (set_mem ?m _)) with m. rewrite ld64_st64_ne by lia.
    apply ld64_b_memset_0; lia.
  - split; [exact Ht |]. split; [| exact Hr]. apply Ho', Ho, vmm_machine_owned. by right.
Qed.

Lemma interrupt_handler_repairs_witness :
  exists k1 k', vmm_map 0x1000 0xCAFEBABE000 0x300000 PAGE_PRESENT with_frame = Ret tt k1 /\
    pte (mem_of k1) 0x1000 0xCAFEBABE123 = Some 0x300001 /\
    interrupt_handler 0x5000 (under_test k1) = Ret 0x5000 k' /\
    pte (mem_of k') 0x1000 0xCAFEBABE123 = Some 0x300003.
Proof.
  destruct with_frame_ok as (HI & Ht & Ho & Hr).
  destruct (vmm_map_spec (avail := pmm_avail) with_frame 0x1000 0xCAFEBABE000 0x300000 1 HI Ht
    eq_refl ltac:(unfold is_u64; lia) ltac:(lia) eq_refl) as (k1 & E & [I1 R1 O1 _ _ _ D1 G1]).
  assert (Hold : pte (mem_of k1) 0x1000 0xCAFEBABE123 = Some 0x300001) by (rewrite G1; reflexivity).
  destruct (D1 0x5000 Ho) as [A _]; [intros d v _ Hc; by apply Hr in Hc |].
  destruct (pa_rest k1 (under_test k1) eq_refl eq_refl I1) as ([HI' HL] & Ha & Ho').
  assert (Hno : u8 (ctx_int_no (mem_of (under_test k1)) 0x5000) = 14).
  { change (mem_of (under_test k1)) with (mem_of k1). unfold ctx_int_no.
    rewrite (ld64_agree _ _ _ _ _ A) by lia. unfold with_frame. change (mem_of (set_mem ?m _)) with m.
    change (0x5000 + 120) with 0x5078. by rewrite ld64_st64_eq. }
  destruct (interrupt_handler_repairs (under_test k1) 0x5000 Hno) as (k' & E' & _ & _ & _ & P & _);
    [discriminate | exact HI' | exact HL | eapply tree_mono; [exact R1 |]; intros p; apply Ho'
    | split; [discriminate | reflexivity]
    | intros Hn; change (pte (mem_of k1) 0x1000 0xCAFEBABE123 = None) in Hn; congruence |].
  exists k1, k'. split; [exact E |]. split; [exact Hold |]. split; [exact E' |].
  change (kernel_pml4 (under_test k1)) with 0x1000 in P. rewrite P.
  change (mem_of (under_test k1)) with (mem_of k1). change (hw_cr2 (hw (under_test k1))) with 0xCAFEBABE123.
  rewrite Hold. reflexivity.
Defined.
