(* ===== verification/Syscall.v ===== *)
(** syscall.c: the system calls of user threads.

    [arg1] of the print call is an address of the (identity-mapped) memory,
    read one byte at a time while the text is drawn; the loop takes fuel. *)

From S2P Require Import Prelude Memory State Lib Font Console ConsoleProps Pmm Vmm Apic Cpu Gdt Sched Idt.

Fixpoint print_from (fuel : nat) (p : Z) : M kernel unit :=
  match fuel with
  | O => nofuel
  | S fuel' =>
      c ← gets (fun k => ld8 (mem_of k) p);
      if c =? 0 then mret tt else console_putchar_unlocked c FOREGROUND;; print_from fuel' (p + 1)
  end.

(** console_print of a pointer. *)
Definition console_print_at (fuel : nat) (p : Z) : M kernel unit := with_console (print_from fuel p).

Definition syscall_handler (fuel : nat) (syscall_no arg1 arg2 arg3 : Z) : M kernel unit :=
  if syscall_no =? 1 then
    console_newline;;
    console_print_at fuel arg1;;
    console_newline
  else if syscall_no =? 2 then sched_exit
  else if 256 <=? syscall_no then
    console_print (cstr "bad syscall ");;
    console_print_num syscall_no;;
    console_newline
  else
    console_print (cstr "unknown syscall ");;
    console_print_num syscall_no;;
    console_newline.

Definition MSR_EFER : Z := 0xC0000080.
Definition MSR_STAR : Z := 0xC0000081.
Definition MSR_LSTAR : Z := 0xC0000082.
Definition MSR_SFMASK : Z := 0xC0000084.

Definition syscall_init (img : image) : M kernel unit :=
  efer ← b_rdmsr MSR_EFER;
  b_wrmsr MSR_EFER (Z.lor efer 1);;
  b_wrmsr MSR_STAR 0x0010000800000000;;
  b_wrmsr MSR_LSTAR (sym_syscall_entry img);;
  b_wrmsr MSR_SFMASK 0x200.

(** ** Lemmas *)

(** A C string in memory. *)
Definition string_at (m : mem) (p : Z) (s : list Z) : Prop :=
  (forall i c, s !! i = Some c -> ld8 m (p + Z.of_nat i) = c) /\ ld8 m (p + Z.of_nat (length s)) = 0.

Lemma string_at_agree m m' p s :
  agree p (p + Z.of_nat (length s) + 1) m m' -> string_at m p s -> string_at m' p s.
Proof.
  intros A [H1 H2]. split; [| by rewrite A by lia].
  intros i c Hi. pose proof (lookup_lt_Some _ _ _ Hi). rewrite A by lia. by apply H1.
Qed.

Lemma string_at_cons m p c s : string_at m p (c :: s) -> ld8 m p = c /\ string_at m (p + 1) s.
Proof.
  intros [H1 H2]. split; [rewrite <- (H1 0%nat c eq_refl); f_equal; simpl; lia |]. split.
  - intros i d Hi. rewrite <- (H1 (S i) d Hi). f_equal. lia.
  - rewrite <- H2. f_equal. simpl. lia.
Qed.

(** Printing from memory draws the string, when it is not in the framebuffer. *)
Lemma print_from_spec s : forall fuel k p,
  string_at (mem_of k) p s -> Forall (fun c => 0 < c < 128) s -> (length s < fuel)%nat -> text_ok (console k) ->
  p + Z.of_nat (length s) + 1 <= framebuffer (console k) \/ fb_end (console k) <= p ->
  print_from fuel p k = put_all s k.
Proof.
  induction s as [| c s IH]; intros [| fuel] k p Hs Hc Hf Ht Hd; try (simpl in Hf; lia); cbn [print_from put_all];
    rewrite bind_gets.
  - destruct Hs as [_ H]. simpl in H. rewrite Z.add_0_r in H. by rewrite H.
  - apply Forall_cons in Hc as [Hc Hc']. destruct (string_at_cons _ _ _ _ Hs) as [-> Hs'].
    destruct (Z.eqb_spec c 0); [lia |].
    destruct (putchar_spec k c FOREGROUND Ht ltac:(unfold is_char; lia)) as (k1 & E & D & T1).
    rewrite !(bind_ret _ _ _ _ _ E). destruct D as (m & x & y & -> & A). simpl in Hd, Hf.
    apply IH; [| done | lia | done |]; [| simpl; unfold fb_end in *; simpl; lia].
    eapply string_at_agree; [| exact Hs']. eapply agree_out_disj; [| exact A]. lia.
Qed.

Lemma console_print_at_spec s fuel k p :
  string_at (mem_of k) p s -> Forall (fun c => 0 < c < 128) s -> (length s < fuel)%nat -> con_ready k ->
  p + Z.of_nat (length s) + 1 <= framebuffer (console k) \/ fb_end (console k) <= p ->
  console_print_at fuel p k = console_print (s ++ [0]) k.
Proof.
  intros Hs Hc Hf [Ht Hl] Hd. unfold console_print_at, console_print, with_console.
  rewrite !bind_irq_save, !bind_spin_lock by (simpl; by rewrite Hl).
  set (k1 := lk_set console_lock_ref 1 (masked k)).
  assert (E : print_from fuel p k1 = console_print_unlocked (s ++ [0]) k1).
  { rewrite (print_from_spec s), (print_put_all _ s); try done; [| by destruct Ht].
    clear -Hc. induction Hc as [| c s Hc _ IH]; [done |]. simpl. rewrite IH. by destruct (Z.eqb_spec c 0); [lia |]. }
  unfold mbind, M_bind. by rewrite E.
Qed.

Lemma lor_u64 a b : 0 <= a < 2 ^ 64 -> 0 <= b < 2 ^ 64 -> 0 <= Z.lor a b < 2 ^ 64.
Proof.
  intros Ha Hb. assert (E : Z.lor a b mod 2 ^ 64 = Z.lor a b); [| rewrite <- E; by apply Z.mod_pos_bound].
  apply Z.bits_inj'; intros n Hn. destruct (Z.ltb_spec n 64); [by rewrite Z.mod_pow2_bits_low |].
  rewrite Z.mod_pow2_bits_high, Z.lor_spec by lia. rewrite <- (Z.mod_small a (2 ^ 64)), <- (Z.mod_small b (2 ^ 64)) by lia.
  by rewrite !Z.mod_pow2_bits_high by lia.
Qed.

(** The calls that return. *)
Lemma syscall_print_spec fuel k arg1 arg2 arg3 s :
  con_ready k -> string_at (mem_of k) arg1 s -> Forall (fun c => 0 < c < 128) s -> (length s < fuel)%nat ->
  arg1 + Z.of_nat (length s) + 1 <= framebuffer (console k) \/ fb_end (console k) <= arg1 ->
  exists k', syscall_handler fuel 1 arg1 arg2 arg3 k = Ret tt k' /\ drawn k k' /\ con_ready k' /\
    said ([10] ++ s ++ [10]) k k'.
Proof.
  intros HC Hs Hc Hf Hd.
  assert (P : prints ([10] ++ s ++ [10]) (console_newline;; console_print (s ++ [0]);; console_newline)).
  { apply prints_bind; [apply prints_newline |]. by apply prints_bind; [apply prints_text | apply prints_newline]. }
  destruct (prints_run _ _ k P HC) as (k' & E & S & D & C). exists k'. split; [| done].
  rewrite <- E. unfold syscall_handler. cbn [Z.eqb Pos.eqb].
  destruct (shows_newline k HC) as ([] & k1 & E1 & D1 & C1). rewrite !(bind_ret _ _ _ _ _ E1).
  assert (E2 : console_print_at fuel arg1 k1 = console_print (s ++ [0]) k1).
  { destruct D1 as (m & x & y & -> & A). apply console_print_at_spec; try done.
    eapply string_at_agree; [| exact Hs]. eapply agree_out_disj; [| exact A]. unfold fb_end in *. lia. }
  unfold mbind, M_bind. by rewrite E2.
Qed.

(** The text of the report of a number that is no call. *)
Definition bad_call (no : Z) : string := if 256 <=? no then "bad syscall " else "unknown syscall ".

Lemma syscall_report_spec fuel k no arg1 arg2 arg3 :
  con_ready k -> 0 <= no < 2 ^ 64 -> no <> 1 -> no <> 2 ->
  exists ds k', numeral no ds /\ syscall_handler fuel no arg1 arg2 arg3 k = Ret tt k' /\ drawn k k' /\ con_ready k' /\
    said (chars (bad_call no) ++ ds ++ [10]) k k'.
Proof.
  intros Hcon Hno H1 H2. destruct (prints_num no Hno) as (ds & N & P).
  assert (R : prints (chars (bad_call no) ++ ds ++ [10]) (console_print (cstr (bad_call no));; console_print_num no;; console_newline)).
  { apply prints_bind; [apply prints_lit; unfold bad_call; by destruct (256 <=? no) |].
    apply prints_bind; [done | apply prints_newline]. }
  destruct (prints_run _ _ k R Hcon) as (k' & E & S & D & C). exists ds, k'. split; [done |]. split; [| done].
  rewrite <- E. unfold syscall_handler, bad_call. destruct (Z.eqb_spec no 1), (Z.eqb_spec no 2); try done.
  by destruct (256 <=? no).
Qed.

(** ** Theorems *)

(** C31: what a user thread can do with a system call, on a console that is
    ready.  Call 1 with a string of 7-bit characters that is not in the
    framebuffer (and fuel for its length) prints exactly that string between two
    line breaks; call 2 marks the calling thread dead and never returns; every
    other number is reported, as the line "unknown syscall <number>", or "bad
    syscall <number>" from 256 on, with the number in decimal.  None of the calls
    that return changes anything but pixels and the cursor. *)
Theorem syscall_handler_correct fuel k no arg1 arg2 arg3 :
  con_ready k -> 0 <= no < 2 ^ 64 ->
  (forall s, no = 1 -> string_at (mem_of k) arg1 s -> Forall (fun c => 0 < c < 128) s -> (length s < fuel)%nat ->
     arg1 + Z.of_nat (length s) + 1 <= framebuffer (console k) \/ fb_end (console k) <= arg1 ->
     exists k', syscall_handler fuel no arg1 arg2 arg3 k = Ret tt k' /\ drawn k k' /\ con_ready k' /\
       said ([10] ++ s ++ [10]) k k') /\
  (forall cpu c t, no = 2 -> current_cpu k cpu -> s_cpus (sched k) !! cpu = Some c -> c_sched_thread c <> 0 ->
     s_threads (sched k) !! c_sched_thread c = Some t ->
     syscall_handler fuel no arg1 arg2 arg3 k = Hang (ended (c_sched_thread c) t k)) /\
  (no <> 1 -> no <> 2 ->
     exists ds k', numeral no ds /\ syscall_handler fuel no arg1 arg2 arg3 k = Ret tt k' /\ drawn k k' /\ con_ready k' /\
       said (chars (if 256 <=? no then "bad syscall " else "unknown syscall ") ++ ds ++ [10]) k k').
Proof.
  intros Hcon Hno. split_and!.
  - intros s -> Hs Hc Hf Hd. by apply syscall_print_spec.
  - intros cpu c t -> Hc Hs Hx Ht. by apply (sched_exit_spec k cpu c t).
  - by apply syscall_report_spec.
Qed.

Lemma syscall_handler_correct_witness :
  exists k', syscall_handler 10 1 0x5000 0 0 (set_mem (st8 ∅ 0x5000 46) small_screen) = Ret tt k'.
Proof.
  destruct (syscall_handler_correct 10 (set_mem (st8 ∅ 0x5000 46) small_screen) 1 0x5000 0 0) as [H _];
    [split; [apply small_screen_ok | reflexivity] | lia |].
  destruct (H [46]) as (k' & E & _);
    [reflexivity | split; [by intros [|] c Hc; simplify_eq/= | reflexivity] | repeat constructor; lia
    | simpl; lia | left; simpl; lia | by exists k'].
Defined.

(** A string of a user thread is not checked: a byte of 128 or more reads past
    the end of the font. *)
Lemma syscall_print_outside_font fuel k arg1 arg2 arg3 c :
  con_ready k -> ld8 (mem_of k) arg1 = c -> 128 <= c < 256 ->
  arg1 + 1 <= framebuffer (console k) \/ fb_end (console k) <= arg1 ->
  syscall_handler (S fuel) 1 arg1 arg2 arg3 k = Fault.
Proof.
  intros Hcon Hc Hr Hd. unfold syscall_handler. cbn [Z.eqb Pos.eqb].
  destruct (shows_newline k Hcon) as ([] & k1 & E1 & (m & x & y & -> & A) & [_ C1]). rewrite (bind_ret _ _ _ _ _ E1).
  set (k1 := set_cursor x y (set_mem m k)) in *. unfold mbind at 1, M_bind. unfold console_print_at, with_console.
  rewrite bind_irq_save, bind_spin_lock by (simpl; by rewrite <- C1).
  set (k2 := lk_set _ _ _). unfold mbind at 1, M_bind. cbn [print_from]. rewrite bind_gets.
  change (mem_of k2) with m. rewrite A, Hc by lia. destruct (Z.eqb_spec c 0); [lia |].
  unfold mbind at 1, M_bind, console_putchar_unlocked.
  destruct (Z.eqb_spec c 10), (Z.eqb_spec c 13), (Z.eqb_spec c 8); try lia.
  rewrite u8_small by lia. rewrite lookup_ge_None_2; [done |].
  change (length font8x8_basic) with 128%nat. lia.
Qed.

(** C32: the selectors agree across the components: after gdt_init and
    syscall_init, the entry point is the image's, entering masks interrupts,
    the extension is enabled with the other bits of its register kept, the
    selectors the processor derives for the kernel name the kernel's code and
    data segments, and the user selectors it derives are those of the frames
    sched_spawn_user builds and name segments of privilege 3. *)
Theorem syscall_init_consistent img k gdt tss :
  hw_gdtr (hw k) = (55, gdt) -> table_is (mem_of k) gdt (descriptors 0x9B 0x93 0x8B tss) ->
  0 <= sym_syscall_entry img < 2 ^ 64 -> 0 <= default 0 (hw_msr (hw k) !! MSR_EFER) < 2 ^ 64 ->
  exists k', syscall_init img k = Ret tt k' /\
    k' = k <| hw ::= fun h => h <| hw_msr := hw_msr (hw k') |> |> /\
    hw_msr (hw k') !! MSR_LSTAR = Some (sym_syscall_entry img) /\
    hw_msr (hw k') !! MSR_SFMASK = Some (2 ^ RFLAGS_IF) /\
    hw_msr (hw k') !! MSR_EFER = Some (Z.lor (default 0 (hw_msr (hw k) !! MSR_EFER)) 1) /\
    exists star, hw_msr (hw k') !! MSR_STAR = Some star /\
      let kernel_cs := star / 2 ^ 32 mod 2 ^ 16 in
      let user_base := star / 2 ^ 48 in
      (exists e, descriptor_of kernel_cs k' = Some e /\ seg_access (mem_of k') e = 0x9B) /\
      (exists e, descriptor_of (kernel_cs + 8) k' = Some e /\ seg_access (mem_of k') e = 0x93) /\
      Z.lor (user_base + 16) 3 = 0x23 /\ Z.lor (user_base + 8) 3 = 0x1B /\
      (exists e, descriptor_of 0x23 k' = Some e /\ seg_access (mem_of k') e = 0xFA) /\
      (exists e, descriptor_of 0x1B k' = Some e /\ seg_access (mem_of k') e = 0xF2).
Proof.
  intros Hg Ht Hent Hef.
  assert (Hacc : forall i d, descriptors 0x9B 0x93 0x8B tss !! i = Some d ->
    seg_access (mem_of k) (gdt + 8 * Z.of_nat i) = dt_access d) by (intros i d Hi; by rewrite <- (Ht i d Hi)).
  assert (Hw : forall v, 0 <= v < 2 ^ 64 ->
    Z.lor (Z.shiftl (Z.land (Z.shiftr v 32) 0xFFFFFFFF) 32) (Z.land v 0xFFFFFFFF) = v).
  { intros v Hv. rewrite <- (msr_halves v Hv) at 3. change 0xFFFFFFFF with (Z.ones 32). by rewrite !Z.land_ones by lia. }
  unfold syscall_init, b_rdmsr, b_wrmsr. rewrite bind_gets, !bind_modify. eexists. split; [reflexivity |].
  split; [keta k |]. rewrite msr_halves by done.
  assert (Hor : 0 <= Z.lor (default 0 (hw_msr (hw k) !! MSR_EFER)) 1 < 2 ^ 64) by (by apply lor_u64).
  unfold modify. simpl. rewrite !Hw by done. unfold descriptor_of. simpl. rewrite Hg.
  split; [by rewrite lookup_insert_ne, lookup_insert_eq by done |].
  split; [by rewrite lookup_insert_eq |].
  split; [by rewrite !lookup_insert_ne, lookup_insert_eq by done |].
  eexists. split; [by rewrite !lookup_insert_ne, lookup_insert_eq by done |].
  split_and!; try done; eexists; (split; [reflexivity |]).
  - by apply (Hacc 1%nat _ eq_refl).
  - by apply (Hacc 2%nat _ eq_refl).
  - by apply (Hacc 4%nat _ eq_refl).
  - by apply (Hacc 3%nat _ eq_refl).
Qed.

(** Descriptors at 0x6120 with the accessed bits set. *)
Definition loaded_gdt : mem :=
  let e := fun i access limit gran => gdt_set_entry_at 0x6120 i 0 limit access gran in
  e 5 0x8B 103 0x40 (e 4 0xFA 0xFFFFFFFF 0xA0 (e 3 0xF2 0xFFFFFFFF 0xA0
    (e 2 0x93 0xFFFFFFFF 0xA0 (e 1 0x9B 0xFFFFFFFF 0xA0 (e 0 0 0 0 ∅))))).
Definition loaded_machine : kernel := initial_kernel ((plain_hw loaded_gdt) <| hw_gdtr := (55, 0x6120) |>).

Lemma syscall_init_consistent_witness :
  exists k', syscall_init demo_image loaded_machine = Ret tt k' /\ hw_msr (hw k') !! MSR_LSTAR = Some 0xD000.
Proof.
  destruct (syscall_init_consistent demo_image loaded_machine 0x6120 0) as (k' & E & _ & L & _);
    [reflexivity | | split; [discriminate | reflexivity] | split; [discriminate | reflexivity] | by exists k'].
  intros i d Hi. destruct i as [| [| [| [| [| [| i]]]]]]; simplify_eq/=; by vm_compute.
Defined.
