(* ===== verification/Asm.v ===== *)
(** interrupt.asm and syscall_entry.asm: the code between the processor and the
    C handlers.

    A machine is the general registers and the kernel state; code segment, stack
    segment, flags and the GS bases are registers of [hw_t].  [deliver] is what
    the processor does for an interrupt through one of the kernel's gates,
    [enter_syscall] what it does for SYSCALL.  A call of a C function leaves
    rsp alone, puts the result in rax and may leave anything in the other
    registers the calling convention lets it use: [scratch] is an arbitrary
    function that changes them. *)

From S2P Require Import Prelude Memory State Lib Console ConsoleProps Pmm Heap Ring Keyboard Apic Cpu Gdt Queue Sched SchedSpec SchedProps SchedTypes SchedSleep SchedSpawn Idt Syscall.

Record regs := Regs {
  rax : Z; rbx : Z; rcx : Z; rdx : Z; rbp : Z; rsi : Z; rdi : Z; r8 : Z;
  r9 : Z; r10 : Z; r11 : Z; r12 : Z; r13 : Z; r14 : Z; r15 : Z;
  rsp : Z; rip : Z
}.
#[export] Instance regs_settable : Settable regs := fun r =>
  Regs (rax r) (rbx r) (rcx r) (rdx r) (rbp r) (rsi r) (rdi r) (r8 r)
    (r9 r) (r10 r) (r11 r) (r12 r) (r13 r) (r14 r) (r15 r) (rsp r) (rip r).

Record machine := Machine { m_regs : regs; m_kernel : kernel }.
#[export] Instance machine_settable : Settable machine := fun r => Machine (m_regs r) (m_kernel r).

(** ** Instructions *)

Definition reg (f : regs -> Z) : M machine Z := gets (fun s => f (m_regs s)).
Definition set_reg (f : regs -> regs) : M machine unit := modify (fun s => s <| m_regs ::= f |>).
Definition on_kernel {A} (m : M kernel A) : M machine A := fun s =>
  match m (m_kernel s) with
  | Ret a k => Ret a (s <| m_kernel := k |>)
  | Hang k => Hang (s <| m_kernel := k |>)
  | Fault => Fault
  | NoFuel => NoFuel
  end.

Definition push_value (v : Z) : M machine unit :=
  set_reg (fun r => r <| rsp := u64 (rsp r - 8) |>);;
  a ← reg rsp;
  on_kernel (on_mem (fun m => st64 m a v)).
Definition push (f : regs -> Z) : M machine unit := v ← reg f; push_value v.
Definition pop_value : M machine Z :=
  a ← reg rsp;
  v ← on_kernel (gets (fun k => ld64 (mem_of k) a));
  set_reg (fun r => r <| rsp := u64 (rsp r + 8) |>);;
  mret v.
Definition pop (set : Z -> regs -> regs) : M machine unit := v ← pop_value; set_reg (set v).

Definition swapped (k : kernel) : kernel :=
  k <| hw ::= fun h => h <| hw_msr ::= fun m =>
    <[MSR_GS_BASE := default 0 (m !! MSR_KERNEL_GS_BASE)]>
      (<[MSR_KERNEL_GS_BASE := default 0 (m !! MSR_GS_BASE)]> m) |> |>.
Definition swapgs : M machine unit := on_kernel (modify swapped).

(** The return from an interrupt: rip, cs, rflags, rsp and ss. *)
Definition set_segments (cs ss rflags : Z) (k : kernel) : kernel :=
  k <| hw ::= fun h => h <| hw_cs := cs |> <| hw_ss := ss |> <| hw_rflags := rflags |> |>.
Definition iretq : M machine unit :=
  ip ← pop_value;
  cs ← pop_value;
  flags ← pop_value;
  sp ← pop_value;
  ss ← pop_value;
  set_reg (fun r => r <| rip := ip |> <| rsp := sp |>);;
  on_kernel (modify (set_segments cs ss flags)).

(** Is this a code selector of privilege level 3? *)
Definition from_user (cs : Z) : bool := negb (Z.land cs 3 =? 0).

(** The processor's part of an interrupt: on the stack of the task state segment
    when it comes from user code, on the current one otherwise, aligned to 16
    bytes, the interrupted ss, rsp, rflags, cs and rip are pushed, and the error
    code when the vector has one; the gate's code segment is loaded and the
    interrupt, trap, nested-task and resume flags are cleared. *)
Definition tss_stack (k : kernel) : M machine Z :=
  c ← on_kernel (cpu_load (snd (hw_gdtr (hw k)) - CPU_GDT)); mret (c_rsp0 c).
Definition masked_flags (f : Z) : Z :=
  Z.clearbit (Z.clearbit (Z.clearbit (Z.clearbit f 9) 8) 14) 16.
Definition deliver (err : option Z) : M machine unit :=
  s ← gets (fun s => s);
  let k := m_kernel s in
  let r := m_regs s in
  let user := from_user (hw_cs (hw k)) in
  top ← (if user then tss_stack k else mret (rsp r));
  set_reg (fun r => r <| rsp := top - top mod 16 |>);;
  push_value (hw_ss (hw k));;
  push_value (rsp r);;
  push_value (hw_rflags (hw k));;
  push_value (hw_cs (hw k));;
  push_value (rip r);;
  match err with Some e => push_value e | None => mret tt end;;
  on_kernel (modify (set_segments 0x08 (if user then 0 else hw_ss (hw k)) (masked_flags (hw_rflags (hw k))))).

(** SYSCALL: the return address and the flags are kept in rcx and r11. *)
Definition enter_syscall : M machine unit :=
  s ← gets (fun s => s);
  let h := hw (m_kernel s) in
  let msr := fun i => default 0 (hw_msr h !! i) in
  let cs := Z.land (Z.shiftr (msr MSR_STAR) 32) 0xFFFC in
  set_reg (fun r => r <| rcx := rip r |> <| r11 := hw_rflags h |> <| rip := msr MSR_LSTAR |>);;
  on_kernel (modify (set_segments cs (cs + 8) (Z.land (hw_rflags h) (Z.lnot (msr MSR_SFMASK))))).

(** The fields of the cpu_t at the GS base. *)
Definition gs_load (f : cpu_t -> Z) : M machine Z :=
  on_kernel (cpu ← cpu_get; c ← cpu_load cpu; mret (f c)).
Definition gs_store (f : cpu_t -> cpu_t) : M machine unit :=
  on_kernel (cpu ← cpu_get; cpu_update cpu f).

Section Asm.
Context (scratch : regs -> regs).

(** What a C function leaves of the registers of its caller. *)
Definition clobbered (r : regs) : regs :=
  (scratch r) <| rbx := rbx r |> <| rbp := rbp r |> <| r12 := r12 r |> <| r13 := r13 r |>
    <| r14 := r14 r |> <| r15 := r15 r |> <| rsp := rsp r |> <| rip := rip r |>.

(** A call of a C function with a result, which is in rax, and of one without. *)
Definition call_c (f : regs -> M kernel Z) : M machine unit :=
  r ← gets m_regs;
  v ← on_kernel (f r);
  set_reg (fun r => (clobbered r) <| rax := v |>).
Definition call_void (f : regs -> M kernel unit) : M machine unit :=
  r ← gets m_regs;
  on_kernel (f r);;
  set_reg clobbered.

(** ** interrupt.asm *)

(** [test qword [rsp + 144], 3; jz ...; swapgs] *)
Definition swap_if_user : M machine unit :=
  a ← reg rsp;
  cs ← on_kernel (gets (fun k => ld64 (mem_of k) (u64 (a + 144))));
  when (from_user cs) swapgs.

(** The stub up to the call, and from the call's result on. *)
Definition save_registers : M machine unit :=
  push r15;; push r14;; push r13;; push r12;; push r11;; push r10;; push r9;; push r8;;
  push rdi;; push rsi;; push rbp;; push rdx;; push rcx;; push rbx;; push rax.
Definition isr_return : M machine unit :=
  swap_if_user;;
  pop (fun v r => r <| rax := v |>);;
  pop (fun v r => r <| rbx := v |>);;
  pop (fun v r => r <| rcx := v |>);;
  pop (fun v r => r <| rdx := v |>);;
  pop (fun v r => r <| rbp := v |>);;
  pop (fun v r => r <| rsi := v |>);;
  pop (fun v r => r <| rdi := v |>);;
  pop (fun v r => r <| r8 := v |>);;
  pop (fun v r => r <| r9 := v |>);;
  pop (fun v r => r <| r10 := v |>);;
  pop (fun v r => r <| r11 := v |>);;
  pop (fun v r => r <| r12 := v |>);;
  pop (fun v r => r <| r13 := v |>);;
  pop (fun v r => r <| r14 := v |>);;
  pop (fun v r => r <| r15 := v |>);;
  set_reg (fun r => r <| rsp := u64 (rsp r + 16) |>);;
  iretq.
Definition isr_common_stub : M machine unit :=
  save_registers;;
  swap_if_user;;
  set_reg (fun r => r <| rdi := rsp r |>);;
  call_c (fun r => interrupt_handler (rdi r));;
  set_reg (fun r => r <| rsp := rax r |>);;
  isr_return.

(** The vectors for which the processor pushes an error code. *)
Definition has_error (v : Z) : bool :=
  (v =? 8) || ((10 <=? v) && (v <=? 14)) || (v =? 17) || (v =? 21) || (v =? 29) || (v =? 30).

Definition isr_stub (v : Z) : M machine unit :=
  (if has_error v then push_value v else push_value 0;; push_value v);;
  isr_common_stub.

(** Interrupt [v], from the interrupted instruction to the resumed one. *)
Definition take_interrupt (v err : Z) : M machine unit :=
  deliver (if has_error v then Some err else None);;
  isr_stub v.

(** ** syscall_entry.asm *)

(** Up to the call, from its return on, and the return to user code. *)
Definition syscall_save : M machine unit :=
  push r11;;
  push rcx;;
  push rbp;; push rbx;; push r12;; push r13;; push r14;; push r15;;
  push rdi;; push rsi;; push rdx.
Definition syscall_restore : M machine unit :=
  pop (fun v r => r <| rdx := v |>);;
  pop (fun v r => r <| rsi := v |>);;
  pop (fun v r => r <| rdi := v |>);;
  pop (fun v r => r <| r15 := v |>);;
  pop (fun v r => r <| r14 := v |>);;
  pop (fun v r => r <| r13 := v |>);;
  pop (fun v r => r <| r12 := v |>);;
  pop (fun v r => r <| rbx := v |>);;
  pop (fun v r => r <| rbp := v |>);;
  pop (fun v r => r <| rcx := v |>);;
  pop (fun v r => r <| r11 := v |>).
Definition syscall_exit : M machine unit :=
  push_value 0x1B;;
  user ← gs_load c_user_rsp;
  set_reg (fun r => r <| rax := user |>);;
  push rax;;
  push r11;;
  push_value 0x23;;
  push rcx;;
  swapgs;;
  iretq.
Definition syscall_entry (fuel : nat) : M machine unit :=
  swapgs;;
  sp ← reg rsp;
  gs_store (fun c => c <| c_user_rsp := sp |>);;
  ks ← gs_load c_kernel_stack;
  set_reg (fun r => r <| rsp := ks |>);;
  syscall_save;;
  set_reg (fun r => r <| rcx := rdx r |>);;
  set_reg (fun r => r <| rdx := rsi r |>);;
  set_reg (fun r => r <| rsi := rdi r |>);;
  set_reg (fun r => r <| rdi := rax r |>);;
  call_void (fun r => syscall_handler fuel (rdi r) (rsi r) (rdx r) (rcx r));;
  syscall_restore;;
  syscall_exit.

(** A user thread's system call. *)
Definition take_syscall (fuel : nat) : M machine unit := enter_syscall;; syscall_entry fuel.

(** ** Lemmas *)

(** *** Single instructions *)

Definition pushed (v : Z) (s : machine) : machine :=
  let a := u64 (rsp (m_regs s) - 8) in
  Machine ((m_regs s) <| rsp := a |>) (set_mem (st64 (mem_of (m_kernel s)) a v) (m_kernel s)).

Lemma bind_push_value {B} v (g : unit -> M machine B) s : (push_value v ≫= g) s = g tt (pushed v s).
Proof. reflexivity. Qed.
Lemma bind_push {B} f v (g : unit -> M machine B) s : f (m_regs s) = v -> (push f ≫= g) s = g tt (pushed v s).
Proof. by intros <-. Qed.

(** A sequence of pushes is push_words, while the stack does not wrap. *)
Lemma pushed_words vs : forall s,
  8 * Z.of_nat (length vs) <= rsp (m_regs s) < 2 ^ 64 ->
  fold_left (fun s v => pushed v s) vs s =
    Machine ((m_regs s) <| rsp := rsp (m_regs s) - 8 * Z.of_nat (length vs) |>)
      (set_mem (snd (push_words (rsp (m_regs s)) vs (mem_of (m_kernel s)))) (m_kernel s)).
Proof.
  induction vs as [| v vs IH]; intros [r k] Hb; cbn [fold_left push_words length] in *.
  { simpl. rewrite Z.sub_0_r. f_equal; [by destruct r | keta k]. }
  rewrite IH; unfold pushed; cbn [m_regs m_kernel rsp over] in *; rewrite u64_small by lia; [| lia].
  f_equal. unfold over. simpl. f_equal. lia.
Qed.

Lemma pop_ret set a a' s :
  rsp (m_regs s) = a -> a' = a + 8 -> 0 <= a -> a' < 2 ^ 64 ->
  pop set s = Ret tt (Machine (set (ld64 (mem_of (m_kernel s)) a) ((m_regs s) <| rsp := a' |>)) (m_kernel s)).
Proof.
  intros Ha -> H0 H1. unfold pop, pop_value, reg, set_reg. unfold mbind, M_bind, gets, modify, on_kernel, mret, M_ret.
  rewrite Ha. destruct s as [r k]. simpl in *. unfold over. simpl. by rewrite Ha, u64_small by lia.
Qed.

Lemma bind_pop {B} set a a' s (g : unit -> M machine B) :
  rsp (m_regs s) = a -> a' = a + 8 -> 0 <= a -> a' < 2 ^ 64 ->
  (pop set ≫= g) s =
    g tt (Machine (set (ld64 (mem_of (m_kernel s)) a) ((m_regs s) <| rsp := a' |>)) (m_kernel s)).
Proof. intros. by apply bind_ret, pop_ret. Qed.

(** *** Contexts *)

(** The machine a context_t at [p] describes. *)
Definition ctx_regs (m : mem) (p : Z) : regs :=
  let w := fun i => ld64 m (p + i) in
  Regs (w 0) (w 8) (w 16) (w 24) (w 32) (w 40) (w 48) (w 56) (w 64) (w 72) (w 80) (w 88) (w 96) (w 104) (w 112)
    (w 160) (w 136).
Definition ctx_rflags (m : mem) (p : Z) : Z := ld64 m (p + 152).
Definition ctx_ss (m : mem) (p : Z) : Z := ld64 m (p + 168).
Definition CTX_BYTES : Z := 176.

(** The kernel after the return through the context at [p]. *)
Definition leave (p : Z) (k : kernel) : kernel :=
  let m := mem_of k in
  let k' := if from_user (ctx_cs m p) then swapped k else k in
  set_segments (ctx_cs m p) (ctx_ss m p) (ctx_rflags m p) k'.

Lemma iretq_spec s a :
  rsp (m_regs s) = a -> 0 <= a -> a + 40 < 2 ^ 64 ->
  let w := fun i => ld64 (mem_of (m_kernel s)) (a + i) in
  iretq s = Ret tt (Machine ((m_regs s) <| rip := w 0 |> <| rsp := w 24 |>)
    (set_segments (w 8) (w 32) (w 16) (m_kernel s))).
Proof.
  intros Ha H0 H1 w. unfold iretq, pop_value, reg, set_reg, mbind, M_bind, gets, modify, on_kernel, mret, M_ret.
  destruct s as [r k]. simpl in *. rewrite Ha, !(u64_small (a + 8)) by lia. rewrite !(u64_small (a + 8 + 8)) by lia.
  rewrite !(u64_small (a + 8 + 8 + 8)) by lia. rewrite !(u64_small (a + 8 + 8 + 8 + 8)) by lia.
  unfold w. rewrite Z.add_0_r, <- !Z.add_assoc. reflexivity.
Qed.

(** One pop from the context at [p], with the registers kept in normal form. *)
Ltac pop_at p o :=
  erewrite (bind_pop _ (p + o) (p + o + 8)); [| cbn [rsp m_regs]; lia | lia | lia | lia];
  cbv beta iota delta [m_regs m_kernel over rax rbx rcx rdx rbp rsi rdi r8 r9 r10 r11 r12 r13 r14 r15 rsp rip].

(** The way back loads the context at the stack pointer. *)
Lemma isr_return_spec r k p :
  rsp r = p -> 0 <= p -> p + CTX_BYTES < 2 ^ 64 ->
  isr_return (Machine r k) = Ret tt (Machine (ctx_regs (mem_of k) p) (leave p k)).
Proof.
  unfold CTX_BYTES. intros Hp H0 H1. unfold isr_return.
  set (k' := if from_user (ctx_cs (mem_of k) p) then swapped k else k).
  assert (Hm : mem_of k' = mem_of k) by (unfold k'; by destruct (from_user _)).
  assert (Es : swap_if_user (Machine r k) = Ret tt (Machine r k')).
  { unfold swap_if_user, reg, mbind, M_bind, gets, on_kernel. simpl. rewrite Hp, u64_small by lia.
    unfold k', ctx_cs. by destruct (from_user _). }
  rewrite (bind_ret _ _ _ _ _ Es). clear Es.
  destruct r. cbn in Hp. subst.
  pop_at p 0.
  pop_at p 8.
  pop_at p 16.
  pop_at p 24.
  pop_at p 32.
  pop_at p 40.
  pop_at p 48.
  pop_at p 56.
  pop_at p 64.
  pop_at p 72.
  pop_at p 80.
  pop_at p 88.
  pop_at p 96.
  pop_at p 104.
  pop_at p 112.
  unfold set_reg. rewrite bind_modify. rewrite (iretq_spec _ (p + 136)); [| cbn; rewrite u64_small; lia | lia | lia].
  cbn [m_kernel over]. rewrite Hm, <- !Z.add_assoc. reflexivity.
Qed.

(** The words of the frame of interrupt [v], in the order of the pushes. *)
Definition saved_registers (r : regs) : list Z :=
  [r15 r; r14 r; r13 r; r12 r; r11 r; r10 r; r9 r; r8 r; rdi r; rsi r; rbp r; rdx r; rcx r; rbx r; rax r].
Definition saved_state (r : regs) (k : kernel) : list Z :=
  [hw_ss (hw k); rsp r; hw_rflags (hw k); hw_cs (hw k); rip r].
Definition frame_words (r : regs) (k : kernel) (v err : Z) : list Z :=
  saved_state r k ++ [err; v] ++ saved_registers r.

Lemma push_words_app vs1 : forall vs2 ptr m,
  push_words ptr (vs1 ++ vs2) m =
  push_words (ptr - 8 * Z.of_nat (length vs1)) vs2 (snd (push_words ptr vs1 m)).
Proof.
  induction vs1 as [| v vs1 IH]; intros vs2 ptr m; cbn [push_words app length].
  - simpl. by rewrite Z.sub_0_r.
  - rewrite IH. f_equal. lia.
Qed.

Lemma push_ret f v s : f (m_regs s) = v -> push f s = Ret tt (pushed v s).
Proof. by intros <-. Qed.

Lemma save_registers_spec r k :
  save_registers (Machine r k) = Ret tt (fold_left (fun s v => pushed v s) (saved_registers r) (Machine r k)).
Proof.
  unfold save_registers. destruct r. unfold saved_registers.
  cbn [m_regs rax rbx rcx rdx rbp rsi rdi r8 r9 r10 r11 r12 r13 r14 r15 fold_left].
  do 14 (erewrite bind_push by reflexivity). by erewrite push_ret by reflexivity.
Qed.

(** *** Entering the kernel *)

(** The stack the processor uses for an interrupt. *)
Definition interrupt_stack (r : regs) (k : kernel) (base : Z) : Prop :=
  if from_user (hw_cs (hw k))
  then exists c, snd (hw_gdtr (hw k)) <> CPU_GDT /\ s_cpus (sched k) !! (snd (hw_gdtr (hw k)) - CPU_GDT) = Some c /\
         c_rsp0 c = base
  else rsp r = base.

Definition frame_top (base : Z) : Z := base - base mod 16.
Definition frame (base : Z) : Z := frame_top base - CTX_BYTES.

(** The kernel after the delivery of an interrupt and the stub's pushes. *)
Definition delivered (r : regs) (k : kernel) (v err base : Z) : kernel :=
  set_segments 0x08 (if from_user (hw_cs (hw k)) then 0 else hw_ss (hw k)) (masked_flags (hw_rflags (hw k)))
    (set_mem (snd (push_words (frame_top base) (frame_words r k v err) (mem_of k))) k).

(** What is left of the stub once the registers are saved. *)
Definition isr_call : M machine unit :=
  swap_if_user;;
  set_reg (fun r => r <| rdi := rsp r |>);;
  call_c (fun r => interrupt_handler (rdi r));;
  set_reg (fun r => r <| rsp := rax r |>);;
  isr_return.

Lemma frame_range base : 192 <= base < 2 ^ 64 -> 0 <= frame base /\ frame base + CTX_BYTES = frame_top base /\
  base - 192 < frame base /\ frame_top base <= base.
Proof. unfold frame, frame_top, CTX_BYTES. intros H. pose proof (Z.mod_pos_bound base 16). lia. Qed.

Lemma fold_pushed_app l1 l2 s :
  fold_left (fun s v => pushed v s) (l1 ++ l2) s = fold_left (fun s v => pushed v s) l2 (fold_left (fun s v => pushed v s) l1 s).
Proof. apply fold_left_app. Qed.

Lemma fold_pushed_segments vs cs ss fl : forall r k,
  fold_left (fun s v => pushed v s) vs (Machine r (set_segments cs ss fl k)) =
  let s := fold_left (fun s v => pushed v s) vs (Machine r k) in
  Machine (m_regs s) (set_segments cs ss fl (m_kernel s)).
Proof. induction vs as [| v vs IH]; intros r k; [done |].
  exact (IH (m_regs (pushed v (Machine r k))) (m_kernel (pushed v (Machine r k)))). Qed.

Lemma deliver_spec e r k base :
  interrupt_stack r k base ->
  deliver e (Machine r k) =
    let s := fold_left (fun s v => pushed v s) (saved_state r k ++ option_list e)
               (Machine (r <| rsp := frame_top base |>) k) in
    Ret tt (Machine (m_regs s)
      (set_segments 0x08 (if from_user (hw_cs (hw k)) then 0 else hw_ss (hw k)) (masked_flags (hw_rflags (hw k))) (m_kernel s))).
Proof.
  intros Hb. unfold deliver. rewrite bind_gets. cbn [m_kernel m_regs].
  assert (E : (if from_user (hw_cs (hw k)) then tss_stack k else mret (rsp r)) (Machine r k) = Ret base (Machine r k)).
  { unfold interrupt_stack in Hb. destruct (from_user _); [| by rewrite Hb].
    destruct Hb as (c & Hn & Hc & <-). unfold tss_stack, mbind, M_bind, on_kernel, mret, M_ret. cbn [m_kernel].
    rewrite (cpu_load_spec k _ c Hc) by lia. reflexivity. }
  rewrite (bind_ret _ _ _ _ _ E). unfold set_reg at 1. rewrite bind_modify.
  rewrite !bind_push_value. destruct e as [e |]; [rewrite bind_push_value | rewrite bind_mret]; reflexivity.
Qed.

(** The error code in the frame. *)
Definition frame_error (v err : Z) : Z := if has_error v then err else 0.

Lemma stub_pushes v cs ss fl s :
  (if has_error v then push_value v else push_value 0;; push_value v) (Machine (m_regs s) (set_segments cs ss fl (m_kernel s))) =
  let s' := fold_left (fun s v => pushed v s) (if has_error v then [v] else [0; v]) s in
  Ret tt (Machine (m_regs s') (set_segments cs ss fl (m_kernel s'))).
Proof. destruct s as [r k]. destruct (has_error v); reflexivity. Qed.

Lemma fold_pushed_regs vs : forall s, saved_registers (m_regs (fold_left (fun s v => pushed v s) vs s)) = saved_registers (m_regs s).
Proof. induction vs as [| v vs IH]; intros s; [done |]. cbn [fold_left]. by rewrite IH. Qed.

Lemma take_interrupt_entry v err r k base :
  interrupt_stack r k base -> 192 <= base < 2 ^ 64 ->
  take_interrupt v err (Machine r k) =
    isr_call (Machine (r <| rsp := frame base |>) (delivered r k v (frame_error v err) base)).
Proof.
  intros Hb Hr. destruct (frame_range base Hr) as (F1 & F2 & F3 & F4). unfold take_interrupt, isr_stub.
  rewrite (bind_ret _ _ _ _ _ (deliver_spec _ r k base Hb)). cbv zeta.
  rewrite (bind_ret _ _ _ _ _ (stub_pushes v _ _ _ _)). cbv zeta. unfold isr_common_stub. fold isr_call.
  rewrite <- fold_left_app, <- app_assoc.
  replace (option_list _ ++ _) with [frame_error v err; v] by (unfold frame_error; by destruct (has_error v)).
  set (s0 := Machine (r <| rsp := frame_top base |>) k).
  rewrite (bind_ret _ _ _ _ _ (save_registers_spec _ _)), fold_pushed_segments, fold_pushed_regs. cbv zeta.
  change (saved_registers (m_regs s0)) with (saved_registers r).
  set (s1 := fold_left _ (saved_state r k ++ _) s0).
  replace (Machine (m_regs s1) (m_kernel s1)) with s1 by (by destruct s1). unfold s1. rewrite <- fold_left_app, <- app_assoc.
  change (saved_state r k ++ _) with (frame_words r k v (frame_error v err)).
  rewrite pushed_words; unfold s0; cbn [m_regs m_kernel rsp over]; [reflexivity | change (length _) with 22%nat].
  unfold CTX_BYTES in *. lia.
Qed.

(** *** The saved frame *)

(** What a thread is made of while it does not run. *)
Record saved := Saved { sv_regs : regs; sv_cs : Z; sv_ss : Z; sv_rflags : Z }.

Definition context_at (m : mem) (p : Z) : saved := Saved (ctx_regs m p) (ctx_cs m p) (ctx_ss m p) (ctx_rflags m p).
Definition running (s : machine) : saved :=
  Saved (m_regs s) (hw_cs (hw (m_kernel s))) (hw_ss (hw (m_kernel s))) (hw_rflags (hw (m_kernel s))).

Definition words_ok (x : saved) : Prop :=
  let r := sv_regs x in
  Forall word (saved_registers r ++ [sv_ss x; rsp r; sv_rflags x; sv_cs x; rip r]).

Lemma context_at_agree p lo hi m m' :
  agree lo hi m m' -> lo <= p -> p + CTX_BYTES <= hi -> context_at m' p = context_at m p.
Proof.
  unfold CTX_BYTES. intros H H1 H2. unfold context_at, ctx_regs, ctx_cs, ctx_ss, ctx_rflags.
  by rewrite !(ld64_agree lo hi m m') by (done || lia).
Qed.

(** The word [i] words above the stack pointer is the [21 - i]th pushed. *)
Lemma frame_word top ws m i w :
  length ws = 22%nat -> ws !! (21 - i)%nat = Some w -> (i <= 21)%nat -> word w ->
  ld64 (snd (push_words top ws m)) (top - CTX_BYTES + 8 * Z.of_nat i) = w.
Proof.
  intros Hl Hw Hi Hr. destruct (push_words_spec ws top m) as (_ & _ & H). specialize (H _ _ Hw).
  rewrite u64_small in H by done. rewrite <- H. f_equal. unfold CTX_BYTES. lia.
Qed.

Lemma frame_contents r k v err base m :
  m = snd (push_words (frame_top base) (frame_words r k v err) (mem_of k)) ->
  words_ok (running (Machine r k)) -> word v ->
  context_at m (frame base) = running (Machine r k) /\ ctx_int_no m (frame base) = v /\
  agree_out (frame base) (frame_top base) (mem_of k) m.
Proof.
  intros -> Hok Hv. set (ws := frame_words r k v err).
  assert (Hw : forall i w, ws !! (21 - i)%nat = Some w -> (i <= 21)%nat -> word w ->
    ld64 (snd (push_words (frame_top base) ws (mem_of k))) (frame base + 8 * Z.of_nat i) = w)
    by (intros; by apply frame_word).
  split_and!.
  - unfold words_ok, running in Hok. cbn [sv_regs sv_cs sv_ss sv_rflags m_regs m_kernel] in Hok. unfold saved_registers in Hok. cbn [app] in Hok.
    repeat (apply Forall_cons in Hok as [?H Hok]).
    unfold context_at, running. cbn [m_regs m_kernel]. f_equal.
    + unfold ctx_regs. destruct r. cbn in *.
      f_equal; [apply (Hw 0%nat) | apply (Hw 1%nat) | apply (Hw 2%nat) | apply (Hw 3%nat) | apply (Hw 4%nat)
        | apply (Hw 5%nat) | apply (Hw 6%nat) | apply (Hw 7%nat) | apply (Hw 8%nat) | apply (Hw 9%nat)
        | apply (Hw 10%nat) | apply (Hw 11%nat) | apply (Hw 12%nat) | apply (Hw 13%nat) | apply (Hw 14%nat)
        | apply (Hw 20%nat) | apply (Hw 17%nat)]; done || lia.
    + apply (Hw 18%nat); done || lia.
    + apply (Hw 21%nat); done || lia.
    + apply (Hw 19%nat); done || lia.
  - apply (Hw 15%nat); done || lia.
  - destruct (push_words_spec ws (frame_top base) (mem_of k)) as (E & A & _). rewrite E in A.
    eapply agree_out_sub; [| | exact A]; [unfold frame, CTX_BYTES; change (length ws) with 22%nat |]; lia.
Qed.

(** *** The way through the handler *)

(** The kernel when the handler is called. *)
Definition entered (r : regs) (k : kernel) (v err base : Z) : kernel :=
  let k1 := delivered r k v (frame_error v err) base in
  if from_user (hw_cs (hw k)) then swapped k1 else k1.

(** A machine that can be interrupted: the stack the processor will use has room
    for a frame, and the registers hold words. *)
Record interruptible (r : regs) (k : kernel) (base : Z) : Prop := {
  in_stack : interrupt_stack r k base;
  in_room : 192 <= base < 2 ^ 64;
  in_words : words_ok (running (Machine r k))
}.

Lemma entered_frame r k v err base :
  interruptible r k base -> word v ->
  context_at (mem_of (entered r k v err base)) (frame base) = running (Machine r k) /\
  ctx_int_no (mem_of (entered r k v err base)) (frame base) = v /\
  agree_out (frame base) (frame_top base) (mem_of k) (mem_of (entered r k v err base)).
Proof.
  intros [Hb Hr Hw] Hv. apply (frame_contents r k v (frame_error v err) base); [| done | done].
  unfold entered. by destruct (from_user _).
Qed.

Lemma isr_call_eq r k v err base :
  interruptible r k base -> word v ->
  take_interrupt v err (Machine r k) =
    (call_c (fun r => interrupt_handler (rdi r));; set_reg (fun r => r <| rsp := rax r |>);; isr_return)
      (Machine (r <| rsp := frame base |> <| rdi := frame base |>) (entered r k v err base)).
Proof.
  intros Hi Hv. pose proof Hi as [Hb Hr _]. rewrite (take_interrupt_entry v err r k base Hb Hr).
  destruct (frame_range base Hr) as (F1 & F2 & F3 & F4). unfold CTX_BYTES in F2. unfold isr_call.
  set (k1 := delivered r k v (frame_error v err) base).
  destruct (frame_contents r k v (frame_error v err) base (mem_of k1) eq_refl (in_words _ _ _ Hi) Hv) as (Ec & _).
  apply (f_equal sv_cs) in Ec. cbn [context_at sv_cs running m_kernel] in Ec.
  assert (Es : swap_if_user (Machine (r <| rsp := frame base |>) k1) =
    Ret tt (Machine (r <| rsp := frame base |>) (entered r k v err base))).
  { unfold swap_if_user, reg, mbind, M_bind, gets, on_kernel. cbn [m_regs m_kernel rsp over].
    rewrite u64_small by lia. change (ld64 (mem_of k1) (frame base + 144)) with (ctx_cs (mem_of k1) (frame base)).
    rewrite Ec. unfold entered. fold k1. by destruct (from_user _). }
  rewrite (bind_ret _ _ _ _ _ Es). unfold set_reg. by rewrite bind_modify.
Qed.

(** An interrupt whose handler returns resumes the context it returns; one whose
    handler does not return never does. *)
Lemma take_interrupt_spec r k v err base q k2 :
  interruptible r k base -> word v ->
  interrupt_handler (frame base) (entered r k v err base) = Ret q k2 -> 0 <= q -> q + CTX_BYTES < 2 ^ 64 ->
  take_interrupt v err (Machine r k) = Ret tt (Machine (ctx_regs (mem_of k2) q) (leave q k2)).
Proof.
  intros Hi Hv E H0 H1. rewrite (isr_call_eq _ _ _ _ _ Hi Hv).
  unfold call_c, set_reg, on_kernel, mbind, M_bind, gets, modify. cbn [m_regs m_kernel rdi rsp over]. rewrite E.
  cbn [m_regs m_kernel over]. by apply isr_return_spec.
Qed.

Lemma take_interrupt_hang r k v err base k2 :
  interruptible r k base -> word v ->
  interrupt_handler (frame base) (entered r k v err base) = Hang k2 ->
  exists r', take_interrupt v err (Machine r k) = Hang (Machine r' k2).
Proof.
  intros Hi Hv E. rewrite (isr_call_eq _ _ _ _ _ Hi Hv).
  unfold call_c, set_reg, on_kernel, mbind, M_bind, gets, modify. cbn [m_regs m_kernel rdi rsp over]. rewrite E.
  by eexists.
Qed.

(** *** Coming back to the interrupted code *)

Definition swap_bases (m : gmap Z Z) : gmap Z Z :=
  <[MSR_GS_BASE := default 0 (m !! MSR_KERNEL_GS_BASE)]>
    (<[MSR_KERNEL_GS_BASE := default 0 (m !! MSR_GS_BASE)]> m).

Definition gs_set (k : kernel) : Prop :=
  is_Some (hw_msr (hw k) !! MSR_GS_BASE) /\ is_Some (hw_msr (hw k) !! MSR_KERNEL_GS_BASE).

Lemma swap_bases_twice m :
  is_Some (m !! MSR_GS_BASE) -> is_Some (m !! MSR_KERNEL_GS_BASE) -> swap_bases (swap_bases m) = m.
Proof.
  intros [a Ha] [b Hb]. apply map_eq. intros i. unfold swap_bases. rewrite Ha, Hb. cbn [default from_option].
  assert (Hne : MSR_GS_BASE <> MSR_KERNEL_GS_BASE) by done.
  rewrite lookup_insert_eq, (lookup_insert_ne _ MSR_GS_BASE MSR_KERNEL_GS_BASE), lookup_insert_eq by done.
  cbn [default from_option].
  destruct (decide (i = MSR_GS_BASE)) as [-> |]; [by rewrite lookup_insert_eq |]. rewrite lookup_insert_ne by done.
  destruct (decide (i = MSR_KERNEL_GS_BASE)) as [-> |]; [by rewrite lookup_insert_eq |]. by rewrite !lookup_insert_ne.
Qed.

(** The handlers of the devices leave the machine registers alone: [touched] is
    what they change. *)
Definition touched (k : kernel) (b : kbd_t) (n : nat) (out : list (Z * Z)) : kernel :=
  k <| kbd := b |> <| hw ::= fun h => h <| hw_in_pos := n |> <| hw_out := out |> |>.

Lemma leave_touched r k v err base b n out :
  interruptible r k base -> word v -> gs_set k ->
  leave (frame base) (touched (entered r k v err base) b n out) =
  touched (set_mem (mem_of (entered r k v err base)) k) b n out.
Proof.
  intros Hi Hv [G1 G2]. destruct (entered_frame r k v err base Hi Hv) as (Hc & _ & _).
  unfold leave. change (mem_of (touched ?x b n out)) with (mem_of x).
  set (m := mem_of (entered r k v err base)) in *.
  pose proof (f_equal sv_cs Hc) as Ecs. pose proof (f_equal sv_ss Hc) as Ess. pose proof (f_equal sv_rflags Hc) as Efl.
  cbn [context_at running sv_cs sv_ss sv_rflags m_kernel] in Ecs, Ess, Efl. rewrite Ecs, Ess, Efl.
  assert (Em : m = mem_of (delivered r k v (frame_error v err) base)).
  { unfold m, entered. by destruct (from_user _). }
  unfold entered. rewrite Em. destruct (from_user (hw_cs (hw k))); [| reflexivity].
  pose proof (swap_bases_twice _ G1 G2) as Es. set (k1 := delivered r k v (frame_error v err) base).
  transitivity (touched (set_mem (mem_of k1) k <| hw ::= fun h => h <| hw_msr := swap_bases (swap_bases (hw_msr h)) |> |>) b n out);
    [reflexivity |]. unfold touched, over. simpl. rewrite Es. reflexivity.
Qed.

(** The acknowledgements of vector [v]. *)
Definition acks (v : Z) : list (Z * Z) := if 40 <=? v then [(0xA0, 0x20); (0x20, 0x20)] else [(0x20, 0x20)].

Lemma device_handled k p v :
  u8 (ctx_int_no (mem_of k) p) = v -> 33 <= v < 48 -> kbd_ok (kbd k) ->
  let s := u8 (hw_dev_in (hw k) (hw_in_pos (hw k)) 0x60) in
  exists b, kbd_ok b /\
    interrupt_handler p k = Ret p (touched k b (if v =? 33 then S (hw_in_pos (hw k)) else hw_in_pos (hw k))
                                     (hw_out (hw k) ++ acks v)) /\
    kbd_chars b = if (v =? 33) && negb (scan_char s =? 0) then enqueue (scan_char s) (kbd_chars (kbd k))
                  else kbd_chars (kbd k).
Proof.
  intros Hv Hr Hk s. pose proof (interrupt_handler_irq k p) as (_ & H33 & H34 & H40 & _). rewrite Hv in *.
  unfold acks. destruct (Z.eqb_spec v 33) as [-> | Hne].
  - destruct (keyboard_handler_spec k Hk) as (b & E & Hb & Hc). exists b. split; [done |].
    rewrite (H33 eq_refl), (bind_ret _ _ _ _ _ E), bind_outb. fold s in Hc. rewrite Hc.
    split; [reflexivity | by destruct (scan_char s =? 0)].
  - exists (kbd k). split; [done |]. split; [| done]. destruct (Z.leb_spec 40 v).
    + rewrite H40 by lia. unfold touched, logged. f_equal. destruct k as [[] ? ? ? ? ? ? ? ? ? ?]. unfold over. simpl.
      by rewrite <- app_assoc.
    + rewrite H34 by lia. f_equal.
Qed.
Lemma device_interrupt_eq r k v err base :
  interruptible r k base -> 33 <= v < 48 -> kbd_ok (kbd k) -> gs_set k ->
  let s := u8 (hw_dev_in (hw k) (hw_in_pos (hw k)) 0x60) in
  exists b, kbd_ok b /\
    take_interrupt v err (Machine r k) =
      Ret tt (Machine r (touched (set_mem (mem_of (entered r k v err base)) k) b
        (if v =? 33 then S (hw_in_pos (hw k)) else hw_in_pos (hw k)) (hw_out (hw k) ++ acks v))) /\
    kbd_chars b = if (v =? 33) && negb (scan_char s =? 0) then enqueue (scan_char s) (kbd_chars (kbd k))
                  else kbd_chars (kbd k).
Proof.
  intros Hi Hv Hk Hg s. assert (Hw : word v) by (unfold word; lia).
  destruct (entered_frame r k v err base Hi Hw) as (Hc & Hn & _). set (k1 := entered r k v err base) in *.
  assert (E1 : hw_dev_in (hw k1) = hw_dev_in (hw k) /\ hw_in_pos (hw k1) = hw_in_pos (hw k) /\
               hw_out (hw k1) = hw_out (hw k) /\ kbd k1 = kbd k).
  { unfold k1, entered. by destruct (from_user _). }
  destruct E1 as (D1 & D2 & D3 & D4).
  destruct (device_handled k1 (frame base) v) as (b & Hb & E & Hq); [rewrite Hn; apply u8_small; lia | done | by rewrite D4 |].
  rewrite D1, D2, D4 in Hq. rewrite D2, D3 in E. exists b. split; [done |]. split; [| exact Hq].
  destruct (frame_range base (in_room _ _ _ Hi)) as (F1 & F2 & F3 & F4). pose proof (in_room _ _ _ Hi).
  rewrite (take_interrupt_spec r k v err base _ _ Hi Hw E) by (done || lia).
  unfold k1 at 2. rewrite leave_touched by done. apply (f_equal sv_regs) in Hc. f_equal. f_equal. exact Hc.
Qed.

(** *** System calls *)

Definition syscall_words (r : regs) : list Z :=
  [r11 r; rcx r; rbp r; rbx r; r12 r; r13 r; r14 r; r15 r; rdi r; rsi r; rdx r].
Definition SYSCALL_BYTES : Z := 88.

Lemma syscall_save_spec r k ks :
  rsp r = ks -> SYSCALL_BYTES <= ks < 2 ^ 64 ->
  syscall_save (Machine r k) = Ret tt (Machine (r <| rsp := ks - SYSCALL_BYTES |>)
    (set_mem (snd (push_words ks (syscall_words r) (mem_of k))) k)).
Proof.
  unfold SYSCALL_BYTES. intros Hr Hk. transitivity (Ret tt (fold_left (fun s v => pushed v s) (syscall_words r) (Machine r k))).
  - unfold syscall_save. destruct r. unfold syscall_words.
    cbn [m_regs rax rbx rcx rdx rbp rsi rdi r8 r9 r10 r11 r12 r13 r14 r15 fold_left].
    do 10 (erewrite bind_push by reflexivity). by erewrite push_ret by reflexivity.
  - rewrite pushed_words; cbn [m_regs m_kernel]; rewrite Hr; change (length (syscall_words r)) with 11%nat; [done | lia].
Qed.

Lemma syscall_restore_spec r k p :
  rsp r = p -> 0 <= p -> p + SYSCALL_BYTES < 2 ^ 64 ->
  let w := fun i => ld64 (mem_of k) (p + i) in
  syscall_restore (Machine r k) = Ret tt (Machine
    (Regs (rax r) (w 56) (w 72) (w 0) (w 64) (w 8) (w 16) (r8 r) (r9 r) (r10 r) (w 80) (w 48) (w 40) (w 32) (w 24)
      (p + SYSCALL_BYTES) (rip r)) k).
Proof.
  unfold SYSCALL_BYTES. intros Hp H0 H1. unfold syscall_restore. destruct r. cbn in Hp. subst.
  pop_at p 0.
  pop_at p 8.
  pop_at p 16.
  pop_at p 24.
  pop_at p 32.
  pop_at p 40.
  pop_at p 48.
  pop_at p 56.
  pop_at p 64.
  pop_at p 72.
  rewrite (pop_ret _ (p + 80) (p + 88)); [| cbn [rsp m_regs]; lia | lia | lia | lia].
  reflexivity.
Qed.

Lemma gs_load_spec f r k cpu c :
  current_cpu k cpu -> s_cpus (sched k) !! cpu = Some c -> gs_load f (Machine r k) = Ret (f c) (Machine r k).
Proof.
  intros Hc Hs. unfold gs_load, on_kernel. cbn [m_kernel]. rewrite (bind_ret _ _ _ _ _ (cpu_get_spec k cpu Hc)).
  by rewrite (bind_ret _ _ _ _ _ (cpu_load_spec k cpu c Hs ltac:(destruct Hc; lia))).
Qed.

Lemma gs_store_spec f r k cpu c :
  current_cpu k cpu -> s_cpus (sched k) !! cpu = Some c ->
  gs_store f (Machine r k) = Ret tt (Machine r (set_cpu cpu (f c) k)).
Proof.
  intros Hc Hs. unfold gs_store, on_kernel. cbn [m_kernel]. rewrite (bind_ret _ _ _ _ _ (cpu_get_spec k cpu Hc)).
  by rewrite (cpu_update_spec k cpu c f Hs ltac:(destruct Hc; lia)).
Qed.

(** The frame the return goes through. *)
Definition exit_words (r : regs) (user : Z) : list Z := [0x1B; user; r11 r; 0x23; rcx r].

Lemma syscall_exit_spec r k ks cpu c :
  rsp r = ks -> SYSCALL_BYTES <= ks < 2 ^ 64 -> current_cpu k cpu -> s_cpus (sched k) !! cpu = Some c ->
  word (c_user_rsp c) -> word (r11 r) -> word (rcx r) ->
  syscall_exit (Machine r k) =
    Ret tt (Machine (r <| rax := c_user_rsp c |> <| rip := rcx r |> <| rsp := c_user_rsp c |>)
      (set_segments 0x23 0x1B (r11 r)
        (swapped (set_mem (snd (push_words ks (exit_words r (c_user_rsp c)) (mem_of k))) k)))).
Proof.
  unfold SYSCALL_BYTES. intros Hr Hk Hc Hs W1 W2 W3. unfold syscall_exit. rewrite bind_push_value.
  set (u := c_user_rsp c) in *. set (s1 := pushed 0x1B (Machine r k)).
  assert (E : gs_load c_user_rsp s1 = Ret u s1) 
    by exact (gs_load_spec c_user_rsp (m_regs s1) (m_kernel s1) cpu c Hc Hs).
  rewrite (bind_ret _ _ _ _ _ E). unfold set_reg at 1. rewrite bind_modify.
  rewrite (bind_push _ u) by reflexivity. rewrite (bind_push _ (r11 r)) by reflexivity.
  rewrite bind_push_value, (bind_push _ (rcx r)) by reflexivity.
  set (r' := r <| rax := u |>).
  set (s2 := pushed (rcx r) _).
  assert (E2 : s2 = fold_left (fun s v => pushed v s) (exit_words r u) (Machine r' k)) by reflexivity.
  rewrite E2, pushed_words by (cbn [m_regs]; change (rsp r') with (rsp r); simpl; lia). clear E E2 s1 s2.
  cbn [m_regs m_kernel]. change (rsp r') with (rsp r). rewrite Hr. change (length (exit_words r u)) with 5%nat.
  destruct (push_words_spec (exit_words r u) ks (mem_of k)) as (_ & _ & Hw).
  set (m := snd (push_words ks (exit_words r u) (mem_of k))) in *.
  rewrite (bind_ret _ _ _ tt (Machine (r' <| rsp := ks - 8 * Z.of_nat 5 |>) (swapped (set_mem m k)))) by reflexivity.
  rewrite (iretq_spec _ (ks - 40)) by (cbn; lia). cbn [m_kernel m_regs].
  change (mem_of (swapped (set_mem m k))) with m.
  assert (G : forall j v i, exit_words r u !! j = Some v -> i = 32 - 8 * Z.of_nat j -> word v -> ld64 m (ks - 40 + i) = v).
  { intros j v i Hj -> Hv. rewrite <- (u64_small v) by done. rewrite <- (Hw j v Hj). f_equal. lia. }
  rewrite (G 4%nat (rcx r) 0), (G 3%nat 0x23 8), (G 2%nat (r11 r) 16), (G 1%nat u 24), (G 0%nat 0x1B 32) by done.
  reflexivity.
Qed.

(** The kernel when the handler of a system call is called. *)
Definition syscall_regs (r : regs) (k : kernel) : regs := r <| rcx := rip r |> <| r11 := hw_rflags (hw k) |>.
Definition in_syscall (r : regs) (k : kernel) (cpu : Z) (c : cpu_t) : kernel :=
  let h := hw k in
  let msr := fun i => default 0 (hw_msr h !! i) in
  let cs := Z.land (Z.shiftr (msr MSR_STAR) 32) 0xFFFC in
  set_mem (snd (push_words (c_kernel_stack c) (syscall_words (syscall_regs r k)) (mem_of k)))
    (set_cpu cpu (c <| c_user_rsp := rsp r |>)
      (swapped (set_segments cs (cs + 8) (Z.land (hw_rflags h) (Z.lnot (msr MSR_SFMASK))) k))).

Record syscall_ready (r : regs) (k : kernel) (cpu : Z) (c : cpu_t) : Prop := {
  sy_cpu : current_cpu (swapped k) cpu;
  sy_record : s_cpus (sched k) !! cpu = Some c;
  sy_stack : SYSCALL_BYTES <= c_kernel_stack c < 2 ^ 64;
  sy_words : words_ok (running (Machine r k))
}.

Lemma call_void_spec f s k' :
  f (m_regs s) (m_kernel s) = Ret tt k' -> call_void f s = Ret tt (Machine (clobbered (m_regs s)) k').
Proof. intros E. destruct s as [r k]. unfold call_void, on_kernel, set_reg, mbind, M_bind, gets, modify. cbn [m_regs m_kernel] in *. by rewrite E. Qed.

Lemma syscall_called fuel r k cpu c k4 :
  syscall_ready r k cpu c ->
  syscall_handler fuel (rax r) (rdi r) (rsi r) (rdx r) (in_syscall r k cpu c) = Ret tt k4 ->
  exists r', rsp r' = c_kernel_stack c - SYSCALL_BYTES /\
    take_syscall fuel (Machine r k) = (syscall_restore;; syscall_exit) (Machine r' k4).
Proof.
  intros [Hc Hs Hk _] E. unfold take_syscall.
  set (msr := fun i => default 0 (hw_msr (hw k) !! i)). set (cs := Z.land (Z.shiftr (msr MSR_STAR) 32) 0xFFFC).
  set (k0 := set_segments cs (cs + 8) (Z.land (hw_rflags (hw k)) (Z.lnot (msr MSR_SFMASK))) k).
  set (r1 := (syscall_regs r k) <| rip := msr MSR_LSTAR |>). set (ks := c_kernel_stack c) in *.
  assert (E0 : enter_syscall (Machine r k) = Ret tt (Machine r1 k0)) by reflexivity.
  rewrite (bind_ret _ _ _ _ _ E0). unfold syscall_entry.
  assert (E1 : swapgs (Machine r1 k0) = Ret tt (Machine r1 (swapped k0))) by reflexivity.
  rewrite (bind_ret _ _ _ _ _ E1). unfold reg at 1. rewrite bind_gets. cbn [m_regs]. change (rsp r1) with (rsp r).
  rewrite (bind_ret _ _ _ _ _ (gs_store_spec _ r1 (swapped k0) cpu c Hc Hs)).
  set (k2 := set_cpu cpu (c <| c_user_rsp := rsp r |>) (swapped k0)).
  assert (E3 : gs_load c_kernel_stack (Machine r1 k2) = Ret ks (Machine r1 k2)).
  { rewrite (gs_load_spec c_kernel_stack r1 k2 cpu (c <| c_user_rsp := rsp r |>) Hc); [done |]. simpl. apply lookup_insert_eq. }
  rewrite (bind_ret _ _ _ _ _ E3). unfold set_reg. rewrite bind_modify. cbn [m_regs m_kernel over].
  assert (Hsp : rsp (r1 <| rsp := ks |>) = ks) by (by destruct r).
  rewrite (bind_ret _ _ _ _ _ (syscall_save_spec _ k2 ks Hsp Hk)).
  rewrite !bind_modify. 
  match goal with |- context [(call_void ?f ≫= _) ?s] =>
    assert (Ec : call_void f s = Ret tt (Machine (clobbered (m_regs s)) k4)) by (apply call_void_spec; exact E)
  end.
  rewrite (bind_ret _ _ _ _ _ Ec). eexists. split; [| reflexivity]. by destruct r.
Qed.

(** A call the handler returns from: not the exit, and a string that is neither
    on the screen nor in the frame of the call. *)
Record syscall_ok (fuel : nat) (r : regs) (k : kernel) (ks : Z) : Prop := {
  so_console : con_ready k;
  so_screen : ks <= framebuffer (console k) \/ fb_end (console k) <= ks - SYSCALL_BYTES;
  so_returns : rax r <> 2;
  so_string : rax r = 1 -> exists s, string_at (mem_of k) (rdi r) s /\ Forall (fun c => 0 < c < 128) s /\
    (length s < fuel)%nat /\
    (rdi r + Z.of_nat (length s) + 1 <= framebuffer (console k) \/ fb_end (console k) <= rdi r) /\
    (rdi r + Z.of_nat (length s) + 1 <= ks - SYSCALL_BYTES \/ ks <= rdi r)
}.

Lemma in_syscall_frame r k cpu c :
  let ks := c_kernel_stack c in
  agree_out (ks - SYSCALL_BYTES) ks (mem_of k) (mem_of (in_syscall r k cpu c)) /\
  forall j v, syscall_words (syscall_regs r k) !! j = Some v -> word v ->
    ld64 (mem_of (in_syscall r k cpu c)) (ks - SYSCALL_BYTES + (80 - 8 * Z.of_nat j)) = v.
Proof.
  intros ks. destruct (push_words_spec (syscall_words (syscall_regs r k)) ks (mem_of k)) as (E & A & W). rewrite E in A.
  unfold SYSCALL_BYTES. split; [exact A |]. intros j v Hj Hv. rewrite <- (u64_small v) by done. rewrite <- (W j v Hj).
  unfold in_syscall. f_equal. fold ks. lia.
Qed.

Lemma syscall_runs fuel r k cpu c :
  syscall_ready r k cpu c -> syscall_ok fuel r k (c_kernel_stack c) ->
  exists k4, syscall_handler fuel (rax r) (rdi r) (rsi r) (rdx r) (in_syscall r k cpu c) = Ret tt k4 /\
    drawn (in_syscall r k cpu c) k4.
Proof.
  intros [_ _ _ Hw] [Hcon _ H2 H1]. destruct (in_syscall_frame r k cpu c) as [A _].
  assert (Hc3 : con_ready (in_syscall r k cpu c)) by exact Hcon.
  destruct (decide (rax r = 1)) as [E | Hne].
  - destruct (H1 E) as (s & Hs & Hch & Hf & D1 & D2). rewrite E.
    destruct (syscall_print_spec fuel (in_syscall r k cpu c) (rdi r) (rsi r) (rdx r) s) as (k4 & E4 & D & _); eauto.
    eapply string_at_agree; [| exact Hs]. eapply agree_out_disj; [| exact A]. lia.
  - destruct (syscall_report_spec fuel (in_syscall r k cpu c) (rax r) (rdi r) (rsi r) (rdx r)) as (ds & k4 & _ & E4 & D & _); eauto.
    unfold words_ok, saved_registers in Hw. cbn in Hw. 
    by repeat (apply Forall_cons in Hw as [?H Hw]).
Qed.

(** The registers after a call: those the code uses itself are lost. *)
Definition after_syscall (r : regs) (k : kernel) (x8 x9 x10 : Z) : regs :=
  r <| rax := rsp r |> <| rcx := rip r |> <| r8 := x8 |> <| r9 := x9 |> <| r10 := x10 |> <| r11 := hw_rflags (hw k) |>.

Lemma syscall_restored r k cpu c r' m4 x y :
  let ks := c_kernel_stack c in
  let k3 := in_syscall r k cpu c in
  syscall_ready r k cpu c -> rsp r' = ks - SYSCALL_BYTES ->
  agree (ks - SYSCALL_BYTES) ks (mem_of k3) m4 ->
  syscall_restore (Machine r' (set_cursor x y (set_mem m4 k3))) = Ret tt (Machine
    ((after_syscall r k (r8 r') (r9 r') (r10 r')) <| rax := rax r' |> <| rsp := ks |> <| rip := rip r' |>)
    (set_cursor x y (set_mem m4 k3))).
Proof.
  intros ks k3 [_ _ Hk Hw] Hr A. fold ks in Hk. destruct (in_syscall_frame r k cpu c) as [_ W]. fold k3 ks in W.
  rewrite (syscall_restore_spec _ _ (ks - SYSCALL_BYTES) Hr) by lia. cbv zeta.
  change (mem_of (set_cursor x y (set_mem m4 k3))) with m4. f_equal. f_equal.
  assert (G : forall i v, syscall_words (syscall_regs r k) !! Z.to_nat ((80 - i) / 8) = Some v ->
    i = 80 - 8 * Z.of_nat (Z.to_nat ((80 - i) / 8)) -> 0 <= i <= 80 -> word v -> ld64 m4 (ks - SYSCALL_BYTES + i) = v).
  { intros i v Hj Hi Hi' Hv. rewrite (ld64_agree (ks - SYSCALL_BYTES) ks (mem_of k3) m4) by (done || unfold SYSCALL_BYTES; lia).
    rewrite <- (W _ v Hj Hv), <- Hi. done. }
  unfold words_ok, saved_registers in Hw. cbn in Hw. repeat (apply Forall_cons in Hw as [?H Hw]).
  rewrite (G 56 (rbx r)), (G 72 (rip r)), (G 0 (rdx r)), (G 64 (rbp r)), (G 8 (rsi r)), (G 16 (rdi r)) by (done || lia).
  rewrite (G 80 (hw_rflags (hw k))), (G 48 (r12 r)), (G 40 (r13 r)), (G 32 (r14 r)), (G 24 (r15 r)) by (done || lia).
  replace (ks - SYSCALL_BYTES + SYSCALL_BYTES) with ks by lia. reflexivity.
Qed.
End Asm.

(** ** Theorems *)

(** C29: an interrupt of a device other than the timer is invisible to the
    code it interrupts, in user or in kernel mode: every register, the segments,
    the flags and the GS bases are what they were, whatever the handlers leave
    in the registers; outside the frame on the kernel's stack no memory has
    changed.  The keyboard's character is queued, and the controllers are
    acknowledged. *)
Theorem device_interrupt_transparent scratch r k v err base :
  interruptible r k base -> 33 <= v < 48 -> kbd_ok (kbd k) -> gs_set k ->
  let s := u8 (hw_dev_in (hw k) (hw_in_pos (hw k)) 0x60) in
  exists m b, kbd_ok b /\ agree_out (frame base) (frame_top base) (mem_of k) m /\
    take_interrupt scratch v err (Machine r k) =
      Ret tt (Machine r (touched (set_mem m k) b
        (if v =? 33 then S (hw_in_pos (hw k)) else hw_in_pos (hw k)) (hw_out (hw k) ++ acks v))) /\
    kbd_chars b = if (v =? 33) && negb (scan_char s =? 0) then enqueue (scan_char s) (kbd_chars (kbd k))
                  else kbd_chars (kbd k).
Proof.
  intros Hi Hv Hk Hg s. destruct (entered_frame r k v err base Hi) as (_ & _ & Ha); [unfold word; lia |].
  destruct (device_interrupt_eq scratch r k v err base Hi Hv Hk Hg) as (b & Hb & E & Hq).
  exists (mem_of (entered r k v err base)), b. by split_and!.
Qed.

(** C30: a system call comes back to the instruction after it, in user mode, with
    the caller's stack pointer, flags, GS bases and argument registers and every
    register a C caller relies on; the registers SYSCALL itself uses hold the
    return address and the flags, and rax holds the caller's stack pointer, not a
    result.  Memory changes only in the frame on the kernel's stack and on the
    screen. *)
Theorem syscall_roundtrip scratch fuel r k cpu c :
  syscall_ready r k cpu c -> syscall_ok fuel r k (c_kernel_stack c) -> gs_set k ->
  let ks := c_kernel_stack c in
  exists m x y x8 x9 x10,
    take_syscall scratch fuel (Machine r k) =
      Ret tt (Machine (after_syscall r k x8 x9 x10)
        (set_segments 0x23 0x1B (hw_rflags (hw k))
          (set_cursor x y (set_mem m (set_cpu cpu (c <| c_user_rsp := rsp r |>) k))))) /\
    (forall b, ~ (ks - SYSCALL_BYTES <= b < ks) -> ~ (framebuffer (console k) <= b < fb_end (console k)) ->
       ld8 m b = ld8 (mem_of k) b).
Proof.
  intros Hr Ho [G1 G2] ks. destruct (syscall_runs fuel r k cpu c Hr Ho) as (k4 & E4 & m4 & x & y & -> & A4).
  destruct (syscall_called scratch fuel r k cpu c _ Hr E4) as (r' & Hr' & E).
  destruct (in_syscall_frame r k cpu c) as [A3 _]. fold ks in Hr', A3. pose proof (so_screen _ _ _ _ Ho) as Hd. fold ks in Hd.
  set (k3 := in_syscall r k cpu c) in *. change (framebuffer (console k3)) with (framebuffer (console k)) in A4.
  change (fb_end (console k3)) with (fb_end (console k)) in A4.
  assert (A : agree (ks - SYSCALL_BYTES) ks (mem_of k3) m4) by (eapply agree_out_disj; [| exact A4]; lia).
  rewrite E, (bind_ret _ _ _ _ _ (syscall_restored r k cpu c r' m4 x y Hr Hr' A)).
  match goal with |- context [syscall_exit (Machine ?R _)] => set (r5 := R) end.
  fold k3. set (k5 := set_cursor x y (set_mem m4 k3)).
  set (c' := c <| c_user_rsp := rsp r |>). pose proof Hr as [Hc Hs Hk Hw]. fold ks in Hk.
  unfold words_ok, saved_registers in Hw. cbn in Hw. repeat (apply Forall_cons in Hw as [?H Hw]).
  rewrite (syscall_exit_spec r5 k5 ks cpu c'); [| by destruct r | done | done | apply lookup_insert_eq | done | by destruct r | by destruct r].
  destruct (push_words_spec (exit_words r5 (c_user_rsp c')) ks (mem_of k5)) as (Ep & Ap & _). rewrite Ep in Ap.
  set (m5 := snd (push_words ks (exit_words r5 (c_user_rsp c')) (mem_of k5))) in *.
  exists m5, x, y, (r8 r'), (r9 r'), (r10 r'). split.
  - pose proof (swap_bases_twice _ G1 G2) as Es. f_equal. f_equal.
    unfold k5, k3, in_syscall.
    transitivity (set_segments 35 27 (hw_rflags (hw k)) (set_cursor x y (set_mem m5 (set_cpu cpu c' k)))
      <| hw ::= fun h => h <| hw_msr := swap_bases (swap_bases (hw_msr h)) |> |>); [reflexivity |].
    unfold over. simpl. rewrite Es. reflexivity.
  - intros b Hb Hf. rewrite Ap by (simpl; unfold SYSCALL_BYTES in *; lia). change (mem_of k5) with m4. rewrite A4, A3 by lia. done.
Qed.

(** User code at 0x400000 on a processor with its record at 0x6000, while the
    keyboard sends the code of [l]. *)
Definition user_regs : regs := Regs 1 2 3 4 5 6 7 8 9 10 11 12 13 14 15 0x7000 0x400000.
Definition user_kernel : kernel :=
  typed_ls <| hw ::= fun h => h <| hw_cs := 0x23 |> <| hw_ss := 0x1B |> <| hw_rflags := 0x202 |>
      <| hw_gdtr := (127, 0x6000 + CPU_GDT) |>
      <| hw_msr := <[MSR_KERNEL_GS_BASE := 0x6000]> {[MSR_GS_BASE := 0]} |> |>
    <| sched ::= fun s => s <| s_cpus := {[0x6000 := zero_cpu <| c_rsp0 := 0x9008 |> <| c_kernel_stack := 0x9008 |>]} |> |>.

Lemma user_interruptible : interruptible user_regs user_kernel 0x9008.
Proof.
  constructor; [| lia | repeat constructor; by vm_compute].
  exists (zero_cpu <| c_rsp0 := 0x9008 |> <| c_kernel_stack := 0x9008 |>). split_and!; by vm_compute.
Qed.

Lemma device_interrupt_transparent_witness :
  exists m b, take_interrupt (fun r => r) 0x21 0 (Machine user_regs user_kernel) =
      Ret tt (Machine user_regs (touched (set_mem m user_kernel) b 1 [(0x20, 0x20)])) /\
    kbd_chars b = chars "l".
Proof.
  destruct (device_interrupt_transparent (fun r => r) user_regs user_kernel 0x21 0 0x9008 user_interruptible)
    as (m & b & _ & _ & E & Hc); [lia | exact (initial_kbd_ok _) | split; by eexists |].
  exists m, b. split; [exact E | exact Hc].
Defined.

(** The same code asks for an empty string to be printed. *)
Definition calling_kernel : kernel := small_screen <| hw := hw user_kernel |> <| sched := sched user_kernel |>.
Definition calling_cpu : cpu_t := zero_cpu <| c_rsp0 := 0x9008 |> <| c_kernel_stack := 0x9008 |>.

Lemma syscall_roundtrip_witness :
  exists k' x8 x9 x10, take_syscall (fun r => r) 1 (Machine user_regs calling_kernel) =
    Ret tt (Machine (after_syscall user_regs calling_kernel x8 x9 x10) k').
Proof.
  destruct (syscall_roundtrip (fun r => r) 1 user_regs calling_kernel 0x6000 calling_cpu)
    as (m & x & y & x8 & x9 & x10 & E & _).
  - constructor; [by vm_compute | by vm_compute | by vm_compute | repeat constructor; by vm_compute].
  - constructor; [split; [apply small_screen_ok | reflexivity] | left; by vm_compute | by vm_compute |].
    intros _. exists []. split_and!; [split; [by intros i c Hc | by vm_compute] | done | simpl; lia | left; by vm_compute | left; by vm_compute].
  - split; by eexists.
  - exact (ex_intro _ _ (ex_intro _ x8 (ex_intro _ x9 (ex_intro _ x10 E)))).
Defined.
