(* ===== verification/System.v ===== *)
(** One processor with its interrupts, its scheduler and a fixed set of threads:
    the machine gives every thread a register set of its own.

    The threads' code is arbitrary ([runs]) as long as it stays on its own stack
    and keeps off the stacks of the others and the scheduler's data; code of the
    kernel may also put its thread to sleep; timer and device interrupts come at
    any instruction.  [sim] relates the machine to an
    abstract one that simply has a context per thread, and every step of the
    machine is a step of the abstract one. *)

From S2P Require Import Prelude Memory State Lib Pmm Heap Ring Keyboard Apic Cpu Gdt Queue Sched SchedSpec SchedProps SchedTypes SchedSleep SchedSpawn Idt Syscall Asm.

(** ** The timer *)

Lemma stacks_lookup a x t : a_thr a !! x = Some t -> stacks a !! x = Some (stack_of t).
Proof. intros H. unfold stacks. by rewrite lookup_fmap, H. Qed.

(** The kernel as the handlers see it. *)
Definition in_kernel (k : kernel) : kernel := if from_user (hw_cs (hw k)) then swapped k else k.

Lemma entered_frame_fields r k v err base :
  hw_msr (hw (entered r k v err base)) = hw_msr (hw (in_kernel k)) /\
  sched (entered r k v err base) = sched k /\ kbd (entered r k v err base) = kbd k /\
  hw_gdtr (hw (entered r k v err base)) = hw_gdtr (hw k).
Proof. unfold entered, in_kernel. by destruct (from_user _). Qed.

Lemma sched_in_kernel k : sched (in_kernel k) = sched k.
Proof. unfold in_kernel. by destruct (from_user _). Qed.

Lemma stays_alive th : stays th = true -> t_state th <> THREAD_DEAD.
Proof. unfold stays. by destruct (t_state th). Qed.

(** The kernel a timer interrupt leaves before the return. *)
Definition rescheduled (s' : sched_t) (k1 : kernel) : kernel := logged 0x20 0x20 (with_sched s' (ticked k1)).

(** A timer interrupt reschedules: the handler returns the stack pointer of the
    thread chosen, and the context of the interrupted thread is kept in its
    frame. *)
Lemma timer_handled r k err base cpu c a cur th :
  interruptible r k base -> sched_ready (in_kernel k) cpu c a cur th -> stays th = true ->
  let k1 := entered r k 0x20 err base in
  exists s' c' a' th',
    interrupt_handler (frame base) k1 = Ret (t_rsp th') (rescheduled s' k1) /\
    sched_ready (rescheduled s' k1) cpu c' a' (c_sched_thread c') th' /\ stays th' = true /\
    c_sched_thread c' :: queued a' ≡ₚ cur :: queued a /\
    stacks a' = stacks (a_update cur (fun t => t <| t_rsp := frame base |>) a) /\
    (if bool_decide (c_sched_thread c' = cur) then c_rsp0 c' = c_rsp0 c else c_rsp0 c' = t_stack_top th').
Proof.
  intros Hi Hs Hst k1. pose proof (stays_alive th Hst) as Hal.
  destruct (entered_frame r k 0x20 err base Hi) as (_ & Hn & _); [done |]. fold k1 in Hn.
  destruct (entered_frame_fields r k 0x20 err base) as (Em & Es & _). fold k1 in Em, Es.
  assert (Hs1 : sched_ready (ticked k1) cpu c a cur th).
  { apply (sched_ready_frame (in_kernel k)); [exact Em | by rewrite sched_in_kernel | done | done]. }
  destruct (sched_reschedule_queues _ cpu c a cur th (frame base) Hs1)
    as (q & k2 & c' & a' & th' & E & V & Ha' & Hc' & Hperm & _ & -> & Hlk & _ & _ & Hpick & (m' & s' & Ek & Em') & Hend).
  specialize (Em' Hal). subst m'.
  assert (Ek2 : k2 = with_sched s' (ticked k1)) by (rewrite Ek; keta k1). clear Ek. subst k2.
  exists s', c', a', th'.
  assert (Hst' : stays th' = true).
  { case_bool_decide; destruct Hend as [Ht _]; unfold stays in *; by rewrite Ht. }
  split_and!; try done.
  - destruct (interrupt_handler_irq k1 (frame base)) as (H & _). rewrite H by (by rewrite Hn).
    by rewrite (sched_yield_reschedule k1 _ _ _ E).
  - constructor; try done.
    + exact (sr_cpu _ _ _ _ _ _ Hs1).
    + by destruct V.
    + by intros Hd; apply stays_alive in Hst'.
  - by rewrite Hperm, Hst.
  - rewrite Hpick. apply each_stacks, (each_chosen same_stack).
  - case_bool_decide; apply Hend.
Qed.

(** ** The abstract machine *)

(** A context per thread, the running one's included. *)
Record threads_t := Threads { ab_current : Z; ab_context : gmap Z saved }.

(** What happens: the running thread executes, the timer or a device
    interrupts. *)
Inductive event := Run | Timer | Device.

(** Only code changes a context, and only the running thread's; the timer may
    give the processor to another thread; a device changes nothing. *)
Inductive abs_step : event -> threads_t -> threads_t -> Prop :=
| abs_run cur g x : abs_step Run (Threads cur g) (Threads cur (<[cur := x]> g))
| abs_timer cur next g : is_Some (g !! next) -> abs_step Timer (Threads cur g) (Threads next g)
| abs_device A : abs_step Device A A.

(** A run of either machine. *)
Inductive exec {S} (R : event -> S -> S -> Prop) : list event -> S -> S -> Prop :=
| exec_nil s : exec R [] s s
| exec_cons e evs s1 s2 s3 : R e s1 s2 -> exec R evs s2 s3 -> exec R (e :: evs) s1 s3.

Section System.
Context (scratch : regs -> regs) (cpu : Z) (members : list Z) (lo hi : Z -> Z).

(** Every thread has a stack of its own. *)
Record stacks_apart : Prop := {
  ap_range : forall x, x ∈ members -> 0 <= lo x /\ hi x < 2 ^ 64;
  ap_apart : forall x y, x ∈ members -> y ∈ members -> x <> y -> hi x <= lo y \/ hi y <= lo x
}.
Context (Hap : stacks_apart).

(** [base] leaves room for a frame on the stack of [x]. *)
Definition room (x base : Z) : Prop := lo x + 192 <= base <= hi x.

(** A waiting thread with stack pointers [p]: its context is on its stack, and
    once resumed it will be interrupted on its own stack. *)
Record suspended (m : mem) (x : Z) (p : Z * Z) : Prop := {
  su_frame : lo x <= fst p /\ fst p + CTX_BYTES <= hi x;
  su_room : room x (if from_user (ctx_cs m (fst p)) then snd p else rsp (ctx_regs m (fst p)))
}.

(** The running thread [x] of machine [s] can be interrupted; a thread that runs
    user code has its kernel stack in its record. *)
Definition on_stack (s : machine) (x : Z) : Prop :=
  (exists base, interruptible (m_regs s) (m_kernel s) base /\ room x base) /\
  forall t, from_user (hw_cs (hw (m_kernel s))) = true -> s_threads (sched (m_kernel s)) !! x = Some t ->
    room x (t_stack_top t).

(** The machine [s] implements the threads of [A]. *)
Record sim (s : machine) (A : threads_t) : Prop := {
  sm_sched : exists c a th, sched_ready (in_kernel (m_kernel s)) cpu c a (ab_current A) th /\ stays th = true /\
    ab_current A :: queued a ≡ₚ members /\
    forall x p, x ∈ queued a -> stacks a !! x = Some p -> 
      suspended (mem_of (m_kernel s)) x p /\ ab_context A !! x = Some (context_at (mem_of (m_kernel s)) (fst p));
  sm_running : ab_context A !! ab_current A = Some (running s);
  sm_stack : on_stack s (ab_current A);
  sm_gs : gs_set (m_kernel s);
  sm_gdt : snd (hw_gdtr (hw (m_kernel s))) = cpu + CPU_GDT;
  sm_kbd : kbd_ok (kbd (m_kernel s))
}.

(** The current thread of a machine. *)
Definition current (s : machine) (x : Z) : Prop :=
  exists c, s_cpus (sched (m_kernel s)) !! cpu = Some c /\ c_sched_thread c = x.

(** The code of the running thread, user or kernel, from one instruction to
    another. *)
Record runs (s s' : machine) : Prop := {
  rn_sched : sched (m_kernel s') = sched (m_kernel s);
  rn_msr : hw_msr (hw (in_kernel (m_kernel s'))) !! MSR_GS_BASE = hw_msr (hw (in_kernel (m_kernel s))) !! MSR_GS_BASE;
  rn_gs : gs_set (m_kernel s');
  rn_gdt : hw_gdtr (hw (m_kernel s')) = hw_gdtr (hw (m_kernel s));
  rn_kbd : kbd_ok (kbd (m_kernel s'));
  rn_stack : forall x, current s x -> on_stack s' x;
  rn_mem : forall x y, current s x -> y ∈ members -> y <> x ->
    agree (lo y) (hi y) (mem_of (m_kernel s)) (mem_of (m_kernel s'))
}.

Inductive step : event -> machine -> machine -> Prop :=
| step_run s s' : runs s s' -> step Run s s'
| step_timer s s' err : take_interrupt scratch 0x20 err s = Ret tt s' -> step Timer s s'
| step_sleep s k' ms :
    from_user (hw_cs (hw (m_kernel s))) = false -> sched_doze ms (m_kernel s) = Ret tt k' ->
    step Run s (Machine (m_regs s) k')
| step_device s s' v err : 33 <= v < 48 -> take_interrupt scratch v err s = Ret tt s' -> step Device s s'.

(** ** Lemmas *)

Lemma gs_set_swapped k : gs_set (swapped k).
Proof.
  unfold gs_set, swapped. cbn [hw hw_msr over]. assert (MSR_GS_BASE <> MSR_KERNEL_GS_BASE) by done.
  rewrite lookup_insert_eq, lookup_insert_ne, lookup_insert_eq by done. by split; eexists.
Qed.

Lemma gs_set_in_kernel k : gs_set k -> gs_set (in_kernel k).
Proof. unfold in_kernel. destruct (from_user _); [intros _; apply gs_set_swapped | done]. Qed.

Lemma leave_fields q k :
  sched (leave q k) = sched k /\ kbd (leave q k) = kbd k /\ hw_gdtr (hw (leave q k)) = hw_gdtr (hw k) /\
  mem_of (leave q k) = mem_of k /\ hw_cs (hw (leave q k)) = ctx_cs (mem_of k) q.
Proof. unfold leave. by destruct (from_user _). Qed.

(** On the way out the GS bases are swapped exactly when the next entry will
    swap them back. *)
Lemma leave_msr q k : gs_set k -> hw_msr (hw (in_kernel (leave q k))) = hw_msr (hw k).
Proof.
  intros [G1 G2]. unfold in_kernel. destruct (leave_fields q k) as (_ & _ & _ & _ & ->).
  unfold leave. destruct (from_user _); [| done]. by apply swap_bases_twice.
Qed.

Lemma leave_gs q k : gs_set k -> gs_set (leave q k).
Proof. unfold leave. destruct (from_user _); [intros _; apply gs_set_swapped | done]. Qed.

Lemma running_leave m q k : mem_of k = m -> running (Machine (ctx_regs m q) (leave q k)) = context_at m q.
Proof. intros <-. unfold leave. by destruct (from_user _). Qed.

Lemma context_words m p : words_ok (context_at m p).
Proof. unfold words_ok, context_at. simpl. repeat constructor; apply ld64_range. Qed.

Lemma suspended_agree m m' x p :
  agree (lo x) (hi x) m m' -> suspended m x p ->
  suspended m' x p /\ context_at m' (fst p) = context_at m (fst p).
Proof.
  intros Hag [Hf Hr]. pose proof (context_at_agree (fst p) (lo x) (hi x) m m' Hag ltac:(apply Hf) ltac:(apply Hf)) as E.
  split; [| exact E]. constructor; [done |]. pose proof (f_equal sv_cs E) as Ecs. pose proof (f_equal sv_regs E) as Er.
  cbn [context_at sv_cs sv_regs] in Ecs, Er. by rewrite Ecs, Er.
Qed.

Lemma sim_current s A : sim s A -> current s (ab_current A).
Proof.
  intros [(c & a & th & [_ V _ Ht _ _ _] & _) _ _ _ _ _]. destruct V as [_ Hc _]. rewrite sched_in_kernel in Hc.
  by exists c.
Qed.

(** The code of the running thread changes its context only. *)
Lemma sim_run s s' A : sim s A -> runs s s' -> exists A', abs_step Run A A' /\ sim s' A'.
Proof.
  intros HS [R1 R2 R3 R4 R5 R6 R7]. pose proof (sim_current s A HS) as Hcur. destruct A as [cur g].
  exists (Threads cur (<[cur := running s']> g)). split; [constructor |].
  destruct HS as [(c & a & th & Hs & Hst & Hperm & Hq) Hrun _ _ Hgdt _]. cbn [ab_current ab_context] in *.
  constructor; cbn [ab_current ab_context]; [| apply lookup_insert_eq | by apply R6 | done | by rewrite R4 | done].
  exists c, a, th. split_and!; [| done | done |].
  - destruct Hs as [[Hb Hc] [V1 V2 V3] Ha Ht Hl Hcu _]. rewrite sched_in_kernel in V2, V3. constructor; try done.
    + split; [done |]. by rewrite R2.
    + constructor; [done | |]; rewrite sched_in_kernel, R1; done.
    + by intros Hd; apply stays_alive in Hst.
  - intros x p Hx Hp. assert (Hne : x <> cur) by (intros ->; by apply (ac_outside _ _ _ (sr_current _ _ _ _ _ _ Hs))).
    destruct (Hq x p Hx Hp) as [Hsu Hg].
    destruct (suspended_agree _ (mem_of (m_kernel s')) x p (R7 cur x Hcur ltac:(rewrite <- Hperm; by right) Hne) Hsu) as [S1 E].
    split; [done |]. by rewrite lookup_insert_ne, E.
Qed.

(** A frame of the current thread touches no other thread's stack. *)
Lemma frame_apart x y base m m' :
  x ∈ members -> y ∈ members -> y <> x -> room x base -> 192 <= base < 2 ^ 64 ->
  agree_out (frame base) (frame_top base) m m' -> agree (lo y) (hi y) m m'.
Proof.
  intros Hx Hy Hne [R1 R2] Hb Hag. destruct (frame_range base Hb) as (F1 & F2 & F3 & F4).
  eapply agree_out_disj; [| exact Hag]. destruct (ap_apart Hap x y Hx Hy); [done | lia | lia].
Qed.

Lemma sim_device s s' A v err :
  sim s A -> 33 <= v < 48 -> take_interrupt scratch v err s = Ret tt s' -> sim s' A.
Proof.
  intros [(c & a & th & Hs & Hst & Hperm & Hq) Hrun [(base & Hi & Hro) Hus] Hgs Hgdt Hk] Hv E.
  destruct s as [r k]. cbn [m_regs m_kernel] in *. destruct A as [cur g]. cbn [ab_current ab_context] in *.
  destruct (entered_frame r k v err base Hi) as (_ & _ & Ha); [unfold word; lia |].
  destruct (device_interrupt_eq scratch r k v err base Hi Hv Hk Hgs) as (b & Hb & E' & _). rewrite E' in E.
  injection E as <-. set (m := mem_of (entered r k v err base)) in *.
  set (k' := touched _ _ _ _).
  assert (Ek : hw_msr (hw (in_kernel k')) = hw_msr (hw (in_kernel k))) 
    by (unfold in_kernel; change (hw_cs (hw k')) with (hw_cs (hw k)); by destruct (from_user _)).
  constructor; cbn [ab_current ab_context m_regs m_kernel]; try done.
  - exists c, a, th. split_and!; try done.
    + apply (sched_ready_frame (in_kernel k)); [exact Ek | by rewrite !sched_in_kernel | by apply stays_alive | done].
    + intros x p Hx Hp. assert (Hne : x <> cur) by (intros ->; by apply (ac_outside _ _ _ (sr_current _ _ _ _ _ _ Hs))).
      change (mem_of k') with m. destruct (Hq x p Hx Hp) as [Hsu Hg].
      destruct (suspended_agree (mem_of k) m x p) as [S1 E1]; [| done | by rewrite E1].
      apply (frame_apart cur x base); try done; [rewrite <- Hperm; by left | rewrite <- Hperm; by right | apply Hi].
  - split; [| done]. exists base. split; [| done]. destruct Hi as [H1 H2 H3]. by constructor.
Qed.

(** Loading the context of a suspended thread makes it the running one. *)
Lemma resume k cpu_rec a x th g :
  let m := mem_of k in
  sched_ready k cpu cpu_rec a x th -> stays th = true -> x :: queued a ≡ₚ members ->
  (forall y p, y ∈ members -> stacks a !! y = Some p -> suspended m y p /\ g !! y = Some (context_at m (fst p))) ->
  (from_user (ctx_cs m (t_rsp th)) = true -> room x (c_rsp0 cpu_rec)) ->
  gs_set k -> snd (hw_gdtr (hw k)) = cpu + CPU_GDT -> kbd_ok (kbd k) ->
  sim (Machine (ctx_regs m (t_rsp th)) (leave (t_rsp th) k)) (Threads x g).
Proof.
  intros m Hs Hst Hperm Hq Hrsp0 Hgs Hgdt Hk. destruct (leave_fields (t_rsp th) k) as (L1 & L2 & L3 & L4 & L5).
  pose proof (stacks_lookup a x th (ac_thread _ _ _ (sr_current _ _ _ _ _ _ Hs))) as Hx.
  assert (Hxm : x ∈ members) by (rewrite <- Hperm; by left).
  destruct (Hq x _ Hxm Hx) as [[Hf Hro] Hg]. cbn [stack_of fst snd] in Hf, Hro, Hg.
  constructor; cbn [ab_current ab_context m_regs m_kernel]; rewrite ?L1, ?L2, ?L3, ?L4;
    [| by rewrite running_leave | | by apply leave_gs | done | done].
  - exists cpu_rec, a, th. split_and!; try done; [| intros y p Hy; apply Hq; rewrite <- Hperm; by right].
    apply (sched_ready_frame k); [by apply leave_msr | by rewrite sched_in_kernel | by apply stays_alive | done].
  - split; cbn [m_regs m_kernel]; rewrite ?L1, ?L5; fold m.
    + exists (if from_user (ctx_cs m (t_rsp th)) then c_rsp0 cpu_rec else rsp (ctx_regs m (t_rsp th))).
      assert (Hr : room x (if from_user (ctx_cs m (t_rsp th)) then c_rsp0 cpu_rec else rsp (ctx_regs m (t_rsp th))))
        by (destruct (from_user _); auto).
      split; [| exact Hr]. destruct (ap_range Hap x Hxm). constructor; [| unfold room in Hr; lia |].
      * unfold interrupt_stack. rewrite L1, L3, L5. fold m. destruct (from_user _); [| done].
        destruct (sr_view _ _ _ _ _ _ Hs) as [V0 Vc _]. exists cpu_rec. rewrite Hgdt.
        replace (cpu + CPU_GDT - CPU_GDT) with cpu by lia. split_and!; [lia | done | done].
      * rewrite running_leave by done. apply context_words.
    + intros t Hu Ht. rewrite Hu in Hro. 
      destruct (view_thread k cpu _ a x th (sr_view _ _ _ _ _ _ Hs) (ac_thread _ _ _ (sr_current _ _ _ _ _ _ Hs))) as (t1 & Ht1 & Es).
      assert (t1 = t) as -> by congruence. destruct (strip_fields t th Es) as (_ & _ & _ & _ & _ & <-). done.
Qed.

(** When the handler has run, the interrupted thread is suspended like the
    others. *)
Lemma all_suspended r k err base c a th cur (g : gmap Z saved) a' :
  sched_ready (in_kernel k) cpu c a cur th -> cur :: queued a ≡ₚ members ->
  interruptible r k base -> room cur base ->
  (from_user (hw_cs (hw k)) = true -> room cur (t_stack_top th)) ->
  (forall x p, x ∈ queued a -> stacks a !! x = Some p ->
     suspended (mem_of k) x p /\ g !! x = Some (context_at (mem_of k) (fst p))) ->
  g !! cur = Some (running (Machine r k)) ->
  stacks a' = stacks (a_update cur (fun t => t <| t_rsp := frame base |>) a) ->
  let m := mem_of (entered r k 0x20 err base) in
  forall x p, x ∈ members -> stacks a' !! x = Some p -> suspended m x p /\ g !! x = Some (context_at m (fst p)).
Proof.
  intros Hs Hperm Hi Hro Hus Hq Hg Est m x p Hx Hp. pose proof (sr_current _ _ _ _ _ _ Hs) as [_ Hout Hc _].
  destruct (entered_frame r k 0x20 err base Hi) as (Ec & _ & Ha); [done |]. fold m in Ec, Ha.
  destruct (frame_range base (in_room _ _ _ Hi)) as (F1 & F2 & F3 & F4).
  rewrite Est in Hp. unfold stacks, a_update in Hp. cbn [a_thr over] in Hp. rewrite lookup_fmap in Hp.
  destruct (decide (x = cur)) as [-> | Hne].
  - rewrite lookup_alter_eq, Hc in Hp. injection Hp as <-. change (stack_of _) with (frame base, t_stack_top th).
    cbn [fst]. rewrite Ec. split; [| done].
    pose proof (f_equal sv_cs Ec) as Ecs. pose proof (f_equal sv_regs Ec) as Er.
    cbn [context_at running sv_cs sv_regs m_regs m_kernel] in Ecs, Er.
    destruct Hro as [R1 R2]. constructor. { cbn [fst]. lia. } cbn [fst snd]. rewrite Ecs, Er.
    pose proof (in_stack _ _ _ Hi) as Hb. unfold interrupt_stack in Hb.
    destruct (from_user _); [by apply Hus | by rewrite Hb].
  - rewrite lookup_alter_ne in Hp by done. rewrite <- lookup_fmap in Hp.
    assert (Hxq : x ∈ queued a) by (rewrite <- Hperm in Hx; by apply elem_of_cons in Hx as [|]).
    destruct (Hq x p Hxq Hp) as [Hsu Hgx].
    destruct (suspended_agree (mem_of k) m x p) as [S1 E1]; [| done | by rewrite E1].
    apply (frame_apart cur x base); try done; [rewrite <- Hperm; by left | apply Hi].
Qed.

(** User code is interrupted on the stack of the processor's record. *)
Lemma user_base r k base c :
  interruptible r k base -> s_cpus (sched k) !! cpu = Some c -> snd (hw_gdtr (hw k)) = cpu + CPU_GDT ->
  from_user (hw_cs (hw k)) = true -> c_rsp0 c = base.
Proof.
  intros [Hb _ _] Hc Hgdt Hu. unfold interrupt_stack in Hb. rewrite Hu, Hgdt in Hb. destruct Hb as (c1 & _ & Hc1 & <-).
  replace (cpu + CPU_GDT - CPU_GDT) with cpu in Hc1 by lia. congruence.
Qed.

Lemma stacks_set_rsp a x q t : a_thr a !! x = Some t ->
  stacks (a_update x (fun t => t <| t_rsp := q |>) a) !! x = Some (q, t_stack_top t).
Proof. intros H. unfold stacks. rewrite lookup_fmap. simpl. by rewrite lookup_alter_eq, H. Qed.

Lemma sim_timer s A err :
  sim s A -> exists s' A', take_interrupt scratch 0x20 err s = Ret tt s' /\ abs_step Timer A A' /\ sim s' A'.
Proof.
  intros [(c & a & th & Hs & Hst & Hperm & Hq) Hrun [(base & Hi & Hro) Hus] Hgs Hgdt Hk].
  destruct s as [r k], A as [cur g]. cbn [m_regs m_kernel ab_current ab_context] in *.
  pose proof (sr_current _ _ _ _ _ _ Hs) as [_ _ Hc _].
  destruct (timer_handled r k err base cpu c a cur th Hi Hs Hst) as (s' & c' & a' & th' & E & Hs' & Hst' & Hp' & Est & Hend).
  set (k1 := entered r k 0x20 err base) in *. set (k2 := rescheduled s' k1) in *. set (x := c_sched_thread c') in *.
  destruct (entered_frame_fields r k 0x20 err base) as (Em & _ & Ek & Eg). fold k1 in Em, Ek, Eg.
  destruct (view_thread (in_kernel k) cpu c a cur th (sr_view _ _ _ _ _ _ Hs) Hc) as (t1 & Ht1 & Es1).
  destruct (strip_fields t1 th Es1) as (_ & _ & _ & _ & _ & Etop). rewrite sched_in_kernel in Ht1.
  assert (Hall : forall y p, y ∈ members -> stacks a' !! y = Some p ->
    suspended (mem_of k2) y p /\ g !! y = Some (context_at (mem_of k2) (fst p))).
  { apply (all_suspended r k err base c a th cur g a'); try done. intros Hu. rewrite Etop. by apply Hus. }
  pose proof (stacks_lookup a' x th' (ac_thread _ _ _ (sr_current _ _ _ _ _ _ Hs'))) as Hx.
  assert (Hxm : x ∈ members) by (rewrite <- Hperm, <- Hp'; by left).
  destruct (Hall x _ Hxm Hx) as [[Hf Hr0] Hgx]. cbn [stack_of fst snd] in Hf, Hr0, Hgx.
  destruct (ap_range Hap x Hxm) as [A1 A2].
  exists (Machine (ctx_regs (mem_of k2) (t_rsp th')) (leave (t_rsp th') k2)), (Threads x g). split_and!.
  - apply (take_interrupt_spec scratch r k 0x20 err base _ _ Hi); [done | exact E | lia | lia].
  - constructor. by eexists.
  - apply (resume k2 c' a' x th' g); try done.
    + by rewrite Hp'.
    + intros Hu. rewrite Hu in Hr0. case_bool_decide as Hxc; [| by rewrite Hend].
      rewrite Hend, (user_base r k base c Hi); [by rewrite Hxc | | done |].
      * rewrite <- (sched_in_kernel k). apply Hs.
      * rewrite Hxc, Est, (stacks_set_rsp a cur _ th Hc) in Hx. injection Hx as Eq _. rewrite <- Eq in Hu.
        destruct (entered_frame r k 0x20 err base Hi) as (Ec & _ & _); [done |].
        apply (f_equal sv_cs) in Ec.
        cbn [context_at running sv_cs m_kernel] in Ec. rewrite <- Ec. exact Hu.
    + split; change (hw_msr (hw k2)) with (hw_msr (hw k1)); rewrite Em; by apply gs_set_in_kernel.
    + change (hw_gdtr (hw k2)) with (hw_gdtr (hw k1)). by rewrite Eg.
    + change (kbd k2) with (kbd k1). by rewrite Ek.
Qed.

Lemma word_setbit f : word f -> word (Z.setbit (Z.clearbit f RFLAGS_IF) RFLAGS_IF).
Proof.
  intros Hf. replace (Z.setbit (Z.clearbit f RFLAGS_IF) RFLAGS_IF) with (Z.lor f (2 ^ RFLAGS_IF)); [by apply lor_u64 |].
  apply Z.bits_inj'. intros n Hn. rewrite Z.setbit_eqb, Z.clearbit_eqb, Z.lor_spec, Z.pow2_bits_eqb by (unfold RFLAGS_IF; lia).
  destruct (RFLAGS_IF =? n), (Z.testbit f n); done.
Qed.

(** A thread of the kernel that goes to sleep changes its record and the
    interrupt flag. *)
Lemma sim_sleep s A k' ms :
  sim s A -> from_user (hw_cs (hw (m_kernel s))) = false -> sched_doze ms (m_kernel s) = Ret tt k' ->
  exists A', abs_step Run A A' /\ sim (Machine (m_regs s) k') A'.
Proof.
  intros [(c & a & th & Hs & Hst & Hperm & Hq) Hrun [(base & Hi & Hro) Hus] Hgs Hgdt Hk] Hker E.
  destruct s as [r k], A as [cur g]. cbn [m_regs m_kernel ab_current ab_context] in *.
  assert (Hin : forall k, from_user (hw_cs (hw k)) = false -> in_kernel k = k) by (intros k0 H0; unfold in_kernel; by rewrite H0).
  rewrite Hin in Hs by done.
  destruct (sched_doze_spec k cpu c a cur th ms Hs (stays_alive th Hst)) as (s' & E' & Hs'). rewrite E' in E.
  injection E as <-. set (k1 := set_rflags _ _) in *. set (target := u64 _) in *.
  exists (Threads cur (<[cur := running (Machine r k1)]> g)). split; [constructor |].
  constructor; cbn [ab_current ab_context m_regs m_kernel]; [| apply lookup_insert_eq | | done | done | done].
  - rewrite Hin by done. exists c, (a_update cur (asleep target) a), (asleep target th). split_and!; try done.
    intros x p Hx Hp. rewrite (each_stacks a) in Hp by (by apply (each_update same_stack)).
    destruct (Hq x p Hx Hp) as [Hsu Hg]. split; [exact Hsu |]. rewrite lookup_insert_ne; [done |].
    intros <-. by apply (ac_outside _ _ _ (sr_current _ _ _ _ _ _ Hs)).
  - destruct Hi as [H1 H2 H3]. split; cbn [m_regs m_kernel].
    + exists base. split; [| done]. constructor; [| done |].
      * unfold interrupt_stack in *. change (hw_cs (hw k1)) with (hw_cs (hw k)). by rewrite Hker in *.
      * unfold words_ok in *. rewrite Forall_app in *. destruct H3 as [H3 H4]. split; [exact H3 |].
        unfold running in *. cbn [sv_regs sv_ss sv_rflags sv_cs m_regs m_kernel] in *.
        rewrite !Forall_cons in *. destruct H4 as (W1 & W2 & W3 & W4).
        split; [exact W1 |]. split; [exact W2 |]. split; [exact (word_setbit _ W3) | exact W4].
    + intros t Hu. change (hw_cs (hw k1)) with (hw_cs (hw k)) in Hu. congruence.
Qed.

Lemma sim_step e s s' A : sim s A -> step e s s' -> exists A', abs_step e A A' /\ sim s' A'.
Proof.
  intros HS Hstep. destruct Hstep as [s s' Hr | s s' err E | s k' ms Hker E | s s' v err Hv E].
  - by apply (sim_run s).
  - destruct (sim_timer s A err HS) as (s1 & A' & E1 & Ha & HS'). exists A'. split; [done |]. congruence.
  - by apply (sim_sleep s A k' ms).
  - exists A. split; [constructor | by apply (sim_device s _ A v err)].
Qed.

(** Interrupts come back. *)
Lemma sim_returns s A v err : sim s A -> 32 <= v < 48 -> exists s', take_interrupt scratch v err s = Ret tt s'.
Proof.
  intros HS Hv. destruct (decide (v = 32)) as [-> |].
  - destruct (sim_timer s A err HS) as (s' & _ & E & _). by exists s'.
  - destruct HS as [_ _ [(base & Hi & _) _] Hgs _ Hk]. destruct s as [r k].
    destruct (device_interrupt_eq scratch r k v err base Hi ltac:(lia) Hk Hgs) as (b & _ & E & _). by eexists.
Qed.
End System.

(** ** Theorems *)

(** C5: however the threads' code, going to sleep, the timer and the devices
    interleave, the machine behaves like one with a register set per thread.  From
    a state in which every waiting thread's context is on its own stack, any run
    is matched event by event by the abstract machine, in which a timer interrupt
    changes nothing but which thread runs and a device interrupt nothing at all:
    a thread that gets the processor has the registers, segments and flags it had
    when it lost it.  Every further interrupt returns. *)
Theorem threads_refined scratch cpu members lo hi evs s s' A :
  stacks_apart members lo hi -> sim cpu members lo hi s A -> exec (step scratch cpu members lo hi) evs s s' ->
  exists A', exec abs_step evs A A' /\ ab_context A' !! ab_current A' = Some (running s') /\
    current cpu s' (ab_current A') /\ sim cpu members lo hi s' A' /\
    forall v err, 32 <= v < 48 -> exists s'', take_interrupt scratch v err s' = Ret tt s''.
Proof.
  intros Hap HS Hsteps. revert A HS. induction Hsteps as [s | e evs s s1 s' H1 _ IH]; intros A HS.
  - exists A. split_and!; [constructor | apply HS | by apply (sim_current cpu members lo hi) | done |].
    intros v err Hv. by apply (sim_returns scratch cpu members lo hi Hap s A).
  - destruct (sim_step scratch cpu members lo hi Hap e s s1 A HS H1) as (A1 & Ha & HS1).
    destruct (IH A1 HS1) as (A' & Hr & HA'). exists A'. split; [by econstructor | done].
Qed.

(** The processor of [demo] with its four threads, each on a page of stack; the
    idle thread runs and the others wait with the context a call of the scheduler
    left. *)
Definition demo_members : list Z := [0x2000; 0x3000; 0x4000; 0x5000].
Definition demo_lo (x : Z) : Z := x - 0x1000.
Definition demo_hi (x : Z) : Z := x.
Definition demo_mem : mem :=
  st64 (st64 (st64 ∅ (0x2F00 + 160) 0x2FB0) (0x3F00 + 160) 0x3FB0) (0x4F00 + 160) 0x4FB0.
Definition demo_regs : regs := Regs 1 2 3 4 5 6 7 8 9 10 11 12 13 14 15 0x1F80 0x7777.
Definition demo_kernel : kernel :=
  demo <| hw ::= fun h => h <| hw_mem := demo_mem |> <| hw_gdtr := (127, 0x1000 + CPU_GDT) |>
    <| hw_msr := <[MSR_KERNEL_GS_BASE := 0]> {[MSR_GS_BASE := 0x1000]} |> |>.
Definition demo_machine : machine := Machine demo_regs demo_kernel.
Definition demo_contexts : gmap Z saved :=
  list_to_map [(0x2000, running demo_machine); (0x3000, context_at demo_mem 0x2F00);
    (0x4000, context_at demo_mem 0x3F00); (0x5000, context_at demo_mem 0x4F00)].

Lemma demo_apart : stacks_apart demo_members demo_lo demo_hi.
Proof.
  unfold demo_members, demo_lo, demo_hi.
  constructor; [intros x Hx | intros x y Hx Hy]; set_unfold; lia.
Qed.

Lemma demo_sim : sim 0x1000 demo_members demo_lo demo_hi demo_machine (Threads 0x2000 demo_contexts).
Proof.
  constructor; cbn [ab_current ab_context].
  - exists demo_cpu, demo_queues, demo_idle. split_and!.
    + destruct demo_ready as [_ V1 V2 V3 V4 V5 V6]. constructor; try done. by destruct V1.
    + done.
    + apply (bool_decide_unpack _). by vm_compute.
    + intros x p Hx Hp. assert (Hx' : x = 0x3000 \/ x = 0x4000 \/ x = 0x5000).
      { revert Hx. vm_compute. set_solver. }
      destruct Hx' as [-> | [-> | ->]]; vm_compute in Hp; injection Hp as <-;
        (split; [constructor; by vm_compute | by vm_compute]).
  - by vm_compute.
  - split; [| by vm_compute]. exists 0x1F80. split; [| by vm_compute].
    constructor; [by vm_compute | lia | repeat constructor; by vm_compute].
  - split; by eexists.
  - done.
  - exact (initial_kbd_ok _).
Qed.

Lemma threads_refined_witness :
  exists s' A', take_interrupt (fun r => r) 0x20 0 demo_machine = Ret tt s' /\
    exec abs_step [Timer] (Threads 0x2000 demo_contexts) A' /\ ab_context A' !! ab_current A' = Some (running s').
Proof.
  destruct (sim_returns (fun r => r) _ _ _ _ demo_apart demo_machine _ 0x20 0 demo_sim) as (s' & E); [lia |].
  destruct (threads_refined (fun r => r) 0x1000 demo_members demo_lo demo_hi [Timer] demo_machine s' _ demo_apart demo_sim)
    as (A' & HA & Hr & _); 
    [eapply exec_cons; [exact (step_timer _ _ _ _ _ _ _ 0 E) | apply exec_nil] |].
  exact (ex_intro _ s' (ex_intro _ A' (conj E (conj HA Hr)))).
Defined.

(** The due sleeper of priority 12 gets the processor, on its own stack. *)
Example demo_switch :
  match take_interrupt (fun r => r) 0x20 0 demo_machine with
  | Ret _ s' => (rsp (m_regs s'), ld64 (mem_of (m_kernel s')) (frame 0x1F80 + 136))
  | _ => (0, 0)
  end = (0x3FB0, 0x7777).
Proof. vm_compute. reflexivity. Qed.
