(* ===== verification/Smp.v ===== *)
(** smp.c: bringing up the other processors.

    smp_ap_entry is what a woken processor runs.  smp_init runs on the first
    processor while the woken ones run: [env n] is what they did to the state
    before the [n]-th time smp_init reads the status word, a parameter of the
    model; what smp_init relies on from them is a hypothesis of its theorem. *)

From S2P Require Import Prelude Memory State Lib Console ConsoleProps Pmm Heap Vmm Apic Cpu Gdt Acpi Queue Sched SchedSpec SchedProps SchedSpawn SchedInit Idt Syscall.

(** The smp_data_t at 0x7000: pml4 +0, stack_top +8, entry_point +16, status
    +24; and where the start-up code is copied to. *)
Definition SMP_DATA : Z := 0x7000.
Definition SMP_STATUS : Z := SMP_DATA + 24.
Definition TRAMPOLINE : Z := 0x8000.

Definition smp_ap_entry (img : image) : M kernel unit :=
  cpu_init;;
  gdt_init_ap;;
  idt_init_ap img;;
  apic_init_ap;;
  syscall_init img;;
  sched_init;;
  on_mem (fun m => st64 m SMP_STATUS 1);;
  sti;;
  hang.

(** A read of the volatile status word, as the [n]-th. *)
Definition read_status (env : nat -> kernel -> kernel) (n : nat) : M kernel Z :=
  modify (env n);;
  gets (fun k => ld64 (mem_of k) SMP_STATUS).

(** [while (data->status == 0 && timeout-- > 0) apic_delay_ms(10)]; the result is
    the number of reads so far. *)
Fixpoint wait_status (env : nat -> kernel -> kernel) (fuel timeout n : nat) : M kernel nat :=
  status ← read_status env n;
  if status =? 0 then
    match timeout with
    | O => mret (S n)
    | S timeout' => apic_delay_ms fuel 10;; wait_status env fuel timeout' (S n)
    end
  else mret (S n).

(** The body of the loop for a processor other than the first. *)
Definition wake_core (env : nat -> kernel -> kernel) (fuel : nat) (lapic_id : Z) (n : nat) : M kernel nat :=
  console_print (cstr "waking core ");;
  console_print_num lapic_id;;
  console_print (cstr "... ");;
  stack ← kmalloc 8192;
  on_mem (fun m => st64 m (SMP_DATA + 8) (u64 (stack + 8192)));;
  on_mem (fun m => st64 m SMP_STATUS 0);;
  apic_send_ipi lapic_id 0x0000C500;;
  apic_delay_ms fuel 10;;
  apic_send_ipi lapic_id (Z.lor 0x00000600 (Z.shiftr 0x8000 12));;
  apic_delay_ms fuel 1;;
  apic_send_ipi lapic_id (Z.lor 0x00000600 (Z.shiftr 0x8000 12));;
  n ← wait_status env fuel 100 n;
  status ← read_status env n;
  (if status =? 1 then console_print (chars "ok" ++ [10; 0]) else console_print (chars "timeout" ++ [10; 0]));;
  mret (S n).

(** [for (i = 0; i < cpu_count; i++)], with [todo] iterations left. *)
Fixpoint wake_cores (env : nat -> kernel -> kernel) (fuel todo : nat) (i bsp_id : Z) (n : nat) : M kernel unit :=
  match todo with
  | O => mret tt
  | S todo' =>
      lapic_id ← acpi_get_lapic_id i;
      if lapic_id =? bsp_id then wake_cores env fuel todo' (i + 1) bsp_id n
      else
        n ← wake_core env fuel lapic_id n;
        wake_cores env fuel todo' (i + 1) bsp_id n
  end.

Definition smp_init (img : image) (env : nat -> kernel -> kernel) (fuel : nat) : M kernel unit :=
  let size := u64 (sym_smp_boot_end img - sym_smp_boot_start img) in
  on_mem (fun m => b_memcpy m TRAMPOLINE (sym_smp_boot_start img) size);;
  pml4 ← gets vmm_get_kernel_pml4;
  on_mem (fun m => st64 m SMP_DATA pml4);;
  on_mem (fun m => st64 m (SMP_DATA + 16) (sym_smp_ap_entry img));;
  cpu_count ← gets acpi_get_cpu_count;
  bsp_id ← apic_get_id;
  wake_cores env fuel (Z.to_nat cpu_count) 0 bsp_id 0.

(** ** cpu_init *)

(** The identifier the local controller reports. *)
Definition local_id (k : kernel) : Z :=
  Z.shiftr (u32 (hw_apic_in (hw k) (hw_apic_pos (hw k)) (apic_addr k APIC_REG_ID))) 24.

Definition cpu_ready (cpu : Z) (m : mem) (k : kernel) : kernel :=
  k <| hw ::= fun h => h <| hw_mem := m |> <| hw_apic_pos ::= S |>
      <| hw_msr ::= fun r => <[MSR_KERNEL_GS_BASE := cpu]> (<[MSR_GS_BASE := cpu]> r) |> |>
    <| sched ::= fun s => s <| s_cpus ::= <[cpu := zero_cpu <| c_cpu_id := local_id k |>]> |>
                            <| s_cpu_table ::= fun l => l ++ [cpu] |> |>.

Lemma wrmsr_value v : 0 <= v < 2 ^ 64 ->
  Z.lor (Z.shiftl (Z.land (Z.shiftr v 32) 0xFFFFFFFF) 32) (Z.land v 0xFFFFFFFF) = v.
Proof.
  intros Hv. rewrite <- (msr_halves v Hv) at 3. change 0xFFFFFFFF with (Z.ones 32). by rewrite !Z.land_ones by lia.
Qed.

Lemma cpu_init_spec k bl o bl1 :
  heap_rep k bl -> heap_lock (heap k) = 0 -> (length (s_cpu_table (sched k)) < 64)%nat ->
  alloc_list (align8 SIZEOF_CPU) bl = Some (o, bl1) ->
  let cpu := heap_start (heap k) + o + HDR in
  exists m sz, cpu_init k = Ret tt (cpu_ready cpu m k) /\ heap_rep (set_mem m k) bl1 /\
    0 <= o /\ block_at o bl1 = Some (sz, false) /\ SIZEOF_CPU <= sz /\ 0 < cpu /\ cpu + sz < 2 ^ 63 /\
    agree_out (heap_start (heap k)) (heap_start (heap k) + POOL_BYTES) (mem_of k) m.
Proof.
  intros Hr Hl Hlen A cpu.
  destruct (kmalloc_held k bl SIZEOF_CPU o bl1 Hr Hl ltac:(unfold SIZEOF_CPU; lia) A)
    as (m & sz & E & R & O & B & Hsz & P & _ & _ & G & _).
  destruct (hr_start _ _ Hr) as (S0 & _ & S1). fold cpu in E.
  assert (Hc : 0 < cpu /\ cpu + sz < 2 ^ 63) by (unfold cpu, HDR in *; lia).
  exists m, sz. split; [| tauto]. unfold SIZEOF_CPU in Hsz.
  assert (Hne : cpu <> 0) by lia. apply Z.eqb_neq in Hne as Hne'.
  unfold cpu_init. rewrite (bind_ret _ _ _ _ _ E). unfold cpu_zero. rewrite Hne', bind_modify.
  destruct (sched k) as [nt gl ni ex th cp tb] eqn:Ek. cbn [s_cpu_table] in Hlen.
  set (K := set_mem m k) in *.
  replace (set_cpu cpu zero_cpu K) with (at_sched K (Sched nt gl ni ex th (<[cpu := zero_cpu]> cp) tb))
    by (unfold at_sched, set_cpu, over; simpl; by rewrite Ek).
  unfold apic_get_id. change ((x ← apic_read APIC_REG_ID; mret (Z.shiftr x 24)) ≫= ?f) with (apic_read APIC_REG_ID ≫= fun x => f (Z.shiftr x 24)).
  rewrite bind_apic_read. change (apic_polled (at_sched K ?S)) with (at_sched (apic_polled K) S).
  change (Z.shiftr _ 24) with (local_id k).
  erewrite step_cpu by (done || apply lookup_insert_eq). rewrite insert_insert_eq, bind_gets.
  change (length _ <? MAX_CPUS)%nat with (length tb <? 64)%nat. rewrite (proj2 (Nat.ltb_lt _ _) Hlen), bind_modify.
  unfold b_wrmsr. rewrite bind_modify, wrmsr_value by lia. unfold modify, K. clear E. f_equal.
  destruct k as [[] ? ? ? ? ? ? ? ? ? ?]. simpl in Ek. subst. reflexivity.
Qed.

(** ** The start-up of a processor *)

(** The steps between cpu_init and sched_init only change registers. *)
(** The writes of apic_init_ap, in order: the controller enabled with spurious
    vector 0xFF, its timer periodic on vector 0x20, divided by 16, and started
    for 10 ms; [spurious] is what the register held. *)
Definition ap_apic_log (k : kernel) (spurious : Z) : list (Z * Z) :=
  [(apic_addr k APIC_REG_SPURIOUS, u32 (Z.lor spurious 0x1FF)); (apic_addr k APIC_REG_LVT_TIMER, 0x20020);
   (apic_addr k APIC_REG_TIMER_DIVIDE, 3); (apic_addr k APIC_REG_TIMER_INIT, u32 (ticks_per_ms (apic k) * 10))].

Definition apic_outs (l : list (Z * Z)) (k : kernel) : kernel :=
  k <| hw ::= fun h => h <| hw_apic_out ::= fun o => o ++ l |> |>.

Lemma apic_logged_one reg v k : apic_logged reg v k = apic_outs [(apic_addr k reg, u32 v)] k.
Proof. done. Qed.
Lemma apic_logged_outs reg v l k : apic_logged reg v (apic_outs l k) = apic_outs (l ++ [(apic_addr k reg, u32 v)]) k.
Proof. unfold apic_logged, apic_outs, over. simpl. by rewrite app_assoc. Qed.

Lemma apic_init_ap_spec k :
  let sp := u32 (hw_apic_in (hw k) (hw_apic_pos (hw k)) (apic_addr k APIC_REG_SPURIOUS)) in
  apic_init_ap k = Ret tt (apic_outs (ap_apic_log k sp) (apic_polled k)).
Proof.
  intros sp. unfold apic_init_ap. rewrite bind_apic_read, !bind_apic_write, bind_gets. fold sp. clearbody sp.
  change (apic_write ?r ?v ?k1) with (Ret tt (apic_logged r v k1)).
  change (apic (apic_logged _ _ (apic_logged _ _ (apic_logged _ _ (apic_polled k))))) with (apic k).
  rewrite (apic_logged_one APIC_REG_SPURIOUS), !apic_logged_outs. unfold ap_apic_log. cbn [app].
  by rewrite (u32_small (u32 (ticks_per_ms _ * 10))) by apply u32_range.
Qed.

Lemma syscall_init_spec img k : 0 <= sym_syscall_entry img < 2 ^ 64 ->
  exists r, syscall_init img k = Ret tt (k <| hw ::= fun h => h <| hw_msr := r |> |>) /\
    (forall i, i < MSR_EFER \/ MSR_SFMASK < i -> r !! i = hw_msr (hw k) !! i) /\
    r !! MSR_LSTAR = Some (sym_syscall_entry img).
Proof.
  intros Hs. unfold syscall_init, b_rdmsr, b_wrmsr. rewrite bind_gets, !bind_modify. unfold modify.
  eexists. split; [reflexivity |]. cbv beta. unfold MSR_EFER, MSR_STAR, MSR_LSTAR, MSR_SFMASK. split.
  - intros i Hi. simpl. by rewrite !lookup_insert_ne by lia.
  - simpl. rewrite lookup_insert_ne, lookup_insert_eq by done. by rewrite wrmsr_value.
Qed.

Lemma heap_rep_agree k m m' l :
  agree (heap_start (heap k)) (heap_start (heap k) + POOL_BYTES) m m' ->
  heap_rep (set_mem m k) l -> heap_rep (set_mem m' k) l.
Proof. intros A [H1 H2 H3 H4 H5]. constructor; try done. by eapply chain_agree. Qed.

(** What the spurious-vector register delivers, at the second read of the
    controller. *)
Definition spurious_read (k : kernel) : Z :=
  u32 (hw_apic_in (hw k) (S (hw_apic_pos (hw k))) (apic_addr k APIC_REG_SPURIOUS)).

(** What a processor that has started finds. *)
Record online (img : image) (k k' : kernel) (cpu : Z) : Prop := {
  on_table : s_cpu_table (sched k') = s_cpu_table (sched k) ++ [cpu];
  on_gdt : hw_gdtr (hw k') = (55, cpu + CPU_GDT) /\ hw_tr (hw k') = 0x28 /\ gdt_tables cpu (mem_of k');
  on_cpus : forall p, p <> cpu -> s_cpus (sched k') !! p = s_cpus (sched k) !! p;
  on_idt : hw_idtr (hw k') = (ld16 (mem_of k) (sym_idtr img), ld64 (mem_of k) (sym_idtr img + 2));
  on_apic : hw_apic_out (hw k') = hw_apic_out (hw k) ++ ap_apic_log k (spurious_read k);
  on_lstar : hw_msr (hw k') !! MSR_LSTAR = Some (sym_syscall_entry img);
  on_status : ld64 (mem_of k') SMP_STATUS = 1;
  on_memory : forall b, ~ heap_start (heap k) <= b < heap_start (heap k) + POOL_BYTES ->
    ~ SMP_STATUS <= b < SMP_STATUS + 8 -> ld8 (mem_of k') b = ld8 (mem_of k) b;
  on_flags : Z.testbit (hw_rflags (hw k')) RFLAGS_IF = true
}.

(** The processor up to its scheduler: the record of the processor is the new
    block of the heap, with its tables. *)
Record set_up (img : image) (k k5 : kernel) (cpu o1 sz : Z) (bl1 : list (Z * bool)) : Prop := {
  su_cpu : current_cpu k5 cpu;
  su_sched : sched k5 = (sched k) <| s_cpus ::= <[cpu := zero_cpu <| c_cpu_id := local_id k |>]> |>
                                  <| s_cpu_table ::= fun l => l ++ [cpu] |>;
  su_heap : heap k5 = heap k /\ heap_rep k5 bl1;
  su_block : 0 <= o1 /\ block_at o1 bl1 = Some (sz, false) /\ SIZEOF_CPU <= sz;
  su_gdt : hw_gdtr (hw k5) = (55, cpu + CPU_GDT) /\ hw_tr (hw k5) = 0x28 /\ gdt_tables cpu (mem_of k5);
  su_lstar : hw_msr (hw k5) !! MSR_LSTAR = Some (sym_syscall_entry img);
  su_idt : hw_idtr (hw k5) = (ld16 (mem_of k) (sym_idtr img), ld64 (mem_of k) (sym_idtr img + 2));
  su_apic : hw_apic_out (hw k5) = hw_apic_out (hw k) ++ ap_apic_log k (spurious_read k);
  su_memory : agree_out (heap_start (heap k)) (heap_start (heap k) + POOL_BYTES) (mem_of k) (mem_of k5)
}.

Lemma sched_hw f k : sched (k <| hw ::= f |>) = sched k.
Proof. done. Qed.

Lemma sched_gdt_ready cpu c m k : sched (gdt_ready cpu c m k) = (sched k) <| s_cpus ::= <[cpu := c]> |>.
Proof. done. Qed.
Lemma sched_cpu_ready cpu m k : sched (cpu_ready cpu m k) =
  (sched k) <| s_cpus ::= <[cpu := zero_cpu <| c_cpu_id := local_id k |>]> |> <| s_cpu_table ::= fun l => l ++ [cpu] |>.
Proof. done. Qed.

Lemma ap_set_up img k bl o1 bl1 :
  heap_rep k bl -> heap_lock (heap k) = 0 -> (length (s_cpu_table (sched k)) < 64)%nat ->
  0 <= sym_syscall_entry img < 2 ^ 64 ->
  sym_idtr img + 10 <= heap_start (heap k) \/ heap_start (heap k) + POOL_BYTES <= sym_idtr img ->
  alloc_list (align8 SIZEOF_CPU) bl = Some (o1, bl1) ->
  let cpu := heap_start (heap k) + o1 + HDR in
  exists k5 sz, set_up img k k5 cpu o1 sz bl1 /\
    forall rest : M kernel unit,
      (cpu_init;; gdt_init_ap;; idt_init_ap img;; apic_init_ap;; syscall_init img;; rest) k = rest k5.
Proof.
  intros Hr Hl Htb Hent Hidt A1 cpu.
  destruct (cpu_init_spec k bl o1 bl1 Hr Hl Htb A1) as (m1 & sz & E1 & R1 & O1 & B1 & Z1 & C1 & C2 & G1).
  fold cpu in E1, C1, C2. pose proof Z1 as Z1'. unfold SIZEOF_CPU in Z1'.
  set (c1 := zero_cpu <| c_cpu_id := local_id k |>). set (k1 := cpu_ready cpu m1 k) in *.
  assert (Hc1 : current_cpu k1 cpu).
  { split; [lia |]. simpl. by rewrite lookup_insert_ne, lookup_insert_eq by done. }
  assert (Hs1 : s_cpus (sched k1) !! cpu = Some c1) by apply lookup_insert_eq.
  destruct (gdt_init_spec k1 cpu c1 Hc1 Hs1 ltac:(unfold SIZEOF_CPU; lia)) as (m2 & E2 & T2 & G2).
  set (k2 := gdt_ready _ _ _ _) in *. set (k3 := k2 <| hw ::= fun h =>
    h <| hw_idtr := (ld16 (hw_mem h) (sym_idtr img), ld64 (hw_mem h) (sym_idtr img + 2)) |> |>).
  pose proof (apic_init_ap_spec k3) as E4. cbv zeta in E4. set (sp := u32 _) in E4. set (k4 := apic_outs _ _) in E4.
  destruct (syscall_init_spec img k4 Hent) as (r & E5 & Hr5 & Hlstar). set (k5 := over _ _) in E5.
  assert (Hpool : o1 + HDR + sz <= POOL_BYTES).
  { pose proof (chain_pool_bytes _ _ _ _ (hr_chain _ _ R1)) as Hpb.
    destruct (block_at_bound bl1 o1 sz false (chain_sizes _ _ _ _ (hr_chain _ _ R1)) O1 B1). lia. }
  assert (Hmem : agree_out (heap_start (heap k)) (heap_start (heap k) + POOL_BYTES) (mem_of k) m2).
  { etransitivity; [exact G1 |]. eapply agree_out_sub; [| | exact G2];
      unfold CPU_GDT, CPU_TSS, SIZEOF_TSS, cpu, HDR in *; lia. }
  exists k5, sz. split; [constructor |].
  - split; [lia |]. change (hw_msr (hw k5)) with r. rewrite Hr5 by (unfold MSR_GS_BASE, MSR_EFER, MSR_SFMASK; lia). apply Hc1.
  - unfold k5, k4, k3, k2, k1, apic_outs, apic_polled. rewrite !sched_hw, sched_gdt_ready, sched_cpu_ready.
    destruct (sched k) as [x1 x2 x3 x4 x5 x6 x7]. unfold over. cbn. by rewrite insert_insert_eq.
  - split; [reflexivity |]. apply (heap_rep_frame (set_mem m2 (set_mem m1 k)) k5 _ eq_refl eq_refl).
    eapply heap_rep_write; [exact R1 | exact O1 | exact B1 |].
    eapply agree_out_sub; [| | exact G2]; unfold CPU_GDT, CPU_TSS, SIZEOF_TSS; simpl; fold cpu; lia.
  - done.
  - split; [reflexivity |]. split; [reflexivity | exact T2].
  - exact Hlstar.
  - change (hw_idtr (hw k5)) with (ld16 m2 (sym_idtr img), ld64 m2 (sym_idtr img + 2)).
    assert (Ha : agree (sym_idtr img) (sym_idtr img + 10) (mem_of k) m2) by (eapply agree_out_disj; [| exact Hmem]; lia).
    by rewrite (ld16_agree _ _ _ _ _ Ha), (ld64_agree _ _ _ _ _ Ha) by lia.
  - reflexivity.
  - exact Hmem.
  - intros rest. unfold gdt_init_ap. rewrite (bind_ret _ _ _ _ _ E1), (bind_ret _ _ _ _ _ E2).
    rewrite (bind_ret (idt_init_ap img) _ k2 tt k3) by reflexivity.
    by rewrite (bind_ret _ _ _ _ _ E4), (bind_ret _ _ _ _ _ E5).
Qed.

(** ** Waking the other processors *)

Section Waking.
Context (env : nat -> kernel -> kernel) (fuel : nat) (code_end : Z).
Hypothesis code_end_ok : TRAMPOLINE <= code_end.

(** The state the loop of smp_init runs in: a console, a heap and a framebuffer
    that overlap neither each other nor the low memory up to the end of the
    copied start-up code, and a timer that runs out within [fuel] reads. *)
Record boot_ok (k : kernel) : Prop := {
  bk_con : con_ready k;
  bk_heap : exists bl, heap_rep k bl;
  bk_lock : heap_lock (heap k) = 0;
  bk_low : code_end <= heap_start (heap k) /\ code_end <= framebuffer (console k);
  bk_fb : fb_end (console k) <= heap_start (heap k) \/ heap_start (heap k) + POOL_BYTES <= framebuffer (console k);
  bk_base : apic_base (apic k) = APIC_BASE;
  bk_timer : forall pos, exists n, (n < fuel)%nat /\
    u32 (hw_apic_in (hw k) (pos + n) (APIC_BASE + APIC_REG_TIMER_CURRENT)) = 0
}.

(** What the woken processors read: the start-up code, the root of the page
    tables and the entry point are the same in both memories. *)
Definition staged_kept (m m' : mem) : Prop :=
  agree TRAMPOLINE code_end m m' /\ agree SMP_DATA (SMP_DATA + 8) m m' /\ agree (SMP_DATA + 16) (SMP_DATA + 24) m m'.

Lemma staged_refl m : staged_kept m m.
Proof. done. Qed.
Lemma staged_trans m1 m2 m3 : staged_kept m1 m2 -> staged_kept m2 m3 -> staged_kept m1 m3.
Proof. intros (A1 & B1 & C1) (A2 & B2 & C2). split_and!; by etransitivity. Qed.
Lemma staged_above lo hi m m' : code_end <= lo -> agree_out lo hi m m' -> staged_kept m m'.
Proof. unfold staged_kept, TRAMPOLINE, SMP_DATA in *. intros Hlo A. split_and!; intros b Hb; apply A; lia. Qed.

(** The writes to the interrupt command register. *)
Definition ipi_log (k : kernel) : list (Z * Z) :=
  filter (fun e => e.1 = APIC_BASE + APIC_REG_ICR_HIGH \/ e.1 = APIC_BASE + APIC_REG_ICR_LOW) (hw_apic_out (hw k)).

(** [k'] is as usable as [k], with [l] sent in between. *)
Definition sent (l : list (Z * Z)) (k k' : kernel) : Prop :=
  boot_ok k' /\ ipi_log k' = ipi_log k ++ l /\ acpi k' = acpi k /\ staged_kept (mem_of k) (mem_of k').

(** The other processors keep the loop's state usable and what is staged for
    them, and send nothing. *)
Hypothesis env_ok : forall n k, boot_ok k -> sent [] k (env n k).

Lemma sent_trans l1 l2 k1 k2 k3 : sent l1 k1 k2 -> sent l2 k2 k3 -> sent (l1 ++ l2) k1 k3.
Proof.
  intros (_ & L1 & A1 & G1) (O & L2 & A2 & G2). split; [done |]. rewrite L2, L1, A2, A1, app_assoc.
  split; [done |]. split; [done | by eapply staged_trans].
Qed.

Lemma sent_nil k : boot_ok k -> sent [] k k.
Proof. intros Hk. split; [done |]. by rewrite app_nil_r. Qed.

Lemma drawn_sent k k' : boot_ok k -> drawn k k' -> con_ready k' -> sent [] k k'.
Proof.
  intros [C [bl R] L W F B T] (m & x & y & -> & A) C'. split; [| rewrite app_nil_r; split_and!; try done; by eapply staged_above; [apply (proj2 W) | exact A]].
  constructor; try done. exists bl. apply (heap_rep_frame (set_mem m k)); [done | done |].
  eapply (heap_rep_agree k (mem_of k)); [eapply agree_out_disj; [| exact A]; tauto |]. by apply (heap_rep_frame k).
Qed.

Lemma mem_sent k m : boot_ok k -> agree (heap_start (heap k)) (heap_start (heap k) + POOL_BYTES) (mem_of k) m ->
  staged_kept (mem_of k) m -> sent [] k (set_mem m k).
Proof.
  intros [C [bl R] L W F B T] A G. split; [| by rewrite app_nil_r]. constructor; try done.
  exists bl. eapply (heap_rep_agree k (mem_of k)); [done |]. by apply (heap_rep_frame k).
Qed.

Lemma kmalloc_sent k size : boot_ok k -> 0 < size < 2 ^ 64 - 7 -> exists p k', kmalloc size k = Ret p k' /\ sent [] k k'.
Proof.
  intros Hk Hs. pose proof Hk as [C [bl R] L W F B T]. destruct (alloc_list (align8 size) bl) as [[off l'] |] eqn:EA.
  - destruct (kmalloc_held k bl size off l' R L Hs EA) as (m' & sz & E & R' & _ & _ & _ & _ & _ & _ & G & _).
    eexists _, _. split; [exact E |]. split; [| rewrite app_nil_r; split_and!; try done; by eapply staged_above; [apply (proj1 W) | exact G]].
    constructor; try done. by exists l'.
  - pose proof (kmalloc_spec k bl size R L ltac:(lia)) as H. rewrite EA in H.
    eexists _, _. split; [exact H | by apply sent_nil].
Qed.

(** A delay writes the timer, never the command register. *)
Lemma delay_sent k ms : boot_ok k -> exists k', apic_delay_ms fuel ms k = Ret tt k' /\ sent [] k k'.
Proof.
  intros Hk. pose proof Hk as [C [bl R] L W F B T]. unfold apic_delay_ms. rewrite bind_gets, bind_apic_write.
  set (k1 := apic_logged _ _ k). destruct (T (hw_apic_pos (hw k))) as (n & Hn & Hz).
  destruct (timer_wait_spec n k1 fuel) as (j & E); [| done |].
  { unfold timer_at. rewrite <- Hz. do 2 f_equal. unfold apic_addr. change (apic_base (apic k1)) with (apic_base (apic k)).
    rewrite B. done. }
  eexists. split; [exact E |]. split; [| split; [| split; [done | apply staged_refl]]].
  - constructor; try done. exists bl. by apply (heap_rep_frame k).
  - unfold ipi_log. simpl. rewrite filter_app, app_nil_r. unfold apic_addr. rewrite B.
    by rewrite app_nil_r.
Qed.

(** An inter-processor interrupt is two writes. *)
Definition ipi (id val : Z) : list (Z * Z) :=
  [(APIC_BASE + APIC_REG_ICR_HIGH, u32 (Z.shiftl id 24)); (APIC_BASE + APIC_REG_ICR_LOW, u32 val)].

Lemma send_sent k id val : boot_ok k -> exists k', apic_send_ipi id val k = Ret tt k' /\ sent (ipi id val) k k'.
Proof.
  intros Hk. pose proof Hk as [C [bl R] L W F B T]. unfold apic_send_ipi. rewrite bind_apic_write.
  unfold apic_write, modify. eexists. split; [reflexivity |]. split; [| split; [| split; [done | apply staged_refl]]].
  - constructor; try done. exists bl. by apply (heap_rep_frame k).
  - unfold ipi_log, ipi, apic_logged. simpl. unfold apic_addr. simpl. rewrite B, <- app_assoc, filter_app. simpl.
    by rewrite (u32_small (u32 _)) by apply u32_range.
Qed.

(** [m] returns from every usable state, and sends [l]. *)
Definition sends {A} (l : list (Z * Z)) (m : M kernel A) : Prop :=
  forall k, boot_ok k -> exists a k', m k = Ret a k' /\ sent l k k'.

Lemma sends_ret {A} (a : A) : sends [] (mret a).
Proof. intros k Hk. exists a, k. split; [done | by apply sent_nil]. Qed.

Lemma sends_bind {A B} l1 l2 (m : M kernel A) (f : A -> M kernel B) :
  sends l1 m -> (forall a, sends l2 (f a)) -> sends (l1 ++ l2) (m ≫= f).
Proof.
  intros Hm Hf k Hk. destruct (Hm k Hk) as (a & k1 & E & S1). rewrite (bind_ret _ _ _ _ _ E).
  destruct (Hf a k1 (proj1 S1)) as (b & k2 & E2 & S2). exists b, k2. split; [done |]. by eapply sent_trans.
Qed.

(** The same for a statement that sends nothing. *)
Lemma sends_quiet {A B} l (m : M kernel A) (f : A -> M kernel B) :
  sends [] m -> (forall a, sends l (f a)) -> sends l (m ≫= f).
Proof. apply (sends_bind []). Qed.

Lemma sends_shows (m : M kernel unit) : shows m -> sends [] m.
Proof.
  intros Hm k Hk. destruct (Hm k (bk_con _ Hk)) as (a & k' & E & D & C). exists a, k'. split; [done |]. by apply drawn_sent.
Qed.
Lemma sends_delay ms : sends [] (apic_delay_ms fuel ms).
Proof. intros k Hk. exists tt. by apply delay_sent. Qed.
Lemma sends_ipi id val : sends (ipi id val) (apic_send_ipi id val).
Proof. intros k Hk. exists tt. by apply send_sent. Qed.

(** A store to the stack or the status word. *)
Lemma store_sent k a v :
  boot_ok k -> a = SMP_DATA + 8 \/ a = SMP_STATUS -> sent [] k (set_mem (st64 (mem_of k) a v) k).
Proof.
  intros Hk Ha. pose proof (bk_low _ Hk) as [Hlow _]. unfold SMP_STATUS, SMP_DATA, TRAMPOLINE in *.
  assert (G : staged_kept (mem_of k) (st64 (mem_of k) a v))
    by (unfold staged_kept, SMP_DATA, TRAMPOLINE; split_and!; intros b Hb; apply ld8_st64_out; lia).
  apply mem_sent; [done | | done]. eapply agree_out_disj; [| apply agree_out_st64]. lia.
Qed.

Lemma sends_read_status n : sends [] (read_status env n).
Proof.
  intros k Hk. unfold read_status. rewrite bind_modify.
  eexists _, (env n k). split; [reflexivity | by apply env_ok].
Qed.

Lemma sends_wait_status timeout : forall n, sends [] (wait_status env fuel timeout n).
Proof.
  induction timeout as [| t IH]; intros n; cbn [wait_status]; (apply sends_quiet; [apply sends_read_status |]);
    intros status; (destruct (status =? 0); [| apply sends_ret]); [apply sends_ret |].
  apply sends_quiet; [apply sends_delay |]. intros _. apply IH.
Qed.

(** The start-up sequence of one processor: INIT, then twice the page of the
    start-up code. *)
Definition startup (id : Z) : list (Z * Z) := ipi id 0xC500 ++ ipi id 0x608 ++ ipi id 0x608.

(** The state at the first of these interrupts: the status word is cleared and
    the word for the stack holds the end of the 8 KiB that kmalloc returned. *)
Definition prepared (k k1 : kernel) : Prop :=
  sent [] k k1 /\ ld64 (mem_of k1) SMP_STATUS = 0 /\
  exists k0 p k0', sent [] k k0 /\ kmalloc 8192 k0 = Ret p k0' /\ ld64 (mem_of k1) (SMP_DATA + 8) = u64 (p + 8192).

(** The part of wake_core from that state on. *)
Lemma sends_rest id n : sends (startup id) (
  apic_send_ipi id 0x0000C500;;
  apic_delay_ms fuel 10;;
  apic_send_ipi id (Z.lor 0x00000600 (Z.shiftr 0x8000 12));;
  apic_delay_ms fuel 1;;
  apic_send_ipi id (Z.lor 0x00000600 (Z.shiftr 0x8000 12));;
  n ← wait_status env fuel 100 n;
  status ← read_status env n;
  (if status =? 1 then console_print (chars "ok" ++ [10; 0]) else console_print (chars "timeout" ++ [10; 0]));;
  mret (S n)).
Proof.
  unfold startup. apply sends_bind; [apply sends_ipi |]. intros _.
  apply sends_quiet; [apply sends_delay |]. intros _.
  apply sends_bind; [apply sends_ipi |]. intros _.
  apply sends_quiet; [apply sends_delay |]. intros _.
  rewrite <- (app_nil_r (ipi id 0x608)). apply sends_bind; [apply sends_ipi |]. intros _.
  apply sends_quiet; [apply sends_wait_status |]. intros n1.
  apply sends_quiet; [apply sends_read_status |]. intros status.
  apply sends_quiet; [| intros _; apply sends_ret].
  apply sends_shows. destruct (status =? 1).
  - apply (shows_print _ (chars "ok" ++ [10])); [done | repeat constructor; unfold is_char; lia].
  - apply (shows_print _ (chars "timeout" ++ [10])); [done | repeat constructor; unfold is_char; lia].
Qed.

Lemma wake_core_spec id n k : 0 <= id < 2 ^ 64 -> boot_ok k ->
  exists n' k1 k2, wake_core env fuel id n k = Ret n' k2 /\ prepared k k1 /\ sent (startup id) k1 k2.
Proof.
  intros Hid Hk. unfold wake_core. pose proof (drawn_refl k) as HD. pose proof (bk_con _ Hk) as HC.
  do 3 sh_step HD HC. match goal with |- context [(kmalloc 8192 ≫= _) ?s] => rename s into kb end.
  pose proof (drawn_sent k kb Hk HD HC) as S0.
  destruct (kmalloc_sent kb 8192 (proj1 S0) ltac:(lia)) as (p & kb' & E0 & S1). rewrite (bind_ret _ _ _ _ _ E0).
  unfold on_mem. rewrite !bind_modify.
  set (ks := set_mem (st64 (mem_of kb') (SMP_DATA + 8) (u64 (p + 8192))) kb').
  set (kt := set_mem (st64 (mem_of ks) SMP_STATUS 0) ks).
  assert (S2 : sent [] kb' ks) by (apply store_sent; [apply S1 | by left]).
  assert (S3 : sent [] ks kt) by (apply store_sent; [apply S2 | by right]).
  destruct (sends_rest id n kt (proj1 S3)) as (n' & ku & E4 & S4). exists n', kt, ku. split; [exact E4 |].
  split; [| done]. split; [by do 3 (eapply (sent_trans [] []); [| eassumption])|].
  change (mem_of kt) with (st64 (mem_of ks) SMP_STATUS 0). split; [apply ld64_st64_eq |].
  exists kb, p, kb'. split; [done |]. split; [done |].
  unfold SMP_STATUS, SMP_DATA. rewrite ld64_st64_ne by lia.
  change (mem_of ks) with (st64 (mem_of kb') (SMP_DATA + 8) (u64 (p + 8192))). unfold SMP_DATA.
  rewrite ld64_st64_eq. apply u64_small, u64_range.
Qed.

(** The processors [ids] are started one after the other between two states. *)
Inductive woken : list Z -> kernel -> kernel -> Prop :=
| woken_nil k : woken [] k k
| woken_cons id ids k k1 k2 k3 :
    prepared k k1 -> sent (startup id) k1 k2 -> woken ids k2 k3 -> woken (id :: ids) k k3.

(** What they were sent. *)
Definition startups (ids : list Z) : list (Z * Z) := concat (startup <$> ids).

Lemma woken_sent ids k k' : boot_ok k -> woken ids k k' -> sent (startups ids) k k'.
Proof.
  intros Hk Hw. induction Hw as [k | id ids k k1 k2 k3 [S1 _] S2 Hw IH]; [by apply sent_nil |].
  apply (sent_trans (startup id) _ _ k2); [by apply (sent_trans [] _ _ k1) | by apply IH, S2].
Qed.

Lemma wake_cores_spec bsp ids : forall i n k,
  boot_ok k -> 0 <= i -> Forall (fun id => 0 <= id < 2 ^ 64) ids ->
  (forall j id, ids !! j = Some id -> cpu_apic_ids (acpi k) !! (Z.to_nat i + j)%nat = Some id) ->
  exists k', wake_cores env fuel (length ids) i bsp n k = Ret tt k' /\ woken (filter (fun id => id <> bsp) ids) k k'.
Proof.
  induction ids as [| id ids IH]; intros i n k Hk Hi Hr Hids; cbn [length wake_cores].
  { exists k. split; [done | constructor]. }
  apply Forall_cons in Hr as [Hid Hr]. pose proof (Hids 0%nat id eq_refl) as H0. rewrite Nat.add_0_r in H0.
  assert (E0 : acpi_get_lapic_id i k = Ret id k).
  { unfold acpi_get_lapic_id. rewrite bind_gets. destruct (Z.ltb_spec i 0); [lia |]. by rewrite H0. }
  assert (Hstep : forall k1, acpi k1 = acpi k -> forall j d, ids !! j = Some d ->
    cpu_apic_ids (acpi k1) !! (Z.to_nat (i + 1) + j)%nat = Some d).
  { intros k1 -> j d Hj. rewrite <- (Hids (S j) d Hj). f_equal. lia. }
  rewrite (bind_ret _ _ _ _ _ E0), filter_cons. destruct (Z.eqb_spec id bsp) as [-> | Hne].
  - rewrite decide_False by (intros H'; by apply H'). apply IH; [done | lia | done | by apply Hstep].
  - rewrite decide_True by done. destruct (wake_core_spec id n k Hid Hk) as (n' & k1 & k2 & E & P1 & S2).
    rewrite (bind_ret _ _ _ _ _ E). pose proof P1 as [S1 _].
    assert (A2 : acpi k2 = acpi k) by (destruct S1 as (_ & _ & A1 & _), S2 as (_ & _ & A2 & _); congruence).
    destruct (IH (i + 1) n' k2 (proj1 S2) ltac:(lia) Hr (Hstep k2 A2)) as (k3 & E3 & W3).
    exists k3. split; [done |]. by econstructor.
Qed.
End Waking.

(** ** Theorems *)

(** C33: a processor that is woken, with memory for its record, its idle thread
    and that thread's stack, becomes one the scheduler can use: it ends halted
    with interrupts on, registered last in the table, its own descriptor table
    and task state segment loaded, the interrupt table the first processor
    built loaded (the variable idtr is not in the heap), its local controller
    enabled and its periodic timer started by exactly four writes, its
    system-call entry set, its idle thread running, empty queues and a free lock,
    and reports status 1; the heap stays well formed, memory outside it and the
    status word is kept, and the other processors keep their records. *)
Theorem smp_ap_entry_correct img k bl o1 bl1 o2 bl2 o3 bl3 :
  heap_rep k bl -> heap_lock (heap k) = 0 -> (length (s_cpu_table (sched k)) < 64)%nat ->
  0 <= local_id k < 64 -> length (cpu_extras (sched k)) = 64%nat ->
  (next_tid (sched k) = 1 \/ global_sched_lock (sched k) = 0) ->
  0 <= sym_syscall_entry img < 2 ^ 64 -> SMP_STATUS + 8 <= heap_start (heap k) ->
  sym_idtr img + 10 <= heap_start (heap k) \/ heap_start (heap k) + POOL_BYTES <= sym_idtr img ->
  alloc_list (align8 SIZEOF_CPU) bl = Some (o1, bl1) ->
  alloc_list (align8 SIZEOF_THREAD) bl1 = Some (o2, bl2) ->
  alloc_list (align8 STACK_BYTES) bl2 = Some (o3, bl3) ->
  let cpu := heap_start (heap k) + o1 + HDR in
  let idle := heap_start (heap k) + o2 + HDR in
  exists k' c a th, smp_ap_entry img k = Hang k' /\ online img k k' cpu /\ heap_rep k' bl3 /\
    sched_ready k' cpu c a idle th /\ c_cpu_id c = local_id k /\ queued a = [] /\
    t_tid th = next_tid (sched k) /\ t_priority th = 0 /\ t_state th = THREAD_RUNNING.
Proof.
  intros Hr Hl Htb Hid Hex Hg Hent Hlow Hidt A1 A2 A3 cpu idle.
  destruct (ap_set_up img k bl o1 bl1 Hr Hl Htb Hent Hidt A1)
    as (k5 & sz & [Hc5 Sk5 [Hh5 R5] (O1 & B1 & Z1) Hg5 Hlstar Hidt5 Hap5 Hm5] & E5).
  fold cpu in Hc5, Sk5, Hg5, E5. unfold SIZEOF_CPU in Z1. unfold smp_ap_entry. rewrite E5. clear E5.
  set (c1 := zero_cpu <| c_cpu_id := local_id k |>) in *.
  assert (Hs5 : s_cpus (sched k5) !! cpu = Some c1) by (rewrite Sk5; apply lookup_insert_eq).
  assert (Hex5 : extras_at_start (sched k5) = extras_at_start (sched k)) by (by rewrite Sk5).
  assert (Hlen : length (extras_at_start (sched k)) = 64%nat)
    by (unfold extras_at_start; destruct (_ =? 1); [apply length_replicate | done]).
  destruct (lookup_lt_is_Some_2 (extras_at_start (sched k5)) (Z.to_nat (c_cpu_id c1))) as [e He];
    [rewrite Hex5, Hlen; simpl; lia |].
  destruct (sched_init_spec k5 bl1 cpu c1 o2 bl2 o3 bl3 e Hc5 Hs5 He R5 ltac:(by rewrite Hh5) ltac:(by rewrite Sk5) A2 A3)
    as (m3 & E6 & R6 & X6 & _ & L6 & G6). rewrite Hh5 in E6, X6, L6, G6. fold idle in E6, X6.
  rewrite (bind_ret _ _ _ _ _ E6). unfold on_mem. rewrite bind_modify. unfold sti. rewrite bind_modify.
  unfold hang. set (k7 := over _ _). exists k7. unfold SMP_STATUS, SMP_DATA in Hlow.
  assert (Hk7 : sched k7 = sched_started cpu c1 e idle (heap_start (heap k) + o3 + HDR) (sched k5)) by done.
  assert (Hm7 : mem_of k7 = st64 m3 (0x7000 + 24) 1) by done.
  do 3 eexists. split; [reflexivity |]. split; [constructor | split; [| split]].
  - rewrite Hk7. simpl. by rewrite Sk5.
  - destruct Hg5 as (G1 & G2 & T2). split; [exact G1 |]. split; [exact G2 |]. rewrite Hm7. eapply gdt_tables_agree; [| exact T2].
    unfold CPU_GDT, CPU_TSS, SIZEOF_TSS. intros b Hb. rewrite ld8_st64_out by (unfold cpu, HDR in *; lia).
    apply (L6 o1 sz b O1 B1). fold cpu. lia.
  - intros p Hp. rewrite Hk7. simpl. rewrite lookup_insert_ne, Sk5 by done. simpl. by rewrite lookup_insert_ne.
  - exact Hidt5.
  - exact Hap5.
  - exact Hlstar.
  - rewrite Hm7. apply ld64_st64_eq.
  - intros b Hb Hb'. unfold SMP_STATUS, SMP_DATA in Hb'. rewrite Hm7, ld8_st64_out by lia. rewrite G6 by lia. by apply Hm5; lia.
  - apply Z.setbit_eq. unfold RFLAGS_IF. lia.
  - apply (heap_rep_frame (set_mem (st64 m3 (0x7000 + 24) 1) k5)); [reflexivity | reflexivity |].
    eapply heap_rep_agree; [| exact R6]. intros b Hb. apply ld8_st64_out. cbn [heap set_mem over] in Hb. rewrite Hh5 in Hb. lia.
  - apply (sched_started_ready k7 (sched k5) cpu c1 e idle (heap_start (heap k) + o3 + HDR));
      [exact Hc5 | exact X6 | rewrite Hex5, Hlen; simpl; lia | exact Hk7].
  - split; [done |]. split; [done |]. split; [| done]. simpl. by rewrite Sk5.
Qed.

Definition waking : kernel :=
  small_heap <| sched ::= fun s => s <| next_tid := 5 |> |>
    <| hw ::= fun h => h <| hw_apic_in := fun _ _ => 0x03000000 |> |>.

Lemma smp_ap_entry_correct_witness :
  exists k' c a th, smp_ap_entry demo_image waking = Hang k' /\
    sched_ready k' (0x200000 + 0 + HDR) c a (0x200000 + 568 + HDR) th /\ c_cpu_id c = 3.
Proof.
  assert (Hr : heap_rep waking [(POOL_BYTES - HDR, true)])
    by (apply (heap_rep_frame small_heap waking); [reflexivity | reflexivity | exact small_heap_rep]).
  destruct (smp_ap_entry_correct demo_image waking _ 0
    [(544, false); (POOL_BYTES - HDR - 544 - HDR, true)] 568
    [(544, false); (104, false); (POOL_BYTES - HDR - 544 - HDR - 104 - HDR, true)] 696
    [(544, false); (104, false); (8192, false); (POOL_BYTES - HDR - 544 - HDR - 104 - HDR - 8192 - HDR, true)]
    Hr eq_refl ltac:(simpl; lia) ltac:(split; [discriminate | reflexivity]) eq_refl (or_intror eq_refl)
    ltac:(split; [discriminate | reflexivity]) ltac:(discriminate) ltac:(left; discriminate) eq_refl eq_refl eq_refl)
    as (k' & c & a & th & E & _ & _ & S & I & _).
  exists k', c, a, th. split; [exact E |]. split; [exact S | exact I].
Defined.


(** Three processors; each woken one reports at once. *)
Definition answering (n : nat) (k : kernel) : kernel := set_mem (st64 (mem_of k) SMP_STATUS 1) k.
Definition three_cores : kernel :=
  small_heap <| console := console small_screen |> <| apic := Apic APIC_BASE 0 0 |>
    <| acpi := Acpi ([0; 2; 5] ++ replicate 61 0) 3 |>.

Lemma answering_ok fuel code_end n k :
  TRAMPOLINE <= code_end -> boot_ok fuel code_end k -> sent fuel code_end [] k (answering n k).
Proof. intros Hc Hk. apply store_sent; [done | done | by right]. Qed.

