(* ===== verification/Trampoline.v ===== *)
(** smp_boot.asm: the code a woken processor starts with, from real mode to
    smp_ap_entry.

    The code is copied to 0x8000; [gdt32] and [gdt64] are the addresses of its two
    descriptor tables, each followed by the operand of its lgdt.  The processor
    reads the smp_data_t at 0x7000 that smp_init filled.  [ap_bits] is the size in
    which the processor decodes instructions, from the L and D bits of the code
    segment; code that runs in another size than it is assembled for faults. *)

From S2P Require Import Prelude Memory State Lib Pmm Cpu Gdt Sched Idt Syscall Asm Smp.

(** The machine with the control registers of the start-up, and the size (16, 32
    or 64) in which the processor decodes instructions. *)
Record ap_t := Ap { ap_cr0 : Z; ap_cr4 : Z; ap_bits : Z; ap_machine : machine }.
#[export] Instance ap_settable : Settable ap_t := fun r => Ap (ap_cr0 r) (ap_cr4 r) (ap_bits r) (ap_machine r).

Definition RFLAGS_DF : Z := 10.
Definition CR0_PE : Z := 0.
Definition CR0_PG : Z := 31.
Definition CR4_PAE : Z := 5.
Definition EFER_LME : Z := 8.

(** ** Instructions *)

Definition on_machine {A} (m : M machine A) : M ap_t A := fun s =>
  match m (ap_machine s) with
  | Ret a t => Ret a (s <| ap_machine := t |>)
  | Hang t => Hang (s <| ap_machine := t |>)
  | Fault => Fault
  | NoFuel => NoFuel
  end.
Definition on_regs (f : regs -> regs) : M ap_t unit := on_machine (set_reg f).
Definition on_hw (f : hw_t -> hw_t) : M ap_t unit := on_machine (on_kernel (modify (fun k => k <| hw ::= f |>))).
Definition get_reg (f : regs -> Z) : M ap_t Z := on_machine (reg f).
Definition load {A} (ld : mem -> Z -> A) (a : Z) : M ap_t A :=
  on_machine (on_kernel (gets (fun k => ld (mem_of k) a))).

(** A write of the low half of rax leaves the rest of it. *)
Definition set_ax (v : Z) : M ap_t unit := on_regs (fun r => r <| rax := rax r - rax r mod 2 ^ 16 + v |>).
Definition set_eax (v : Z) : M ap_t unit := on_regs (fun r => r <| rax := v |>).

(** lgdt takes 24 bits of the base with 16-bit operands and 32 bits with 32-bit
    ones. *)
Definition lgdt_16 (p : Z) : M ap_t unit :=
  on_hw (fun h => h <| hw_gdtr := (ld16 (hw_mem h) p, Z.land (ld32 (hw_mem h) (p + 2)) 0xFFFFFF) |>).
Definition lgdt_32 (p : Z) : M ap_t unit :=
  on_hw (fun h => h <| hw_gdtr := (ld16 (hw_mem h) p, ld32 (hw_mem h) (p + 2)) |>).

(** [mov ds, ax; mov es, ax; mov ss, ax], in real and in protected mode. *)
Definition real_segments : M ap_t unit :=
  v ← get_reg rax;
  on_hw (fun h => let v := v mod 2 ^ 16 in h <| hw_ds := v |> <| hw_es := v |> <| hw_ss := v |>).
Definition data_segments : M ap_t unit :=
  v ← get_reg rax;
  let v := v mod 2 ^ 16 in
  on_machine (on_kernel (load_selector data_ok 0 v));;
  on_hw (fun h => h <| hw_ds := v |>);;
  on_machine (on_kernel (load_selector data_ok 0 v));;
  on_hw (fun h => h <| hw_es := v |>);;
  on_machine (on_kernel (load_selector data_ok 0 v));;
  on_hw (fun h => h <| hw_ss := v |>).

(** The size a code segment selects: 64 with its L bit in long mode with paging,
    else what its D bit says. *)
Definition code_size (cr0 efer flags : Z) : Z :=
  if Z.testbit efer EFER_LME && Z.testbit cr0 CR0_PG && Z.testbit flags 1 then 64
  else if Z.testbit flags 2 then 32 else 16.

(** [jmp sel:...] *)
Definition far_jump (sel : Z) : M ap_t unit :=
  on_machine (on_kernel (load_selector code_ok 0 sel));;
  e ← on_machine (on_kernel (gets (descriptor_of sel)));
  flags ← on_machine (on_kernel (gets (fun k => seg_flags (mem_of k) (default 0 e))));
  efer ← on_machine (on_kernel (gets (fun k => default 0 (hw_msr (hw k) !! MSR_EFER))));
  cr0 ← gets ap_cr0;
  modify (fun s => s <| ap_bits := code_size cr0 efer flags |>);;
  on_hw (fun h => h <| hw_cs := sel |>).

(** [bits n]: code assembled for [n] bits means what it says only while the
    processor decodes in that size. *)
Definition in_bits (n : Z) : M ap_t unit :=
  b ← gets ap_bits;
  if b =? n then mret tt else fault.

(** [mov eax, cr; or eax, 1 << b; mov cr, eax] *)
Definition or_cr0 (b : Z) : M ap_t unit :=
  v ← gets ap_cr0; set_eax (Z.lor v (2 ^ b));; w ← get_reg rax; modify (fun s => s <| ap_cr0 := w |>).
Definition or_cr4 (b : Z) : M ap_t unit :=
  v ← gets ap_cr4; set_eax (Z.lor v (2 ^ b));; w ← get_reg rax; modify (fun s => s <| ap_cr4 := w |>).

(** rdmsr and wrmsr of the register ecx names, with the value in edx:eax. *)
Definition rdmsr : M ap_t unit :=
  i ← get_reg rcx;
  v ← on_machine (on_kernel (gets (fun k => default 0 (hw_msr (hw k) !! i))));
  on_regs (fun r => r <| rax := v mod 2 ^ 32 |> <| rdx := v / 2 ^ 32 |>).
Definition wrmsr : M ap_t unit :=
  i ← get_reg rcx;
  lo ← get_reg rax;
  hi ← get_reg rdx;
  on_hw (fun h => h <| hw_msr ::= <[i := lo mod 2 ^ 32 + 2 ^ 32 * (hi mod 2 ^ 32)]> |>).

(** ** The code *)

Section Trampoline.
Context (gdt32 gdt64 : Z).
Definition gdt32_ptr : Z := gdt32 + 24.
Definition gdt64_ptr : Z := gdt64 + 24.

Definition smp_trampoline_16 : M ap_t unit :=
  on_hw (fun h => h <| hw_rflags := Z.clearbit (hw_rflags h) RFLAGS_IF |>);;
  on_hw (fun h => h <| hw_rflags := Z.clearbit (hw_rflags h) RFLAGS_DF |>);;
  set_ax 0;;
  real_segments;;
  lgdt_16 gdt32_ptr;;
  or_cr0 CR0_PE;;
  far_jump 0x08.

Definition smp_trampoline_32 : M ap_t unit :=
  set_ax 0x10;;
  data_segments;;
  pml4 ← load ld32 SMP_DATA;
  set_eax pml4;;
  v ← get_reg rax;
  on_hw (fun h => h <| hw_cr3 := v |>);;
  or_cr4 CR4_PAE;;
  on_regs (fun r => r <| rcx := MSR_EFER |>);;
  rdmsr;;
  on_regs (fun r => r <| rax := Z.lor (rax r) (2 ^ EFER_LME) |>);;
  wrmsr;;
  or_cr0 CR0_PG;;
  lgdt_32 gdt64_ptr;;
  far_jump 0x08.

Definition smp_trampoline_64 : M ap_t unit :=
  set_ax 0x10;;
  data_segments;;
  on_regs (fun r => r <| rax := SMP_DATA + 8 |>);;
  a ← get_reg rax;
  sp ← load ld64 a;
  on_regs (fun r => r <| rsp := sp |>);;
  on_regs (fun r => r <| rax := 1 |>);;
  on_regs (fun r => r <| rbx := SMP_STATUS |>);;
  v ← get_reg rax;
  b ← get_reg rbx;
  on_machine (on_kernel (on_mem (fun m => st64 m b v)));;
  on_regs (fun r => r <| rax := SMP_DATA + 16 |>);;
  a ← get_reg rax;
  entry ← load ld64 a;
  on_regs (fun r => r <| rax := entry |>);;
  on_regs (fun r => r <| rip := rax r |>).

Definition smp_trampoline : M ap_t unit :=
  in_bits 16;; smp_trampoline_16;;
  in_bits 32;; smp_trampoline_32;;
  in_bits 64;; smp_trampoline_64.
End Trampoline.

(** The descriptors of gdt32 and gdt64. *)
Definition gdt32_table : list Z := [0; 0x00CF9A000000FFFF; 0x00CF92000000FFFF].
Definition gdt64_table : list Z := [0; 0x00AF9A000000FFFF; 0x00AF92000000FFFF].

(** ** Lemmas *)

(** Loading a segment register marks the descriptor accessed. *)
Definition accessed (m : mem) (base sel : Z) : mem :=
  st8 m (base + sel + 5) (Z.setbit (ld8 m (base + sel + 5)) 0).

Lemma accessed_agree m base sel : agree_out (base + sel + 5) (base + sel + 6) m (accessed m base sel).
Proof. intros b Hb. unfold accessed. by rewrite ld8_st8_ne by lia. Qed.

Lemma setbit_u8 a : 0 <= a < 256 -> u8 (Z.setbit a 0) = Z.setbit a 0.
Proof.
  intros Ha. apply u8_small. rewrite Z.setbit_spec'. pose proof (proj2 (Z.lor_nonneg a (2 ^ 0)) ltac:(lia)).
  split; [done |]. destruct (Z.eq_dec (Z.lor a (2 ^ 0)) 0) as [-> |]; [lia |].
  apply (Z.log2_lt_pow2 _ 8); [lia |]. rewrite Z.log2_lor by lia. apply Z.max_lub_lt; [| done].
  destruct (Z.eq_dec a 0) as [-> |]; [done |]. apply Z.log2_lt_pow2; lia.
Qed.

Lemma accessed_ok m base sel ok :
  (forall a, ok (Z.setbit a 0) = ok a) -> ok (ld8 m (base + sel + 5)) = true ->
  ok (ld8 (accessed m base sel) (base + sel + 5)) = true.
Proof. intros Hk H. unfold accessed. rewrite ld8_st8_eq, setbit_u8, Hk; [done | apply ld8_range]. Qed.

Lemma data_ok_setbit a : data_ok (Z.setbit a 0) = data_ok a.
Proof. unfold data_ok, acc_present, acc_segment, acc_code. by rewrite !Z.setbit_neq by lia. Qed.
Lemma code_ok_setbit a : code_ok (Z.setbit a 0) = code_ok a.
Proof. unfold code_ok, acc_present, acc_segment, acc_code. by rewrite !Z.setbit_neq by lia. Qed.

Lemma selector_ok k ok sel base :
  hw_gdtr (hw k) = (23, base) -> sel = 8 \/ sel = 16 -> ok (ld8 (mem_of k) (base + sel + 5)) = true ->
  load_selector ok 0 sel k = Ret tt (set_mem (accessed (mem_of k) base sel) k).
Proof.
  intros Hg Hs Hok. assert (E : descriptor_of sel k = Some (base + sel))
    by (unfold descriptor_of; rewrite Hg; by destruct Hs as [-> | ->]).
  unfold load_selector. rewrite E. cbv zeta. by rewrite Hok.
Qed.

Lemma bind_kernel {B} (op : M kernel unit) (g : unit -> M ap_t B) c0 c4 w r k k' :
  op k = Ret tt k' ->
  (on_machine (on_kernel op) ≫= g) (Ap c0 c4 w (Machine r k)) = g tt (Ap c0 c4 w (Machine r k')).
Proof. intros E. unfold mbind, M_bind, on_machine, on_kernel. cbn [ap_machine m_kernel]. by rewrite E. Qed.

Lemma bind_hw {B} f (g : unit -> M ap_t B) c0 c4 w r k :
  (on_hw f ≫= g) (Ap c0 c4 w (Machine r k)) = g tt (Ap c0 c4 w (Machine r (k <| hw ::= f |>))).
Proof. reflexivity. Qed.
Lemma bind_regs {B} f (g : unit -> M ap_t B) c0 c4 w r k :
  (on_regs f ≫= g) (Ap c0 c4 w (Machine r k)) = g tt (Ap c0 c4 w (Machine (f r) k)).
Proof. reflexivity. Qed.
Lemma bind_get_reg {B} f (g : Z -> M ap_t B) c0 c4 w r k :
  (get_reg f ≫= g) (Ap c0 c4 w (Machine r k)) = g (f r) (Ap c0 c4 w (Machine r k)).
Proof. reflexivity. Qed.
Lemma bind_load {A B} ld a (g : A -> M ap_t B) c0 c4 w r k :
  (load ld a ≫= g) (Ap c0 c4 w (Machine r k)) = g (ld (mem_of k) a) (Ap c0 c4 w (Machine r k)).
Proof. reflexivity. Qed.

Lemma in_bits_ok {B} n (g : unit -> M ap_t B) c0 c4 s : (in_bits n ≫= g) (Ap c0 c4 n s) = g tt (Ap c0 c4 n s).
Proof. unfold in_bits, mbind, M_bind, gets. cbn [ap_bits]. by rewrite Z.eqb_refl. Qed.

Lemma bind_kernel_gets {A B} (f : kernel -> A) (g : A -> M ap_t B) c0 c4 w r k :
  (on_machine (on_kernel (gets f)) ≫= g) (Ap c0 c4 w (Machine r k)) = g (f k) (Ap c0 c4 w (Machine r k)).
Proof. reflexivity. Qed.

Lemma far_jump_spec c0 c4 w r k base fl :
  hw_gdtr (hw k) = (23, base) -> code_ok (ld8 (mem_of k) (base + 8 + 5)) = true -> seg_flags (mem_of k) (base + 8) = fl ->
  far_jump 8 (Ap c0 c4 w (Machine r k)) =
    Ret tt (Ap c0 c4 (code_size c0 (default 0 (hw_msr (hw k) !! MSR_EFER)) fl)
      (Machine r (set_mem (accessed (mem_of k) base 8) k <| hw ::= fun h => h <| hw_cs := 8 |> |>))).
Proof.
  intros Hg Hok Hfl. unfold far_jump. rewrite (bind_kernel _ _ _ _ _ _ _ _ (selector_ok k _ 8 base Hg ltac:(auto) Hok)).
  set (k1 := set_mem _ k). rewrite bind_kernel_gets.
  assert (Ed : descriptor_of 8 k1 = Some (base + 8)) by (unfold descriptor_of; by rewrite (Hg : hw_gdtr (hw k1) = _)).
  rewrite Ed, bind_kernel_gets. change (default 0 (Some (base + 8))) with (base + 8). cbv beta.
  assert (Ef : seg_flags (mem_of k1) (base + 8) = fl).
  { rewrite <- Hfl. unfold seg_flags. by rewrite (accessed_agree (mem_of k) base 8) by lia. }
  rewrite Ef. reflexivity.
Qed.

Definition accessed3 (m : mem) (base : Z) : mem := accessed (accessed (accessed m base 16) base 16) base 16.

Lemma data_segments_spec c0 c4 w r k base :
  rax r mod 2 ^ 16 = 16 -> hw_gdtr (hw k) = (23, base) -> data_ok (ld8 (mem_of k) (base + 16 + 5)) = true ->
  data_segments (Ap c0 c4 w (Machine r k)) =
    Ret tt (Ap c0 c4 w (Machine r (set_mem (accessed3 (mem_of k) base) k
      <| hw ::= fun h => h <| hw_ds := 16 |> <| hw_es := 16 |> <| hw_ss := 16 |> |>))).
Proof.
  intros Hr Hg Hok. unfold data_segments.
  rewrite bind_get_reg. cbv zeta. rewrite Hr.
  pose proof (accessed_ok _ base 16 _ data_ok_setbit Hok) as Hok1.
  pose proof (accessed_ok _ base 16 _ data_ok_setbit Hok1) as Hok2.
  rewrite (bind_kernel _ _ _ _ _ _ _ _ (selector_ok k _ 16 base Hg ltac:(auto) Hok)), bind_hw.
  set (k2 := over _ _). rewrite (bind_kernel _ _ _ _ _ _ _ _ (selector_ok k2 _ 16 base Hg ltac:(auto) Hok1)), bind_hw.
  set (k4 := over _ (set_mem _ k2)).
  rewrite (bind_kernel _ _ _ _ _ _ _ _ (selector_ok k4 _ 16 base Hg ltac:(auto) Hok2)). reflexivity.
Qed.

Lemma accessed3_agree m base : agree_out (base + 21) (base + 22) m (accessed3 m base).
Proof. intros b Hb. unfold accessed3. by rewrite !accessed_agree by lia. Qed.

(** The words [ws] lie in memory from [base] on, but for the accessed bits of the
    descriptors, which an earlier processor may have set. *)
Definition byte_of (w j : Z) : Z := w / 2 ^ (8 * j) mod 256.
Definition table_loaded (m : mem) (base : Z) (ws : list Z) : Prop :=
  forall i w j, ws !! i = Some w -> 0 <= j < 8 ->
    let b := ld8 m (base + 8 * Z.of_nat i + j) in b = byte_of w j \/ (j = 5 /\ b = Z.setbit (byte_of w j) 0).

(** Where the tables of the start-up code are, and what their operands hold. *)
Record trampoline_ready (gdt32 gdt64 : Z) (m : mem) : Prop := {
  tr_place : SMP_DATA + 32 <= gdt32 /\ gdt32 + 32 <= gdt64 /\ gdt64 < 2 ^ 24;
  tr_ptr32 : ld16 m (gdt32_ptr gdt32) = 23 /\ ld32 m (gdt32_ptr gdt32 + 2) = gdt32;
  tr_ptr64 : ld16 m (gdt64_ptr gdt64) = 23 /\ ld32 m (gdt64_ptr gdt64 + 2) = gdt64;
  tr_table32 : table_loaded m gdt32 gdt32_table;
  tr_table64 : table_loaded m gdt64 gdt64_table
}.

(** What the processor reads of the descriptors for code and data. *)
Lemma table_code m base ws w :
  table_loaded m base ws -> ws !! 1%nat = Some w -> byte_of w 5 = 0x9A ->
  code_ok (ld8 m (base + 8 + 5)) = true /\ seg_flags m (base + 8) = byte_of w 6 / 16.
Proof.
  intros Ht Hw Hb. split.
  - destruct (Ht 1%nat w 5 Hw ltac:(lia)) as [E | [_ E]]; change (8 * Z.of_nat 1) with 8 in E; by rewrite E, Hb.
  - unfold seg_flags. destruct (Ht 1%nat w 6 Hw ltac:(lia)) as [E | [? _]]; [| lia].
    change (8 * Z.of_nat 1) with 8 in E. by rewrite E.
Qed.
Lemma table_data m base ws w :
  table_loaded m base ws -> ws !! 2%nat = Some w -> byte_of w 5 = 0x92 -> data_ok (ld8 m (base + 16 + 5)) = true.
Proof.
  intros Ht Hw Hb. destruct (Ht 2%nat w 5 Hw ltac:(lia)) as [E | [_ E]]; change (8 * Z.of_nat 2) with 16 in E; by rewrite E, Hb.
Qed.

(** The bytes the start-up writes. *)
Definition outside_startup (gdt32 gdt64 b : Z) : Prop :=
  ~ (SMP_STATUS <= b < SMP_STATUS + 8) /\ b <> gdt32 + 13 /\ b <> gdt32 + 21 /\ b <> gdt64 + 13 /\ b <> gdt64 + 21.

Lemma ax_value v w : 0 <= w < 2 ^ 16 -> (v - v mod 2 ^ 16 + w) mod 2 ^ 16 = w.
Proof.
  intros Hw. replace (v - v mod 2 ^ 16 + w) with (w + v / 2 ^ 16 * 2 ^ 16) by (pose proof (Z.div_mod v (2 ^ 16)); lia).
  rewrite Z_mod_plus_full. by apply Z.mod_small.
Qed.

Lemma real_segments_spec c0 c4 w r k : real_segments (Ap c0 c4 w (Machine r k)) =
  Ret tt (Ap c0 c4 w (Machine r (k <| hw ::= fun h =>
    let v := rax r mod 2 ^ 16 in h <| hw_ds := v |> <| hw_es := v |> <| hw_ss := v |> |>))).
Proof. reflexivity. Qed.
Lemma or_cr0_spec b c0 c4 w r k : or_cr0 b (Ap c0 c4 w (Machine r k)) =
  Ret tt (Ap (Z.lor c0 (2 ^ b)) c4 w (Machine (r <| rax := Z.lor c0 (2 ^ b) |>) k)).
Proof. reflexivity. Qed.
Lemma or_cr4_spec b c0 c4 w r k : or_cr4 b (Ap c0 c4 w (Machine r k)) =
  Ret tt (Ap c0 (Z.lor c4 (2 ^ b)) w (Machine (r <| rax := Z.lor c4 (2 ^ b) |>) k)).
Proof. reflexivity. Qed.

Lemma rdmsr_spec c0 c4 w r k :
  let v := default 0 (hw_msr (hw k) !! rcx r) in
  rdmsr (Ap c0 c4 w (Machine r k)) = Ret tt (Ap c0 c4 w (Machine (r <| rax := v mod 2 ^ 32 |> <| rdx := v / 2 ^ 32 |>) k)).
Proof. reflexivity. Qed.
Lemma wrmsr_spec c0 c4 w r k :
  wrmsr (Ap c0 c4 w (Machine r k)) = Ret tt (Ap c0 c4 w (Machine r
    (k <| hw ::= fun h => h <| hw_msr ::= <[rcx r := rax r mod 2 ^ 32 + 2 ^ 32 * (rdx r mod 2 ^ 32)]> |> |>))).
Proof. reflexivity. Qed.

(** Bytes the start-up does not write. *)
Ltac startup := intros b Hb; unfold outside_startup, SMP_STATUS, SMP_DATA in *; lia.

Section Specs.
Context (gdt32 gdt64 : Z).

(** Keep the hardware registers in normal form between the instructions. *)
Ltac flat := cbv beta iota zeta delta [over set_mem mem_of hw console pmm heap kernel_pml4 kbd apic sched alpc acpi
  vmm_test_active shell hw_mem hw_rflags hw_cr2 hw_cr3 hw_msr hw_dev_in hw_in_pos hw_out hw_apic_in hw_apic_pos hw_apic_out
  hw_gdtr hw_idtr hw_cs hw_ds hw_es hw_ss hw_tr
  rax rbx rcx rdx rbp rsi rdi r8 r9 r10 r11 r12 r13 r14 r15 rsp rip].

Ltac unpack r k :=
  destruct r as [x1 x2 x3 x4 x5 x6 x7 x8 x9 x10 x11 x12 x13 x14 x15 x16 x17];
  destruct k as [[m y1 y2 y3 y4 y5 y6 y7 y8 y9 y10 y11 y12 y13 y14 y15 y16 y17] z1 z2 z3 z4 z5 z6 z7 z8 z9 z10 z11];
  cbn [mem_of hw hw_mem] in *.

Lemma trampoline_16_spec c0 c4 w r k :
  trampoline_ready gdt32 gdt64 (mem_of k) ->
  exists r' k', smp_trampoline_16 gdt32 (Ap c0 c4 w (Machine r k)) = Ret tt (Ap (Z.lor c0 (2 ^ CR0_PE)) c4 32 (Machine r' k')) /\
    k' = k <| hw := hw k' |> /\ mem_of k' = accessed (mem_of k) gdt32 8 /\ hw_gdtr (hw k') = (23, gdt32) /\
    hw_msr (hw k') = hw_msr (hw k) /\ Z.testbit (hw_rflags (hw k')) RFLAGS_IF = false.
Proof.
  intros [Hp [P1 P2] _ T32 _]. destruct (table_code _ _ _ _ T32 eq_refl eq_refl) as [C1 F1].
  unfold SMP_DATA in Hp. unpack r k.
  unfold smp_trampoline_16. rewrite bind_hw; flat. rewrite bind_hw; flat. unfold set_ax. rewrite bind_regs; flat.
  rewrite (bind_ret _ _ _ _ _ (real_segments_spec _ _ _ _ _)); flat. rewrite ax_value by lia.
  unfold lgdt_16. rewrite bind_hw; flat. rewrite P1, P2.
  change 0xFFFFFF with (Z.ones 24). rewrite Z.land_ones, (Z.mod_small gdt32) by lia.
  rewrite (bind_ret _ _ _ _ _ (or_cr0_spec _ _ _ _ _ _)); flat.
  rewrite (far_jump_spec _ _ _ _ _ gdt32 0xC) by done. flat.
  assert (Ec : forall c e, code_size c e 0xC = 32) by (intros; unfold code_size; by rewrite andb_false_r).
  rewrite Ec. eexists _, _. split; [reflexivity |]. flat.
  split_and!; try reflexivity.
  by rewrite Z.clearbit_neq, Z.clearbit_eq by (unfold RFLAGS_IF, RFLAGS_DF; lia).
Qed.

Lemma efer_value v : 0 <= v < 2 ^ 64 ->
  Z.lor (v mod 2 ^ 32) (2 ^ EFER_LME) mod 2 ^ 32 + 2 ^ 32 * (v / 2 ^ 32 mod 2 ^ 32) = Z.lor v (2 ^ EFER_LME).
Proof.
  intros Hv. rewrite (Z.mod_small (v / 2 ^ 32)) by (split; [apply Z.div_pos | apply Z.div_lt_upper_bound]; lia).
  assert (El : Z.lor (v mod 2 ^ 32) (2 ^ EFER_LME) mod 2 ^ 32 = Z.lor v (2 ^ EFER_LME) mod 2 ^ 32).
  { rewrite <- !Z.land_ones, !Z.land_lor_distr_l, <- Z.land_assoc, Z.land_diag by lia. done. }
  assert (Eh : v / 2 ^ 32 = Z.lor v (2 ^ EFER_LME) / 2 ^ 32).
  { rewrite <- !Z.shiftr_div_pow2, Z.shiftr_lor by lia. symmetry. apply Z.lor_0_r. }
  rewrite El, Eh. pose proof (Z.div_mod (Z.lor v (2 ^ EFER_LME)) (2 ^ 32)). lia.
Qed.

Lemma trampoline_32_spec c0 c4 w r k :
  let m := accessed3 (mem_of k) gdt32 in
  let efer := default 0 (hw_msr (hw k) !! MSR_EFER) in
  hw_gdtr (hw k) = (23, gdt32) -> data_ok (ld8 (mem_of k) (gdt32 + 16 + 5)) = true ->
  ld16 m (gdt64_ptr gdt64) = 23 -> ld32 m (gdt64_ptr gdt64 + 2) = gdt64 -> code_ok (ld8 m (gdt64 + 8 + 5)) = true ->
  seg_flags m (gdt64 + 8) = 0xA -> 0 <= efer < 2 ^ 64 ->
  exists r' k', smp_trampoline_32 gdt64 (Ap c0 c4 w (Machine r k)) =
      Ret tt (Ap (Z.lor c0 (2 ^ CR0_PG)) (Z.lor c4 (2 ^ CR4_PAE)) 64 (Machine r' k')) /\
    k' = k <| hw := hw k' |> /\ mem_of k' = accessed m gdt64 8 /\ hw_gdtr (hw k') = (23, gdt64) /\
    hw_cr3 (hw k') = ld32 m SMP_DATA /\ hw_msr (hw k') = <[MSR_EFER := Z.lor efer (2 ^ EFER_LME)]> (hw_msr (hw k)) /\
    hw_rflags (hw k') = hw_rflags (hw k) /\ hw_cs (hw k') = 8.
Proof.
  intros m' efer Hg D1 P1 P2 C1 L1 He. unpack r k. subst m' efer. cbn [hw_gdtr hw_msr hw] in *.
  unfold smp_trampoline_32, set_ax. rewrite bind_regs; flat.
  erewrite bind_ret; [| apply (data_segments_spec _ _ _ _ _ gdt32); [apply ax_value; lia | exact Hg | exact D1]]; flat.
  rewrite bind_load; flat. unfold set_eax. rewrite bind_regs; flat. rewrite bind_get_reg; flat. rewrite bind_hw; flat.
  rewrite (bind_ret _ _ _ _ _ (or_cr4_spec _ _ _ _ _ _)); flat. rewrite bind_regs; flat.
  rewrite (bind_ret _ _ _ _ _ (rdmsr_spec _ _ _ _ _)); flat. rewrite bind_regs; flat.
  rewrite (bind_ret _ _ _ _ _ (wrmsr_spec _ _ _ _ _)); flat. rewrite efer_value by done.
  rewrite (bind_ret _ _ _ _ _ (or_cr0_spec _ _ _ _ _ _)); flat. unfold lgdt_32. rewrite bind_hw; flat. rewrite P1, P2.
  rewrite (far_jump_spec _ _ _ _ _ gdt64 0xA) by done. flat. rewrite lookup_insert_eq.
  assert (Ec : forall c e, code_size (Z.lor c (2 ^ CR0_PG)) (default 0 (Some (Z.lor e (2 ^ EFER_LME)))) 0xA = 64).
  { intros c e. change (default 0 (Some ?x)) with x. unfold code_size. rewrite !Z.lor_spec, !Z.pow2_bits_true by (unfold CR0_PG, EFER_LME; lia). by rewrite !orb_true_r. }
  rewrite Ec. eexists _, _. split; [reflexivity |]. flat.
  split_and!; reflexivity.
Qed.

Lemma trampoline_64_spec c0 c4 w r k :
  let m := accessed3 (mem_of k) gdt64 in
  let m' := st64 m SMP_STATUS 1 in
  hw_gdtr (hw k) = (23, gdt64) -> data_ok (ld8 (mem_of k) (gdt64 + 16 + 5)) = true ->
  exists r' k', smp_trampoline_64 (Ap c0 c4 w (Machine r k)) = Ret tt (Ap c0 c4 w (Machine r' k')) /\
    rsp r' = ld64 m (SMP_DATA + 8) /\ rip r' = ld64 m' (SMP_DATA + 16) /\ mem_of k' = m' /\
    k' = k <| hw ::= fun h => h <| hw_mem := m' |> <| hw_ds := 16 |> <| hw_es := 16 |> <| hw_ss := 16 |> |>.
Proof.
  intros m' m'' Hg D1. unpack r k. subst m' m''. cbn [hw_gdtr hw] in *.
  unfold smp_trampoline_64, set_ax. rewrite bind_regs; flat.
  erewrite bind_ret; [| apply (data_segments_spec _ _ _ _ _ gdt64); [apply ax_value; lia | exact Hg | exact D1]]; flat.
  rewrite bind_regs; flat. rewrite bind_get_reg; flat. rewrite bind_load; flat. do 3 (rewrite bind_regs; flat).
  do 2 (rewrite bind_get_reg; flat). erewrite (bind_kernel (on_mem _)) by reflexivity; flat.
  rewrite bind_regs; flat. rewrite bind_get_reg; flat. rewrite bind_load; flat. rewrite bind_regs; flat.
  eexists _, _. split; [reflexivity |]. flat. split_and!; reflexivity.
Qed.
End Specs.

(** ** Theorem *)

(** Words none of whose bytes the start-up writes. *)
Lemma agree_outside gdt32 gdt64 m m' a n :
  (forall b, outside_startup gdt32 gdt64 b -> ld8 m' b = ld8 m b) ->
  (forall b, a <= b < a + n -> outside_startup gdt32 gdt64 b) -> agree a (a + n) m m'.
Proof. intros H Ho b Hb. by apply H, Ho. Qed.

(** C35: the start-up code takes a woken processor from real mode to the entry
    point smp_init stored, on the stack smp_init allocated, in 64-bit mode, each
    part of the code being decoded in the size it is assembled for: protection, paging, physical address extension and long mode are switched on
    with the other bits of their registers kept, the segments come from the
    second table, interrupts are off.  The page tables are the kernel's only when
    they lie below 4 GiB: their address is cut to 32 bits.  Nothing is written but
    the status word, which already says that the processor is up, and the accessed
    bits of the tables. *)
Theorem smp_trampoline_correct gdt32 gdt64 c0 c4 r k :
  let m := mem_of k in
  let efer := default 0 (hw_msr (hw k) !! MSR_EFER) in
  trampoline_ready gdt32 gdt64 m -> 0 <= efer < 2 ^ 64 ->
  exists r' k', smp_trampoline gdt32 gdt64 (Ap c0 c4 16 (Machine r k)) =
      Ret tt (Ap (Z.lor (Z.lor c0 (2 ^ CR0_PE)) (2 ^ CR0_PG)) (Z.lor c4 (2 ^ CR4_PAE)) 64 (Machine r' k')) /\
    rsp r' = ld64 m (SMP_DATA + 8) /\ rip r' = ld64 m (SMP_DATA + 16) /\
    hw_cr3 (hw k') = ld64 m SMP_DATA mod 2 ^ 32 /\
    hw_msr (hw k') = <[MSR_EFER := Z.lor efer (2 ^ EFER_LME)]> (hw_msr (hw k)) /\
    hw_gdtr (hw k') = (23, gdt64) /\ hw_cs (hw k') = 8 /\
    hw_ds (hw k') = 16 /\ hw_es (hw k') = 16 /\ hw_ss (hw k') = 16 /\
    Z.testbit (hw_rflags (hw k')) RFLAGS_IF = false /\ k' = k <| hw := hw k' |> /\
    ld64 (mem_of k') SMP_STATUS = 1 /\
    (forall b, outside_startup gdt32 gdt64 b -> ld8 (mem_of k') b = ld8 m b).
Proof.
  intros m efer Hr He. pose proof Hr as [Hp P32 [P1 P2] T32 T64]. unfold gdt64_ptr in P1, P2.
  destruct (table_code _ _ _ _ T64 eq_refl eq_refl) as [C2 L2].
  pose proof (table_data _ _ _ _ T32 eq_refl eq_refl) as D1. pose proof (table_data _ _ _ _ T64 eq_refl eq_refl) as D2.
  destruct (trampoline_16_spec gdt32 gdt64 c0 c4 16 r k Hr) as (r1 & k1 & E1 & F1 & M1 & G1 & S1 & I1). fold m in M1.
  pose proof (accessed_agree m gdt32 8) as A1. rewrite <- M1 in A1.
  pose proof (accessed3_agree (mem_of k1) gdt32) as A2. set (m2 := accessed3 (mem_of k1) gdt32) in *.
  pose proof (accessed_agree m2 gdt64 8) as A3. set (m3 := accessed m2 gdt64 8) in *.
  pose proof (accessed3_agree m3 gdt64) as A4. set (m4 := accessed3 m3 gdt64) in *.
  unfold SMP_DATA in Hp.
  assert (B2 : forall b, outside_startup gdt32 gdt64 b -> ld8 m2 b = ld8 m b)
    by (unfold outside_startup; intros b Hb; rewrite A2, A1 by lia; done).
  assert (B4 : forall b, outside_startup gdt32 gdt64 b -> ld8 m4 b = ld8 m b)
    by (unfold outside_startup; intros b Hb; rewrite A4, A3, B2 by (unfold outside_startup; lia); done).
  destruct (trampoline_32_spec gdt32 gdt64 (Z.lor c0 (2 ^ CR0_PE)) c4 32 r1 k1)
    as (r2 & k2 & E2 & F2 & M2 & G2 & R2 & S2 & I2 & Cs2).
  { done. }
  { rewrite A1 by lia. done. }
  { fold m2. unfold gdt64_ptr. rewrite (ld16_agree _ _ m m2 _ (agree_outside gdt32 gdt64 m m2 (gdt64 + 24) 2 B2 ltac:(startup))) by lia. done. }
  { fold m2. unfold gdt64_ptr. rewrite (ld32_agree _ _ m m2 _ (agree_outside gdt32 gdt64 m m2 (gdt64 + 24 + 2) 4 B2 ltac:(startup))) by lia. done. }
  { fold m2. rewrite A2, A1 by lia. done. }
  { fold m2. unfold seg_flags in *. rewrite A2, A1 by lia. exact L2. }
  { by rewrite S1. }
  fold m2 in M2, R2. fold m3 in M2.
  destruct (trampoline_64_spec gdt64 (Z.lor (Z.lor c0 (2 ^ CR0_PE)) (2 ^ CR0_PG)) (Z.lor c4 (2 ^ CR4_PAE)) 64 r2 k2)
    as (r3 & k3 & E3 & Rsp & Rip & M3 & F3); [done | rewrite M2, A3, A2, A1 by lia; done |].
  rewrite M2 in Rsp, Rip, M3, F3. fold m4 in Rsp, Rip, M3, F3. exists r3, k3.
  split.
  { unfold smp_trampoline. rewrite in_bits_ok, (bind_ret _ _ _ _ _ E1), in_bits_ok, (bind_ret _ _ _ _ _ E2). by rewrite in_bits_ok. }
  split; [rewrite Rsp; apply (ld64_agree _ _ m m4 _ (agree_outside gdt32 gdt64 m m4 (SMP_DATA + 8) 8 B4 ltac:(startup))); lia |].
  split.
  { rewrite Rip, ld64_st64_ne by (unfold SMP_STATUS, SMP_DATA; lia).
    apply (ld64_agree _ _ m m4 _ (agree_outside gdt32 gdt64 m m4 (SMP_DATA + 16) 8 B4 ltac:(startup))); lia. }
  assert (Ecr : hw_cr3 (hw k2) = ld64 m SMP_DATA mod 2 ^ 32).
  { rewrite R2, <- ld32_low. apply (ld32_agree _ _ m m2 _ (agree_outside gdt32 gdt64 m m2 SMP_DATA 4 B2 ltac:(startup))); lia. }
  rewrite F3. cbn [hw over hw_cr3 hw_msr hw_gdtr hw_cs hw_ds hw_es hw_ss hw_rflags]. 
  split_and!; try done.
  - by rewrite S2, S1.
  - by rewrite I2.
  - rewrite F2, F1. reflexivity.
  - change (ld64 (st64 m4 SMP_STATUS 1) SMP_STATUS = 1). by rewrite ld64_st64_eq.
  - intros b Hb. change (ld8 (st64 m4 SMP_STATUS 1) b = ld8 m b). rewrite ld8_st64_out by (destruct Hb; lia). by apply B4.
Qed.

(** The tables of smp_boot.asm at 0x8100 and 0x8120, the kernel's page tables at 2
    MiB, a stack and the entry point. *)
Definition startup_mem : mem :=
  let words := [(0x8108, 0x00CF9A000000FFFF); (0x8110, 0x00CF92000000FFFF); (0x811A, 0x8100);
    (0x8128, 0x00AF9A000000FFFF); (0x8130, 0x00AF92000000FFFF); (0x813A, 0x8120);
    (0x7000, 0x200000); (0x7008, 0x90000); (0x7010, 0x100000)] in
  st16 (st16 (fold_left (fun m w => st64 m (fst w) (snd w)) words ∅) 0x8118 23) 0x8138 23.
Definition startup_machine : machine := Machine user_regs (initial_kernel (plain_hw startup_mem)).

Lemma startup_ready : trampoline_ready 0x8100 0x8120 startup_mem.
Proof.
  assert (Hl : forall base ws, (forall i w, ws !! i = Some w -> Forall (fun j => ld8 startup_mem (base + 8 * Z.of_nat i + j) = byte_of w j) (seqZ 0 8)) ->
    table_loaded startup_mem base ws).
  { intros base ws H i w j Hw Hj. left. specialize (H i w Hw). rewrite Forall_forall in H. apply H, elem_of_seqZ. lia. }
  constructor; [by vm_compute | by vm_compute | by vm_compute | |]; apply Hl; intros [| [| [| i]]] w Hw; simplify_eq/=;
    apply (bool_decide_unpack _); by vm_compute.
Qed.

Lemma smp_trampoline_correct_witness :
  exists r' k', smp_trampoline 0x8100 0x8120 (Ap 0x60000010 0 16 startup_machine) =
      Ret tt (Ap 0xE0000011 0x20 64 (Machine r' k')) /\
    rsp r' = 0x90000 /\ rip r' = 0x100000 /\ hw_cr3 (hw k') = 0x200000.
Proof.
  destruct (smp_trampoline_correct 0x8100 0x8120 0x60000010 0 user_regs (initial_kernel (plain_hw startup_mem)) startup_ready)
    as (r' & k' & E & H1 & H2 & H3 & _); [by vm_compute |].
  exists r', k'. split; [exact E |]. split; [rewrite H1; by vm_compute |]. split; [rewrite H2; by vm_compute | rewrite H3; by vm_compute].
Defined.
