(* ===== verification/Alpc.v ===== *)
(** alpc.c: message ports and shared-memory sections.

    Ports are objects in the store [ports]; the messages of a port are
    [p_queue_size] slots of 176 bytes at [p_msg_queue] in physical memory, and a
    caller's message is 176 bytes at the address it passes.  Sections are runs
    of physical pages that are mapped, page by page, at growing virtual
    addresses. *)

From S2P Require Import Prelude Memory State Lib Console Pmm PmmInit Heap Vmm Ring Apic Cpu Queue Sched SchedSpec SchedProps.

(** sizeof(alpc_message_t), sizeof(alpc_port_t) *)
Definition MSG_BYTES : Z := 176.
Definition SIZEOF_PORT : Z := 80.

Definition port_list_lock_ref : spinlock_ref := {|
  lk_get := fun k => Some (port_list_lock (alpc k));
  lk_set := fun v k => k <| alpc ::= fun a => a <| port_list_lock := v |> |>
|}.
Definition section_lock_ref : spinlock_ref := {|
  lk_get := fun k => Some (section_lock (alpc k));
  lk_set := fun v k => k <| alpc ::= fun a => a <| section_lock := v |> |>
|}.
(** [&port->lock] *)
Definition port_lock_ref (p : Z) : spinlock_ref := {|
  lk_get := fun k => p_lock <$> deref (ports (alpc k)) p;
  lk_set := fun v k => k <| alpc ::= fun a => a <| ports ::= alter (fun q => q <| p_lock := v |>) p |> |>
|}.

Definition port_load (p : Z) : M kernel alpc_port_t := fun k =>
  match deref (ports (alpc k)) p with Some q => Ret q k | None => Fault end.
Definition set_port (p : Z) (q : alpc_port_t) (k : kernel) : kernel :=
  k <| alpc ::= fun a => a <| ports ::= <[p := q]> |> |>.
Definition port_update (p : Z) (f : alpc_port_t -> alpc_port_t) : M kernel unit :=
  q ← port_load p; modify (set_port p (f q)).

Definition zero_port : alpc_port_t := Port (replicate 32 0) 0 0 0 0 0 0 0 0.
Definition port_zero (p : Z) : M kernel unit :=
  if p =? 0 then fault else modify (set_port p zero_port).

Definition alpc_init : M kernel unit :=
  modify (fun k => k <| alpc ::= fun a =>
    a <| port_list_lock := 0 |> <| section_lock := 0 |>
      <| sections := replicate 64 (Sect 0 0 0 0) |> |>).

(** ** Ports *)

Definition alpc_create_port (name : list Z) (queue_size : Z) : M kernel Z :=
  port ← kmalloc SIZEOF_PORT;
  port_zero port;;
  q ← port_load port;
  nm ← from_option (b_strcpy (p_name q) name);
  port_update port (fun q => q <| p_name := nm |>);;
  tid ← sched_get_tid;
  port_update port (fun q => q <| p_owner_tid := tid |> <| p_server_tid := tid |>
    <| p_queue_size := queue_size |>);;
  buf ← kmalloc (u64 (MSG_BYTES * queue_size));
  port_update port (fun q => q <| p_msg_queue := buf |> <| p_lock := 0 |>);;
  flags ← b_irq_save;
  spin_lock port_list_lock_ref;;
  head ← gets (fun k => port_list (alpc k));
  port_update port (fun q => q <| p_next := head |>);;
  modify (fun k => k <| alpc ::= fun a => a <| port_list := port |> |>);;
  spin_unlock port_list_lock_ref;;
  b_irq_restore flags;;
  mret port.

(** [while (curr) { if (b_strcmp(curr->name, name) == 0) ...; curr = curr->next; }] *)
Fixpoint find_port (fuel : nat) (name : list Z) (curr : Z) : M kernel Z :=
  match fuel with
  | O => nofuel
  | S fuel' =>
      if curr =? 0 then mret 0 else
      q ← port_load curr;
      r ← from_option (b_strcmp (p_name q) name);
      if r =? 0 then mret curr else find_port fuel' name (p_next q)
  end.

Definition alpc_connect_port (name : list Z) : M kernel Z :=
  flags ← b_irq_save;
  spin_lock port_list_lock_ref;;
  head ← gets (fun k => port_list (alpc k));
  fuel ← gets (fun k => S (size (ports (alpc k))));
  r ← find_port fuel name head;
  spin_unlock port_list_lock_ref;;
  b_irq_restore flags;;
  mret r.

(** The slot [i] of the queue at [base]. *)
Definition slot (base i : Z) : Z := base + MSG_BYTES * i.

(** alpc_send up to the hand-off: the result says whether there was room, and
    to which thread the processor is to be given. *)
Definition alpc_enqueue (port msg : Z) : M kernel (option Z) :=
  tid ← sched_get_tid;
  modify (fun k => set_mem (st64 (mem_of k) msg tid) k);;
  q ← port_load port;
  modify (fun k => set_mem (st64 (mem_of k) (msg + 8) (p_server_tid q)) k);;
  flags ← b_irq_save;
  spin_lock (port_lock_ref port);;
  q ← port_load port;
  when (p_queue_size q =? 0) fault;;
  if (u32 (p_queue_tail q + 1) mod p_queue_size q) =? p_queue_head q then
    spin_unlock (port_lock_ref port);;
    b_irq_restore flags;;
    mret None
  else
    modify (fun k => set_mem (b_memcpy (mem_of k) (slot (p_msg_queue q) (p_queue_tail q)) msg MSG_BYTES) k);;
    port_update port (fun q => q <| p_queue_tail := u32 (p_queue_tail q + 1) mod p_queue_size q |>);;
    q ← port_load port;
    spin_unlock (port_lock_ref port);;
    b_irq_restore flags;;
    mret (Some (p_server_tid q)).

(** [rsp] is where the frame of the hand-off's [int $32] is. *)
Definition alpc_send (rsp port_id msg : Z) : M kernel Z :=
  if port_id =? 0 then mret (-1) else
  r ← alpc_enqueue port_id msg;
  match r with
  | None => mret (-1)
  | Some target => sched_handoff rsp target;; mret 0
  end.

Definition alpc_recv (port_id msg : Z) : M kernel Z :=
  if port_id =? 0 then mret (-1) else
  flags ← b_irq_save;
  spin_lock (port_lock_ref port_id);;
  q ← port_load port_id;
  if p_queue_head q =? p_queue_tail q then
    spin_unlock (port_lock_ref port_id);;
    b_irq_restore flags;;
    mret (-1)
  else
    modify (fun k => set_mem (b_memcpy (mem_of k) msg (slot (p_msg_queue q) (p_queue_head q)) MSG_BYTES) k);;
    when (p_queue_size q =? 0) fault;;
    port_update port_id (fun q => q <| p_queue_head := u32 (p_queue_head q + 1) mod p_queue_size q |>);;
    spin_unlock (port_lock_ref port_id);;
    b_irq_restore flags;;
    mret 0.

(** ** Sections *)

(** The first index of [l], from [i] on, whose section has id [id]. *)
Fixpoint find_section (id : Z) (i : nat) (l : list alpc_section_t) : option nat :=
  match l with
  | [] => None
  | s :: l' => if sec_id s =? id then Some i else find_section id (S i) l'
  end.

Definition alpc_create_section (size : Z) : M kernel Z :=
  let pages := u64 (size + 4095) / 4096 in
  phys ← pmm_alloc pages;
  spin_lock section_lock_ref;;
  id ← gets (fun k => next_section_id (alpc k));
  modify (fun k => k <| alpc ::= fun a => a <| next_section_id := u64 (id + 1) |> |>);;
  l ← gets (fun k => sections (alpc k));
  match find_section 0 0 l with
  | Some i =>
      tid ← sched_get_tid;
      modify (fun k => k <| alpc ::= fun a =>
        a <| sections ::= <[i := Sect id phys (u64 (pages * 4096)) tid]> |> |>);;
      spin_unlock section_lock_ref;;
      mret id
  | None =>
      spin_unlock section_lock_ref;;
      mret 0
  end.

(** [n] rounds of the mapping loop. *)
Fixpoint map_range (n : nat) (pml4 virt phys : Z) : M kernel unit :=
  match n with
  | O => mret tt
  | S n' =>
      vmm_map pml4 virt phys (Z.lor (Z.lor PAGE_PRESENT PAGE_WRITABLE) PAGE_USER);;
      map_range n' pml4 (u64 (virt + 4096)) (u64 (phys + 4096))
  end.

Definition alpc_map_section (section_id : Z) : M kernel Z :=
  spin_lock section_lock_ref;;
  l ← gets (fun k => sections (alpc k));
  match find_section section_id 0 l with
  | Some i =>
      s ← from_option (l !! i);
      virt ← gets (fun k => next_section_virt (alpc k));
      modify (fun k => k <| alpc ::= fun a => a <| next_section_virt := u64 (virt + sec_size s) |> |>);;
      spin_unlock section_lock_ref;;
      pml4 ← gets vmm_get_kernel_pml4;
      map_range (Z.to_nat ((sec_size s + 4095) / 4096)) pml4 virt (sec_phys_addr s);;
      mret virt
  | None =>
      spin_unlock section_lock_ref;;
      mret 0
  end.
(** ** The queue of a port *)

(** The message at address [a]. *)
Definition msg_at (m : mem) (a : Z) : list Z :=
  (fun i : nat => ld8 m (a + Z.of_nat i)) <$> seq 0 (Z.to_nat MSG_BYTES).

(** The waiting messages of the port [q], oldest first. *)
Definition port_msgs (m : mem) (q : alpc_port_t) : list (list Z) :=
  ring (fun i => msg_at m (slot (p_msg_queue q) i)) (p_queue_size q) (p_queue_head q) (p_queue_tail q).

Record port_ok (k : kernel) (p : Z) (q : alpc_port_t) : Prop := {
  pk_addr : p <> 0;
  pk_port : ports (alpc k) !! p = Some q;
  pk_ring : ring_ok (p_queue_size q) (p_queue_head q) (p_queue_tail q);
  pk_lock : p_lock q = 0
}.

(** The caller's message lies outside the port's queue. *)
Definition apart (q : alpc_port_t) (msg : Z) : Prop :=
  msg + MSG_BYTES <= p_msg_queue q \/ p_msg_queue q + MSG_BYTES * p_queue_size q <= msg.

Lemma msg_at_ext m m' a a' :
  (forall i, 0 <= i < MSG_BYTES -> ld8 m' (a' + i) = ld8 m (a + i)) -> msg_at m' a' = msg_at m a.
Proof.
  intros H. unfold msg_at. apply list_fmap_ext. intros j i Hi. apply lookup_seq in Hi as [-> Hi]. apply H. lia.
Qed.

(** Writes outside the queue leave the messages alone. *)
Lemma port_msgs_agree m m' q :
  ring_ok (p_queue_size q) (p_queue_head q) (p_queue_tail q) ->
  (forall b, p_msg_queue q <= b < p_msg_queue q + MSG_BYTES * p_queue_size q -> ld8 m' b = ld8 m b) ->
  port_msgs m' q = port_msgs m q.
Proof.
  intros Hr H. apply ring_ext; [done |]. intros i Hi _. apply msg_at_ext. intros j Hj.
  apply H. unfold slot, MSG_BYTES in *. lia.
Qed.

Lemma memcpy_msg m d s :
  d + MSG_BYTES <= s \/ s + MSG_BYTES <= d -> msg_at (b_memcpy m d s MSG_BYTES) d = msg_at m s.
Proof.
  intros Hd. apply msg_at_ext. intros i Hi. rewrite b_memcpy_ld8 by (unfold MSG_BYTES in *; lia).
  destruct (Z.leb_spec d (d + i)), (Z.ltb_spec (d + i) (d + MSG_BYTES)); simpl; try lia. f_equal. lia.
Qed.

(** Slots of the queue do not overlap. *)
Lemma slot_apart b i j : i <> j -> slot b i + MSG_BYTES <= slot b j \/ slot b j + MSG_BYTES <= slot b i.
Proof. unfold slot, MSG_BYTES. lia. Qed.

Lemma msg_at_agree_out m m' lo hi a :
  agree_out lo hi m m' -> a + MSG_BYTES <= lo \/ hi <= a -> msg_at m' a = msg_at m a.
Proof. intros H Ha. apply msg_at_ext. intros i Hi. apply H. lia. Qed.

Lemma port_load_eq k p q : ports (alpc k) !! p = Some q -> p <> 0 -> port_load p k = Ret q k.
Proof. intros Hq H0. unfold port_load, deref. apply Z.eqb_neq in H0. by rewrite H0, Hq. Qed.

Lemma port_update_eq k p q f :
  ports (alpc k) !! p = Some q -> p <> 0 -> port_update p f k = Ret tt (set_port p (f q) k).
Proof. intros Hq H0. unfold port_update. by rewrite (bind_ret _ _ _ _ _ (port_load_eq k p q Hq H0)). Qed.

Lemma port_lock_get k p q : ports (alpc k) !! p = Some q -> p <> 0 -> lk_get (port_lock_ref p) k = Some (p_lock q).
Proof. intros Hq H0. simpl. unfold deref. apply Z.eqb_neq in H0. by rewrite H0, Hq. Qed.

(** Taking and giving back the lock of [p] around an update of [p]. *)
Lemma port_lock_set k p q v :
  ports (alpc k) !! p = Some q -> lk_set (port_lock_ref p) v k = set_port p (q <| p_lock := v |>) k.
Proof.
  intros Hq. simpl. unfold set_port. destruct k as [? ? ? ? ? ? ? ? [pl pll prt sec nid nv sl] ? ?]. cbn in *.
  unfold over. simpl. do 2 f_equal. apply map_eq. intros x. destruct (decide (x = p)) as [-> | Hne].
  - by rewrite lookup_alter_eq, Hq, lookup_insert_eq.
  - by rewrite lookup_alter_ne, lookup_insert_ne.
Qed.

Lemma set_port_twice k p q q' : set_port p q (set_port p q' k) = set_port p q k.
Proof.
  destruct k as [? ? ? ? ? ? ? ? [] ? ?]. unfold set_port, over. simpl. do 2 f_equal. apply insert_insert_eq.
Qed.
Lemma set_port_same k p q : ports (alpc k) !! p = Some q -> set_port p q k = k.
Proof.
  intros Hq. destruct k as [? ? ? ? ? ? ? ? [] ? ?]. unfold set_port, over. simpl in *. do 2 f_equal. by apply insert_id.
Qed.

(** The message as alpc_send stores it: with its sender and receiver filled in. *)
Definition stamped (m : mem) (msg tid server : Z) : mem := st64 (st64 m msg tid) (msg + 8) server.

Lemma stamped_agree m msg tid server : agree_out msg (msg + MSG_BYTES) m (stamped m msg tid server).
Proof.
  unfold stamped. etransitivity; (eapply agree_out_sub; [| | apply agree_out_st64]); unfold MSG_BYTES; lia.
Qed.

(** Copying a message into the slot behind the last one, in memory. *)
Lemma enqueue_slot m q msg tid :
  ring_ok (p_queue_size q) (p_queue_head q) (p_queue_tail q) -> apart q msg ->
  ring_next (p_queue_size q) (p_queue_tail q) <> p_queue_head q ->
  let m1 := stamped m msg tid (p_server_tid q) in
  let m2 := b_memcpy m1 (slot (p_msg_queue q) (p_queue_tail q)) msg MSG_BYTES in
  let q' := q <| p_queue_tail := ring_next (p_queue_size q) (p_queue_tail q) |> in
  port_msgs m2 q' = port_msgs m q ++ [msg_at m1 msg] /\
  agree_out (p_msg_queue q) (p_msg_queue q + MSG_BYTES * p_queue_size q) m1 m2.
Proof.
  intros Hr Hap E m1 m2 q'. pose proof Hr as [Hn Hh Ht]. set (dst := slot (p_msg_queue q) (p_queue_tail q)) in *.
  unfold apart, port_msgs in *. split.
  - cbn [p_queue_size p_queue_head p_queue_tail p_msg_queue q' over].
    change (p_queue_tail q') with (ring_next (p_queue_size q) (p_queue_tail q)).
    rewrite (ring_put (fun i => msg_at m (slot (p_msg_queue q) i))); [| done | done |].
    + f_equal. f_equal. unfold m2. fold dst. apply memcpy_msg. unfold dst, slot, MSG_BYTES in *. lia.
    + intros i Hi Hne. transitivity (msg_at m1 (slot (p_msg_queue q) i)).
      * apply (msg_at_agree_out _ _ dst (dst + MSG_BYTES)).
        -- apply b_memcpy_agree_out; unfold dst, slot, MSG_BYTES in *; lia.
        -- pose proof (slot_apart (p_msg_queue q) i (p_queue_tail q) Hne). unfold dst, slot in *. lia.
      * apply (msg_at_agree_out _ _ msg (msg + MSG_BYTES)); [apply stamped_agree |].
        unfold slot, MSG_BYTES in *. lia.
  - eapply agree_out_sub; [| | apply b_memcpy_agree_out]; unfold dst, slot, MSG_BYTES in *; lia.
Qed.

Lemma alpc_enqueue_spec k p q msg tid :
  port_ok k p q -> apart q msg -> sched_get_tid k = Ret tid k ->
  let m1 := stamped (mem_of k) msg tid (p_server_tid q) in
  let q' := q <| p_queue_tail := ring_next (p_queue_size q) (p_queue_tail q) |> in
  if Z.of_nat (length (port_msgs (mem_of k) q)) =? p_queue_size q - 1
  then alpc_enqueue p msg k = Ret None (set_mem m1 k)
  else exists m2, alpc_enqueue p msg k = Ret (Some (p_server_tid q)) (set_port p q' (set_mem m2 k)) /\
    port_msgs m2 q' = port_msgs (mem_of k) q ++ [msg_at m1 msg] /\
    agree_out (p_msg_queue q) (p_msg_queue q + MSG_BYTES * p_queue_size q) m1 m2.
Proof.
  intros [H0 Hq Hr Hlk] Hap Htid m1 q'.
  unfold port_msgs. rewrite (ring_length _ _ _ _ Hr).
  pose proof (ring_full _ _ _ Hr) as Hfull. pose proof Hr as [Hn Hh Ht].
  unfold alpc_enqueue. rewrite (bind_ret _ _ _ _ _ Htid), bind_modify.
  rewrite (bind_ret _ _ _ _ _ (port_load_eq (set_mem _ k) p q Hq H0)), bind_modify. kstep.
  change (set_mem _ (set_mem _ k)) with (set_mem m1 k).
  change (hw_rflags (hw (set_mem m1 k))) with (hw_rflags (hw k)).
  set (k1 := masked (set_mem m1 k)).
  rewrite bind_spin_lock by (rewrite (port_lock_get k1 p q Hq H0); by rewrite Hlk).
  rewrite (port_lock_set k1 p q 1 Hq). set (q1 := q <| p_lock := 1 |>).
  assert (Hq1 : ports (alpc (set_port p q1 k1)) !! p = Some q1) by (simpl; apply lookup_insert_eq).
  rewrite (bind_ret _ _ _ _ _ (port_load_eq _ p q1 Hq1 H0)).
  change (p_queue_size q1) with (p_queue_size q). change (p_queue_tail q1) with (p_queue_tail q).
  change (p_queue_head q1) with (p_queue_head q). change (p_msg_queue q1) with (p_msg_queue q).
  destruct (Z.eqb_spec (p_queue_size q) 0) as [| Hs0]; [lia |]. cbn [when].
  change (u32 (p_queue_tail q + 1) mod p_queue_size q) with (ring_next (p_queue_size q) (p_queue_tail q)).
  destruct (Z.eqb_spec (ring_len (p_queue_size q) (p_queue_head q) (p_queue_tail q)) (p_queue_size q - 1)) as [E | E].
  - apply Hfull in E. rewrite E, Z.eqb_refl.
    rewrite bind_mret.
    rewrite (bind_spin_unlock _ _ _ _ (port_lock_get _ p q1 Hq1 H0)), bind_irq_restore.
    rewrite (port_lock_set _ p q1 0 Hq1), set_port_twice. unfold mret, M_ret. f_equal.
    replace (q1 <| p_lock := 0 |>) with q by (destruct q; simpl in *; by subst).
    rewrite set_port_same by exact Hq. by destruct k as [[] ? ? ? ? ? ? ? ? ? ?].
  - destruct (Z.eqb_spec (ring_next (p_queue_size q) (p_queue_tail q)) (p_queue_head q)) as [E' | Hnf]; [by apply Hfull in E' |].
    rewrite bind_mret, bind_modify.
    set (dst := slot (p_msg_queue q) (p_queue_tail q)). set (m2 := b_memcpy m1 dst msg MSG_BYTES).
    set (k2 := set_mem _ (set_port p q1 k1)).
    rewrite (bind_ret _ _ _ _ _ (port_update_eq k2 p q1 _ Hq1 H0)).
    set (q2 := q1 <| p_queue_tail := _ |>).
    assert (Hq2 : ports (alpc (set_port p q2 k2)) !! p = Some q2) by (simpl; apply lookup_insert_eq).
    rewrite (bind_ret _ _ _ _ _ (port_load_eq _ p q2 Hq2 H0)).
    rewrite (bind_spin_unlock _ _ _ _ (port_lock_get _ p q2 Hq2 H0)), bind_irq_restore.
    rewrite (port_lock_set _ p q2 0 Hq2). exists m2. split; [| exact (enqueue_slot (mem_of k) q msg tid Hr Hap Hnf)].
    unfold mret, M_ret. f_equal.
    replace (q2 <| p_lock := 0 |>) with q' by (destruct q; simpl in *; by subst).
    destruct k as [[] ? ? ? ? ? ? ? [] ? ?]. unfold set_port, over. simpl. do 2 f_equal.
    by rewrite !insert_insert_eq.
Qed.

Lemma alpc_recv_spec k p q buf :
  port_ok k p q -> apart q buf ->
  let q' := q <| p_queue_head := ring_next (p_queue_size q) (p_queue_head q) |> in
  match port_msgs (mem_of k) q with
  | [] => alpc_recv p buf k = Ret (-1) k
  | x :: xs => exists m, alpc_recv p buf k = Ret 0 (set_port p q' (set_mem m k)) /\
      msg_at m buf = x /\ port_msgs m q' = xs /\ agree_out buf (buf + MSG_BYTES) (mem_of k) m
  end.
Proof.
  intros [H0 Hq Hr Hlk] Hap q'. pose proof Hr as [Hn Hh Ht]. unfold port_msgs.
  pose proof (ring_empty (fun i => msg_at (mem_of k) (slot (p_msg_queue q) i)) _ _ _ Hr) as Hemp.
  unfold alpc_recv. apply Z.eqb_neq in H0 as H0'. rewrite H0'. kstep.
  set (k1 := masked k).
  rewrite bind_spin_lock by (rewrite (port_lock_get k1 p q Hq H0); by rewrite Hlk).
  rewrite (port_lock_set k1 p q 1 Hq). set (q1 := q <| p_lock := 1 |>).
  assert (Hq1 : ports (alpc (set_port p q1 k1)) !! p = Some q1) by (simpl; apply lookup_insert_eq).
  rewrite (bind_ret _ _ _ _ _ (port_load_eq _ p q1 Hq1 H0)).
  change (p_queue_size q1) with (p_queue_size q). change (p_queue_tail q1) with (p_queue_tail q).
  change (p_queue_head q1) with (p_queue_head q). change (p_msg_queue q1) with (p_msg_queue q).
  destruct (Z.eqb_spec (p_queue_head q) (p_queue_tail q)) as [E | E].
  - rewrite (proj2 Hemp E).
    rewrite (bind_spin_unlock _ _ _ _ (port_lock_get _ p q1 Hq1 H0)), bind_irq_restore.
    rewrite (port_lock_set _ p q1 0 Hq1), set_port_twice. unfold mret, M_ret. f_equal.
    replace (q1 <| p_lock := 0 |>) with q by (destruct q; simpl in *; by subst).
    rewrite set_port_same by exact Hq. by destruct k as [[] ? ? ? ? ? ? ? ? ? ?].
  - rewrite (ring_take _ _ _ _ Hr E).
    rewrite bind_modify. destruct (Z.eqb_spec (p_queue_size q) 0) as [| Hs0]; [lia |]. cbn [when].
    rewrite bind_mret.
    set (src := slot (p_msg_queue q) (p_queue_head q)). set (m := b_memcpy (mem_of k) buf src MSG_BYTES).
    set (k2 := set_mem _ (set_port p q1 k1)).
    rewrite (bind_ret _ _ _ _ _ (port_update_eq k2 p q1 _ Hq1 H0)).
    set (q2 := q1 <| p_queue_head := _ |>).
    assert (Hq2 : ports (alpc (set_port p q2 k2)) !! p = Some q2) by (simpl; apply lookup_insert_eq).
    rewrite (bind_spin_unlock _ _ _ _ (port_lock_get _ p q2 Hq2 H0)), bind_irq_restore.
    rewrite (port_lock_set _ p q2 0 Hq2).
    assert (Hout : agree_out buf (buf + MSG_BYTES) (mem_of k) m)
      by (apply b_memcpy_agree_out; unfold apart, src, slot, MSG_BYTES in *; lia).
    exists m. split_and!; [| | | done].
    + unfold mret, M_ret. f_equal.
      replace (q2 <| p_lock := 0 |>) with q' by (destruct q; simpl in *; by subst).
      destruct k as [[] ? ? ? ? ? ? ? [] ? ?]. unfold set_port, over. simpl. do 2 f_equal.
      by rewrite !insert_insert_eq.
    + apply memcpy_msg. unfold apart, src, slot, MSG_BYTES in *. lia.
    + pose proof (ring_next_ok _ _ _ Hr) as [_ Hr'].
      transitivity (ring (fun i => msg_at m (slot (p_msg_queue q) i)) (p_queue_size q)
                (ring_next (p_queue_size q) (p_queue_head q)) (p_queue_tail q)); [reflexivity |].
      apply ring_ext; [done |]. intros i Hi _. apply (msg_at_agree_out _ _ _ _ _ Hout).
      unfold apart, slot, MSG_BYTES in *. lia.
Qed.

(** ** The list of ports *)

(** The ports linked from address [h]. *)
Fixpoint pseg (ps : gmap Z alpc_port_t) (h : Z) (l : list Z) : Prop :=
  match l with
  | [] => h = 0
  | x :: l' => h = x /\ x <> 0 /\ exists q, ps !! x = Some q /\ pseg ps (p_next q) l'
  end.

(** Every port of the list has a name of at most 31 bytes. *)
Definition named (ps : gmap Z alpc_port_t) (x : Z) (name : list Z) : Prop :=
  exists q, ps !! x = Some q /\ cstring (p_name q) = Some name /\ Forall is_byte (p_name q).

Lemma pseg_ext ps ps' l : forall h,
  pseg ps h l -> (forall x, x ∈ l -> ps' !! x = ps !! x) -> pseg ps' h l.
Proof.
  induction l as [| x l IH]; intros h H E; [done |]. destruct H as (-> & H0 & q & Hq & H).
  split; [done |]. split; [done |]. exists q. rewrite E by (by left). split; [done |].
  apply IH; [done |]. intros y Hy. apply E. by right.
Qed.

(** The first port of [l] with name [nm], or 0. *)
Definition first_named (ps : gmap Z alpc_port_t) (nm : list Z) (l : list Z) : Z :=
  default 0 (head (filter (fun x => (ps !! x ≫= cstring ∘ p_name) = Some nm) l)).

Lemma find_port_spec name nm k : forall l h fuel,
  pseg (ports (alpc k)) h l -> (forall x, x ∈ l -> exists y, named (ports (alpc k)) x y) ->
  cstring name = Some nm -> Forall is_byte name -> (length l < fuel)%nat ->
  find_port fuel name h k = Ret (first_named (ports (alpc k)) nm l) k.
Proof.
  induction l as [| x l IH]; intros h fuel Hl Hnm Hc Hb Hf; (destruct fuel as [| fuel]; [simpl in Hf; lia |]); cbn [find_port].
  { simpl in Hl. subst h. done. }
  destruct Hl as (-> & H0 & q & Hq & Hl). apply Z.eqb_neq in H0 as H0'. rewrite H0'.
  rewrite (bind_ret _ _ _ _ _ (port_load_eq k x q Hq H0)).
  destruct (Hnm x (list_elem_of_here x l)) as (y & q' & Hq' & Hy & Hby). assert (q' = q) as -> by congruence.
  destruct (b_strcmp_spec (p_name q) name y nm Hy Hc Hby Hb) as (r & -> & Hr). cbn [from_option]. rewrite bind_mret.
  unfold first_named. rewrite filter_cons. simpl. rewrite Hq. simpl.
  destruct (Z.eqb_spec r 0) as [E | E].
  - apply Hr in E as ->. rewrite decide_True by done. done.
  - rewrite decide_False by (rewrite Hy; intros [= ->]; apply E; by apply Hr).
    apply IH; try done; [| simpl in Hf; lia]. intros z Hz. apply Hnm. by right.
Qed.

Record ports_ok (k : kernel) (l : list Z) : Prop := {
  po_list : pseg (ports (alpc k)) (port_list (alpc k)) l;
  po_named : forall x, x ∈ l -> exists y, named (ports (alpc k)) x y;
  po_nodup : NoDup l;
  po_lock : port_list_lock (alpc k) = 0
}.

Lemma ports_fuel k l : ports_ok k l -> (length l <= size (ports (alpc k)))%nat.
Proof.
  intros [_ Hn Hd _]. rewrite <- size_dom. rewrite <- (size_list_to_set (C := gset Z) l Hd).
  apply subseteq_size. intros x. rewrite elem_of_list_to_set. intros Hx.
  destruct (Hn x Hx) as (y & q & Hq & _). by apply elem_of_dom_2 in Hq.
Qed.

Lemma alpc_connect_port_spec k l name nm :
  ports_ok k l -> cstring name = Some nm -> Forall is_byte name ->
  alpc_connect_port name k = Ret (first_named (ports (alpc k)) nm l) k.
Proof.
  intros Hp Hc Hb. pose proof (ports_fuel k l Hp) as Hf. destruct Hp as [Hl Hn _ Hlk].
  unfold alpc_connect_port. do 4 kstep.
  set (k1 := lk_set port_list_lock_ref 1 (masked k)).
  rewrite (bind_ret _ _ _ _ _ (find_port_spec name nm k1 l _ (S (size (ports (alpc k)))) Hl Hn Hc Hb ltac:(lia))).
  do 2 kstep. unfold mret, M_ret. f_equal. keta k in Hlk.
Qed.

Lemma sched_get_tid_frame k k' tid :
  sched k' = sched k -> hw_msr (hw k') = hw_msr (hw k) ->
  sched_get_tid k = Ret tid k -> sched_get_tid k' = Ret tid k'.
Proof.
  unfold sched_get_tid, cpu_get, b_rdmsr, cpu_load, thread_load, gets, mbind, M_bind. intros Hs Hm. rewrite Hs, Hm.
  destruct (deref (s_cpus (sched k)) _) as [c |]; [| done]. unfold mret, M_ret.
  destruct (negb (c_sched_thread c =? 0)); [rewrite Hs | intros H; by injection H as <-].
  destruct (deref (s_threads (sched k)) _) as [t |]; [| done]. intros H. by injection H as <-.
Qed.

(** *** alpc_create_port *)

(** The record the new port ends up with. *)
Definition new_port (nm : list Z) (tid size buf next : Z) : alpc_port_t :=
  Port nm tid tid buf 0 0 size 0 next.

Lemma bind_port_update {B} k p q f (g : unit -> M kernel B) :
  ports (alpc k) !! p = Some q -> p <> 0 -> (port_update p f ≫= g) k = g tt (set_port p (f q) k).
Proof. intros Hq H0. by rewrite (bind_ret _ _ _ _ _ (port_update_eq k p q f Hq H0)). Qed.

Lemma set_port_lookup k p q : ports (alpc (set_port p q k)) !! p = Some q.
Proof. apply lookup_insert_eq. Qed.

Lemma alpc_create_port_spec k bl o1 bl1 o2 bl2 name d n tid :
  heap_rep k bl -> heap_lock (heap k) = 0 -> port_list_lock (alpc k) = 0 ->
  sched_get_tid k = Ret tid k -> 0 < n < 2 ^ 32 ->
  alloc_list (align8 SIZEOF_PORT) bl = Some (o1, bl1) ->
  alloc_list (align8 (u64 (MSG_BYTES * n))) bl1 = Some (o2, bl2) ->
  b_strcpy (replicate 32 0) name = Some d ->
  let p := heap_start (heap k) + o1 + HDR in
  let buf := heap_start (heap k) + o2 + HDR in
  exists m, alpc_create_port name n k =
      Ret p (set_port p (new_port d tid n buf (port_list (alpc k)))
        (set_mem m k) <| alpc ::= fun a => a <| port_list := p |> |>) /\
    p <> 0 /\ (forall q o, held k bl q o -> q <> p) /\ held (set_mem m k) bl2 p o1 /\
    held (set_mem m k) bl2 buf o2 /\ o1 <> o2 /\
    heap_rep (set_mem m k) bl2.
Proof.
  intros Hr Hl Hpl Htid Hn A1 A2 Hcp p buf.
  assert (Hu : u64 (MSG_BYTES * n) = MSG_BYTES * n) by (apply u64_small; unfold MSG_BYTES; lia).
  destruct (kmalloc_held k bl SIZEOF_PORT o1 bl1 Hr Hl ltac:(unfold SIZEOF_PORT; lia) A1)
    as (m1 & sz1 & E1 & R1 & O1 & B1 & _ & _ & K1 & _ & _).
  assert (Hp1 : held (set_mem m1 k) bl1 p o1) by (split; [done | split; [done | by exists sz1]]).
  destruct (hr_start _ _ Hr) as (Hs0 & _).
  assert (Hp0 : p <> 0) by (unfold p, HDR; lia). apply Z.eqb_neq in Hp0 as Hp0'.
  unfold alpc_create_port. rewrite (bind_ret _ _ _ _ _ E1). fold p. unfold port_zero at 1. rewrite Hp0', bind_modify.
  rewrite (bind_ret _ _ _ _ _ (port_load_eq _ p _ (set_port_lookup _ p zero_port) Hp0)).
  cbn [p_name zero_port]. rewrite Hcp. cbn [from_option]. rewrite bind_mret.
  rewrite (bind_port_update _ p _ _ _ (set_port_lookup _ p _) Hp0), set_port_twice.
  match goal with |- context [sched_get_tid ≫= ?f] =>
    rewrite (bind_ret sched_get_tid f _ _ _ (sched_get_tid_frame k (set_port p _ (set_mem m1 k)) tid eq_refl eq_refl Htid)) end.
  rewrite (bind_port_update _ p _ _ _ (set_port_lookup _ p _) Hp0), set_port_twice.
  match goal with |- context [set_port p ?q (set_mem m1 k)] => set (q3 := q) end.
  set (k2 := set_port p q3 (set_mem m1 k)).
  destruct (kmalloc_held k2 bl1 (u64 (MSG_BYTES * n)) o2 bl2 (heap_rep_frame (set_mem m1 k) k2 _ eq_refl eq_refl R1) Hl
    ltac:(unfold MSG_BYTES in *; lia) A2) as (m2 & sz2 & E2 & R2 & O2 & B2 & _ & _ & K2 & _ & _).
  destruct (K2 _ _ (held_frame (set_mem m1 k) k2 _ _ _ eq_refl Hp1)) as [Hne Hp2].
  change (heap_start (heap k2) + o2 + HDR) with buf in E2. rewrite (bind_ret _ _ _ _ _ E2).
  change (set_mem m2 k2) with (set_port p q3 (set_mem m2 k)).
  rewrite (bind_port_update _ p _ _ _ (set_port_lookup _ p _) Hp0), set_port_twice. do 3 kstep.
  match goal with |- context [(port_update p ?f ≫= ?g) ?s] => set (k3 := s) end.
  assert (Hq3 : ports (alpc k3) !! p = Some (q3 <| p_msg_queue := buf |> <| p_lock := 0 |>)) by apply lookup_insert_eq.
  rewrite (bind_port_update k3 p _ _ _ Hq3 Hp0), bind_modify. do 2 kstep.
  exists m2. split_and!; try done.
  - unfold mret, M_ret. f_equal. destruct k as [[] ? ? ? ? ? ? ? [] ? ?]. simpl in Hpl. subst.
    unfold k3, set_port, over. simpl. do 2 f_equal. by rewrite insert_insert_eq.
  - intros q o Hq ->. destruct (K1 _ _ Hq) as [Hno (E & _)]. apply Hno. unfold p in E. simpl in E. lia.
  - split; [done |]. split; [done |]. by exists sz2.
  - by apply (heap_rep_frame (set_mem m2 k2)).
Qed.

(** ** Theorems on ports *)

(** C16: alpc_send.  On a port with a queue of [n] slots whose buffer does not
    overlap the caller's message, alpc_send fills in the sender's and the
    receiver's thread id.  When [n - 1] messages wait it returns -1 and has
    changed nothing else.  Otherwise it gives the processor to the server in a
    state where the message, so stamped, is appended to the waiting ones, the
    port is unlocked, and no memory but the message's and the queue's has
    changed. *)
Theorem alpc_send_correct rsp k p q msg tid :
  port_ok k p q -> apart q msg -> sched_get_tid k = Ret tid k ->
  let m1 := stamped (mem_of k) msg tid (p_server_tid q) in
  if Z.of_nat (length (port_msgs (mem_of k) q)) =? p_queue_size q - 1
  then alpc_send rsp p msg k = Ret (-1) (set_mem m1 k)
  else exists k1 q1, alpc_send rsp p msg k = (sched_handoff rsp (p_server_tid q);; mret 0) k1 /\
    port_ok k1 p q1 /\ port_msgs (mem_of k1) q1 = port_msgs (mem_of k) q ++ [msg_at m1 msg] /\
    agree_out (p_msg_queue q) (p_msg_queue q + MSG_BYTES * p_queue_size q) m1 (mem_of k1) /\
    sched k1 = sched k /\ heap k1 = heap k /\ hw_rflags (hw k1) = hw_rflags (hw k).
Proof.
  intros Hp Hap Htid m1. pose proof (alpc_enqueue_spec k p q msg tid Hp Hap Htid) as H. cbv zeta in H. fold m1 in H.
  pose proof Hp as [H0 Hq Hr Hlk]. unfold alpc_send. apply Z.eqb_neq in H0 as H0'. rewrite H0'.
  destruct (_ =? p_queue_size q - 1).
  - by rewrite (bind_ret _ _ _ _ _ H).
  - destruct H as (m2 & E & Hm & Hag). rewrite (bind_ret _ _ _ _ _ E).
    eexists _, _. split; [reflexivity |]. split; [| by split_and!].
    constructor; [done | apply lookup_insert_eq | by apply ring_next_ok | done].
Qed.

(** C17: alpc_recv on a port without waiting messages returns -1 and changes
    nothing; otherwise it returns 0, copies the oldest message to the caller's
    buffer, leaves the others waiting in their order, and writes no other
    memory. *)
Theorem alpc_recv_correct k p q buf :
  port_ok k p q -> apart q buf ->
  match port_msgs (mem_of k) q with
  | [] => alpc_recv p buf k = Ret (-1) k
  | x :: xs => exists k' q', alpc_recv p buf k = Ret 0 k' /\ port_ok k' p q' /\
      msg_at (mem_of k') buf = x /\ port_msgs (mem_of k') q' = xs /\
      agree_out buf (buf + MSG_BYTES) (mem_of k) (mem_of k') /\
      sched k' = sched k /\ heap k' = heap k /\ hw_rflags (hw k') = hw_rflags (hw k)
  end.
Proof.
  intros Hp Hap. pose proof (alpc_recv_spec k p q buf Hp Hap) as H. pose proof Hp as [H0 Hq Hr Hlk].
  destruct (port_msgs (mem_of k) q) as [| x xs]; [done |]. destruct H as (m & E & Hx & Hxs & Hag).
  eexists _, _. split; [exact E |]. split; [| by split_and!].
  constructor; [done | apply lookup_insert_eq | by apply ring_next_ok | done].
Qed.

(** C18: ports are found by name.  When both allocations succeed,
    alpc_create_port returns a new port at the front of the list, with an empty
    queue, owned and served by the calling thread; alpc_connect_port with the
    same name then returns that port, and with any other name what it returned
    before. *)
Theorem alpc_create_connect k l bl o1 bl1 o2 bl2 name nm n tid :
  ports_ok k l -> heap_rep k bl -> heap_lock (heap k) = 0 ->
  (forall x, x ∈ l -> exists off, held k bl x off) ->
  sched_get_tid k = Ret tid k -> 0 < n < 2 ^ 32 ->
  alloc_list (align8 SIZEOF_PORT) bl = Some (o1, bl1) ->
  alloc_list (align8 (u64 (MSG_BYTES * n))) bl1 = Some (o2, bl2) ->
  cstring name = Some nm -> Forall is_byte name -> (length nm < 32)%nat ->
  exists p k' q, alpc_create_port name n k = Ret p k' /\ p ∉ l /\
    ports_ok k' (p :: l) /\ heap_rep k' bl2 /\
    port_ok k' p q /\ port_msgs (mem_of k') q = [] /\ p_owner_tid q = tid /\ p_server_tid q = tid /\
    alpc_connect_port name k' = Ret p k' /\
    (forall name' nm', cstring name' = Some nm' -> Forall is_byte name' -> nm' <> nm ->
       result (alpc_connect_port name' k') = result (alpc_connect_port name' k)).
Proof.
  intros Hp Hr Hl Hheld Htid Hn A1 A2 Hc Hb Hlen. pose proof Hp as [Pl Pn Pd Pk].
  destruct (b_strcpy_spec name (replicate 32 0) nm Hc ltac:(by rewrite length_replicate) Hb
    ltac:(by apply Forall_replicate)) as (d & Hcp & Hd & _ & Hbd).
  destruct (alpc_create_port_spec k bl o1 bl1 o2 bl2 name d n tid Hr Hl Pk Htid Hn A1 A2 Hcp)
    as (m & E & Hp0 & Hfr & _ & _ & _ & R2).
  set (p := heap_start (heap k) + o1 + HDR) in *. set (q := new_port _ _ _ _ _) in E. set (k' := set_port p q _) in E.
  assert (Hpl : p ∉ l) by (intros Hin; destruct (Hheld p Hin) as (o & Ho); by destruct (Hfr _ _ Ho)).
  assert (Hps : ports (alpc k') = <[p := q]> (ports (alpc k))) by done.
  assert (Hold : forall x, x ∈ l -> ports (alpc k') !! x = ports (alpc k) !! x).
  { intros x Hx. rewrite Hps. apply lookup_insert_ne. intros ->. done. }
  assert (Hq : ports (alpc k') !! p = Some q) by (rewrite Hps; apply lookup_insert_eq).
  assert (Hok : ports_ok k' (p :: l)).
  { constructor; [| | by apply NoDup_cons | done].
    - simpl. split; [done |]. split; [done |]. exists q. split; [done |]. by apply (pseg_ext (ports (alpc k))).
    - intros x [-> | Hx]%elem_of_cons; [exists nm, q; by split_and! |].
      destruct (Pn x Hx) as (y & qx & Hqx & Hy). exists y, qx. by rewrite Hold. }
  assert (Hfirst : forall nm', first_named (ports (alpc k')) nm' (p :: l) =
            if bool_decide (nm' = nm) then p else first_named (ports (alpc k)) nm' l).
  { intros nm'. unfold first_named. rewrite filter_cons, Hq. simpl. rewrite Hd. case_bool_decide as Hnm.
    - subst. by rewrite decide_True.
    - rewrite decide_False by congruence. f_equal. f_equal. apply list_filter_ext_in. intros x Hx. by rewrite Hold. }
  exists p, k', q. split_and!; try done.
  - by apply (heap_rep_frame (set_mem m k)).
  - constructor; try done. split; simpl; lia.
  - rewrite (alpc_connect_port_spec k' (p :: l) name nm Hok Hc Hb), Hfirst.
    by rewrite bool_decide_eq_true_2.
  - intros name' nm' Hc' Hb' Hne.
    rewrite (alpc_connect_port_spec k' (p :: l) name' nm' Hok Hc' Hb'), (alpc_connect_port_spec k l name' nm' Hp Hc' Hb').
    rewrite Hfirst. by rewrite bool_decide_eq_false_2.
Qed.

(** ** Sections *)

Lemma keeps_pmm_alloc {B} (f : kernel -> B) n :
  (forall v k, f (set_rflags v k) = f k) -> (forall g k, f (k <| pmm ::= g |>) = f k) ->
  (forall m k, f (set_mem m k) = f k) -> keeps f (pmm_alloc n).
Proof.
  intros H1 H2 H3. unfold pmm_alloc, pmm_take.
  assert (Hl : forall v k, f (lk_set pmm_lock_ref v k) = f k) by (intros; apply H2).
  repeat first [apply keeps_bind; [| intros] | by apply keeps_irq_save | by apply keeps_irq_restore
    | by apply keeps_spin_lock | by apply keeps_spin_unlock | apply keeps_gets | apply keeps_ret | case_match
    | apply keeps_nofuel | apply keeps_modify; intros; by rewrite H3, H2].
Qed.

Lemma keeps_map_range n : forall pml4 virt phys, keeps alpc (map_range n pml4 virt phys).
Proof.
  assert (Ha : forall c, keeps alpc (pmm_alloc c)) by (intros; by apply keeps_pmm_alloc).
  induction n as [| n IH]; intros; cbn [map_range]; [apply keeps_ret |].
  unfold vmm_map, ensure_table. eauto 20 with keeps.
Qed.

Section map_range.
Context {inv : kernel -> Prop} {owned : kernel -> Z -> Prop} {avail : kernel -> Z}.
Context `{!PageAllocator inv owned avail}.

Lemma map_range_spec root : forall n k virt phys,
  inv k -> tree (mem_of k) root (owned k) -> 3 * Z.of_nat n < avail k ->
  virt mod 4096 = 0 -> 0 <= virt -> virt + 4096 * Z.of_nat n <= 2 ^ 48 ->
  phys mod 4096 = 0 -> 0 <= phys -> phys + 4096 * Z.of_nat n < 2 ^ 64 ->
  exists k', map_range n root virt phys k = Ret tt k' /\ inv k' /\ tree (mem_of k') root (owned k') /\
    forall v, tbl 4 (mem_of k') root v =
      if (virt / 4096 <=? vpage v) && (vpage v <? virt / 4096 + Z.of_nat n)
      then Some (phys + 4096 * (vpage v - virt / 4096)) else tbl 4 (mem_of k) root v.
Proof.
  induction n as [| n IH]; intros k virt phys HI Ht Hav Hv Hv0 Hv1 Hp Hp0 Hp1.
  { exists k. split_and!; try done. intros v.
    destruct (Z.leb_spec (virt / 4096) (vpage v)), (Z.ltb_spec (vpage v) (virt / 4096 + Z.of_nat 0)); simpl; lia || done. }
  cbn [map_range].
  destruct (vmm_map_spec (avail := avail) k root virt phys (Z.lor (Z.lor PAGE_PRESENT PAGE_WRITABLE) PAGE_USER) HI Ht
    ltac:(lia) ltac:(unfold is_u64; lia) ltac:(by vm_compute) eq_refl) as (k1 & E & [I1 R1 _ V1 _ F1 _]).
  rewrite (bind_ret _ _ _ _ _ E). rewrite !u64_small by lia.
  destruct (IH k1 (virt + 4096) (phys + 4096)) as (k2 & E2 & I2 & R2 & F2); try done; try lia; try zdiv.
  exists k2. split_and!; try done. intros v. rewrite F2, F1, same_path_vpage.
  assert (Hpg : vpage virt = virt / 4096) by (unfold vpage; rewrite Z.mod_small; zdiv).
  assert (Hnx : (virt + 4096) / 4096 = virt / 4096 + 1) by zdiv.
  assert (Hm : page_mask phys = phys) by (rewrite page_mask_eq by (unfold is_u64; lia); lia).
  rewrite Hpg, Hnx, Hm.
  destruct (Z.leb_spec (virt / 4096 + 1) (vpage v)), (Z.ltb_spec (vpage v) (virt / 4096 + 1 + Z.of_nat n)),
    (Z.leb_spec (virt / 4096) (vpage v)), (Z.ltb_spec (vpage v) (virt / 4096 + Z.of_nat (S n))),
    (Z.eqb_spec (virt / 4096) (vpage v)); simpl; try lia; try done; f_equal; lia.
Qed.
End map_range.

(** The state while the section table is locked. *)
Lemma section_lock_keeps k : section_lock (alpc k) = 0 ->
  lk_set section_lock_ref 0 (lk_set section_lock_ref 1 k) = k.
Proof. intros H. keta k in H. Qed.

(** alpc_create_section takes the pages for [size] bytes and the next id
    and, when the table has a free slot, records them there for the calling
    thread and returns the id.  The pages were free and are now in use; when the
    allocator has none, the section is recorded with physical address 0.  When
    the table is full the result is 0, but the pages stay taken. *)
Theorem alpc_create_section_correct k size tid :
  pmm_inv k -> pmm_lock (pmm k) = 0 -> section_lock (alpc k) = 0 -> sched_get_tid k = Ret tid k ->
  let pages := (size + 4095) / 4096 in
  0 < size < 2 ^ 63 -> pages <= total_pages (pmm k) -> no_overrun k pages ->
  exists phys k1 k',
    match find_section 0 0 (sections (alpc k)) with
    | Some i => alpc_create_section size k = Ret (next_section_id (alpc k)) k' /\
        sections (alpc k') = <[i := Sect (next_section_id (alpc k)) phys (4096 * pages) tid]> (sections (alpc k))
    | None => alpc_create_section size k = Ret 0 k' /\ sections (alpc k') = sections (alpc k)
    end /\
    (phys = 0 /\ k1 = k \/
      exists i, phys = i * 4096 /\ 0 < i /\ k1 = took i pages k /\ pmm_inv k1 /\
        forall q, i <= q < i + pages -> used k q = false /\ used k1 q = true) /\
    pmm k' = pmm k1 /\ mem_of k' = mem_of k1 /\
    next_section_id (alpc k') = u64 (next_section_id (alpc k) + 1) /\ section_lock (alpc k') = 0.
Proof.
  intros HI Hl Hsl Htid pages Hsz Htot Hno.
  assert (Hpg : 0 < pages < 2 ^ 52) by (unfold pages; zdiv).
  assert (Hu : u64 (size + 4095) / 4096 = pages) by (by rewrite u64_small by lia).
  assert (Hal : exists phys k1, pmm_alloc pages k = Ret phys k1 /\ (phys = 0 /\ k1 = k \/
      exists i, phys = i * 4096 /\ 0 < i /\ k1 = took i pages k /\ pmm_inv k1 /\
        forall q, i <= q < i + pages -> used k q = false /\ used k1 q = true) /\
      alpc k1 = alpc k /\ sched k1 = sched k /\ hw_msr (hw k1) = hw_msr (hw k)).
  { destruct (pmm_alloc_cases k pages HI Hl ltac:(lia) Hno) as [[E _] | (i & E & HI' & H0 & Hb & Hf)].
    - exists 0, k. split; [done |]. split; [by left | done].
    - exists (i * 4096), (took i pages k). split; [done |]. split; [| done]. right. exists i.
      split_and!; try done. intros q Hq. split; [auto |]. pose proof (inv_ranges _ HI) as [].
      rewrite used_took by lia. rewrite (proj2 (in_window_spec i pages q)) by lia. done. }
  destruct Hal as (phys & k1 & E & Hcase & Ha & Hs & Hm).
  exists phys, k1. unfold alpc_create_section. cbv zeta. rewrite Hu, (bind_ret _ _ _ _ _ E).
  rewrite bind_spin_lock by (simpl; by rewrite Ha, Hsl). rewrite bind_gets, bind_modify, bind_gets.
  match goal with |- context [match find_section 0 0 ?l with Some _ => _ | None => _ end ?s] =>
    set (k3 := s); change (sections (alpc k3)) with (sections (alpc k1)) end.
  change (next_section_id (alpc (lk_set section_lock_ref 1 k1))) with (next_section_id (alpc k1)).
  assert (Hid : next_section_id (alpc k3) = u64 (next_section_id (alpc k) + 1)) by (simpl; by rewrite Ha).
  rewrite Ha. destruct (find_section 0 0 (sections (alpc k))) as [i |].
  - match goal with |- context [(sched_get_tid ≫= ?f) ?s] =>
      rewrite (bind_ret sched_get_tid f _ _ _ (sched_get_tid_frame k s tid Hs Hm Htid)) end.
    rewrite bind_modify. kstep. eexists. split; [split; [reflexivity |] | by split_and!].
    simpl. rewrite Ha. do 2 f_equal. rewrite u64_small; lia.
  - kstep. eexists. split; [split; [reflexivity |] | by split_and!]. simpl. by rewrite Ha.
Qed.

(** alpc_map_section of a recorded section returns the next free virtual
    address; every page of the section is then mapped there, in order, and
    lookups of all other addresses answer what they did.  The next section will
    be mapped behind this one. *)
Theorem alpc_map_section_correct k id i s :
  pmm_inv k -> pmm_lock (pmm k) = 0 -> section_lock (alpc k) = 0 ->
  tree (mem_of k) (kernel_pml4 k) (pmm_owned k) ->
  find_section id 0 (sections (alpc k)) = Some i -> sections (alpc k) !! i = Some s ->
  let virt := next_section_virt (alpc k) in
  let n := sec_size s / 4096 in
  sec_size s mod 4096 = 0 -> 0 <= sec_size s -> sec_phys_addr s mod 4096 = 0 -> 0 <= sec_phys_addr s ->
  sec_phys_addr s + sec_size s < 2 ^ 64 -> virt mod 4096 = 0 -> 0 <= virt -> virt + sec_size s <= 2 ^ 48 ->
  3 * n < free_pages (pmm k) ->
  exists k', alpc_map_section id k = Ret virt k' /\ pmm_inv k' /\
    tree (mem_of k') (kernel_pml4 k) (pmm_owned k') /\
    next_section_virt (alpc k') = virt + sec_size s /\ sections (alpc k') = sections (alpc k) /\
    forall v, vmm_get_phys (kernel_pml4 k) v (mem_of k') =
      if (virt / 4096 <=? vpage v) && (vpage v <? virt / 4096 + n)
      then sec_phys_addr s + 4096 * (vpage v - virt / 4096)
      else vmm_get_phys (kernel_pml4 k) v (mem_of k).
Proof.
  intros HI Hl Hsl Ht Hf Hs virt n Hz Hz0 Hp Hp0 Hp1 Hv Hv0 Hv1 Hav.
  unfold alpc_map_section. rewrite bind_spin_lock by (simpl; by rewrite Hsl). rewrite bind_gets.
  change (sections (alpc (lk_set section_lock_ref 1 k))) with (sections (alpc k)).
  rewrite Hf, Hs. cbn [from_option]. rewrite bind_mret, bind_gets, bind_modify. kstep. kstep.
  match goal with |- context [(map_range _ _ _ _ ≫= _) ?k] => set (k1 := k) end.
  assert (Hn : (sec_size s + 4095) / 4096 = n) by (unfold n; zdiv).
  change (next_section_virt (alpc (lk_set section_lock_ref 1 k))) with virt.
  change (vmm_get_kernel_pml4 k1) with (kernel_pml4 k). rewrite Hn.
  destruct (pa_rest k k1 eq_refl eq_refl (conj HI Hl)) as (HI1 & _ & Ho1).
  assert (0 <= n) by (unfold n; zdiv). assert (Hsz : sec_size s = 4096 * n) by (unfold n; zdiv).
  destruct (map_range_spec (avail := pmm_avail) (kernel_pml4 k) (Z.to_nat n) k1 virt (sec_phys_addr s) HI1)
    as (k2 & E & [I2 _] & R2 & F2); rewrite ?Z2Nat.id by done; try lia.
  { apply (tree_mono _ _ _ _ Ht). intros p. apply Ho1. }
  { done. }
  rewrite (bind_ret _ _ _ _ _ E). exists k2. split; [done |]. split; [done |]. split; [done |].
  pose proof (keeps_result _ _ _ _ _ (keeps_map_range (Z.to_nat n) (kernel_pml4 k) virt (sec_phys_addr s)) E) as Hk.
  rewrite Hk. split; [simpl; apply u64_small; lia |]. split; [done |].
  intros v. rewrite !vmm_get_phys_tbl, F2, Z2Nat.id by done. by case_match.
Qed.

(** The id 0 names every empty slot of the section table, so alpc_map_section
    of 0 does not fail as it does for the ids it has never given out: it returns
    a virtual address with nothing mapped behind it. *)
Theorem alpc_map_section_zero k :
  section_lock (alpc k) = 0 -> sections (alpc k) !! 0%nat = Some (Sect 0 0 0 0) ->
  next_section_virt (alpc k) = 0x8000000000 ->
  alpc_map_section 0 k = Ret 0x8000000000 k.
Proof.
  intros Hsl Hs Hv. destruct k as [? ? ? ? ? ? ? ? [? ? ? [| s l] ? ? ?] ? ?]; simplify_eq/=. reflexivity.
Qed.

(** ** Concrete ports and sections *)

(** The processor of [demo], with a port of four slots at 0x6000 in which one
    message waits in the last slot. *)
Definition demo_port : alpc_port_t := Port (replicate 32 0) 2 2 0x7000 3 0 4 0 0.
Definition demo_alpc : kernel := set_port 0x6000 demo_port demo.

Lemma demo_tid : sched_get_tid demo = Ret 1 demo.
Proof. by vm_compute. Qed.

Lemma demo_port_ok : port_ok demo_alpc 0x6000 demo_port.
Proof. constructor; [done | by vm_compute | by constructor | done]. Qed.

Lemma alpc_send_correct_witness : exists k1 q1,
  alpc_send 0x1F00 0x6000 0x9000 demo_alpc = (sched_handoff 0x1F00 2;; mret 0) k1 /\
  length (port_msgs (mem_of k1) q1) = 2%nat.
Proof.
  pose proof (alpc_send_correct 0x1F00 demo_alpc 0x6000 demo_port 0x9000 1 demo_port_ok
    ltac:(right; by vm_compute) ltac:(by vm_compute)) as H. cbv zeta in H.
  assert (Hc : (Z.of_nat (length (port_msgs (mem_of demo_alpc) demo_port)) =? p_queue_size demo_port - 1) = false)
    by (by vm_compute).
  rewrite Hc in H. destruct H as (k1 & q1 & E & _ & Hm & _). exists k1, q1. split; [exact E |].
  rewrite Hm, length_app. by vm_compute.
Defined.

Lemma alpc_recv_correct_witness : exists k' q',
  alpc_recv 0x6000 0x9000 demo_alpc = Ret 0 k' /\ port_msgs (mem_of k') q' = [].
Proof.
  pose proof (alpc_recv_correct demo_alpc 0x6000 demo_port 0x9000 demo_port_ok ltac:(right; by vm_compute)) as H.
  assert (Hl : length (port_msgs (mem_of demo_alpc) demo_port) = 1%nat) by (by vm_compute).
  destruct (port_msgs (mem_of demo_alpc) demo_port) as [| x [| y xs]]; try done.
  destruct H as (k' & q' & E & _ & _ & Hm & _). by exists k', q'.
Defined.

(** A heap of one free block, and the same processor. *)
Definition demo_heap : kernel :=
  small_heap <| hw ::= fun h => h <| hw_msr := {[MSR_GS_BASE := 0x1000]} |> |> <| sched := demo_sched |>.

Lemma alpc_create_connect_witness : exists p k',
  alpc_create_port (cstr "echo") 8 demo_heap = Ret p k' /\ alpc_connect_port (cstr "echo") k' = Ret p k'.
Proof.
  destruct (alpc_create_connect demo_heap [] [(POOL_BYTES - HDR, true)]
    0 [(80, false); (POOL_BYTES - HDR - 80 - HDR, true)]
    104 [(80, false); (1408, false); (POOL_BYTES - HDR - 80 - HDR - 1408 - HDR, true)]
    (cstr "echo") (chars "echo") 8 1) as (p & k' & q & E & _ & _ & _ & _ & _ & _ & _ & Hc & _).
  - by constructor; try apply NoDup_nil_2; try (intros x Hx; by apply elem_of_nil in Hx).
  - by apply (heap_rep_frame small_heap), small_heap_rep.
  - done.
  - intros x Hx. by apply elem_of_nil in Hx.
  - by vm_compute.
  - done.
  - by vm_compute.
  - by vm_compute.
  - by vm_compute.
  - by repeat constructor.
  - by vm_compute; lia.
  - exists p, k'. by split.
Defined.

(** A section of two pages on the machine of the page-table examples. *)
Definition demo_section : kernel :=
  vmm_empty_root <| kernel_pml4 := 0x1000 |>
    <| alpc ::= fun a => a <| sections ::= <[5%nat := Sect 9 0x300000 8192 1]> |> |>
    <| hw ::= fun h => h <| hw_msr := {[MSR_GS_BASE := 0x1000]} |> |> <| sched := demo_sched |>.

Lemma demo_section_ok :
  pmm_inv demo_section /\ tree (mem_of demo_section) 0x1000 (pmm_owned demo_section).
Proof.
  destruct vmm_empty_root_ok as [HI Ht].
  destruct (pa_rest vmm_empty_root demo_section eq_refl eq_refl (conj HI eq_refl)) as ([HI' _] & _ & Ho).
  split; [exact HI' |]. apply (tree_mono _ _ _ _ Ht). intros p. apply Ho.
Qed.

Lemma alpc_create_section_correct_witness : exists k',
  alpc_create_section 5000 demo_section = Ret 1 k' /\ section_lock (alpc k') = 0.
Proof.
  destruct demo_section_ok as [HI _].
  destruct (alpc_create_section_correct demo_section 5000 1 HI eq_refl eq_refl
    (sched_get_tid_frame demo demo_section 1 eq_refl eq_refl demo_tid)
    ltac:(done) ltac:(by vm_compute) ltac:(right; by vm_compute)) as (phys & k1 & k' & E & _ & _ & _ & _ & Hl).
  exists k'. split; [| exact Hl]. revert E. by intros [E _].
Defined.

Lemma alpc_map_section_correct_witness : exists k',
  alpc_map_section 9 demo_section = Ret 0x8000000000 k' /\
  vmm_get_phys 0x1000 0x8000001234 (mem_of k') = 0x301000.
Proof.
  destruct demo_section_ok as [HI Ht].
  destruct (alpc_map_section_correct demo_section 9 5 (Sect 9 0x300000 8192 1) HI eq_refl eq_refl Ht
    ltac:(by vm_compute) ltac:(by vm_compute) ltac:(done) ltac:(done) ltac:(done) ltac:(done) ltac:(done)
    ltac:(by vm_compute) ltac:(by vm_compute) ltac:(by vm_compute) ltac:(by vm_compute))
    as (k' & E & _ & _ & _ & _ & Hp).
  exists k'. split; [exact E |]. specialize (Hp 0x8000001234). change (kernel_pml4 demo_section) with 0x1000 in Hp. rewrite Hp. by vm_compute.
Defined.

Lemma alpc_map_section_zero_witness :
  alpc_map_section 0 (initial_kernel (plain_hw ∅)) = Ret 0x8000000000 (initial_kernel (plain_hw ∅)).
Proof. by apply alpc_map_section_zero. Defined.
