(* ===== verification/Boot.v ===== *)
(** boot/main.c: the UEFI application that loads the kernel.

    The firmware is a parameter: what it answers is an arbitrary function of the
    calls made to it so far, the last one included.  The state of the boot
    loader is the list of these calls; entering the kernel is the last of
    them. *)

From S2P Require Import Prelude Memory State.

(** ** efi.h *)

Record efi_guid := Guid { data1 : Z; data2 : Z; data3 : Z; data4 : list Z }.
Record efi_configuration_table := ConfigTable { vendor_guid : efi_guid; vendor_table : Z }.
Record efi_graphics_output_mode_information := ModeInfo {
  horizontal_resolution : Z;
  vertical_resolution : Z;
  info_pixels_per_scan_line : Z
}.
Record efi_graphics_output_protocol_mode := GopMode {
  max_mode : Z;
  mode_info : efi_graphics_output_mode_information;
  frame_buffer_base : Z;
  frame_buffer_size : Z
}.

(** The calls, with the arguments they are given. *)
Inductive call :=
| ClearScreen
| OutputString (s : list Z)
| LocateProtocol (g : efi_guid)
| QueryMode (gop mode_number : Z)
| SetMode (gop mode_number : Z)
| HandleProtocol (h : Z) (g : efi_guid)
| OpenVolume (fs : Z)
| OpenFile (root : Z) (name : list Z) (open_mode attributes : Z)
| AllocatePages (type memory_type pages memory : Z)
| AllocatePool (pool_type size : Z)
| GetInfo (file : Z) (g : efi_guid) (size buffer : Z)
| ReadFile (file size buffer : Z)
| GetMemoryMap (size buffer : Z)
| ExitBootServices (h key : Z)
| Enter (addr : Z) (info : barium_boot_info_t).

(** What the firmware answers, and the data behind its pointers. *)
Record firmware := Firmware {
  fw_locate : list call -> Z * Z;
  fw_gop_mode : list call -> efi_graphics_output_protocol_mode;
  fw_query : list call -> Z * efi_graphics_output_mode_information;
  fw_tables : list call -> list efi_configuration_table;
  fw_interface : list call -> Z;
  fw_device : list call -> Z;
  fw_volume : list call -> Z;
  fw_open : list call -> Z * Z;
  fw_pages : list call -> Z * Z;
  fw_pool : list call -> Z;
  fw_file_size : list call -> Z;
  fw_map : list call -> Z * Z * Z
}.

Definition rsdp_guid := Guid 0x8868e871 0xe4f1 0x11d3 [0xbc; 0x22; 0x00; 0x80; 0xc7; 0x3c; 0x88; 0x81].
Definition gop_guid := Guid 0x9042a9de 0x23dc 0x4a38 [0x96; 0xfb; 0x7a; 0xde; 0xd0; 0x80; 0x51; 0x6a].
Definition simple_fs_guid := Guid 0x964e5b22 0x6459 0x11d2 [0x8e; 0x39; 0x00; 0xa0; 0xc9; 0x69; 0x72; 0x3b].
Definition loaded_image_guid := Guid 0x5b1b31a1 0x9562 0x11d2 [0x8e; 0x3f; 0x00; 0xa0; 0xc9; 0x69; 0x72; 0x3b].
Definition file_info_guid := Guid 0x09576e92 0x6d3f 0x11d2 [0x8e; 0x39; 0x00; 0xa0; 0xc9; 0x69; 0x72; 0x3b].

(** sizeof(efi_file_info) *)
Definition SIZEOF_FILE_INFO : Z := 592.

(** The condition compares three of the four fields. *)
Definition is_rsdp (t : efi_configuration_table) : bool :=
  (data1 (vendor_guid t) =? data1 rsdp_guid) && (data2 (vendor_guid t) =? data2 rsdp_guid) &&
  (data3 (vendor_guid t) =? data3 rsdp_guid).

Fixpoint get_rsdp (tables : list efi_configuration_table) : Z :=
  match tables with
  | [] => 0
  | t :: tables' => if is_rsdp t then vendor_table t else get_rsdp tables'
  end.

Section Boot.
Context (fw : firmware).

Definition invoke (c : call) : M (list call) unit := modify (fun l => l ++ [c]).
Definition ask {A} (f : firmware -> list call -> A) : M (list call) A := gets (f fw).
Definition say (s : string) : M (list call) unit := invoke (OutputString (chars s)).
Arguments say s%_string.
(** A text with a carriage return and a line feed. *)
Definition line_text (s : string) : list Z := chars s ++ [13; 10].
Arguments line_text s%_string.
Definition sayln (s : string) : M (list call) unit := invoke (OutputString (line_text s)).
Arguments sayln s%_string.

Definition pixels (info : efi_graphics_output_mode_information) : Z :=
  u32 (horizontal_resolution info * vertical_resolution info).

(** [for (i = 0; i < max_mode; i++)], with [n] modes left. *)
Fixpoint query_modes (n : nat) (gop i best_mode max_pixels : Z) : M (list call) Z :=
  match n with
  | O => mret best_mode
  | S n' =>
      invoke (QueryMode gop (u32 i));;
      r ← ask fw_query;
      if (fst r =? 0) && (max_pixels <? pixels (snd r))
      then query_modes n' gop (i + 1) i (pixels (snd r))
      else query_modes n' gop (i + 1) best_mode max_pixels
  end.

(** The graphics part of efi_main: the protocol and its mode once set. *)
Definition open_graphics : M (list call) efi_graphics_output_protocol_mode :=
  say "detecting graphics";;
  invoke (LocateProtocol gop_guid);;
  r ← ask fw_locate;
  if negb (fst r =? 0) then sayln "failed to load gop";; hang else
  let gop := snd r in
  mode ← ask fw_gop_mode;
  best_mode ← query_modes (Z.to_nat (max_mode mode)) gop 0 0 0;
  invoke (SetMode gop (u32 best_mode));;
  sayln "gop loaded";;
  ask fw_gop_mode.

Definition find_rsdp : M (list call) Z :=
  say "finding acpi rsdp";;
  tables ← ask fw_tables;
  let rsdp := get_rsdp tables in
  if rsdp =? 0 then sayln "failed to find acpi rsdp";; hang else
  sayln "acpi rsdp found";;
  mret rsdp.

(** The address the kernel's file was read to. *)
Definition load_kernel (image_handle : Z) : M (list call) Z :=
  say "loading kernel";;
  invoke (HandleProtocol image_handle loaded_image_guid);;
  device ← ask fw_device;
  invoke (HandleProtocol device simple_fs_guid);;
  fs ← ask fw_interface;
  invoke (OpenVolume fs);;
  root ← ask fw_volume;
  invoke (OpenFile root (chars "kernel.bin") 1 0);;
  r ← ask fw_open;
  if negb (fst r =? 0) then sayln "kernel.bin not found";; hang else
  let kernel_file := snd r in
  sayln "kernel.bin loaded";;
  invoke (AllocatePages 2 2 256 0x100000);;
  p ← ask fw_pages;
  if negb (fst p =? 0) then sayln "allocation failure";; hang else
  let kernel_addr := snd p in
  invoke (AllocatePool 2 SIZEOF_FILE_INFO);;
  file_info ← ask fw_pool;
  invoke (GetInfo kernel_file file_info_guid SIZEOF_FILE_INFO file_info);;
  kernel_size ← ask fw_file_size;
  invoke (ReadFile kernel_file kernel_size kernel_addr);;
  mret kernel_addr.

(** The memory map, and the end of the firmware's services. *)
Definition exit_services (image_handle : Z) : M (list call) (Z * Z * Z) :=
  say "exiting boot services";;
  invoke (GetMemoryMap 0 0);;
  first ← ask fw_map;
  let '(size0, _, desc0) := first in
  let map_size := u64 (size0 + 2 * desc0) in
  invoke (AllocatePool 2 map_size);;
  map ← ask fw_pool;
  invoke (GetMemoryMap map_size map);;
  second ← ask fw_map;
  let '(map_size, map_key, desc_size) := second in
  invoke (ExitBootServices image_handle map_key);;
  mret (map, map_size, desc_size).

Definition efi_main (image_handle : Z) : M (list call) unit :=
  invoke ClearScreen;;
  sayln "barium booting (v0.4)";;
  mode ← open_graphics;
  rsdp ← find_rsdp;
  kernel_addr ← load_kernel image_handle;
  m ← exit_services image_handle;
  let '(map, map_size, desc_size) := m in
  invoke (Enter kernel_addr
    (BootInfo (frame_buffer_base mode) (u32 (frame_buffer_size mode))
       (horizontal_resolution (mode_info mode)) (vertical_resolution (mode_info mode))
       (info_pixels_per_scan_line (mode_info mode)) map map_size desc_size rsdp));;
  hang.

(** ** Lemmas *)

(** The calls of the mode loop, and the sizes of the modes that answered. *)
Fixpoint queries (n : nat) (gop i : Z) : list call :=
  match n with O => [] | S n' => QueryMode gop (u32 i) :: queries n' gop (i + 1) end.
Fixpoint seen (n : nat) (gop i : Z) (l : list call) : list (option Z) :=
  match n with
  | O => []
  | S n' =>
      let l' := l ++ [QueryMode gop (u32 i)] in
      (if fst (fw_query fw l') =? 0 then Some (pixels (snd (fw_query fw l'))) else None) :: seen n' gop (i + 1) l'
  end.

(** [j] is the first mode of the largest size. *)
Record first_largest (modes : list (option Z)) (j : nat) (p : Z) : Prop := {
  fl_mode : modes !! j = Some (Some p);
  fl_largest : forall j' q, modes !! j' = Some (Some q) -> q <= p;
  fl_first : forall j' q, (j' < j)%nat -> modes !! j' = Some (Some q) -> q < p
}.

Lemma query_modes_spec n gop : forall i best px l,
  exists best', query_modes n gop i best px l = Ret best' (l ++ queries n gop i) /\
    let modes := seen n gop i l in
    ((best' = best /\ forall j q, modes !! j = Some (Some q) -> q <= px) \/
     (exists j p, best' = i + Z.of_nat j /\ px < p /\ first_largest modes j p)).
Proof.
  induction n as [| n IH]; intros i best px l; cbn [query_modes queries seen].
  { exists best. rewrite app_nil_r. split; [done |]. by left. }
  unfold invoke, ask. rewrite bind_modify, bind_gets. set (l' := l ++ [QueryMode gop (u32 i)]).
  replace (l ++ QueryMode gop (u32 i) :: queries n gop (i + 1)) with (l' ++ queries n gop (i + 1))
    by (unfold l'; by rewrite <- app_assoc).
  destruct (Z.eqb_spec (fst (fw_query fw l')) 0) as [E | E]; simpl.
  2:{ destruct (IH (i + 1) best px l') as (b & -> & [[-> H] | (j & p & -> & Hp & [H1 H2 H3])]); eexists; (split; [reflexivity |]).
      - left. split; [done |]. intros [| j] q; [done | apply H].
      - right. exists (S j), p. split; [lia |]. split; [done |]. constructor; [done | |].
        + intros [| j'] q; [done | apply H2].
        + intros [| j'] q Hj; [done |]. apply H3. lia. }
  set (x := pixels _). destruct (Z.ltb_spec px x).
  - destruct (IH (i + 1) i x l') as (b & -> & [[-> H0] | (j & p & -> & Hp & [H1 H2 H3])]); eexists; (split; [reflexivity |]); right.
    + exists 0%nat, x. split; [lia |]. split; [done |]. constructor; [done | | lia].
      intros [| j] q; [intros [= <-]; lia | apply H0].
    + exists (S j), p. split; [lia |]. split; [lia |]. constructor; [done | |].
      * intros [| j'] q; [intros [= <-]; lia | apply H2].
      * intros [| j'] q Hj; [intros [= <-]; lia |]. apply H3. lia.
  - destruct (IH (i + 1) best px l') as (b & -> & [[-> H0] | (j & p & -> & Hp & [H1 H2 H3])]); eexists; (split; [reflexivity |]).
    + left. split; [done |]. intros [| j] q; [intros [= <-]; lia | apply H0].
    + right. exists (S j), p. split; [lia |]. split; [done |]. constructor; [done | |].
      * intros [| j'] q; [intros [= <-]; lia | apply H2].
      * intros [| j'] q Hj; [intros [= <-]; lia |]. apply H3. lia.
Qed.

(** get_rsdp returns the table of the first matching entry. *)
Lemma get_rsdp_spec tables :
  (get_rsdp tables = 0 /\ forall t, t ∈ tables -> is_rsdp t = true -> vendor_table t = 0) \/
  (exists t, t ∈ tables /\ is_rsdp t = true /\ get_rsdp tables = vendor_table t).
Proof.
  induction tables as [| t tables IH]; [left; split; [done |]; intros t Ht; by apply elem_of_nil in Ht |]. simpl.
  destruct (is_rsdp t) eqn:E; [right; exists t; split; [by left | done] |].
  destruct IH as [[H0 H] | (t' & Ht & H)]; [left | right; exists t'; split; [by right | done]].
  split; [done |]. intros u [-> | Hu]%elem_of_cons Hr; [congruence | by apply H].
Qed.

(** *** The phases *)

Definition not_enter (c : call) : Prop := match c with Enter _ _ => False | _ => True end.

Lemma queries_not_enter n gop : forall i, Forall not_enter (queries n gop i).
Proof. induction n as [| n IH]; intros i; [done |]. by apply Forall_cons. Qed.

(** The logs of a boot that stops with a message: the last call before it
    failed. *)
Inductive stopped : list call -> Prop :=
| NoGraphics l :
    fst (fw_locate fw (l ++ [LocateProtocol gop_guid])) <> 0 ->
    stopped ((l ++ [LocateProtocol gop_guid]) ++ [OutputString (line_text "failed to load gop")])
| NoRsdp l :
    get_rsdp (fw_tables fw l) = 0 ->
    stopped (l ++ [OutputString (line_text "failed to find acpi rsdp")])
| NoKernel l root :
    let c := OpenFile root (chars "kernel.bin") 1 0 in
    fst (fw_open fw (l ++ [c])) <> 0 ->
    stopped ((l ++ [c]) ++ [OutputString (line_text "kernel.bin not found")])
| NoMemory l :
    let c := AllocatePages 2 2 256 0x100000 in
    fst (fw_pages fw (l ++ [c])) <> 0 ->
    stopped ((l ++ [c]) ++ [OutputString (line_text "allocation failure")]).

(** The phase [m] stops, or goes on with more calls and a result that
    satisfies [P]. *)
Definition phase {A} (m : M (list call) A) (l : list call) (P : A -> list call -> Prop) : Prop :=
  (exists l', m l = Hang (l ++ l') /\ stopped (l ++ l') /\ Forall not_enter l') \/
  (exists a l', m l = Ret a (l ++ l') /\ Forall not_enter l' /\ P a (l ++ l')).

Lemma phase_bind {A B} (m : M (list call) A) (f : A -> M (list call) B) l P Q :
  phase m l P -> (forall a l', P a l' -> phase (f a) l' Q) -> phase (m ≫= f) l Q.
Proof.
  intros [(l1 & E & H1 & H2) | (a & l1 & E & Hn & HP)] Hf; unfold phase, mbind, M_bind; rewrite E.
  { left. by exists l1. }
  destruct (Hf a (l ++ l1) HP) as [(l2 & E2 & H2 & Hn2) | (b & l2 & E2 & Hn2 & HQ)];
    rewrite E2; rewrite <- app_assoc in *; [left; exists (l1 ++ l2) | right; exists b, (l1 ++ l2)];
    split_and!; try done; by apply Forall_app.
Qed.

Lemma phase_invoke {B} c (f : unit -> M (list call) B) l Q :
  not_enter c -> phase (f tt) (l ++ [c]) Q -> phase (invoke c ≫= f) l Q.
Proof.
  intros Hc H. apply (phase_bind _ _ _ (fun _ l' => l' = l ++ [c])).
  - right. exists tt, [c]. split; [done |]. split; [by apply Forall_singleton | done].
  - by intros [] l' ->.
Qed.
Lemma phase_ask {A B} (g : firmware -> list call -> A) (f : A -> M (list call) B) l Q :
  phase (f (g fw l)) l Q -> phase (ask g ≫= f) l Q.
Proof. done. Qed.
Lemma phase_ret {A} (a : A) l (P : A -> list call -> Prop) : P a l -> phase (mret a) l P.
Proof. intros HP. right. exists a, []. rewrite app_nil_r. done. Qed.

(** A message and the end. *)
Lemma phase_stop {A} s l (P : A -> list call -> Prop) :
  stopped (l ++ [OutputString (line_text s)]) -> phase (sayln s;; hang) l P.
Proof. intros Hs. left. exists [OutputString (line_text s)]. split; [done |]. split; [done | by apply Forall_singleton]. Qed.

(** [best] is the first of the largest modes, or 0 when none has any size. *)
Definition is_best (modes : list (option Z)) (best : Z) : Prop :=
  (best = 0 /\ forall j q, modes !! j = Some (Some q) -> q <= 0) \/
  (exists j p, best = Z.of_nat j /\ first_largest modes j p).

(** What is known of the graphics mode: the best one was set. *)
Definition mode_set (mode : efi_graphics_output_protocol_mode) (l : list call) : Prop :=
  exists l1 gop best, let n := Z.to_nat (max_mode (fw_gop_mode fw l1)) in
    let l2 := l1 ++ queries n gop 0 ++ [SetMode gop (u32 best); OutputString (line_text "gop loaded")] in
    l2 `prefix_of` l /\ fw_locate fw l1 = (0, gop) /\ mode = fw_gop_mode fw l2 /\
    is_best (seen n gop 0 l1) best.

(** Step over the calls and answers at the head of a phase. *)
Ltac phase_step :=
  repeat first [apply phase_ask | apply phase_invoke; [exact I |]].

Lemma query_modes_phase {B} n gop l (f : Z -> M (list call) B) Q :
  (forall best, is_best (seen n gop 0 l) best -> phase (f best) (l ++ queries n gop 0) Q) ->
  phase (query_modes n gop 0 0 0 ≫= f) l Q.
Proof.
  intros HP. destruct (query_modes_spec n gop 0 0 0 l) as (best & E & H).
  apply (phase_bind _ _ _ (fun b l' => l' = l ++ queries n gop 0 /\ is_best (seen n gop 0 l) b)).
  - right. exists best, (queries n gop 0). split; [done |]. split; [apply queries_not_enter |]. split; [done |].
    destruct H as [H | (j & p & -> & _ & H)]; [by left | right]. exists j, p. by split.
  - intros b l' [-> Hb]. by apply HP.
Qed.

Lemma open_graphics_spec l : phase open_graphics l mode_set.
Proof.
  unfold open_graphics, say, sayln. phase_step. set (l1 := l ++ [OutputString (chars "detecting graphics")]).
  destruct (fw_locate fw _) as [st gop] eqn:Eg. simpl. destruct (Z.eqb_spec st 0) as [-> | Hne]; simpl.
  2:{ apply phase_stop. apply NoGraphics. by rewrite Eg. }
  generalize dependent (l1 ++ [LocateProtocol gop_guid]). intros l2 Eg.
  phase_step. apply query_modes_phase. intros best Hb. phase_step. right. eexists _, []. split; [by rewrite app_nil_r |].
  split; [done |]. rewrite app_nil_r. exists l2, gop, best. rewrite <- !app_assoc. by split_and!.
Qed.

Lemma find_rsdp_spec l : phase find_rsdp l (fun rsdp l' => rsdp <> 0 /\
  exists l1, l1 `prefix_of` l' /\ rsdp = get_rsdp (fw_tables fw l1)).
Proof.
  unfold find_rsdp, say, sayln. phase_step. cbv zeta. zcase.
  - apply phase_stop. by apply NoRsdp.
  - phase_step. apply phase_ret. split; [done |]. eexists. split; [by apply prefix_app_r | done].
Qed.

(** What is known of the kernel's code: the whole file was read, once the pages
    for it were there. *)
Definition kernel_read (addr : Z) (l : list call) : Prop :=
  exists l1 l2 file root,
    l1 ++ l2 ++ [ReadFile file (fw_file_size fw (l1 ++ l2)) addr] `prefix_of` l /\
    last l1 = Some (AllocatePages 2 2 256 0x100000) /\ fw_pages fw l1 = (0, addr) /\
    exists l0, l0 ++ [OpenFile root (chars "kernel.bin") 1 0] `prefix_of` l1 /\
      fw_open fw (l0 ++ [OpenFile root (chars "kernel.bin") 1 0]) = (0, file).

Lemma load_kernel_spec h l : phase (load_kernel h) l kernel_read.
Proof.
  unfold load_kernel, say, sayln. phase_step. set (root := fw_volume fw _). generalize root. clear root. intros root.
  match goal with |- context [fw_open fw (?l ++ [OpenFile _ _ _ _])] => generalize l end. intros l1.
  destruct (fw_open fw _) as [st file] eqn:Eo. simpl. destruct (Z.eqb_spec st 0) as [-> | Hne]; simpl.
  2:{ apply phase_stop. apply NoKernel. by rewrite Eo. }
  phase_step. destruct (fw_pages fw _) as [st addr] eqn:Ep. simpl. destruct (Z.eqb_spec st 0) as [-> | Hne]; simpl.
  2:{ apply phase_stop. apply NoMemory. by rewrite Ep. }
  set (l2 := _ ++ [AllocatePages _ _ _ _]) in *. phase_step. apply phase_ret.
  exists l2, [AllocatePool 2 SIZEOF_FILE_INFO; GetInfo file file_info_guid SIZEOF_FILE_INFO (fw_pool fw (l2 ++ [AllocatePool 2 SIZEOF_FILE_INFO]))], file, root.
  rewrite <- !(app_assoc l2). simpl. split; [done |]. split; [unfold l2; by rewrite last_snoc |]. split; [done |].
  exists l1. split; [| done]. unfold l2. rewrite <- !app_assoc. by apply prefix_app, prefix_app_r.
Qed.

(** What is known of the memory map: it is the answer to the last call before
    the firmware's services end, under the key of that answer. *)
Definition map_taken (h : Z) (r : Z * Z * Z) (l : list call) : Prop :=
  exists l0 size key, let '(map, map_size, desc_size) := r in
    l = (l0 ++ [GetMemoryMap size map]) ++ [ExitBootServices h key] /\
    fw_map fw (l0 ++ [GetMemoryMap size map]) = (map_size, key, desc_size).

Lemma exit_services_spec h l : phase (exit_services h) l (map_taken h).
Proof.
  unfold exit_services, say. phase_step. destruct (fw_map fw _) as [[size0 key0] desc0]. phase_step.
  set (map := fw_pool fw _). generalize map. clear map. intros map.
  match goal with |- context [fw_map fw (?l ++ [GetMemoryMap _ _])] => generalize l end. intros l0.
  destruct (fw_map fw _) as [[size key] desc] eqn:Em. phase_step. apply phase_ret.
  exists l0, (u64 (size0 + 2 * desc0)), key. done.
Qed.

(** A program that never returns: it stops in a phase, or its log satisfies
    [Q]. *)
Definition ends (m : M (list call) unit) (l : list call) (Q : list call -> Prop) : Prop :=
  exists l', m l = Hang l' /\ ((stopped l' /\ Forall not_enter l') \/ Q l').

Lemma ends_bind {A} (m : M (list call) A) (f : A -> M (list call) unit) l P Q :
  Forall not_enter l -> phase m l P ->
  (forall a l', Forall not_enter l' -> l `prefix_of` l' -> P a l' -> ends (f a) l' Q) -> ends (m ≫= f) l Q.
Proof.
  intros Hl [(l1 & E & Hs & Hn) | (a & l1 & E & Hn & HP)] Hf; unfold ends, mbind, M_bind; rewrite E.
  - exists (l ++ l1). split; [done |]. left. split; [done |]. by apply Forall_app.
  - apply Hf; [by apply Forall_app | by apply prefix_app_r | done].
Qed.

Lemma ends_invoke c (f : unit -> M (list call) unit) l Q :
  ends (f tt) (l ++ [c]) Q -> ends (invoke c ≫= f) l Q.
Proof. done. Qed.

Lemma mode_set_mono mode l l' : l `prefix_of` l' -> mode_set mode l -> mode_set mode l'.
Proof. intros Hp (l1 & gop & best & H1 & H). exists l1, gop, best. split; [by etrans | done]. Qed.
Lemma kernel_read_mono addr l l' : l `prefix_of` l' -> kernel_read addr l -> kernel_read addr l'.
Proof. intros Hp (l1 & l2 & file & root & H1 & H). exists l1, l2, file, root. split; [by etrans | done]. Qed.

(** ** Theorems *)

(** C40: whatever the firmware answers, the boot loader comes to an end.  Either
    it stops with the message of the first of its four checks that failed, and
    the kernel is not entered; or the kernel is entered exactly once, as the last
    call: its file was opened and read completely to the pages allocated for it
    before; the graphics mode that was set is the first of those with the most
    pixels; the kernel gets the framebuffer of that mode, a non-NULL pointer to
    the firmware's tables, and the memory map answered by the call directly
    before the firmware's services ended, under whose key they were ended. *)
Theorem efi_main_correct h :
  exists l, efi_main h [] = Hang l /\
    ((stopped l /\ Forall not_enter l) \/
     exists l' addr info mode, l = l' ++ [Enter addr info] /\ Forall not_enter l' /\
       kernel_read addr l' /\ mode_set mode l' /\
       framebuffer_base info = frame_buffer_base mode /\ framebuffer_size info = u32 (frame_buffer_size mode) /\
       bi_width info = horizontal_resolution (mode_info mode) /\
       bi_height info = vertical_resolution (mode_info mode) /\
       pixels_per_scan_line info = info_pixels_per_scan_line (mode_info mode) /\
       bi_rsdp info <> 0 /\
       (exists l1 t, l1 `prefix_of` l' /\ t ∈ fw_tables fw l1 /\ is_rsdp t = true /\ bi_rsdp info = vendor_table t) /\
       map_taken h (memory_map info, memory_map_size info, descriptor_size info) l').
Proof.
  unfold efi_main, sayln. apply ends_invoke, ends_invoke.
  eapply ends_bind; [| apply open_graphics_spec |]; [by repeat constructor |]. intros mode l1 N1 _ Hmode.
  eapply ends_bind; [done | apply find_rsdp_spec |]. intros rsdp l2 N2 P2 (Hrsdp & l2' & Hl2' & Er).
  eapply ends_bind; [done | apply load_kernel_spec |]. intros addr l3 N3 P3 Haddr.
  eapply ends_bind; [done | apply exit_services_spec |]. intros [[map msize] dsize] l4 N4 P4 Hmap.
  eexists. split; [reflexivity |]. right. eexists l4, addr, _, mode. split; [reflexivity |]. simpl.
  assert (P24 : l2 `prefix_of` l4) by (by etrans).
  split_and!; try done; [exact (kernel_read_mono addr l3 l4 P4 Haddr) | eapply mode_set_mono; [| exact Hmode]; by etrans |].
  destruct (get_rsdp_spec (fw_tables fw l2')) as [[H0 _] | (t & Ht & Hm & H0)]; [congruence |].
  exists l2', t. split; [by etrans |]. split; [done |]. split; [done |]. congruence.
Qed.
End Boot.

(** A firmware with three graphics modes, for which every check succeeds. *)
Definition demo_modes : list efi_graphics_output_mode_information :=
  [ModeInfo 640 480 640; ModeInfo 1024 768 1024; ModeInfo 800 600 800].
Definition last_mode (l : list call) : Z :=
  match last l with Some (QueryMode _ i) => i | _ => 1 end.
Definition demo_mode (i : Z) : efi_graphics_output_mode_information :=
  default (ModeInfo 0 0 0) (demo_modes !! Z.to_nat i).
Definition demo_firmware : firmware := {|
  fw_locate := fun _ => (0, 0x100);
  fw_gop_mode := fun _ => GopMode 3 (demo_mode 1) 0x80000000 (4 * 1024 * 768);
  fw_query := fun l => (0, demo_mode (last_mode l));
  fw_tables := fun _ => [ConfigTable gop_guid 1; ConfigTable rsdp_guid 0x7000];
  fw_interface := fun _ => 0x200;
  fw_device := fun _ => 0x300;
  fw_volume := fun _ => 0x400;
  fw_open := fun _ => (0, 0x500);
  fw_pages := fun _ => (0, 0x100000);
  fw_pool := fun l => 0x600;
  fw_file_size := fun _ => 70000;
  fw_map := fun _ => (480, 7, 48)
|}.

Lemma demo_firmware_boots :
  exists l, efi_main demo_firmware 0x10 [] = Hang l /\ SetMode 0x100 1 ∈ l /\
    last l = Some (Enter 0x100000 (BootInfo 0x80000000 3145728 1024 768 1024 0x600 480 48 0x7000)).
Proof. eexists. split; [by vm_compute |]. split; [| done]. repeat first [by left | right]. Qed.
