(* ===== verification/ShellTests.v ===== *)
(** shell.c: the self-tests behind the shell's commands and the threads they
    start.

    The shell is a thread: when it yields, sleeps or waits, other threads and
    interrupt handlers run.  [env n k] is the state in which the thread goes on
    after the [n]-th time it gave up the processor in state [k]; it is an
    arbitrary function.  [fuel] bounds the waits, [rsp] is where the processor
    pushes the frame of an interrupt taken by this thread, [wp] is the
    write-protect bit of CR0, which the kernel leaves as the firmware set it.

    A test returns the outcomes of its checks, which the code only prints. *)

From S2P Require Import Prelude Memory State Lib Console ConsoleProps Pmm Heap Vmm Keyboard Apic Cpu Gdt Acpi Queue Sched Idt Syscall Alpc.

(** A string literal that ends with a line break. *)
Definition println (s : string) : M kernel unit := console_print (chars s ++ [10; 0]).
Arguments println s%_string.

Section Tests.
Context (img : image) (env : nat -> kernel -> kernel) (wp : bool) (fuel : nat) (rsp : Z).

(** ** Waiting *)

Definition others : M kernel unit :=
  modify (fun k => env (sh_turns (shell k)) (k <| shell ::= fun s => s <| sh_turns ::= S |> |>)).

(** sched_yield and sched_sleep as the calling thread sees them. *)
Definition yield : M kernel unit := _ ← sched_yield rsp; others.
Definition sleep (ms : Z) : M kernel unit := _ ← sched_sleep rsp ms; others.

(** [while (cond) wait], where the wait gives the others a chance. *)
Fixpoint wait_while (n : nat) (cond : M kernel bool) (wait : M kernel unit) : M kernel unit :=
  match n with
  | O => nofuel
  | S n' => b ← cond; if b : bool then wait;; wait_while n' cond wait else mret tt
  end.

(** b_sleep on the kernel's tick counter, which interrupts advance. *)
Definition b_sleep_here (ms : Z) : M kernel unit :=
  start ← gets apic_get_ticks;
  let target := u64 (start + ms / 10) in
  wait_while fuel (gets (fun k => apic_get_ticks k <? target)) others.

(** ** Memory as the processor translates it *)

(** Bit [b] is set in every entry on the way to [v], down to depth [d]. *)
Fixpoint path_has (b : Z) (d : nat) (m : mem) (root v : Z) : bool :=
  match d with
  | O => true
  | S d' => path_has b d' m root v &&
            match tbl d' m root v with
            | Some t => Z.testbit (ld64 m (t + 8 * table_index d' v)) b
            | None => false
            end
  end.

(** The page of [v], when the access is allowed: a user thread needs the user
    and, for writing, the writable bit; the kernel needs the writable bit only
    when [wp] is set. *)
Definition translate (user write : bool) (v : Z) (k : kernel) : option Z :=
  let m := mem_of k in let root := hw_cr3 (hw k) in
  let writable := path_has 1 4 m root v in
  if (if user then path_has 2 4 m root v && (negb write || writable) else negb write || writable || negb wp)
  then tbl 4 m root v else None.

(** An exception: of the frame the stub pushes, the words the handler reads. *)
Definition exception (vector err cs : Z) : M kernel unit :=
  on_mem (fun m => st64 (st64 (st64 m (rsp + 144) cs) (rsp + 128) err) (rsp + 120) vector);;
  _ ← interrupt_handler rsp;
  mret tt.

(** The page fault at [v]. *)
Definition page_fault (user write : bool) (v : Z) : M kernel unit :=
  k ← gets (fun k => k);
  let present := match tbl 4 (mem_of k) (hw_cr3 (hw k)) v with Some _ => true | None => false end in
  modify (fun k => k <| hw ::= fun h => h <| hw_cr2 := v |> |>);;
  exception 14 (Z.b2z present + 2 * Z.b2z write + 4 * Z.b2z user) (if user then 0x23 else 0x08).

(** The physical address of an access; the instruction is restarted when the
    fault handler returns. *)
Fixpoint access (n : nat) (user write : bool) (v : Z) : M kernel Z :=
  match n with
  | O => nofuel
  | S n' =>
      r ← gets (translate user write v);
      match r with
      | Some page => mret (page + v mod 4096)
      | None => page_fault user write v;; access n' user write v
      end
  end.

Definition vstore64 (v val : Z) : M kernel unit :=
  p ← access fuel false true v; on_mem (fun m => st64 m p val).
Definition vload64 (v : Z) : M kernel Z :=
  p ← access fuel false false v; gets (fun k => ld64 (mem_of k) p).
Definition vload8 (v : Z) : M kernel Z :=
  p ← access fuel false false v; gets (fun k => ld8 (mem_of k) p).

(** b_memset of [n] bytes at a virtual address. *)
Fixpoint vmemset (n : nat) (v c : Z) : M kernel unit :=
  match n with
  | O => mret tt
  | S n' => p ← access fuel false true v; on_mem (fun m => st8 m p c);; vmemset n' (v + 1) c
  end.

(** ** Descriptor tables *)

Definition flush_segments : M kernel unit :=
  load_selector data_ok 0 0x10;;
  modify (fun k => k <| hw ::= fun h => h <| hw_ds := 0x10 |> |>);;
  load_selector data_ok 0 0x10;;
  modify (fun k => k <| hw ::= fun h => h <| hw_es := 0x10 |> |>);;
  load_selector data_ok 0 0x10;;
  modify (fun k => k <| hw ::= fun h => h <| hw_ss := 0x10 |> |>);;
  load_selector code_ok 0 0x08;;
  modify (fun k => k <| hw ::= fun h => h <| hw_cs := 0x08 |> |>).

Definition gdttest : M kernel (list bool) :=
  println "testing gdt";;
  cs ← gets (fun k => hw_cs (hw k));
  ds ← gets (fun k => hw_ds (hw k));
  console_print (cstr "cs=");;
  console_print_num cs;;
  console_print (cstr " ds=");;
  console_print_num ds;;
  console_newline;;
  println "flushing segments";;
  flush_segments;;
  entries ← gdt_get_base;
  code ← gets (fun k => negb (Z.land (ld8 (mem_of k) (entries + 8 * 1 + 5)) 0x01 =? 0));
  when code (println "k-code ok");;
  data ← gets (fun k => negb (Z.land (ld8 (mem_of k) (entries + 8 * 2 + 5)) 0x01 =? 0));
  when data (println "k-data ok");;
  println "gdt works";;
  mret [code; data].

Definition tsstest : M kernel (list bool) :=
  println "testing tss";;
  tr ← gets (fun k => u16 (hw_tr (hw k)));
  console_print (cstr "tr=");;
  console_print_num tr;;
  console_newline;;
  tss_lar ← get_lar 0x28;
  tss_lsl ← get_lsl 0x28;
  console_print (cstr "lar=");;
  console_print_num tss_lar;;
  console_print (cstr " lsl=");;
  console_print_num tss_lsl;;
  console_newline;;
  let limit := tss_lsl =? 103 in
  let busy := Z.land tss_lar 0x0F00 =? 0x0B00 in
  when limit (println "limit ok");;
  when busy (println "tss busy");;
  println "tss works";;
  mret [limit; busy].

Definition idttest : M kernel (list bool) :=
  println "testing idt";;
  on ← gets (fun k => negb (Z.land (hw_rflags (hw k)) (Z.shiftl 1 9) =? 0));
  (if on : bool then println "ints ok" else println "ints bad");;
  println "stage 1: software path";;
  exception 3 0 0x08;;
  println "stage 1: ok";;
  println "idt works";;
  mret [on].

(** ** Memory *)

(** [for (i = 0; i < 256; i++)]: allocate a page and sign it.  A store through
    NULL faults. *)
Fixpoint alloc_signed (n : nat) : M kernel (list Z) :=
  match n with
  | O => mret []
  | S n' =>
      p ← pmm_alloc 1;
      when (p =? 0) fault;;
      on_mem (fun m => st64 m p (Z.lxor 0xDEADC0DE p));;
      ps ← alloc_signed n';
      mret (p :: ps)
  end.

Fixpoint free_pages_of (ps : list Z) : M kernel unit :=
  match ps with
  | [] => mret tt
  | p :: ps' => pmm_free p 1;; free_pages_of ps'
  end.

Definition pmmtest : M kernel (list bool) :=
  println "testing pmm";;
  total ← gets pmm_get_total_memory;
  free ← gets pmm_get_free_memory;
  console_print (cstr "ram=");;
  console_print_num total;;
  console_print (cstr " free=");;
  console_print_num free;;
  console_newline;;
  println "stage 1: alloc";;
  p1 ← pmm_alloc 1;
  if p1 =? 0 then println "alloc failed";; mret [false] else
  pmm_free p1 1;;
  println "ok";;
  println "stage 2: stress";;
  pages ← alloc_signed 256;
  ok ← gets (fun k => forallb (fun p => ld64 (mem_of k) p =? Z.lxor 0xDEADC0DE p) pages);
  when ok (println "pass");;
  free_pages_of pages;;
  println "pmm works";;
  mret [true; ok].

Definition set_test_active (v : Z) : M kernel unit := modify (fun k => k <| vmm_test_active := v |>).

Definition vmmtest : M kernel (list bool) :=
  println "testing vmm";;
  pml4 ← gets vmm_get_kernel_pml4;
  console_print (cstr "pml4=");;
  console_print_num pml4;;
  phys_page ← pmm_alloc 1;
  println "stage 1: alias";;
  vmm_map pml4 0xDEADBEEF000 phys_page (Z.lor PAGE_PRESENT PAGE_WRITABLE);;
  vstore64 0xDEADBEEF000 0x12345678;;
  v1 ← vload64 0xDEADBEEF000;
  let alias := v1 =? 0x12345678 in
  (if alias then println "alias ok" else println "alias broke");;
  println "stage 2: protection";;
  println "mapping read-only";;
  vmm_map pml4 0xCAFEBABE000 phys_page PAGE_PRESENT;;
  println "trying illegal write";;
  set_test_active 1;;
  vstore64 0xCAFEBABE000 0x666;;
  set_test_active 0;;
  v2 ← vload64 0xCAFEBABE000;
  let recovered := v2 =? 0x666 in
  (if recovered then println "stage 2: ok (recovered)" else println "stage 2: failed");;
  mret [alias; recovered].

(** [for (i = 0; i < 64; i++)]: allocate 32 bytes and store a 32-bit mark. *)
Fixpoint alloc_marked (n : nat) (i : Z) : M kernel (list (Z * Z)) :=
  match n with
  | O => mret []
  | S n' =>
      p ← kmalloc 32;
      when (p =? 0) fault;;
      on_mem (fun m => st32 m p (Z.lxor 0xAAAAAAAA i));;
      ps ← alloc_marked n' (i + 1);
      mret ((p, i) :: ps)
  end.

Fixpoint kfree_all (ps : list (Z * Z)) : M kernel unit :=
  match ps with
  | [] => mret tt
  | (p, _) :: ps' => kfree p;; kfree_all ps'
  end.

Definition heaptest : M kernel (list bool) :=
  println "testing heap";;
  println "stage 1: fragmentation";;
  a ← kmalloc 128;
  b ← kmalloc 256;
  c ← kmalloc 128;
  println "alloc a, b, c. free b";;
  kfree b;;
  d ← kmalloc 200;
  let hole := d =? b in
  (if hole then println "hole reclaim ok" else println "hole reclaim failed");;
  kfree a;;
  kfree c;;
  kfree d;;
  println "stage 2: coalescing";;
  p1 ← kmalloc 128;
  p2 ← kmalloc 128;
  println "freeing p1, p2";;
  kfree p1;;
  kfree p2;;
  p3 ← kmalloc 250;
  let joined := p3 =? p1 in
  (if joined then println "coalesce ok" else println "coalesce failed");;
  kfree p3;;
  println "stage 3: stress";;
  ptrs ← alloc_marked 64 0;
  ok ← gets (fun k => forallb (fun '(p, i) => ld32 (mem_of k) p =? Z.lxor 0xAAAAAAAA i) ptrs);
  when ok (println "works");;
  kfree_all ptrs;;
  println "heap works";;
  mret [hole; joined; ok].

(** ** Time *)

Fixpoint pulses (n : nat) (i : Z) : M kernel unit :=
  match n with
  | O => mret tt
  | S n' =>
      console_print (cstr "pulse ");;
      console_putc (49 + i);;
      console_putc 10;;
      b_sleep_here 100;;
      pulses n' (i + 1)
  end.

Definition timertest : M kernel (list bool) :=
  println "testing timer";;
  console_print (cstr "ticks=");;
  t ← gets apic_get_ticks;
  console_print_num t;;
  console_newline;;
  println "stage 1: sleep";;
  start ← gets apic_get_ticks;
  b_sleep_here 500;;
  end_ ← gets apic_get_ticks;
  let diff := u64 (end_ - start) in
  console_print (cstr "diff=");;
  console_print_num diff;;
  console_newline;;
  let precise := (50 <=? diff) && (diff <=? 52) in
  (if precise then println "precision ok" else println "drift bad");;
  println "stage 2: pulses";;
  pulses 5 0;;
  println "timer works";;
  mret [precise].
(** ** User mode *)

(** A system call instruction; the other argument registers are not read. *)
Definition syscall (no arg : Z) : M kernel unit := syscall_handler fuel no arg 0 0.

(** [msg] is the address of the string literal. *)
Definition user_mode_worker (msg : Z) : M kernel unit :=
  syscall 1 msg;;
  syscall 2 msg.

(** HLT is privileged: in ring 3 it raises a general protection fault. *)
Definition stress_worker_priv : M kernel unit := exception 13 0 0x23.

Definition stress_worker_mem : M kernel unit :=
  p ← access fuel true true 0;
  on_mem (fun m => st64 m p 0xDEADBEEF).

Fixpoint repeat_syscall (n : nat) (msg : Z) : M kernel unit :=
  match n with
  | O => mret tt
  | S n' => syscall 1 msg;; repeat_syscall n' msg
  end.

Definition stress_worker_syscall (msg : Z) : M kernel unit :=
  repeat_syscall 10 msg;;
  syscall 2 msg.

(** Start a user thread and wait until it has ended. *)
Definition run_user (entry name : string) : M kernel unit :=
  tid ← sched_spawn_user (sym_entry img entry) 10 (Some (cstr name));
  wait_while fuel (a ← sched_is_alive tid; mret (negb (a =? 0))) yield.

Definition ringtest : M kernel unit :=
  println "starting ring 3 test";;
  console_print (cstr "syscall worker... ");;
  run_user "user_mode_worker" "scall_worker";;
  console_print (cstr "privilege check... ");;
  run_user "stress_worker_priv" "priv_worker";;
  console_print (cstr "stage 3: memory violation... ");;
  run_user "stress_worker_mem" "mem_worker";;
  console_print (cstr "stack test... ");;
  run_user "stress_worker_syscall" "spam_worker";;
  println "ring 3 test complete".

(** ** Threads of the scheduler test *)

(** The comparisons at the end of integrity_thread's assembly, with the
    registers as the delay loop left them: the number and contents of the first
    one that lost its value.  When none did, the two output registers are not
    written and keep what they held before. *)
Definition integrity_check (magic rax rbx r12 : Z) (before : Z * Z) : Z * Z :=
  if negb (rax =? magic) then (1, rax)
  else if negb (rbx =? magic) then (2, rbx)
  else if negb (r12 =? magic) then (3, r12)
  else before.

(** [resume magic] are the registers rax, rbx and r12 after the delay loop, in
    which the thread is interrupted many times; [before] are the output
    registers before the assembly. *)
Definition integrity_thread (resume : Z -> Z * Z * Z) (before : Z * Z) : M kernel unit :=
  tid ← sched_get_tid;
  let magic := Z.lxor 0xCAFEBABE tid in
  others;;
  let '(rax, rbx, r12) := resume magic in
  let '(failed, badval) := integrity_check magic rax rbx r12 before in
  if failed =? 0 then
    console_print (cstr "tid ");;
    console_print_num tid;;
    println " ok";;
    sched_exit
  else
    console_print (cstr "tid ");;
    console_print_num tid;;
    console_print (cstr " broke! reg=");;
    console_print_num failed;;
    console_print (cstr " val=");;
    console_print_num badval;;
    console_print (cstr " exp=");;
    console_print_num magic;;
    console_newline;;
    hang.

(** An access to the test variables of the shell. *)
Definition on_shell (f : shell_t -> shell_t) : M kernel unit := modify (fun k => k <| shell ::= f |>).

Definition incr (i : nat) (l : list Z) : list Z := alter (fun x => u64 (x + 1)) i l.

(** The index of the calling thread in an array of three. *)
Definition my_index : M kernel nat := tid ← sched_get_tid; mret (Z.to_nat (tid mod 3)).

(** [while (flag) body]; the thread may be interrupted in each round. *)
Definition while_set (flag : shell_t -> Z) (body : M kernel unit) : M kernel unit :=
  wait_while fuel (gets (fun k => negb (flag (shell k) =? 0))) body.

Definition priority_racer : M kernel unit :=
  index ← my_index;
  others;;
  cli;;
  on_shell (fun s => s <| race_counts := <[index := u64 (finish_order s)]> (race_counts s) |>
                       <| finish_order ::= fun n => n + 1 |>);;
  sti;;
  sched_exit.

Definition rr_worker : M kernel unit :=
  index ← my_index;
  while_set rr_active (on_shell (fun s => s <| rr_counts ::= incr index |>);; others);;
  sched_exit.

Definition rr_timer : M kernel unit :=
  b_sleep_here 1000;; on_shell (fun s => s <| rr_active := 0 |>);; sched_exit.

Definition greedy_worker : M kernel unit :=
  while_set yield_active (on_shell (fun s => s <| yield_counts ::= incr 0 |>);; others);;
  sched_exit.

Definition polite_worker : M kernel unit :=
  while_set yield_active (on_shell (fun s => s <| yield_counts ::= incr 1 |>);; yield);;
  sched_exit.

Definition yield_timer : M kernel unit :=
  b_sleep_here 1000;; on_shell (fun s => s <| yield_active := 0 |>);; sched_exit.

Definition chaos_worker : M kernel unit := others;; sched_exit.

Definition greedy_p31 : M kernel unit :=
  while_set age_active (on_shell (fun s => s <| age_counts ::= incr 0 |>);; others);;
  sched_exit.

Definition patient_p0 : M kernel unit :=
  while_set age_active (on_shell (fun s => s <| age_counts ::= incr 1 |>);; others);;
  sched_exit.

Definition age_timer : M kernel unit :=
  b_sleep_here 6000;; on_shell (fun s => s <| age_active := 0 |>);; sched_exit.

Definition spinner_p10 : M kernel unit :=
  while_set block_active (on_shell (fun s => s <| block_counts ::= incr 0 |>);; others);;
  sched_exit.

Definition sleeper_p10 : M kernel unit :=
  while_set block_active (on_shell (fun s => s <| block_counts ::= incr 1 |>);; sleep 500);;
  sched_exit.

Definition block_timer : M kernel unit :=
  b_sleep_here 2000;; on_shell (fun s => s <| block_active := 0 |>);; sched_exit.

(** ** The scheduler test *)

(** The entries [ix] of an array, separated by slashes. *)
Fixpoint print_counts (l : shell_t -> list Z) (ix : list nat) : M kernel unit :=
  match ix with
  | [] => mret tt
  | [i] => n ← gets (fun k => l (shell k) !!! i); console_print_num n;; console_newline
  | i :: ix' =>
      n ← gets (fun k => l (shell k) !!! i);
      console_print_num n;; console_print (cstr " / ");; print_counts l ix'
  end.

(** A literal between two line breaks. *)
Definition headline (s : string) : M kernel unit := console_print (10 :: chars s ++ [10; 0]).
Arguments headline s%_string.

Definition spawn (entry : string) (priority : Z) (name : string) : M kernel unit :=
  _ ← sched_spawn (sym_entry img entry) priority (Some (cstr name)); mret tt.
Arguments spawn entry%_string priority name%_string.

Fixpoint spawn_many (n : nat) (entry : string) (priority : Z) (name : string) : M kernel unit :=
  match n with
  | O => mret tt
  | S n' => spawn entry priority name;; spawn_many n' entry priority name
  end.

Definition schedtest : M kernel unit :=
  println "testing sched";;
  println "stage 1: integrity";;
  spawn "integrity_thread" 10 "integrity_1";;
  spawn "integrity_thread" 10 "integrity_2";;
  b_sleep_here 1000;;
  headline "stage 2: priority dominance";;
  on_shell (fun s => s <| race_counts := [0; 0; 0] |> <| finish_order := 1 |>);;
  spawn "priority_racer" 31 "p31_racer";;
  spawn "priority_racer" 15 "p15_racer";;
  spawn "priority_racer" 0 "p0_racer";;
  wait_while fuel (gets (fun k => existsb (Z.eqb 0) (race_counts (shell k)))) others;;
  console_print (cstr "finish order: ");;
  print_counts race_counts [1; 2; 0]%nat;;
  headline "stage 3: round-robin";;
  on_shell (fun s => s <| rr_active := 1 |> <| rr_counts := [0; 0; 0] |>);;
  spawn "rr_worker" 10 "rr_1";;
  spawn "rr_worker" 10 "rr_2";;
  spawn "rr_worker" 10 "rr_3";;
  spawn "rr_timer" 10 "rr_timer";;
  while_set rr_active others;;
  b_sleep_here 100;;
  println "runs:";;
  print_counts rr_counts [0; 1; 2]%nat;;
  headline "stage 4: preemption";;
  on_shell (fun s => s <| yield_active := 1 |> <| yield_counts := [0; 0] |>);;
  spawn "greedy_worker" 10 "greedy";;
  spawn "polite_worker" 10 "polite";;
  spawn "yield_timer" 10 "yield_timer";;
  while_set yield_active others;;
  b_sleep_here 100;;
  println "counts:";;
  print_counts yield_counts [0; 1]%nat;;
  headline "stage 5: memory leaks";;
  spawn_many 100 "chaos_worker" 5 "chaos";;
  yield;;
  println "stage 5 ok";;
  headline "stage 6: anti-starvation";;
  on_shell (fun s => s <| age_active := 1 |> <| age_counts := [0; 0] |>);;
  spawn "greedy_p31" 31 "greedy_p31";;
  spawn "patient_p0" 0 "patient_p0";;
  spawn "age_timer" 31 "age_timer";;
  while_set age_active others;;
  b_sleep_here 100;;
  println "counts:";;
  print_counts age_counts [0; 1]%nat;;
  headline "stage 7: blocking sleep";;
  on_shell (fun s => s <| block_active := 1 |> <| block_counts := [0; 0] |>);;
  spawn "spinner_p10" 10 "spinner";;
  spawn "sleeper_p10" 10 "sleeper";;
  spawn "block_timer" 10 "block_timer";;
  while_set block_active others;;
  b_sleep_here 100;;
  println "counts:";;
  print_counts block_counts [0; 1]%nat;;
  headline "stage 8";;
  println "done";;
  headline "sched ok".

(** ** Processors *)

Definition worker_lock_ref : spinlock_ref := {|
  lk_get := fun k => Some (worker_lock (shell k));
  lk_set := fun v k => k <| shell ::= fun s => s <| worker_lock := v |> |>
|}.

(** A number between two literals, under one acquisition of the lock. *)
Definition report (before : list Z) (id : Z) (after : list Z) : M kernel unit :=
  flags ← console_lock_acquire;
  console_print_unlocked before;;
  console_print_num_unlocked id;;
  console_print_unlocked after;;
  console_lock_release flags.

Fixpoint core_ticks (n : nat) : M kernel unit :=
  match n with
  | O => mret tt
  | S n' =>
      b_sleep_here 500;;
      id ← apic_get_id;
      report (cstr "core ") id (chars " tick" ++ [10; 0]);;
      core_ticks n'
  end.

Definition core_worker : M kernel unit :=
  id ← apic_get_id;
  report (cstr "worker starting on core ") id [10; 0];;
  core_ticks 5;;
  c_flags ← console_lock_acquire;
  console_print_unlocked (chars "worker done" ++ [10; 0]);;
  console_lock_release c_flags;;
  flags ← b_irq_save;
  spin_lock worker_lock_ref;;
  on_shell (fun s => s <| active_workers ::= fun n => n - 1 |>);;
  spin_unlock worker_lock_ref;;
  b_irq_restore flags;;
  sched_exit.

(** A 32-bit value converted to int. *)
Definition s32 (x : Z) : Z := if u32 x <? 2 ^ 31 then u32 x else u32 x - 2 ^ 32.

Definition coretest : M kernel unit :=
  count ← gets acpi_get_cpu_count;
  let workers := u32 (count * 2) in
  c_flags ← console_lock_acquire;
  console_print_unlocked (cstr "found ");;
  console_print_num_unlocked count;;
  console_print_unlocked (cstr " cores. spawning ");;
  console_print_num_unlocked workers;;
  console_print_unlocked (chars " workers" ++ [10; 0]);;
  console_lock_release c_flags;;
  on_shell (fun s => s <| active_workers := s32 workers |> <| worker_lock := 0 |>);;
  spawn_many (Z.to_nat workers) "core_worker" 10 "worker";;
  wait_while fuel (gets (fun k => 0 <? active_workers (shell k))) yield;;
  println "coretest complete".

(** ** Ports *)

Definition alpc_test_lock_ref : spinlock_ref := {|
  lk_get := fun k => Some (alpc_test_lock (shell k));
  lk_set := fun v k => k <| shell ::= fun s => s <| alpc_test_lock := v |> |>
|}.

(** The fields of the alpc_message_t at [msg]: type +16, section_id +32, data
    +48. *)
Definition ALPC_MSG_SMALL : Z := 0.
Definition ALPC_MSG_SECTION : Z := 1.
Definition msg_type (m : mem) (msg : Z) : Z := ld32 m (msg + 16).
Definition msg_section (m : mem) (msg : Z) : Z := ld64 m (msg + 32).

(** A received message: its section is checked, and it is counted. *)
Definition serve_message (msg : Z) : M kernel unit :=
  ty ← gets (fun k => msg_type (mem_of k) msg);
  when (ty =? ALPC_MSG_SECTION) (
    id ← gets (fun k => msg_section (mem_of k) msg);
    data ← alpc_map_section id;
    c ← vload8 data;
    when (negb (c =? 88)) (println "integrity failure in section!"));;
  flags ← b_irq_save;
  spin_lock alpc_test_lock_ref;;
  on_shell (fun s => s <| alpc_messages_received ::= fun n => n + 1 |>);;
  n ← gets (fun k => alpc_messages_received (shell k));
  when (Z.rem n 100 =? 0) (
    console_print (cstr "received ");;
    console_print_num (u64 n);;
    println " messages");;
  spin_unlock alpc_test_lock_ref;;
  b_irq_restore flags.

(** [msg] is the address of the local variable. *)
Definition alpc_stress_server (msg : Z) : M kernel unit :=
  port ← alpc_create_port (cstr "test_port") 64;
  wait_while fuel (gets (fun k => alpc_messages_received (shell k) <? 1000))
    (r ← alpc_recv port msg;
     if r =? 0 then serve_message msg else yield);;
  on_shell (fun s => s <| alpc_test_done := 1 |>);;
  sched_exit.

(** [while ((port = alpc_connect_port("test_port")) == 0) sched_yield();] *)
Fixpoint connect (n : nat) : M kernel Z :=
  match n with
  | O => nofuel
  | S n' =>
      port ← alpc_connect_port (cstr "test_port");
      if port =? 0 then yield;; connect n' else mret port
  end.

(** [while (alpc_send(port, &msg) != 0) sched_yield();] *)
Fixpoint send_retry (n : nat) (port msg : Z) : M kernel unit :=
  match n with
  | O => nofuel
  | S n' =>
      r ← alpc_send rsp port msg;
      if r =? 0 then others else yield;; send_retry n' port msg
  end.

(** The [n] bytes at [p]. *)
Definition bytes_at (m : mem) (p : Z) (n : nat) : list Z := (fun i : nat => ld8 m (p + Z.of_nat i)) <$> seq 0 n.

Definition make_message (i msg : Z) : M kernel unit :=
  if i mod 10 =? 0 then
    on_mem (fun m => st32 m (msg + 16) ALPC_MSG_SECTION);;
    id ← alpc_create_section 4096;
    on_mem (fun m => st64 m (msg + 32) id);;
    data ← alpc_map_section id;
    vmemset 4096 data 88
  else
    on_mem (fun m => st32 m (msg + 16) ALPC_MSG_SMALL);;
    old ← gets (fun k => bytes_at (mem_of k) (msg + 48) 128);
    data ← from_option (b_strcpy old (cstr "stress-ping"));
    on_mem (fun m => put_bytes m (msg + 48) data).

Fixpoint client_rounds (n : nat) (i port msg : Z) : M kernel unit :=
  match n with
  | O => mret tt
  | S n' =>
      make_message i msg;;
      send_retry fuel port msg;;
      client_rounds n' (i + 1) port msg
  end.

Definition alpc_stress_client (msg : Z) : M kernel unit :=
  port ← connect fuel;
  client_rounds 100 0 port msg;;
  sched_exit.

Definition shstest : M kernel unit :=
  println "starting alpc test";;
  on_shell (fun s => s <| alpc_test_done := 0 |> <| alpc_messages_received := 0 |> <| alpc_test_lock := 0 |>);;
  spawn "alpc_stress_server" 20 "stress_srv";;
  spawn_many 10 "alpc_stress_client" 10 "stress_cli";;
  wait_while fuel (gets (fun k => alpc_test_done (shell k) =? 0)) yield;;
  println "shstest done".
End Tests.

