(* ===== verification/Shell.v ===== *)
(** shell.c: the line editor, the commands and the loop of the shell thread.

    The editor reads characters that keyboard interrupts put into the keyboard's
    buffer while the shell sleeps.  Its theorems are proved against what
    [Resumes] says about the waiting: when the shell gets the processor back,
    further characters have arrived and the kernel is in order. *)

From S2P Require Import Prelude Memory State Lib Console ConsoleProps Ring Keyboard Apic Cpu Queue Sched SchedSpec SchedProps SchedSleep Idt Syscall Alpc ShellTests.

Section Shell.
Context (img : image) (env : nat -> kernel -> kernel) (wp : bool) (fuel : nat) (rsp : Z).

(** [cmd[i] = v] *)
Definition cmd_set (cmd : list Z) (i v : Z) : M kernel (list Z) :=
  if (0 <=? i) && (i <? Z.of_nat (length cmd)) then mret (<[Z.to_nat i := v]> cmd) else fault.

(** The inner loop: 10 is the newline, 8 the backspace. *)
Fixpoint read_line (n : nat) (cmd : list Z) (pos : Z) : M kernel (list Z * Z) :=
  match n with
  | O => nofuel
  | S n' =>
      c ← keyboard_get_char;
      if c =? 0 then sleep env rsp 10;; read_line n' cmd pos
      else if c =? 10 then console_newline;; mret (cmd, pos)
      else if c =? 8 then
        if 0 <? pos then
          cmd ← cmd_set cmd (pos - 1) 0;
          console_backspace;;
          read_line n' cmd (pos - 1)
        else read_line n' cmd pos
      else if (32 <=? c) && (c <=? 126) then
        if pos <? 63 then
          cmd ← cmd_set cmd pos c;
          console_putc c;;
          read_line n' cmd (pos + 1)
        else read_line n' cmd pos
      else read_line n' cmd pos
  end.

(** [b_strcmp(cmd, name) == 0] *)
Definition is_cmd (cmd : list Z) (name : string) : M kernel bool :=
  r ← from_option (b_strcmp cmd (cstr name)); mret (r =? 0).
Arguments is_cmd cmd name%_string.

Definition HELP : string :=
  "commands: help, tasks, coretest, gdttest, tsstest, ringtest, pmmtest, idttest, vmmtest, heaptest, timertest, schedtest, shstest".

Definition run_command (cmd : list Z) (pos : Z) : M kernel unit :=
  b ← is_cmd cmd "gdttest"; if (b : bool) then _ ← gdttest; mret tt else
  b ← is_cmd cmd "tsstest"; if (b : bool) then _ ← tsstest; mret tt else
  b ← is_cmd cmd "ringtest"; if (b : bool) then ringtest img env fuel rsp else
  b ← is_cmd cmd "pmmtest"; if (b : bool) then _ ← pmmtest; mret tt else
  b ← is_cmd cmd "idttest"; if (b : bool) then _ ← idttest rsp; mret tt else
  b ← is_cmd cmd "vmmtest"; if (b : bool) then _ ← vmmtest wp fuel rsp; mret tt else
  b ← is_cmd cmd "tasks"; if (b : bool) then sched_print_tasks else
  b ← is_cmd cmd "heaptest"; if (b : bool) then _ ← heaptest; mret tt else
  b ← is_cmd cmd "timertest"; if (b : bool) then _ ← timertest env fuel; mret tt else
  b ← is_cmd cmd "schedtest"; if (b : bool) then schedtest img env fuel rsp else
  b ← is_cmd cmd "coretest"; if (b : bool) then coretest img env fuel rsp else
  b ← is_cmd cmd "shstest"; if (b : bool) then shstest img env fuel rsp else
  b ← is_cmd cmd "help"; if (b : bool) then println HELP else
  when (0 <? pos) (println "unknown command").

(** One round of the outer loop. *)
Definition shell_turn : M kernel unit :=
  console_print (cstr "> ");;
  r ← read_line fuel (replicate 64 0) 0;
  run_command (fst r) (snd r).

(** The loop never ends; [n] rounds of it. *)
Fixpoint shell_turns (n : nat) : M kernel unit :=
  match n with
  | O => nofuel
  | S n' => shell_turn;; shell_turns n'
  end.
Definition shell_run (n : nat) : M kernel unit :=
  println "shell active";;
  shell_turns n.

(** ** The line a user types *)

(** What a key does to the line; it holds at most 63 characters. *)
Definition edit (line : list Z) (c : Z) : list Z :=
  if c =? 8 then removelast line
  else if (32 <=? c) && (c <=? 126) && (Z.of_nat (length line) <? 63) then line ++ [c]
  else line.

(** The buffer that holds a line. *)
Definition buffer (line : list Z) : list Z := line ++ replicate (64 - length line) 0.

(** The shell's thread runs on a processor whose scheduler is in order, and the
    console and the keyboard are free. *)
Record shell_ready (k : kernel) : Prop := {
  sh_console : con_ready k;
  sh_keyboard : kbd_ok (kbd k);
  sh_sched : exists cpu c a cur th, sched_ready k cpu c a cur th /\ t_state th = THREAD_RUNNING
}.

(** When the shell gives up the processor for the [n]-th time, because no key is
    waiting, it gets it back in order, with the characters [inbox n] typed in the
    meantime. *)
Class Resumes (inbox : nat -> list Z) := resumes : forall k0 r k,
  shell_ready k0 -> kbd_chars (kbd k0) = [] -> sched_sleep rsp 10 k0 = Ret r k ->
  let n := sh_turns (shell k) in
  let k' := env n (k <| shell ::= fun s => s <| sh_turns ::= S |> |>) in
  shell_ready k' /\ sh_turns (shell k') = S n /\ kbd_chars (kbd k') = inbox n.

(** The characters that arrive in [w] waits from the [n]-th on. *)
Definition arrivals (inbox : nat -> list Z) (n w : nat) : list Z := concat (inbox <$> seq n w).

(** ** Lemmas *)

(** *** The buffer *)

Lemma length_buffer line : (length line <= 63)%nat -> length (buffer line) = 64%nat.
Proof. intros H. unfold buffer. rewrite length_app, length_replicate. lia. Qed.

Lemma cmd_set_push line c k :
  (length line < 63)%nat -> cmd_set (buffer line) (Z.of_nat (length line)) c k = Ret (buffer (line ++ [c])) k.
Proof.
  intros H. unfold cmd_set. rewrite length_buffer by lia.
  destruct (Z.leb_spec 0 (Z.of_nat (length line))), (Z.ltb_spec (Z.of_nat (length line)) (Z.of_nat 64)); try lia.
  simpl. unfold mret, M_ret. f_equal. rewrite Nat2Z.id. unfold buffer.
  rewrite insert_app_r_alt, Nat.sub_diag by lia.
  destruct (64 - length line)%nat as [| n] eqn:E; [lia |]. simpl. rewrite length_app, <- app_assoc. simpl.
  by replace (64 - (length line + 1))%nat with n by lia.
Qed.

Lemma cmd_set_pop line c k :
  (length line < 63)%nat ->
  cmd_set (buffer (line ++ [c])) (Z.of_nat (length (line ++ [c])) - 1) 0 k = Ret (buffer line) k.
Proof.
  intros H. unfold cmd_set. rewrite length_app. simpl. rewrite length_buffer by (rewrite length_app; simpl; lia).
  replace (Z.of_nat (length line + 1) - 1) with (Z.of_nat (length line)) by lia.
  destruct (Z.leb_spec 0 (Z.of_nat (length line))), (Z.ltb_spec (Z.of_nat (length line)) (Z.of_nat 64)); try lia.
  simpl. unfold mret, M_ret. f_equal. rewrite Nat2Z.id. unfold buffer. rewrite <- app_assoc.
  rewrite insert_app_r_alt, Nat.sub_diag by lia. simpl. f_equal. rewrite length_app. simpl.
  by replace (64 - length line)%nat with (S (64 - (length line + 1))) by lia.
Qed.

Definition printable (c : Z) : Prop := 32 <= c <= 126.

(** Editing keeps the line short and printable. *)
Record line_ok (line : list Z) : Prop := {
  ln_short : (length line <= 63)%nat;
  ln_print : Forall printable line
}.

Lemma edit_ok line c : line_ok line -> line_ok (edit line c).
Proof.
  intros [Hl Hp]. unfold edit. destruct (Z.eqb_spec c 8).
  - destruct line as [| x line _] using rev_ind; [done |]. rewrite removelast_last.
    rewrite length_app in Hl. apply Forall_app in Hp as [Hp _]. simpl in Hl. constructor; [lia | done].
  - destruct ((32 <=? c) && (c <=? 126)) eqn:E; [| done]. simpl. zbool.
    destruct (Z.ltb_spec (Z.of_nat (length line)) 63); [| done].
    constructor; [rewrite length_app; simpl; lia |]. apply Forall_app. split; [done |].
    apply Forall_singleton. done.
Qed.

Lemma edits_ok cs : forall line, line_ok line -> line_ok (fold_left edit cs line).
Proof. induction cs as [| c cs IH]; intros line H; [done |]. apply IH. by apply edit_ok. Qed.

Lemma line_ok_nil : line_ok [].
Proof. constructor; [simpl; lia | done]. Qed.

(** *** States the shell passes through *)

Lemma shell_ready_drawn k k' :
  shell_ready k -> drawn k k' -> con_ready k' -> shell_ready k' /\ kbd k' = kbd k /\ shell k' = shell k.
Proof.
  intros [Hc Hk (cpu & c & a & cur & th & Hs & Ht)] (m & x & y & -> & _) Hc'. split; [| done].
  constructor; [done | done |]. exists cpu, c, a, cur, th. split; [| done].
  apply (sched_ready_frame k); [done | done | by rewrite Ht | done].
Qed.

Lemma shell_ready_shows {A} (m : M kernel A) k :
  shows m -> shell_ready k ->
  exists a k', m k = Ret a k' /\ shell_ready k' /\ kbd k' = kbd k /\ shell k' = shell k.
Proof.
  intros Hm Hk. destruct (Hm k (sh_console _ Hk)) as (a & k' & E & D & C).
  destruct (shell_ready_drawn k k' Hk D C) as (? & ? & ?). by exists a, k'.
Qed.

Lemma shell_ready_kbd k b : shell_ready k -> kbd_ok b -> shell_ready (k <| kbd := b |>).
Proof.
  intros [Hc Hk (cpu & c & a & cur & th & Hs & Ht)] Hb. constructor; [done | done |].
  exists cpu, c, a, cur, th. split; [| done]. apply (sched_ready_frame k); [done | done | by rewrite Ht | done].
Qed.

(** Waiting for a key. *)
Lemma sleep_spec inbox `{!Resumes inbox} k :
  shell_ready k -> kbd_chars (kbd k) = [] -> exists k', sleep env rsp 10 k = Ret tt k' /\ shell_ready k' /\
    sh_turns (shell k') = S (sh_turns (shell k)) /\
    kbd_chars (kbd k') = inbox (sh_turns (shell k)).
Proof.
  intros Hk Hq. destruct (sh_sched _ Hk) as (cpu & c & a & cur & th & Hs & Ht).
  destruct (sched_sleep_returns k cpu c a cur th rsp 10 Hs ltac:(by rewrite Ht)) as (r & k1 & E).
  pose proof (keeps_result outside _ _ _ _ (keeps_sched_sleep rsp 10) E) as Ho. injection Ho as _ _ Hsh.
  destruct (resumes k r k1 Hk Hq E) as (H1 & H2 & H3). rewrite Hsh in *.
  unfold sleep, others. rewrite (bind_ret _ _ _ _ _ E). eexists. split; [reflexivity |]. by rewrite Hsh.
Qed.

Lemma arrivals_S inbox n w : arrivals inbox n (S w) = inbox n ++ arrivals inbox (S n) w.
Proof. done. Qed.

(** *** One key *)

(** A key other than newline: the loop goes on with the edited line. *)
Lemma read_line_key n c k k1 line :
  keyboard_get_char k = Ret c k1 -> shell_ready k1 -> line_ok line -> c <> 0 -> c <> 10 ->
  exists k2, read_line (S n) (buffer line) (Z.of_nat (length line)) k =
      read_line n (buffer (edit line c)) (Z.of_nat (length (edit line c))) k2 /\
    shell_ready k2 /\ kbd k2 = kbd k1 /\ shell k2 = shell k1.
Proof.
  intros E Hk1 [Hl Hp] H0 H10. cbn [read_line]. rewrite (bind_ret _ _ _ _ _ E).
  rewrite (proj2 (Z.eqb_neq c 0) H0), (proj2 (Z.eqb_neq c 10) H10). unfold edit.
  destruct (Z.eqb_spec c 8) as [-> | H8].
  - destruct line as [| x line _] using rev_ind; [by exists k1 |]. rewrite removelast_last.
    rewrite length_app in Hl. simpl in Hl.
    destruct (Z.ltb_spec 0 (Z.of_nat (length (line ++ [x])))); [| rewrite length_app in *; simpl in *; lia].
    rewrite (bind_ret _ _ _ _ _ (cmd_set_pop line x k1 ltac:(lia))).
    destruct (shell_ready_shows console_backspace k1 shows_backspace Hk1) as ([] & k2 & E2 & Hk).
    rewrite (bind_ret _ _ _ _ _ E2). exists k2. split; [| done]. f_equal. rewrite length_app. simpl. lia.
  - destruct ((32 <=? c) && (c <=? 126)) eqn:Ec; [| by exists k1]. simpl. zbool.
    destruct (Z.ltb_spec (Z.of_nat (length line)) 63); [| by exists k1].
    rewrite (bind_ret _ _ _ _ _ (cmd_set_push line c k1 ltac:(lia))).
    destruct (shell_ready_shows (console_putc c) k1 (shows_putc c ltac:(unfold is_char; lia)) Hk1) as ([] & k2 & E2 & Hk).
    rewrite (bind_ret _ _ _ _ _ E2). exists k2. split; [| done]. f_equal. rewrite length_app. simpl. lia.
Qed.

(** Newline: the line is returned. *)
Lemma read_line_newline n k k1 line :
  keyboard_get_char k = Ret 10 k1 -> shell_ready k1 ->
  exists k2, read_line (S n) (buffer line) (Z.of_nat (length line)) k =
      Ret (buffer line, Z.of_nat (length line)) k2 /\
    shell_ready k2 /\ kbd k2 = kbd k1 /\ shell k2 = shell k1.
Proof.
  intros E Hk1. cbn [read_line]. rewrite (bind_ret _ _ _ _ _ E). simpl.
  destruct (shell_ready_shows console_newline k1 shows_newline Hk1) as ([] & k2 & E2 & H).
  rewrite (bind_ret _ _ _ _ _ E2). by exists k2.
Qed.

(** A key taken from the buffer. *)
Lemma get_char_ready k c q :
  shell_ready k -> kbd_chars (kbd k) = c :: q ->
  exists k1, keyboard_get_char k = Ret c k1 /\ shell_ready k1 /\ kbd_chars (kbd k1) = q /\ shell k1 = shell k.
Proof.
  intros Hk Hq. pose proof (keyboard_get_char_spec k (sh_keyboard _ Hk)) as H. rewrite Hq in H.
  destruct H as (k1 & E & Hb & Hc & _ & Ek). exists k1. split; [done |].
  split; [rewrite Ek; by apply shell_ready_kbd |]. split; [done |]. by rewrite Ek.
Qed.

Lemma read_line_wait n k cmd pos :
  shell_ready k -> kbd_chars (kbd k) = [] -> read_line (S n) cmd pos k = (sleep env rsp 10;; read_line n cmd pos) k.
Proof.
  intros Hk Hq. pose proof (keyboard_get_char_spec k (sh_keyboard _ Hk)) as H. rewrite Hq in H.
  cbn [read_line]. by rewrite (bind_ret _ _ _ _ _ H).
Qed.

Definition key (c : Z) : Prop := c <> 0 /\ c <> 10.
#[export] Instance key_dec c : Decision (key c).
Proof. unfold key. apply _. Defined.

Lemma read_line_spec inbox `{!Resumes inbox} n : forall k line w typed rest,
  shell_ready k -> line_ok line -> Forall key typed -> (length typed + w < n)%nat ->
  kbd_chars (kbd k) ++ arrivals inbox (sh_turns (shell k)) w = typed ++ 10 :: rest ->
  let line' := fold_left edit typed line in
  exists k' w', read_line n (buffer line) (Z.of_nat (length line)) k = Ret (buffer line', Z.of_nat (length line')) k' /\
    shell_ready k' /\ (w' <= w)%nat /\ sh_turns (shell k') = (sh_turns (shell k) + w')%nat /\
    kbd_chars (kbd k') ++ arrivals inbox (sh_turns (shell k')) (w - w') = rest.
Proof.
  induction n as [| n IH]; intros k line w typed rest Hk Hl Ht Hn Hin line'; [lia |].
  destruct (kbd_chars (kbd k)) as [| c q] eqn:Eq.
  { destruct w as [| w]; [by destruct typed |]. rewrite arrivals_S in Hin.
    rewrite (read_line_wait n k _ _ Hk Eq). destruct (sleep_spec inbox k Hk Eq) as (k1 & E & Hk1 & H1 & H2).
    rewrite (bind_ret _ _ _ _ _ E).
    destruct (IH k1 line w typed rest Hk1 Hl Ht ltac:(lia)) as (k' & w' & E' & Hk' & Hw & Hs & Hr);
      [by rewrite H1, H2 |].
    exists k', (S w'). split_and!; try done; [lia | lia]. }
  destruct (get_char_ready k c q Hk Eq) as (k1 & E & Hk1 & Hq & Hsh). destruct typed as [| d typed]; simpl in Hin.
  - injection Hin as -> Hin. destruct (read_line_newline n k k1 line E Hk1) as (k2 & E2 & Hk2 & Hb & Hs).
    exists k2, 0%nat. split_and!; try done; [lia | rewrite Hs, Hsh; lia |].
    by rewrite Hb, Hs, Hsh, Hq, Nat.sub_0_r.
  - injection Hin as <- Hin. apply Forall_cons in Ht as [[H0 H10] Ht].
    destruct (read_line_key n c k k1 line E Hk1 Hl H0 H10) as (k2 & E2 & Hk2 & Hb & Hs). rewrite E2.
    simpl in Hn. destruct (IH k2 (edit line c) w typed rest Hk2 (edit_ok line c Hl) Ht ltac:(lia))
      as (k' & w' & E' & Hk' & Hw & Hs' & Hr); [by rewrite Hb, Hs, Hsh, Hq |].
    exists k', w'. split_and!; try done. by rewrite Hs', Hs, Hsh.
Qed.

(** *** The commands *)

(** The commands by name. *)
Definition commands : list (string * M kernel unit) := [
  ("gdttest", _ ← gdttest; mret tt);
  ("tsstest", _ ← tsstest; mret tt);
  ("ringtest", ringtest img env fuel rsp);
  ("pmmtest", _ ← pmmtest; mret tt);
  ("idttest", _ ← idttest rsp; mret tt);
  ("vmmtest", _ ← vmmtest wp fuel rsp; mret tt);
  ("tasks", sched_print_tasks);
  ("heaptest", _ ← heaptest; mret tt);
  ("timertest", _ ← timertest env fuel; mret tt);
  ("schedtest", schedtest img env fuel rsp);
  ("coretest", coretest img env fuel rsp);
  ("shstest", shstest img env fuel rsp);
  ("help", println HELP)]%string.

Fixpoint command_of (line : list Z) (l : list (string * M kernel unit)) : option (M kernel unit) :=
  match l with
  | [] => None
  | (name, run) :: l' => if bool_decide (chars name = line) then Some run else command_of line l'
  end.

(** What a line does: an empty line nothing, an unknown one a message. *)
Definition execute (line : list Z) : M kernel unit :=
  match command_of line commands with
  | Some run => run
  | None => when (negb (bool_decide (line = []))) (println "unknown command")
  end.

Lemma cstring_buffer line : line_ok line -> cstring (buffer line) = Some line.
Proof.
  intros [Hl Hp]. unfold buffer.
  assert (exists n, 64 - length line = S n)%nat as (n & ->) by (exists (63 - length line)%nat; lia).
  clear Hl. simpl. induction Hp as [| c line Hc _ IH]; [done |]. simpl. rewrite IH. unfold printable in Hc.
  by destruct (Z.eqb_spec c 0); [lia |].
Qed.

Lemma bytes_buffer line : line_ok line -> Forall is_byte (buffer line).
Proof.
  intros [_ Hp]. apply Forall_app. split.
  - eapply Forall_impl; [exact Hp |]. unfold printable, is_byte. intros. simpl in *. lia.
  - apply Forall_replicate. unfold is_byte. lia.
Qed.

Lemma is_cmd_spec line name k :
  line_ok line -> forallb (fun c => (0 <? c) && (c <? 128)) (chars name) = true ->
  is_cmd (buffer line) name k = Ret (bool_decide (chars name = line)) k.
Proof.
  intros Hl Hn. destruct (cstring_cstr name Hn) as [Hc Hf].
  destruct (b_strcmp_spec (buffer line) (cstr name) line (chars name)) as (r & E & Hr);
    [by apply cstring_buffer | done | by apply bytes_buffer | |].
  { apply Forall_app. split; [eapply Forall_impl; [exact Hf |]; unfold is_char, is_byte; intros; simpl in *; lia |].
    apply Forall_singleton. unfold is_byte. lia. }
  unfold is_cmd. rewrite E. unfold from_option. rewrite bind_mret. unfold mret, M_ret. f_equal.
  case_bool_decide as Hb; [by apply Z.eqb_eq, Hr | apply Z.eqb_neq; intros ->; by destruct Hb; symmetry; apply Hr].
Qed.

Lemma bind_is_cmd {B} line name (f : bool -> M kernel B) k :
  line_ok line -> forallb (fun c => (0 <? c) && (c <? 128)) (chars name) = true ->
  (is_cmd (buffer line) name ≫= f) k = f (bool_decide (chars name = line)) k.
Proof. intros Hl Hn. by rewrite (bind_ret _ _ _ _ _ (is_cmd_spec line name k Hl Hn)). Qed.

Lemma run_command_spec line k :
  line_ok line -> run_command (buffer line) (Z.of_nat (length line)) k = execute line k.
Proof.
  intros Hl. unfold run_command, execute, commands. cbn [command_of].
  do 13 (rewrite bind_is_cmd by (exact Hl || reflexivity); case_bool_decide; [reflexivity |]).
  by destruct line.
Qed.

(** ** Theorems *)

(** C38: the line editor.  Whatever keys arrive, waiting in the keyboard's buffer
    or while the shell sleeps, up to a newline, reading a line ends after the
    newline; the 64-byte buffer then holds the line that results from applying
    the keys in order (backspace removes the last character, other control
    characters and characters beyond the 63rd are ignored) followed by NULs, the
    position is its length, and the keys after the newline are still waiting or
    still to come. *)
Theorem read_line_correct inbox k w typed rest n :
  Resumes inbox -> shell_ready k -> Forall key typed -> (length typed + w < n)%nat ->
  kbd_chars (kbd k) ++ arrivals inbox (sh_turns (shell k)) w = typed ++ 10 :: rest ->
  let line := fold_left edit typed [] in
  exists k' w', read_line n (replicate 64 0) 0 k =
      Ret (line ++ replicate (64 - length line) 0, Z.of_nat (length line)) k' /\
    (length line <= 63)%nat /\ Forall printable line /\
    shell_ready k' /\ sh_turns (shell k') = (sh_turns (shell k) + w')%nat /\
    kbd_chars (kbd k') ++ arrivals inbox (sh_turns (shell k')) (w - w') = rest.
Proof.
  intros HR Hk Ht Hn Hin line.
  destruct (read_line_spec inbox n k [] w typed rest Hk line_ok_nil Ht Hn Hin) as (k' & w' & E & Hk' & _ & Hs & Hr).
  destruct (edits_ok typed [] line_ok_nil) as [Hl Hp]. exists k', w'. by split_and!.
Qed.

(** C39: one round of the shell.  After the prompt a line is read, and what
    happens next is what the table of commands says for that line: the command
    of that name, nothing for an empty line, a message for any other. *)
Theorem shell_turn_correct inbox k w typed rest :
  Resumes inbox -> shell_ready k -> Forall key typed -> (length typed + w < fuel)%nat ->
  kbd_chars (kbd k) ++ arrivals inbox (sh_turns (shell k)) w = typed ++ 10 :: rest ->
  exists k' w', shell_turn k = execute (fold_left edit typed []) k' /\ shell_ready k' /\
    sh_turns (shell k') = (sh_turns (shell k) + w')%nat /\
    kbd_chars (kbd k') ++ arrivals inbox (sh_turns (shell k')) (w - w') = rest.
Proof.
  intros HR Hk Ht Hn Hin. unfold shell_turn.
  destruct (shell_ready_shows (console_print (cstr "> ")) k ltac:(auto with shows) Hk) as ([] & k1 & E1 & Hk1 & Hb & Hs).
  rewrite (bind_ret _ _ _ _ _ E1). rewrite <- Hb, <- Hs in Hin.
  destruct (read_line_spec inbox fuel k1 [] w typed rest Hk1 line_ok_nil Ht Hn Hin) as (k' & w' & E & Hk' & _ & Hs' & Hr).
  change (buffer []) with (replicate 64 0) in E. change (Z.of_nat (length [])) with 0 in E.
  rewrite (bind_ret _ _ _ _ _ E). exists k', w'. split; [| by rewrite <- Hs].
  apply run_command_spec, edits_ok, line_ok_nil.
Qed.
End Shell.

(** ** A shell at work *)

(** A processor whose idle thread runs the shell, and a user who types a line
    with a correction while the shell sleeps for the first time. *)
Definition typing : list Z := chars "hex" ++ [8] ++ chars "lp" ++ [10].
Definition typed_kbd (cs : list Z) : kbd_t := Kbd (cs ++ replicate (128 - length cs) 0) (Z.of_nat (length cs)) 0 0.
Definition at_desk : kernel := demo <| console := console small_screen |>.
Definition desk_inbox (n : nat) : list Z := if (n =? 0)%nat then typing else [].
Definition desk_env (n : nat) (k : kernel) : kernel :=
  at_desk <| kbd := typed_kbd (desk_inbox n) |> <| shell := shell k |>.

Lemma typing_keys : Forall key (chars "hex" ++ [8] ++ chars "lp").
Proof. apply (bool_decide_unpack _). by vm_compute. Qed.

Lemma typed_kbd_ok : forall n, kbd_ok (typed_kbd (desk_inbox n)) /\ kbd_chars (typed_kbd (desk_inbox n)) = desk_inbox n.
Proof.
  intros [| n]; (split; [constructor; [done | | done] | done]); constructor; vm_compute; done.
Qed.

Lemma desk_ready k b : kbd_ok b -> shell_ready (at_desk <| kbd := b |> <| shell := shell k |>).
Proof.
  intros Hb. constructor; [split; [apply small_screen_ok | done] | done |].
  exists 0x1000, demo_cpu, demo_queues, 0x2000, demo_idle. split; [| done].
  apply (sched_ready_frame demo); [done | done | done | apply demo_ready].
Qed.

#[export] Instance desk_resumes : Resumes desk_env 0x1F00 desk_inbox.
Proof.
  intros k0 r k _ _ _ n k'. destruct (typed_kbd_ok n) as [H1 H2].
  split; [by apply desk_ready |]. split; [done | exact H2].
Qed.

Lemma read_line_correct_witness :
  exists k', read_line desk_env 0x1F00 10 (replicate 64 0) 0 (at_desk <| kbd := typed_kbd [] |>) =
    Ret (chars "help" ++ replicate 60 0, 4) k'.
Proof.
  destruct (read_line_correct desk_env 0x1F00 desk_inbox (at_desk <| kbd := typed_kbd [] |>) 1
    (chars "hex" ++ [8] ++ chars "lp") [] 10) as (k' & w' & E & _).
  - exact desk_resumes.
  - apply (desk_ready at_desk), (typed_kbd_ok 1).
  - apply typing_keys.
  - simpl. lia.
  - reflexivity.
  - exists k'. exact E.
Defined.

Lemma shell_turn_correct_witness :
  exists k', shell_turn demo_image desk_env true 10 0x1F00 (at_desk <| kbd := typed_kbd [] |>) =
    println HELP k' /\ shell_ready k'.
Proof.
  destruct (shell_turn_correct demo_image desk_env true 10 0x1F00 desk_inbox (at_desk <| kbd := typed_kbd [] |>) 1
    (chars "hex" ++ [8] ++ chars "lp") []) as (k' & w' & E & Hk & _).
  - exact desk_resumes.
  - apply (desk_ready at_desk), (typed_kbd_ok 1).
  - apply typing_keys.
  - simpl. lia.
  - reflexivity.
  - exists k'. split; [exact E | exact Hk].
Defined.
