(* ===== verification/Main.v ===== *)
(** kernel.c: the order in which the components are started.

    [env] and the fuel are those of the waits on the other processors, the timer
    and the interval timer. *)

From S2P Require Import Prelude Memory State Lib Console ConsoleProps Pmm PmmInit Heap Vmm Keyboard Apic Cpu Gdt Acpi Queue Sched Idt Syscall Asm Smp Alpc ShellTests.

Definition kmain (img : image) (env : nat -> kernel -> kernel) (fuel : nat) (info : barium_boot_info_t) : M kernel unit :=
  console_init info;;
  console_clear 0x1B1B1B;;
  console_print (chars "barium kernel v0.4" ++ [10; 0]);;
  pmm_init info;;
  idt_init img;;
  vmm_init info;;
  acpi_init (bi_rsdp info);;
  heap_init;;
  alpc_init;;
  apic_init fuel;;
  cpu_init;;
  gdt_init;;
  syscall_init img;;
  smp_init img env fuel;;
  apic_init_ap;;
  sched_init;;
  keyboard_init;;
  _ ← sched_spawn (sym_entry img "shell_run") 10 (Some (cstr "shell"));
  sti;;
  console_print (chars "barium ready" ++ [10; 0]);;
  hang.

(** ** _start, in entry.asm *)

(** [rep stosb]: al to rcx bytes from rdi on. *)
Definition rep_stosb : M machine unit :=
  r ← gets m_regs;
  on_kernel (on_mem (fun m => b_memset m (rdi r) (rax r) (rcx r)));;
  set_reg (fun r => r <| rdi := u64 (rdi r + rcx r) |> <| rcx := 0 |>).

Lemma rep_stosb_spec r k : rep_stosb (Machine r k) =
  Ret tt (Machine (r <| rdi := u64 (rdi r + rcx r) |> <| rcx := 0 |>)
    (set_mem (b_memset (mem_of k) (rdi r) (rax r) (rcx r)) k)).
Proof. reflexivity. Qed.

(** The boot loader leaves the address of the boot information in rcx; [info] reads
    it there. *)
Definition start (scratch : regs -> regs) (img : image) (env : nat -> kernel -> kernel) (fuel : nat)
    (info : Z -> barium_boot_info_t) (bss_start bss_end stack_top : Z) : M machine unit :=
  set_reg (fun r => r <| r8 := rcx r |>);;
  set_reg (fun r => r <| rdi := bss_start |>);;
  set_reg (fun r => r <| rcx := bss_end |>);;
  set_reg (fun r => r <| rcx := u64 (rcx r - rdi r) |>);;
  set_reg (fun r => r <| rax := rax r - rax r mod 256 |>);;
  rep_stosb;;
  set_reg (fun r => r <| rsp := stack_top |>);;
  set_reg (fun r => r <| rdi := r8 r |>);;
  set_reg (fun r => r <| rsp := u64 (rsp r - 32) |>);;
  call_void scratch (fun r => kmain img env fuel (info (rdi r)));;
  hang.

Ltac regs_nf := cbv beta iota delta [over m_regs m_kernel rax rbx rcx rdx rbp rsi rdi r8 r9 r10 r11 r12 r13 r14 r15 rsp rip].
Ltac step_regs := rewrite bind_modify; regs_nf.

(** kmain gets the boot information, with the zeroed data and the stack of the
    image. *)
Lemma start_spec scratch img env fuel info bss_start bss_end stack_top r k :
  0 <= bss_start <= bss_end -> bss_end < 2 ^ 64 ->
  exists r', rsp r' = u64 (stack_top - 32) /\ rdi r' = rcx r /\
    start scratch img env fuel info bss_start bss_end stack_top (Machine r k) =
    (call_void scratch (fun r => kmain img env fuel (info (rdi r)));; hang)
      (Machine r' (set_mem (b_memset (mem_of k) bss_start 0 (bss_end - bss_start)) k)).
Proof.
  intros H1 H2. destruct r as [x1 x2 x3 x4 x5 x6 x7 x8 x9 x10 x11 x12 x13 x14 x15 x16 x17].
  assert (E : forall m, b_memset m bss_start (x1 - x1 mod 256) (u64 (bss_end - bss_start)) =
    b_memset m bss_start 0 (bss_end - bss_start)).
  { intros m. rewrite u64_small by lia. apply b_memset_byte. unfold u8. by rewrite Zminus_mod_idemp_r, Z.sub_diag. }
  unfold start. generalize (call_void scratch (fun r => kmain img env fuel (info (rdi r)))). intros call.
  unfold set_reg. do 5 step_regs. rewrite (bind_ret _ _ _ _ _ (rep_stosb_spec _ _)). regs_nf. rewrite E. do 3 step_regs.
  eexists. split; [| split; [| reflexivity]]; reflexivity.
Qed.

(** ** A boot from power-on to the shell *)

(** Firmware tables at 0x1000 (two usable processors), a memory map of three
    regions at 0x3000, a framebuffer of 64 by 48 pixels at 0x3000000 and devices
    that count; the other processors answer at once. *)
Definition put_desc (m : mem) (p : Z) (d : b_efi_mem_desc) : mem :=
  st64 (st64 (st32 m p (d_type d)) (p + 8) (d_physical_start d)) (p + 24) (d_number_of_pages d).

Definition boot_mem : mem :=
  let m := st64 ∅ (0x1000 + 24) 0x2000 in
  let m := st64 (st32 m (0x2000 + 4) 44) (0x2000 + 36) 0x4000 in
  let m := put_bytes m 0x4000 (chars "APIC") in
  let m := put_entries (st32 m (0x4000 + 4) 80) (0x4000 + 44) demo_madt in
  let m := put_desc m 0x3000 (MemDesc 2 0x1000 32) in
  let m := put_desc m 0x3030 (MemDesc 2 0x100000 64) in
  put_desc m 0x3060 (MemDesc 7 0x1000000 1320).

Definition boot_info : barium_boot_info_t := BootInfo 0x3000000 16384 64 48 64 0x3000 144 48 0x1000.
Definition boot_image : image :=
  Image 0x100000 0x102000 0x103000 0x104000 0x105000 0x106000 0x106080 (fun _ => 0x107000).
Definition boot_hw : hw_t :=
  (plain_hw boot_mem) <| hw_rflags := 2 |> <| hw_dev_in := fun n _ => Z.of_nat n mod 256 |>.

Definition boot_run : outcome kernel unit := kmain boot_image answering 10 boot_info (initial_kernel boot_hw).

(** The next timer interrupt, with its frame at 0x5000. *)
Definition first_tick (k : kernel) : outcome kernel Z :=
  interrupt_handler 0x5000 (set_mem (st64 (mem_of k) (0x5000 + 120) 0x20) k).

(** The running thread of the processor, by id. *)
Definition running_tid (k : kernel) : option Z := result (sched_get_tid k).

(** What is observed of a run, when it halts and the interrupt returns. *)
Record boot_facts (k : kernel) (rsp : Z) (k' : kernel) : Prop := {
  bf_interrupts : Z.testbit (hw_rflags (hw k)) RFLAGS_IF = true;
  bf_locks : (console_lock (console k), pmm_lock (pmm k), heap_lock (heap k)) = (0, 0, 0);
  bf_running : running_tid k = Some 1;
  bf_shell : result (sched_is_alive 2 k) = Some 1;
  bf_cores : recorded k = [0; 2];
  bf_ipis : ipi_log k = startup 2;
  bf_framebuffer : vmm_get_phys (hw_cr3 (hw k)) 0x3000000 (mem_of k) = 0x3000000;
  bf_heap : vmm_get_phys (hw_cr3 (hw k)) (heap_start (heap k)) (mem_of k) = heap_start (heap k);
  bf_switched : running_tid k' = Some 2;
  bf_rip : ctx_rip (mem_of k') rsp = sym_entry boot_image "shell_run";
  bf_cs : ctx_cs (mem_of k') rsp = 0x08;
  bf_rflags : ld64 (mem_of k') (rsp + 152) = 0x202
}.

#[export] Instance boot_facts_dec k rsp k' : Decision (boot_facts k rsp k').
Proof.
  destruct (decide (
    Z.testbit (hw_rflags (hw k)) RFLAGS_IF = true /\
    (console_lock (console k), pmm_lock (pmm k), heap_lock (heap k)) = (0, 0, 0) /\
    running_tid k = Some 1 /\ result (sched_is_alive 2 k) = Some 1 /\
    recorded k = [0; 2] /\ ipi_log k = startup 2 /\
    vmm_get_phys (hw_cr3 (hw k)) 0x3000000 (mem_of k) = 0x3000000 /\
    vmm_get_phys (hw_cr3 (hw k)) (heap_start (heap k)) (mem_of k) = heap_start (heap k) /\
    running_tid k' = Some 2 /\ ctx_rip (mem_of k') rsp = sym_entry boot_image "shell_run" /\
    ctx_cs (mem_of k') rsp = 0x08 /\ ld64 (mem_of k') (rsp + 152) = 0x202)) as [H | H].
  - left. destruct_and! H. by constructor.
  - right. intros []. by apply H.
Defined.

(** The shell's self-tests that need no other thread, one after the other, with
    interrupts that advance the clock while a test waits. *)
Definition clock (n : nat) (k : kernel) : kernel := k <| apic ::= fun a => a <| global_ticks ::= Z.succ |> |>.
Definition self_tests : M kernel (list bool) :=
  t1 ← gdttest;
  t2 ← tsstest;
  t3 ← pmmtest;
  t4 ← idttest 0x5000;
  t5 ← vmmtest true 5 0x5000;
  t6 ← heaptest;
  t7 ← timertest clock 100;
  mret (t1 ++ t2 ++ t3 ++ t4 ++ t5 ++ t6 ++ t7).

Definition boot_check (o : outcome kernel unit) : bool :=
  match o with
  | Hang k =>
      match first_tick k with
      | Ret rsp k' => bool_decide (boot_facts k rsp k') && bool_decide (result (self_tests k') = Some (replicate 13 true))
      | _ => false
      end
  | _ => false
  end.

Lemma boot_check_sound o : boot_check o = true ->
  exists k rsp k', o = Hang k /\ first_tick k = Ret rsp k' /\ boot_facts k rsp k' /\
    result (self_tests k') = Some (replicate 13 true).
Proof.
  destruct o as [| k | |]; simpl; try done. destruct (first_tick k) as [rsp k' | | |] eqn:E; try done.
  intros [H1 H2]%andb_true_iff. exists k, rsp, k'. split; [done |]. split; [done |].
  apply bool_decide_eq_true in H1, H2. by split.
Qed.

Lemma boot_check_true : boot_check boot_run = true.
Proof. by vm_compute. Qed.

(** The whole kernel started on a concrete machine: kmain runs through all
    components and halts with interrupts on and the locks free, the idle thread
    (id 1) running, the shell thread (id 2) alive, both usable processors
    recorded and the other one sent the start-up sequence, the framebuffer and
    the heap mapped onto themselves; the next timer interrupt switches to the
    shell, whose saved context enters shell_run in ring 0 with interrupts on.
    From that state the shell's self-tests of the descriptor tables, the task
    segment, the page allocator, the interrupt table, the page tables (with the
    write to a read-only page that the page fault handler repairs), the heap and
    the timer run to their ends, one after the other, and every check they make
    succeeds. *)
Theorem kmain_boots :
  exists k rsp k', boot_run = Hang k /\ first_tick k = Ret rsp k' /\ boot_facts k rsp k' /\
    result (self_tests k') = Some (replicate 13 true).
Proof. exact (boot_check_sound boot_run boot_check_true). Qed.
